(** * Agent-visualization server: registry, matching, message log, auto-reset

    A shallow embedding of the TypeScript server (src/types.ts, src/utils.ts,
    src/matching.ts, src/state.ts, src/routes/event.ts, src/routes/complete.ts
    and the /reset and /heartbeat routes) together with the properties that
    its specification states about it.

    Conventions of the embedding.
    - A JS string is a Rocq [string]; its characters stand for UTF-16 code
      units below 256, and [toLowerCase], [\s], [\w] are given on that range.
    - A JS number that holds a count or a duration is a [Z] (or an [N] for
      the message counter); a time stamp is the [Z] of its epoch milliseconds:
      [new Date().toISOString()] followed by [new Date(s).getTime()] is the
      identity on epoch milliseconds.
    - [null] and [undefined] are both [None]; the code tests them with
      [== null], [typeof] and truthiness only.
    - The [agents] Map is an association list in insertion order, the order
      in which [agents.values()] and [agents.entries()] iterate.
    - Module-level variables of state.ts are the fields of one [State]
      record, threaded by a state monad; every [Date.now()] and [new Date()]
      reads the next value of a clock oracle.
    - Writes to SQLite and to the SSE clients do not touch the in-memory
      state and are left out; the places where they occur are marked. *)

From Stdlib Require Import ZArith NArith Lia Ascii String List Bool.
From stdpp Require Import base tactics option list sorting strings pretty.

Local Open Scope string_scope.
Local Open Scope Z_scope.

(** ** Characters and strings *)

Module Js.

Definition code (c : ascii) : N := N_of_ascii c.

Definition in_range (lo hi : N) (c : ascii) : bool :=
  ((lo <=? code c) && (code c <=? hi))%N.

Definition is_digit (c : ascii) : bool := in_range 48 57 c.
Definition is_upper (c : ascii) : bool := in_range 65 90 c.
Definition is_lower (c : ascii) : bool := in_range 97 122 c.

(** [\w] is [A-Za-z0-9_]. *)
Definition is_word (c : ascii) : bool :=
  is_digit c || is_upper c || is_lower c || (code c =? 95)%N.

(** [\s] below 256: TAB, LF, VT, FF, CR, space and the no-break space. *)
Definition is_space (c : ascii) : bool :=
  in_range 9 13 c || (code c =? 32)%N || (code c =? 160)%N.

(** [String.prototype.toLowerCase] on one code unit below 256. *)
Definition lower_char (c : ascii) : ascii :=
  if is_upper c || (in_range 192 222 c && negb (code c =? 215)%N)
  then ascii_of_N (code c + 32) else c.

(** Canonicalisation used by the [i] flag (upper-casing of one code unit). *)
Definition canon_char (c : ascii) : ascii :=
  if is_lower c || (in_range 224 254 c && negb (code c =? 247)%N)
  then ascii_of_N (code c - 32) else c.

Fixpoint smap (f : ascii -> ascii) (s : string) : string :=
  match s with
  | EmptyString => EmptyString
  | String c s' => String (f c) (smap f s')
  end.

Definition toLowerCase (s : string) : string := smap lower_char s.

(** [s.slice(0, n)]. *)
Definition slice0 (n : nat) (s : string) : string := substring 0 n s.

(** A string is truthy when it is not empty. *)
Definition nonempty (s : string) : bool :=
  match s with EmptyString => false | String _ _ => true end.

(** [a || b] on strings. *)
Definition or_str (a b : string) : string := if nonempty a then a else b.

Definition head_char (s : string) : option ascii :=
  match s with EmptyString => None | String c _ => Some c end.

(** [parseInt(d, 10)] on a string of decimal digits. *)
Fixpoint parseInt_go (acc : Z) (s : string) : Z :=
  match s with
  | EmptyString => acc
  | String c s' =>
      if is_digit c then parseInt_go (10 * acc + Z.of_N (code c - 48)) s' else acc
  end.

Definition parseInt (s : string) : Z := parseInt_go 0 s.

End Js.

(** ** Regular expressions

    The fragment of JS regular expressions that the server's literals use,
    with a backtracking matcher in continuation-passing style. [prev] is the
    character before the current position, needed by [\b]. *)

Module Re.

Inductive regex : Type :=
| Eps
| Class (p : ascii -> bool)              (* one character of a class *)
| WordB                                  (* \b *)
| Seq (r1 r2 : regex)
| Alt (r1 r2 : regex)
| Star (greedy : bool) (p : ascii -> bool) (* class* and class*? *)
| Group (r : regex).                     (* ( ... ) *)

Definition Cont : Type := option ascii -> string -> list string -> option (list string).

Definition is_word_opt (o : option ascii) : bool :=
  match o with Some c => Js.is_word c | None => false end.

Fixpoint star_match (greedy : bool) (p : ascii -> bool) (prev : option ascii)
    (s : string) (caps : list string) (k : Cont) {struct s} : option (list string) :=
  match s with
  | EmptyString => k prev s caps
  | String c s' =>
      if p c then
        if greedy then
          match star_match greedy p (Some c) s' caps k with
          | Some r => Some r
          | None => k prev s caps
          end
        else
          match k prev s caps with
          | Some r => Some r
          | None => star_match greedy p (Some c) s' caps k
          end
      else k prev s caps
  end.

Fixpoint rmatch (r : regex) (prev : option ascii) (s : string)
    (caps : list string) (k : Cont) {struct r} : option (list string) :=
  match r with
  | Eps => k prev s caps
  | Class p =>
      match s with
      | String c s' => if p c then k (Some c) s' caps else None
      | EmptyString => None
      end
  | WordB =>
      if xorb (is_word_opt prev) (is_word_opt (Js.head_char s))
      then k prev s caps else None
  | Seq r1 r2 =>
      rmatch r1 prev s caps (fun prev' s' caps' => rmatch r2 prev' s' caps' k)
  | Alt r1 r2 =>
      match rmatch r1 prev s caps k with
      | Some x => Some x
      | None => rmatch r2 prev s caps k
      end
  | Star g p => star_match g p prev s caps k
  | Group r0 =>
      rmatch r0 prev s caps (fun prev' s' caps' =>
        k prev' s' (caps' ++ [substring 0 (String.length s - String.length s') s])%list)
  end.

(** The left-most match: the captured groups of the first start position
    at which the expression matches. *)
Fixpoint exec_from (r : regex) (prev : option ascii) (s : string) : option (list string) :=
  match rmatch r prev s []%list (fun _ _ caps => Some caps) with
  | Some caps => Some caps
  | None =>
      match s with
      | String c s' => exec_from r (Some c) s'
      | EmptyString => None
      end
  end.

(** [s.match(r)] without the [g] flag: the groups [m[1]], [m[2]], ... *)
Definition exec (r : regex) (s : string) : option (list string) := exec_from r None s.

(** [r.test(s)]. *)
Definition test (r : regex) (s : string) : bool :=
  match exec r s with Some _ => true | None => false end.

(** First group of a match, [m[1]]. *)
Definition group1 (m : option (list string)) : option string :=
  match m with Some (g :: _) => Some g | _ => None end.

Definition chr (c : ascii) : regex := Class (Ascii.eqb c).
Definition chr_i (c : ascii) : regex :=
  Class (fun d => Ascii.eqb (Js.canon_char c) (Js.canon_char d)).

Fixpoint lit (s : string) : regex :=
  match s with
  | EmptyString => Eps
  | String c s' => Seq (chr c) (lit s')
  end.

Fixpoint lit_i (s : string) : regex :=
  match s with
  | EmptyString => Eps
  | String c s' => Seq (chr_i c) (lit_i s')
  end.

Definition plus (p : ascii -> bool) : regex := Seq (Class p) (Star true p).

Definition any_char (c : ascii) : bool := true.
Definition not_space (c : ascii) : bool := negb (Js.is_space c).

End Re.

(** ** Data model (src/types.ts) *)

Inductive Status : Type := running | completed | errored.

Definition Status_eqb (a b : Status) : bool :=
  match a, b with
  | running, running | completed, completed | errored, errored => true
  | _, _ => false
  end.

Definition is_running (s : Status) : bool := Status_eqb s running.

Record AgentUsage : Type := mkUsage {
  u_total_tokens : Z;
  u_tool_uses : Z;
  u_duration_ms : Z;
}.

Record AgentRecord : Type := mkAgent {
  id : string;
  session_id : string;
  description : string;
  prompt : string;
  subagent_type : string;
  background : bool;
  status : Status;
  started_at : Z;
  last_activity : Z;
  ended_at : option Z;
  duration_ms : option Z;
  error : option string;
  output_preview : option string;
  output_file : option string;
  parent_id : string;
  usage : option AgentUsage;
  agentId : option string;
}.

(** In-place assignments [record.f = v]. *)
Definition set_id (v : string) (r : AgentRecord) : AgentRecord :=
  mkAgent v (session_id r) (description r) (prompt r) (subagent_type r) (background r)
    (status r) (started_at r) (last_activity r) (ended_at r) (duration_ms r) (error r)
    (output_preview r) (output_file r) (parent_id r) (usage r) (agentId r).
Definition set_status (v : Status) (r : AgentRecord) : AgentRecord :=
  mkAgent (id r) (session_id r) (description r) (prompt r) (subagent_type r) (background r)
    v (started_at r) (last_activity r) (ended_at r) (duration_ms r) (error r)
    (output_preview r) (output_file r) (parent_id r) (usage r) (agentId r).
Definition set_last_activity (v : Z) (r : AgentRecord) : AgentRecord :=
  mkAgent (id r) (session_id r) (description r) (prompt r) (subagent_type r) (background r)
    (status r) (started_at r) v (ended_at r) (duration_ms r) (error r)
    (output_preview r) (output_file r) (parent_id r) (usage r) (agentId r).
Definition set_ended_at (v : option Z) (r : AgentRecord) : AgentRecord :=
  mkAgent (id r) (session_id r) (description r) (prompt r) (subagent_type r) (background r)
    (status r) (started_at r) (last_activity r) v (duration_ms r) (error r)
    (output_preview r) (output_file r) (parent_id r) (usage r) (agentId r).
Definition set_duration_ms (v : option Z) (r : AgentRecord) : AgentRecord :=
  mkAgent (id r) (session_id r) (description r) (prompt r) (subagent_type r) (background r)
    (status r) (started_at r) (last_activity r) (ended_at r) v (error r)
    (output_preview r) (output_file r) (parent_id r) (usage r) (agentId r).
Definition set_error (v : option string) (r : AgentRecord) : AgentRecord :=
  mkAgent (id r) (session_id r) (description r) (prompt r) (subagent_type r) (background r)
    (status r) (started_at r) (last_activity r) (ended_at r) (duration_ms r) v
    (output_preview r) (output_file r) (parent_id r) (usage r) (agentId r).
Definition set_output_preview (v : option string) (r : AgentRecord) : AgentRecord :=
  mkAgent (id r) (session_id r) (description r) (prompt r) (subagent_type r) (background r)
    (status r) (started_at r) (last_activity r) (ended_at r) (duration_ms r) (error r)
    v (output_file r) (parent_id r) (usage r) (agentId r).
Definition set_output_file (v : option string) (r : AgentRecord) : AgentRecord :=
  mkAgent (id r) (session_id r) (description r) (prompt r) (subagent_type r) (background r)
    (status r) (started_at r) (last_activity r) (ended_at r) (duration_ms r) (error r)
    (output_preview r) v (parent_id r) (usage r) (agentId r).
Definition set_usage (v : option AgentUsage) (r : AgentRecord) : AgentRecord :=
  mkAgent (id r) (session_id r) (description r) (prompt r) (subagent_type r) (background r)
    (status r) (started_at r) (last_activity r) (ended_at r) (duration_ms r) (error r)
    (output_preview r) (output_file r) (parent_id r) v (agentId r).
Definition set_agentId (v : option string) (r : AgentRecord) : AgentRecord :=
  mkAgent (id r) (session_id r) (description r) (prompt r) (subagent_type r) (background r)
    (status r) (started_at r) (last_activity r) (ended_at r) (duration_ms r) (error r)
    (output_preview r) (output_file r) (parent_id r) (usage r) v.

Record Message : Type := mkMessage {
  m_id : string;
  m_from_id : string;
  m_to_id : string;
  m_type : string;
  m_timestamp : Z;
}.

Record SessionUsage : Type := mkSessionUsage {
  total_tokens : Z;
  tool_uses : Z;
  su_duration_ms : Z;
  agent_count : Z;
}.

Definition emptyUsage : SessionUsage := mkSessionUsage 0 0 0 0.

(** The sentinel parent of a top-level agent. *)
Definition USER : string := "__user__".

(** The diagnostic reason written by the restart recovery. *)
Definition RESTARTED : string := "Server restarted while agent was running".

(** *** Request bodies and their zod schemas *)

Unset Elimination Schemes.
Inductive json : Type :=
| JNull
| JBool (b : bool)
| JNum (n : Z)
| JStr (s : string)
| JArr (l : list json)
| JObj (fields : list (string * json)).
Set Elimination Schemes.

(** Property read [o.k]; a key given twice keeps its last value, as
    [JSON.parse] does. *)
Fixpoint field (k : string) (fields : list (string * json)) : option json :=
  match fields with
  | [] => None
  | (k', v) :: rest =>
      match field k rest with
      | Some v' => Some v'
      | None => if String.eqb k k' then Some v else None
      end
  end.

(** [Boolean(v)]. *)
Definition truthy (v : option json) : bool :=
  match v with
  | None | Some JNull => false
  | Some (JBool b) => b
  | Some (JNum n) => negb (n =? 0)
  | Some (JStr s) => Js.nonempty s
  | Some (JArr _) | Some (JObj _) => true
  end.

(** [(o.k as string) || dflt] for a field that holds a string, or holds
    nothing or a falsy value. The casts of the handlers are unchecked: a
    truthy value of another type (a number, [true], an array, an object)
    would be kept by the handler as it is, which the string fields of the
    records cannot hold; it is read as missing here. For the description
    of an event, [description_is_text] says when this reading is the value
    that the handler computes. *)
Definition str_or (v : option json) (dflt : string) : string :=
  match v with
  | Some (JStr s) => Js.or_str s dflt
  | _ => dflt
  end.

(** [(o.k as string) || null], with the same reading of a truthy value
    that is no string. *)
Definition str_or_null (v : option json) : option string :=
  match v with
  | Some (JStr s) => if Js.nonempty s then Some s else None
  | _ => None
  end.

Inductive Phase : Type := pre | post.

Record HookEvent : Type := mkHookEvent {
  ev_session_id : string;
  hook_phase : Phase;
  tool_name : string;
  tool_use_id : option string;
  tool_input : list (string * json);
  tool_output : option string;
  ev_is_error : option bool;
}.

Record CompleteEvent : Type := mkCompleteEvent {
  c_description : option string;
  c_result : option string;
  c_tokens : option Z;
  c_tool_uses : option Z;
  c_duration_ms : option Z;
  c_is_error : option bool;
  c_agent_id : option string;
  c_tool_use_id : option string;
}.

Module Zod.

(** [z.string().default(d)] *)
Definition string_default (d : string) (v : option json) : option string :=
  match v with
  | None => Some d
  | Some (JStr s) => Some s
  | Some _ => None
  end.

(** [z.string().optional()] *)
Definition string_optional (v : option json) : option (option string) :=
  match v with
  | None => Some None
  | Some (JStr s) => Some (Some s)
  | Some _ => None
  end.

(** [z.number().optional()] *)
Definition number_optional (v : option json) : option (option Z) :=
  match v with
  | None => Some None
  | Some (JNum n) => Some (Some n)
  | Some _ => None
  end.

(** [z.boolean().optional()] *)
Definition boolean_optional (v : option json) : option (option bool) :=
  match v with
  | None => Some None
  | Some (JBool b) => Some (Some b)
  | Some _ => None
  end.

(** [z.enum(['pre', 'post'])] *)
Definition phase_enum (v : option json) : option Phase :=
  match v with
  | Some (JStr s) =>
      if String.eqb s "pre" then Some pre
      else if String.eqb s "post" then Some post else None
  | _ => None
  end.

(** [z.record(z.unknown()).default({})] *)
Definition record_default (v : option json) : option (list (string * json)) :=
  match v with
  | None => Some []
  | Some (JObj f) => Some f
  | Some _ => None
  end.

(** [z.union([z.string(), z.null()]).optional()] *)
Definition string_or_null_optional (v : option json) : option (option string) :=
  match v with
  | None | Some JNull => Some None
  | Some (JStr s) => Some (Some s)
  | Some _ => None
  end.

End Zod.

(** [HookEventSchema.safeParse(body)]: [None] when [success] is false. *)
Definition HookEventSchema (body : json) : option HookEvent :=
  match body with
  | JObj o =>
      sid ← Zod.string_default "" (field "session_id" o);
      ph ← Zod.phase_enum (field "hook_phase" o);
      tn ← Zod.string_default "" (field "tool_name" o);
      tu ← Zod.string_optional (field "tool_use_id" o);
      ti ← Zod.record_default (field "tool_input" o);
      out ← Zod.string_or_null_optional (field "tool_output" o);
      ie ← Zod.boolean_optional (field "is_error" o);
      Some (mkHookEvent sid ph tn tu ti out ie)
  | _ => None
  end.

(** [CompleteEventSchema.safeParse(body)]. *)
Definition CompleteEventSchema (body : json) : option CompleteEvent :=
  match body with
  | JObj o =>
      d ← Zod.string_optional (field "description" o);
      r ← Zod.string_optional (field "result" o);
      tk ← Zod.number_optional (field "tokens" o);
      tu ← Zod.number_optional (field "tool_uses" o);
      du ← Zod.number_optional (field "duration_ms" o);
      ie ← Zod.boolean_optional (field "is_error" o);
      ai ← Zod.string_optional (field "agent_id" o);
      ti ← Zod.string_optional (field "tool_use_id" o);
      Some (mkCompleteEvent d r tk tu du ie ai ti)
  | _ => None
  end.

(** ** src/utils.ts *)

(** The character classes and literals of the server's regular expressions. *)
Definition colon_or_space (c : ascii) : bool := Ascii.eqb c ":" || Js.is_space c.
Definition colon_semi_or_space (c : ascii) : bool :=
  Ascii.eqb c ":" || Ascii.eqb c ";" || Js.is_space c.

(** [/<usage>([\s\S]*?)<\/usage>/] *)
Definition usage_block_re : Re.regex :=
  Re.Seq (Re.lit "<usage>")
    (Re.Seq (Re.Group (Re.Star false Re.any_char)) (Re.lit "</usage>")).

(** [/name[:\s]+(\d+)/] *)
Definition counter_re (name : string) : Re.regex :=
  Re.Seq (Re.lit name) (Re.Seq (Re.plus colon_or_space) (Re.Group (Re.plus Js.is_digit))).

(** [/\berror[:;\s]|\bfailed\b|\bexception\b|\btraceback\b/] *)
Definition error_re : Re.regex :=
  Re.Alt (Re.Seq Re.WordB (Re.Seq (Re.lit "error") (Re.Class colon_semi_or_space)))
 (Re.Alt (Re.Seq Re.WordB (Re.Seq (Re.lit "failed") Re.WordB))
 (Re.Alt (Re.Seq Re.WordB (Re.Seq (Re.lit "exception") Re.WordB))
         (Re.Seq Re.WordB (Re.Seq (Re.lit "traceback") Re.WordB)))).

(** [/Async agent launched/i] *)
Definition async_launch_re : Re.regex := Re.lit_i "Async agent launched".

(** [/output_file:\s*(\S+)/] and [/agentId:\s*(\S+)/] *)
Definition labelled_token_re (label : string) : Re.regex :=
  Re.Seq (Re.lit label) (Re.Seq (Re.Star true Js.is_space) (Re.Group (Re.plus Re.not_space))).

Definition parseUsage (output : option string) : option AgentUsage :=
  match output with
  | None => None
  | Some output =>
      let usageBlock := Re.group1 (Re.exec usage_block_re output) in
      let text := match usageBlock with Some b => b | None => output end in
      let totalMatch := Re.group1 (Re.exec (counter_re "total_tokens") text) in
      let toolMatch := Re.group1 (Re.exec (counter_re "tool_uses") text) in
      let durMatch := Re.group1 (Re.exec (counter_re "duration_ms") text) in
      match totalMatch, toolMatch, durMatch with
      | None, None, None => None
      | _, _, _ =>
          Some (mkUsage
                  (match totalMatch with Some d => Js.parseInt d | None => 0 end)
                  (match toolMatch with Some d => Js.parseInt d | None => 0 end)
                  (match durMatch with Some d => Js.parseInt d | None => 0 end))
      end
  end.

Definition isError (is_error : option bool) (tool_output : option string) : bool :=
  match is_error with
  | Some true => true
  | Some false => false
  | None =>
      match tool_output with
      | Some out =>
          let sample := Js.toLowerCase (Js.slice0 500 out) in
          Re.test error_re sample
      | None => false
      end
  end.

(** ** The [agents] Map: an association list in insertion order *)

Module JsMap.

Definition t : Type := list (string * AgentRecord).

(** [m.get(k)] *)
Fixpoint get (k : string) (m : t) : option AgentRecord :=
  match m with
  | [] => None
  | (k', v) :: m' => if String.eqb k k' then Some v else get k m'
  end.

(** [m.set(k, v)]: an existing key keeps its place, a new key goes last. *)
Fixpoint set (k : string) (v : AgentRecord) (m : t) : t :=
  match m with
  | [] => [(k, v)]
  | (k', v') :: m' => if String.eqb k k' then (k, v) :: m' else (k', v') :: set k v m'
  end.

(** [m.delete(k)] *)
Fixpoint delete (k : string) (m : t) : t :=
  match m with
  | [] => []
  | (k', v') :: m' => if String.eqb k k' then delete k m' else (k', v') :: delete k m'
  end.

(** [m.size] *)
Definition size (m : t) : nat := length m.

End JsMap.

(** A reference to a record that lives in the Map is modelled by its entry:
    the key is the place through which an assignment to the record is
    written back, the second component is the record as it was read. *)
Definition Ref : Type := (string * AgentRecord)%type.

Definition opt_str_eqb (o : option string) (s : string) : bool :=
  match o with Some x => String.eqb x s | None => false end.

(** ** src/matching.ts *)

Definition findMatchingAgent (agents : JsMap.t)
    (toolUseId agentId' : option string) : option Ref :=
  let tier1 :=
    match toolUseId with
    | Some k =>
        if Js.nonempty k then
          match JsMap.get k agents with
          | Some record => if is_running (status record) then Some (k, record) else None
          | None => None
          end
        else None
    | None => None
    end in
  match tier1 with
  | Some e => Some e
  | None =>
      match agentId' with
      | Some a =>
          if Js.nonempty a then
            find (fun e : Ref => is_running (status e.2) && opt_str_eqb (agentId e.2) a) agents
          else None
      | None => None
      end
  end.

(** The test of the fallback loop of [findTaskOutputAgent]. *)
Definition bg_candidate (sessionId : string) (record : AgentRecord) : bool :=
  is_running (status record) && background record
  && String.eqb (session_id record) sessionId.

Definition older_step (sessionId : string) (oldest : option Ref) (e : Ref) : option Ref :=
  if bg_candidate sessionId e.2 then
    match oldest with
    | None => Some e
    | Some o => if started_at e.2 <? started_at o.2 then Some e else oldest
    end
  else oldest.

(** The test of the first loop of [findTaskOutputAgent]. *)
Definition task_candidate (taskId : string) (record : AgentRecord) : bool :=
  is_running (status record) && background record
  && opt_str_eqb (agentId record) taskId.

Definition findTaskOutputAgent (agents : JsMap.t) (taskId sessionId : string) : option Ref :=
  match find (fun e : Ref => task_candidate taskId e.2) agents with
  | Some e => Some e
  | None => fold_left (older_step sessionId) agents None
  end.

(** The three [continue] tests of [findDeepestRunningAgent], negated. *)
Definition deep_candidate (sessionId excludeKey : string) (record : AgentRecord) : bool :=
  negb (String.eqb (id record) excludeKey)
  && String.eqb (session_id record) sessionId
  && is_running (status record).

Definition newer_step (sessionId excludeKey : string) (best : option Ref) (e : Ref) : option Ref :=
  if deep_candidate sessionId excludeKey e.2 then
    match best with
    | None => Some e
    | Some b => if started_at b.2 <? started_at e.2 then Some e else best
    end
  else best.

Definition findDeepestRunningAgent (agents : JsMap.t) (sessionId excludeKey : string)
    : option Ref :=
  fold_left (newer_step sessionId excludeKey) agents None.

(** ** Configuration (config.ts): the settings read by the modelled code *)

Record Config : Type := mkConfig {
  bossActiveMs : Z;
  autoResetMs : Z;
  maxMessages : nat;
}.

(** The defaults of [loadConfig]. *)
Definition defaultConfig : Config := mkConfig 30000 60000 200.

(** ** In-memory state (src/state.ts) *)

Record State : Type := mkState {
  agents : JsMap.t;
  messages : list Message;
  messageCounter : N;
  sessionUsage : SessionUsage;
  lastEventTime : Z;
  lastCompletionTime : Z;
  (** the pending auto-reset timeout, with the delay it was armed with *)
  autoResetTimer : option Z;
  (** number of clock readings taken so far *)
  ticks : nat;
}.

Definition initialState : State := mkState [] [] 0%N emptyUsage 0 0 None 0%nat.

Definition with_agents (v : JsMap.t) (st : State) : State :=
  mkState v (messages st) (messageCounter st) (sessionUsage st) (lastEventTime st)
    (lastCompletionTime st) (autoResetTimer st) (ticks st).
Definition with_messages (v : list Message) (st : State) : State :=
  mkState (agents st) v (messageCounter st) (sessionUsage st) (lastEventTime st)
    (lastCompletionTime st) (autoResetTimer st) (ticks st).
Definition with_messageCounter (v : N) (st : State) : State :=
  mkState (agents st) (messages st) v (sessionUsage st) (lastEventTime st)
    (lastCompletionTime st) (autoResetTimer st) (ticks st).
Definition with_sessionUsage (v : SessionUsage) (st : State) : State :=
  mkState (agents st) (messages st) (messageCounter st) v (lastEventTime st)
    (lastCompletionTime st) (autoResetTimer st) (ticks st).
Definition with_lastEventTime (v : Z) (st : State) : State :=
  mkState (agents st) (messages st) (messageCounter st) (sessionUsage st) v
    (lastCompletionTime st) (autoResetTimer st) (ticks st).
Definition with_lastCompletionTime (v : Z) (st : State) : State :=
  mkState (agents st) (messages st) (messageCounter st) (sessionUsage st) (lastEventTime st)
    v (autoResetTimer st) (ticks st).
Definition with_autoResetTimer (v : option Z) (st : State) : State :=
  mkState (agents st) (messages st) (messageCounter st) (sessionUsage st) (lastEventTime st)
    (lastCompletionTime st) v (ticks st).
Definition with_ticks (v : nat) (st : State) : State :=
  mkState (agents st) (messages st) (messageCounter st) (sessionUsage st) (lastEventTime st)
    (lastCompletionTime st) (autoResetTimer st) v.

(** The state monad of the handlers. *)
Definition M (A : Type) : Type := State -> A * State.

Definition ret {A} (a : A) : M A := fun st => (a, st).
Definition bind {A B} (m : M A) (k : A -> M B) : M B :=
  fun st => let r := m st in k (fst r) (snd r).
Definition gets {A} (f : State -> A) : M A := fun st => (f st, st).
Definition modify (f : State -> State) : M unit := fun st => (tt, f st).
Definition when (b : bool) (m : M unit) : M unit := if b then m else ret tt.

Notation "x <- m ;; k" := (bind m (fun x => k))
  (at level 100, m at next level, right associativity).
Notation "m ;; k" := (bind m (fun _ => k))
  (at level 100, right associativity).

(** Final state and result of a computation. *)
Definition exec {A} (m : M A) (st : State) : State := snd (m st).
Definition eval {A} (m : M A) (st : State) : A := fst (m st).

(** Durable storage as [loadFromDb] reads it: the rows of the agents and
    messages tables and the two entries of the meta table. *)
Record Db : Type := mkDb {
  db_agents : list AgentRecord;
  db_messages : list Message;
  db_messageCounter : option string;
  db_sessionUsage : option SessionUsage;
}.

(** Replies of the routes: [res.json({ ok: true })] and
    [res.status(400).json({ error })]. *)
Inductive Response : Type := Ok200 | BadRequest400.

Definition any_running (m : JsMap.t) : bool :=
  existsb (fun e : Ref => is_running (status e.2)) m.

Definition add_if_nonzero (acc d : Z) : Z := if d =? 0 then acc else acc + d.

(** [x || 0] on an optional number. *)
Definition num_or_zero (o : option Z) : Z := match o with Some n => n | None => 0 end.

(** The assignments of a hook completion, shared by the two completion
    branches of POST /event: [status], [ended_at] and the wall-clock
    [duration_ms] from the reading [ended] of the clock. *)
Definition assignOutcome (is_error : option bool) (tool_output : option string)
    (ended : Z) (record : AgentRecord) : AgentRecord :=
  let err := isError is_error tool_output in
  let record := set_status (if err then errored else completed) record in
  let record := set_ended_at (Some ended) record in
  set_duration_ms (Some (ended - started_at record)) record.

(** [record.error] and [record.output_preview] of a hook completion. *)
Definition assignOutput (is_error : option bool) (tool_output : option string)
    (record : AgentRecord) : AgentRecord :=
  let err := isError is_error tool_output in
  let record := set_error (match tool_output with
                           | Some out => if err then Some (Js.slice0 300 out) else None
                           | None => None
                           end) record in
  set_output_preview (option_map (Js.slice0 2000) tool_output) record.

(** [if (m) record.f = m[1]] for a match of [/label\s*(\S+)/]. *)
Definition captureInto (label : string) (out : string)
    (assign : option string -> AgentRecord -> AgentRecord) (r : AgentRecord) : AgentRecord :=
  match Re.group1 (Re.exec (labelled_token_re label) out) with
  | Some tok => assign (Some tok) r
  | None => r
  end.

(** Usage and duration override of the TaskOutput branch (event.ts, 54-56). *)
Definition assignUsageTaskOutput (usage' : option AgentUsage) (record : AgentRecord)
    : AgentRecord :=
  let record := match usage' with Some u => set_usage (Some u) record | None => record end in
  match usage' with
  | Some u => if u_duration_ms u =? 0 then record
              else set_duration_ms (Some (u_duration_ms u)) record
  | None => record
  end.

(** Usage and duration override of the post block (event.ts, 187-191). *)
Definition assignUsagePost (usage' : option AgentUsage) (record : AgentRecord)
    : AgentRecord :=
  let record := match usage' with Some u => set_usage (Some u) record | None => record end in
  match duration_ms record, usage' with
  | Some d, Some u =>
      if (d <? 1000) && negb (u_duration_ms u =? 0)
      then set_duration_ms (Some (u_duration_ms u)) record else record
  | _, _ => record
  end.

(** The assignments of the background-launch branch of the post block. *)
Definition assignLaunch (tool_output : option string) (record : AgentRecord) : AgentRecord :=
  match tool_output with
  | Some out =>
      captureInto "agentId:" out set_agentId
        (captureInto "output_file:" out set_output_file record)
  | None => record
  end.

(** [if (outputFileMatch) record.output_file = outputFileMatch[1]] *)
Definition assignOutputFile (tool_output : option string) (record : AgentRecord)
    : AgentRecord :=
  match tool_output with
  | Some out => captureInto "output_file:" out set_output_file record
  | None => record
  end.

(** [errored = is_error === true] and the status assignment of POST
    /complete. *)
Definition assignCompleteStatus (is_error : option bool) (record : AgentRecord)
    : AgentRecord :=
  let err := match is_error with Some true => true | _ => false end in
  set_status (if err then errored else completed) record.

(** [output_preview], [error] and [usage] of POST /complete. *)
Definition assignCompleteResult (is_error : option bool) (result : option string)
    (u : AgentUsage) (record : AgentRecord) : AgentRecord :=
  let err := match is_error with Some true => true | _ => false end in
  let record := set_output_preview (option_map (Js.slice0 2000) result) record in
  let record := set_error (match result with
                           | Some res => if err then Some (Js.slice0 300 res) else None
                           | None => None
                           end) record in
  set_usage (Some u) record.

Section Server.

(** [crypto.createHash('sha1').update(s).digest('hex')] *)
Variable sha1_hex : string -> string.
(** The successive readings of the wall clock, in epoch milliseconds. *)
Variable clock : nat -> Z.
(** The loaded configuration. *)
Variable config : Config.

Definition makeKey (session_id description : string) : string :=
  Js.slice0 12 (sha1_hex (session_id ++ ":" ++ description)).

(** [Date.now()], [new Date()] *)
Definition Date_now : M Z :=
  fun st => (clock (ticks st), with_ticks (S (ticks st)) st).

Definition setLastEventTime (t : Z) : M unit := modify (with_lastEventTime t).
Definition setLastCompletionTime (t : Z) : M unit := modify (with_lastCompletionTime t).

(** *** Messages *)

Definition addMessage (from_id to_id type : string) : M unit :=
  modify (fun st => with_messageCounter (messageCounter st + 1)%N st) ;;
  c <- gets messageCounter ;;
  t <- Date_now ;;
  let entry := mkMessage (pretty c) from_id to_id type t in
  modify (fun st => with_messages (messages st ++ [entry]) st) ;;
  len <- gets (fun st => length (messages st)) ;;
  when (maxMessages config <? len)%nat
    (modify (fun st => with_messages (drop (len - maxMessages config) (messages st)) st))
  (* persistMessage(entry); persistMessageCounter() *).

(** *** Notification: syncs the durable mirror and writes
    [{ type: 'state-changed', timestamp: Date.now() }] to the SSE clients. *)
Definition notifyClients : M unit :=
  _ <- Date_now ;; ret tt.

(** *** Reset *)

Definition resetState : M unit :=
  modify (with_agents []) ;;
  modify (with_messages []) ;;
  modify (with_messageCounter 0%N) ;;
  modify (with_sessionUsage emptyUsage) ;;
  modify (with_lastEventTime 0) ;;
  (* clearAllTables() *)
  notifyClients.

(** *** Auto-reset *)

Definition scheduleAutoReset : M unit :=
  modify (with_autoResetTimer None) ;;
  ags <- gets agents ;;
  if any_running ags then ret tt
  else
    when (0 <? JsMap.size ags)%nat
      (modify (with_autoResetTimer (Some (autoResetMs config)))).

(** The callback given to [setTimeout] by [scheduleAutoReset]. *)
Definition autoResetFire : M unit :=
  ags <- gets agents ;;
  if any_running ags then modify (with_autoResetTimer None)
  else
    now <- Date_now ;;
    last <- gets lastEventTime ;;
    let bossStillActive := now - last <? bossActiveMs config in
    if bossStillActive then scheduleAutoReset
    else (resetState ;; modify (with_autoResetTimer None)).

Definition cancelAutoReset : M unit :=
  modify (with_autoResetTimer None).

(** *** Initialisation from durable storage *)

(** The recovery loop of [loadFromDb] over [agents.values()]. *)
Fixpoint markRestarted (l : JsMap.t) : M JsMap.t :=
  match l with
  | [] => ret []
  | (k, agent) :: l' =>
      agent' <- (if is_running (status agent) then
                   t <- Date_now ;;
                   ret (set_ended_at (Some t)
                          (set_error (Some RESTARTED) (set_status errored agent)))
                 else ret agent) ;;
      rest <- markRestarted l' ;;
      ret ((k, agent') :: rest)
  end.

Definition loadFromDb (db : Db) : M unit :=
  modify (fun st =>
    with_agents (fold_left (fun m agent => JsMap.set (id agent) agent m)
                   (db_agents db) (agents st)) st) ;;
  (* markRunningAgentsAsErrored(): the same update on the stored rows, with
     a reading of the clock of its own that only the rows see *)
  ags <- gets agents ;;
  ags' <- markRestarted ags ;;
  modify (with_agents ags') ;;
  modify (fun st => with_messages (messages st ++ db_messages db) st) ;;
  match db_messageCounter db with
  | Some savedCounter =>
      (* [parseInt(savedCounter, 10) || 0] of the decimal numeral that
         [persistMessageCounter] wrote *)
      modify (with_messageCounter (Z.to_N (Js.parseInt savedCounter)))
  | None => ret tt
  end ;;
  match db_sessionUsage db with
  | Some parsed => modify (with_sessionUsage parsed)
  | None => ret tt
  end.

(** *** Usage accumulation shared by the completion paths *)

Definition countCompletion (u : option AgentUsage) : M unit :=
  modify (fun st =>
    let su := sessionUsage st in
    with_sessionUsage
      (mkSessionUsage (total_tokens su) (tool_uses su) (su_duration_ms su)
         (agent_count su + 1)) st) ;;
  match u with
  | Some u =>
      modify (fun st =>
        let su := sessionUsage st in
        with_sessionUsage
          (mkSessionUsage (add_if_nonzero (total_tokens su) (u_total_tokens u))
             (add_if_nonzero (tool_uses su) (u_tool_uses u))
             (add_if_nonzero (su_duration_ms su) (u_duration_ms u))
             (agent_count su)) st)
  | None => ret tt
  end.

(** [record.f = v] for the record held under [k]. *)
Definition writeRecord (k : string) (r : AgentRecord) : M unit :=
  modify (fun st => with_agents (JsMap.set k r (agents st)) st).

(** *** POST /event (src/routes/event.ts) *)

(** The TaskOutput branch. *)
Definition taskOutputPost (ev : HookEvent) : M unit :=
  let taskId := str_or (field "task_id" (tool_input ev)) "" in
  ags <- gets agents ;;
  match findTaskOutputAgent ags taskId (ev_session_id ev) with
  | Some (k, matchedRecord) =>
      if negb (is_running (status matchedRecord)) then ret tt
      else
        t <- Date_now ;;
        let r := set_last_activity t matchedRecord in
        ended <- Date_now ;;
        let r := assignOutcome (ev_is_error ev) (tool_output ev) ended r in
        t' <- Date_now ;;
        setLastCompletionTime t' ;;
        let r := assignOutput (ev_is_error ev) (tool_output ev) r in
        let usage' := parseUsage (tool_output ev) in
        let r := assignUsageTaskOutput usage' r in
        writeRecord k r ;;
        let to_id := Js.or_str (parent_id r) USER in
        addMessage (id r) to_id "Response" ;;
        countCompletion usage' ;;
        (* persistAgent(matchedRecord) *)
        scheduleAutoReset
  | None => ret tt
  end.

(** The [hook_phase === 'pre'] block. *)
Definition prePhase (ev : HookEvent) (description key : string) : M unit :=
  cancelAutoReset ;;
  ags <- gets agents ;;
  let hasRunning := any_running ags in
  now <- Date_now ;;
  lastCompletion <- gets lastCompletionTime ;;
  let timeSinceLastCompletion := now - lastCompletion in
  when (negb hasRunning && (0 <? JsMap.size ags)%nat && (60000 <? timeSinceLastCompletion))
    resetState ;;
  ags <- gets agents ;;
  let parentAgent := findDeepestRunningAgent ags (ev_session_id ev) key in
  let parent_id' := match parentAgent with Some p => id p.2 | None => USER end in
  t1 <- Date_now ;;
  t2 <- Date_now ;;
  let record :=
    mkAgent key (ev_session_id ev) description
      (match field "prompt" (tool_input ev) with
       | Some (JStr p) => Js.slice0 1500 p
       | _ => ""
       end)
      (str_or (field "subagent_type" (tool_input ev)) "unknown")
      (truthy (field "run_in_background" (tool_input ev)))
      running t1 t2 None None None None
      (str_or_null (field "output_file" (tool_input ev)))
      parent_id' None None in
  writeRecord key record ;;
  (* persistAgent(record) *)
  let msgType := if String.eqb parent_id' USER then "Prompt" else "TaskCreate" in
  addMessage parent_id' key msgType.

(** A record that a post event may adopt when its key is unknown. *)
Definition isMatchable (r : AgentRecord) : bool :=
  is_running (status r)
  || (Status_eqb (status r) errored && opt_str_eqb (error r) RESTARTED).

Definition rekey_candidate (sessionId description' : string) (e : Ref) : bool :=
  String.eqb (session_id e.2) sessionId
  && String.eqb (description e.2) description'
  && isMatchable e.2.

(** Resolution of the record of a post event: by key, by re-keying, or by
    synthesis. *)
Definition resolvePost (ev : HookEvent) (description key : string) : M AgentRecord :=
  ags <- gets agents ;;
  match JsMap.get key ags with
  | Some record => ret record
  | None =>
      match find (rekey_candidate (ev_session_id ev) description) ags with
      | Some (existingKey, r) =>
          let record := set_id key r in
          modify (with_agents (JsMap.set key record (JsMap.delete existingKey ags))) ;;
          ret record
      | None =>
          t1 <- Date_now ;;
          t2 <- Date_now ;;
          let record :=
            mkAgent key (ev_session_id ev) description ""
              (str_or (field "subagent_type" (tool_input ev)) "unknown")
              (truthy (field "run_in_background" (tool_input ev)))
              running t1 t2 None None None None None USER None None in
          writeRecord key record ;;
          ret record
      end
  end.

Definition isBgLaunch (bg : bool) (tool_output : option string) : bool :=
  bg && match tool_output with
        | None => true
        | Some out => Re.test async_launch_re out
        end.

(** The [hook_phase === 'post'] block. *)
Definition postPhase (ev : HookEvent) (description key : string) : M unit :=
  record <- resolvePost ev description key ;;
  t <- Date_now ;;
  let record := set_last_activity t record in
  if isBgLaunch (background record) (tool_output ev) then
    let record := assignLaunch (tool_output ev) record in
    writeRecord key record ;;
    (* persistAgent(record) *)
    scheduleAutoReset
  else
    ended <- Date_now ;;
    let record := assignOutcome (ev_is_error ev) (tool_output ev) ended record in
    t' <- Date_now ;;
    setLastCompletionTime t' ;;
    let record := assignOutput (ev_is_error ev) (tool_output ev) record in
    let record := assignOutputFile (tool_output ev) record in
    let usage' := parseUsage (tool_output ev) in
    let record := assignUsagePost usage' record in
    writeRecord key record ;;
    let to_id := Js.or_str (parent_id record) USER in
    addMessage key to_id "Response" ;;
    countCompletion usage' ;;
    (* persistAgent(record) *)
    scheduleAutoReset.

(** [(tool_input.description as string) || tool_name || '']: the
    description that the handler computes, when [tool_input.description] is
    a string, or is absent or falsy ([description_is_text]). *)
Definition eventDescription (ev : HookEvent) : string :=
  str_or (field "description" (tool_input ev)) (Js.or_str (tool_name ev) "").

(** [bodyToolUseId || makeKey(session_id, description)], for the
    description of [eventDescription]. *)
Definition eventKey (ev : HookEvent) : string :=
  let fallback := makeKey (ev_session_id ev) (eventDescription ev) in
  match tool_use_id ev with
  | Some bodyToolUseId => Js.or_str bodyToolUseId fallback
  | None => fallback
  end.

Definition postEvent (body : json) : M Response :=
  match HookEventSchema body with
  | None => ret BadRequest400
  | Some ev =>
      now <- Date_now ;;
      setLastEventTime now ;;
      if negb (String.eqb (tool_name ev) "Task") && negb (String.eqb (tool_name ev) "TaskOutput")
      then notifyClients ;; ret Ok200
      else
        match String.eqb (tool_name ev) "TaskOutput", hook_phase ev with
        | true, post =>
            taskOutputPost ev ;;
            notifyClients ;; ret Ok200
        | _, _ =>
            let description := eventDescription ev in
            let key := eventKey ev in
            match hook_phase ev with
            | pre => prePhase ev description key
            | post => postPhase ev description key
            end ;;
            notifyClients ;; ret Ok200
        end
  end.

(** *** POST /complete (src/routes/complete.ts) *)

Definition postComplete (body : json) : M Response :=
  now <- Date_now ;;
  setLastEventTime now ;;
  match CompleteEventSchema body with
  | None => ret BadRequest400
  | Some ev =>
      ags <- gets agents ;;
      match findMatchingAgent ags (c_tool_use_id ev) (c_agent_id ev) with
      | Some (k, matchedRecord) =>
          let r := assignCompleteStatus (c_is_error ev) matchedRecord in
          t <- Date_now ;;
          let r := set_ended_at (Some t) r in
          d <- (if num_or_zero (c_duration_ms ev) =? 0
                then t' <- Date_now ;; ret (t' - started_at r)
                else ret (num_or_zero (c_duration_ms ev))) ;;
          let r := set_duration_ms (Some d) r in
          let u := mkUsage (num_or_zero (c_tokens ev)) (num_or_zero (c_tool_uses ev))
                     (num_or_zero (c_duration_ms ev)) in
          let r := assignCompleteResult (c_is_error ev) (c_result ev) u r in
          writeRecord k r ;;
          t'' <- Date_now ;;
          setLastCompletionTime t'' ;;
          countCompletion (Some u) ;;
          let to_id := Js.or_str (parent_id r) USER in
          addMessage (id r) to_id "Response" ;;
          (* persistAgent(matchedRecord) *)
          scheduleAutoReset
      | None => ret tt (* console.warn when a description was given *)
      end ;;
      notifyClients ;; ret Ok200
  end.

(** *** POST /reset and POST /heartbeat (src/routes/state.ts) *)

Definition postReset : M Response :=
  resetState ;; ret Ok200.

Definition postHeartbeat : M Response :=
  now <- Date_now ;;
  setLastEventTime now ;;
  notifyClients ;; ret Ok200.

End Server.

(** * Specification vocabulary *)

(** A running background record whose [agentId] is [taskId]. *)
Definition TaskMatch (taskId : string) (r : AgentRecord) : Prop :=
  status r = running /\ background r = true /\ agentId r = Some taskId.

(** A running background record of session [sessionId]. *)
Definition BgInSession (sessionId : string) (r : AgentRecord) : Prop :=
  status r = running /\ background r = true /\ session_id r = sessionId.

(** A running record of session [sessionId] whose id is not [excludeKey]. *)
Definition RunningInSession (sessionId excludeKey : string) (r : AgentRecord) : Prop :=
  status r = running /\ session_id r = sessionId /\ id r <> excludeKey.

(** What a selection loop has computed after scanning [l]: nothing when no
    entry passes [cand], otherwise a passing entry that [le]-precedes every
    passing entry. *)
Definition Selected (cand : AgentRecord -> bool) (le : Z -> Z -> Prop)
    (l : JsMap.t) (res : option Ref) : Prop :=
  match res with
  | None => forall e, In e l -> cand e.2 = false
  | Some o =>
      In o l /\ cand o.2 = true /\
      forall e, In e l -> cand e.2 = true -> le (started_at o.2) (started_at e.2)
  end.

(** The ids of the log are the decimal strings of strictly increasing
    numbers, none above the counter. *)
Definition IdsIncreasing (st : State) : Prop :=
  exists ns : list N,
    m_id <$> messages st = pretty <$> ns /\
    StronglySorted N.lt ns /\
    Forall (fun n => (n <= messageCounter st)%N) ns.

(** The restart recovery applied to one record, at clock reading [t]. *)
Definition restarted_at (t : Z) (agent : AgentRecord) : AgentRecord :=
  set_ended_at (Some t) (set_error (Some RESTARTED) (set_status errored agent)).

(** Some record of the registry is running. *)
Definition AnyRunning (st : State) : Prop :=
  exists e : Ref, In e (agents st) /\ status e.2 = running.

(** The record that the completion branch of the post block leaves behind,
    from the resolved record [r] (after its [last_activity] was touched) and
    the reading [ended] of the clock. *)
Definition post_completed (ev : HookEvent) (ended : Z) (r : AgentRecord) : AgentRecord :=
  assignUsagePost (parseUsage (tool_output ev))
    (assignOutputFile (tool_output ev)
       (assignOutput (ev_is_error ev) (tool_output ev)
          (assignOutcome (ev_is_error ev) (tool_output ev) ended r))).

(** The record that the launch-acknowledgment branch leaves behind. *)
Definition post_launched (ev : HookEvent) (r : AgentRecord) : AgentRecord :=
  assignLaunch (tool_output ev) r.

(** The record that the TaskOutput branch leaves behind. *)
Definition output_completed (ev : HookEvent) (t ended : Z) (r : AgentRecord) : AgentRecord :=
  assignUsageTaskOutput (parseUsage (tool_output ev))
    (assignOutput (ev_is_error ev) (tool_output ev)
       (assignOutcome (ev_is_error ev) (tool_output ev) ended (set_last_activity t r))).

(** The state after the completion branch of the post block, from the state
    [st0] in which the record was resolved. *)
Definition after_post_completed (clock : nat -> Z) (config : Config) (ev : HookEvent) (key : string) (r0 : AgentRecord)
    (st0 : State) : State :=
  let t := clock (ticks st0) in
  let ended := clock (S (ticks st0)) in
  let t' := clock (S (S (ticks st0))) in
  let record := post_completed ev ended (set_last_activity t r0) in
  let st1 := with_agents (JsMap.set key record (agents st0))
               (with_lastCompletionTime t' (with_ticks (S (S (S (ticks st0)))) st0)) in
  let st2 := exec (addMessage clock config key (Js.or_str (parent_id record) USER) "Response")
               st1 in
  let st3 := exec (countCompletion (parseUsage (tool_output ev))) st2 in
  exec (scheduleAutoReset config) st3.

Definition after_post_launched (clock : nat -> Z) (config : Config) (ev : HookEvent) (key : string) (r0 : AgentRecord)
    (st0 : State) : State :=
  let t := clock (ticks st0) in
  let record := post_launched ev (set_last_activity t r0) in
  exec (scheduleAutoReset config)
    (with_agents (JsMap.set key record (agents st0)) (with_ticks (S (ticks st0)) st0)).

(** * Sample requests and runs *)

(** A clock whose readings start at [base] and are [step] milliseconds apart. *)
Definition tick_clock (base step : Z) (n : nat) : Z := base + step * Z.of_nat n.

Definition clock_1ms : nat -> Z := tick_clock 1700000000000 1.
Definition clock_5s : nat -> Z := tick_clock 1700000000000 5000.

(** A stand-in for SHA-1 in the sample runs. *)
Definition toy_digest (s : string) : string := s.

(** The body of a hook event. *)
Definition hook_body (phase tool : string) (tool_use_id : option string)
    (input : list (string * json)) (output : option string) : json :=
  JObj ([("session_id", JStr "s1"); ("hook_phase", JStr phase); ("tool_name", JStr tool)]
        ++ match tool_use_id with Some k => [("tool_use_id", JStr k)] | None => [] end
        ++ [("tool_input", JObj input)]
        ++ match output with Some o => [("tool_output", JStr o)] | None => [] end)%list.

Definition task_d1 : list (string * json) :=
  [("description", JStr "d1"); ("subagent_type", JStr "worker")].

Definition bg_task_d1 : list (string * json) :=
  [("description", JStr "d1"); ("subagent_type", JStr "worker");
   ("run_in_background", JBool true)].

Definition usage_output : string :=
  "Fixed the login bug.
<usage>
total_tokens: 5000
tool_uses: 12
duration_ms: 1234
</usage>".

Definition launch_output : string :=
  "Async agent launched
output_file: /tmp/x
agentId: a1".

(** [m1; m2; ...; mn] run in this order from [st]. *)
Definition run_all (ms : list (M Response)) (st : State) : State :=
  fold_left (fun s m => exec m s) ms st.

(** A pre and its post under the same [tool_use_id]: one completed record. *)
Definition completed_once : State :=
  run_all
    [postEvent toy_digest clock_1ms defaultConfig (hook_body "pre" "Task" (Some "tu_1") task_d1 None);
     postEvent toy_digest clock_1ms defaultConfig
       (hook_body "post" "Task" (Some "tu_1") task_d1 (Some usage_output))]
    initialState.

(** The same post delivered a second time. *)
Definition duplicate_post : json :=
  hook_body "post" "Task" (Some "tu_1") task_d1 (Some usage_output).

(** Two agents with the same session and description, under their own keys. *)
Definition two_alike : State :=
  run_all
    [postEvent toy_digest clock_1ms defaultConfig (hook_body "pre" "Task" (Some "tu_0") task_d1 None);
     postEvent toy_digest clock_1ms defaultConfig (hook_body "pre" "Task" (Some "tu_1") task_d1 None)]
    initialState.

Definition post_other_key : json :=
  hook_body "post" "Task" (Some "tu_2") task_d1 (Some "done").

(** A pre keyed by the hash of session and description. *)
Definition hashed_pre : State :=
  exec (postEvent toy_digest clock_1ms defaultConfig (hook_body "pre" "Task" None task_d1 None))
    initialState.

(** A batch that finished, then POST /reset, then six heartbeats. *)
Definition reset_then_heartbeats : State :=
  run_all
    ([postEvent toy_digest clock_5s defaultConfig (hook_body "pre" "Task" (Some "tu_1") task_d1 None);
      postEvent toy_digest clock_5s defaultConfig
        (hook_body "post" "Task" (Some "tu_1") task_d1 (Some "done"));
      postReset clock_5s]
     ++ repeat (postHeartbeat clock_5s) 6)%list
    initialState.

(** A finished batch with no later activity. *)
Definition finished_batch : State :=
  run_all
    [postEvent toy_digest clock_5s defaultConfig (hook_body "pre" "Task" (Some "tu_1") task_d1 None);
     postEvent toy_digest clock_5s defaultConfig
       (hook_body "post" "Task" (Some "tu_1") task_d1 (Some "done"))]
    initialState.

(** A background agent that was launched and acknowledged. *)
Definition launched_bg : State :=
  run_all
    [postEvent toy_digest clock_5s defaultConfig (hook_body "pre" "Task" (Some "tu_1") bg_task_d1 None);
     postEvent toy_digest clock_5s defaultConfig
       (hook_body "post" "Task" (Some "tu_1") bg_task_d1 (Some launch_output))]
    initialState.

Definition task_output_a1 : json :=
  hook_body "post" "TaskOutput" None [("task_id", JStr "a1")] (Some usage_output).

(** One running agent. *)
Definition one_running : State :=
  exec (postEvent toy_digest clock_1ms defaultConfig (hook_body "pre" "Task" (Some "tu_1") task_d1 None))
    initialState.

(** A completion signal without [is_error] whose result says "failed". *)
Definition complete_failed_text : json :=
  JObj [("tool_use_id", JStr "tu_1"); ("result", JStr "Operation failed")].

(** A completion signal whose [tokens] is not a number. *)
Definition complete_malformed : json :=
  JObj [("tool_use_id", JStr "tu_1"); ("tokens", JStr "many")].

(** Nothing of the registry, the log or the usage counters was cleared. *)
Definition StateKept (st st' : State) : Prop :=
  agents st' = agents st /\ messages st' = messages st /\
  messageCounter st' = messageCounter st /\ sessionUsage st' = sessionUsage st.

(** The registry, the log and the usage counters are empty. *)
Definition Cleared (st' : State) : Prop :=
  agents st' = [] /\ messages st' = [] /\ sessionUsage st' = emptyUsage.

(** The controller was active within the recency window at the reading of
    the clock that the timer callback takes. *)
Definition BossActive (clock : nat -> Z) (config : Config) (st : State) : Prop :=
  clock (ticks st) - lastEventTime st < bossActiveMs config.

(** The firing of the auto-reset timer as the specification words it: with
    the controller active and no agent running, the timer is armed again. *)
Definition fire_as_stated (clock : nat -> Z) (config : Config) (st : State) : Prop :=
  let st' := exec (autoResetFire clock config) st in
  (AnyRunning st -> StateKept st st') /\
  (~ AnyRunning st -> BossActive clock config st ->
     StateKept st st' /\ autoResetTimer st' = Some (autoResetMs config)) /\
  (~ AnyRunning st -> ~ BossActive clock config st -> Cleared st').

(** The state in which a handler starts its work after it has recorded the
    time of the event. *)
Definition stamped (clock : nat -> Z) (st : State) : State :=
  with_lastEventTime (clock (ticks st)) (with_ticks (S (ticks st)) st).

(** The state after the TaskOutput branch has completed the matched record
    [r] held under [k], from the state [st0] in which it was matched. *)
Definition after_output_completed (clock : nat -> Z) (config : Config) (ev : HookEvent)
    (k : string) (r : AgentRecord) (st0 : State) : State :=
  let t := clock (ticks st0) in
  let ended := clock (S (ticks st0)) in
  let t' := clock (S (S (ticks st0))) in
  let record := output_completed ev t ended r in
  let st1 := with_agents (JsMap.set k record (agents st0))
               (with_lastCompletionTime t' (with_ticks (S (S (S (ticks st0)))) st0)) in
  let st2 := exec (addMessage clock config (id record) (Js.or_str (parent_id record) USER)
                     "Response") st1 in
  let st3 := exec (countCompletion (parseUsage (tool_output ev))) st2 in
  exec (scheduleAutoReset config) st3.

(** The [task_id] that a TaskOutput event names. *)
Definition eventTaskId (ev : HookEvent) : string :=
  str_or (field "task_id" (tool_input ev)) "".

(** The fields that no completion assignment touches. *)
Definition SameIdentity (r r' : AgentRecord) : Prop :=
  id r' = id r /\ started_at r' = started_at r /\ background r' = background r.

(** The fields that only [assignOutcome] and the usage override touch. *)
Definition SameOutcome (r r' : AgentRecord) : Prop :=
  status r' = status r /\ ended_at r' = ended_at r.

(** A record that the re-key scan of the post block accepts for a session
    and a description: still running, or marked errored by the restart
    recovery. *)
Definition Adoptable (sessionId description' : string) (r : AgentRecord) : Prop :=
  session_id r = sessionId /\ description r = description' /\
  (status r = running \/ (status r = errored /\ error r = Some RESTARTED)).

(** The cast [tool_input.description as string] of the handler holds: the
    field is a string, or it is absent or holds a falsy value, for which
    the tool name stands in. Then [eventDescription] is the description
    that the handler computes and [eventKey] is its key. *)
Definition description_is_text (ev : HookEvent) : bool :=
  match field "description" (tool_input ev) with
  | Some (JStr _) => true
  | v => negb (truthy v)
  end.

(** The test [r.session_id === session_id && r.description === description
    && isMatchable] of the re-key scan, for the description that the
    handler computes from the event. The descriptions of the registry are
    strings, and a description of another type is strictly equal to none of
    them. *)
Definition AdoptableBy (ev : HookEvent) (r : AgentRecord) : Prop :=
  description_is_text ev = true /\
  Adoptable (ev_session_id ev) (eventDescription ev) r.

(** The fields that a post event never assigns: session, description,
    prompt, type, background flag, start and parent. *)
Definition SameOrigin (r r' : AgentRecord) : Prop :=
  session_id r' = session_id r /\ description r' = description r /\
  prompt r' = prompt r /\ subagent_type r' = subagent_type r /\
  background r' = background r /\ started_at r' = started_at r /\
  parent_id r' = parent_id r.

(** [(k, r)] is the first adoptable entry of the registry, in insertion
    order. *)
Definition FirstAdoptable (sessionId description' : string) (ags : JsMap.t)
    (k : string) (r : AgentRecord) : Prop :=
  exists before after : JsMap.t,
    ags = (before ++ (k, r) :: after)%list /\
    Adoptable sessionId description' r /\
    forall e : Ref, In e before -> ~ Adoptable sessionId description' e.2.

(** The wall-clock duration, replaced by the usage duration when the
    wall-clock one is below a second and a usage duration was reported. *)
Definition guarded_duration (delta : Z) (u : option AgentUsage) : Z :=
  match u with
  | Some u => if (delta <? 1000) && negb (u_duration_ms u =? 0) then u_duration_ms u else delta
  | None => delta
  end.

(** The wall-clock duration, replaced by the usage duration whenever one
    was reported. *)
Definition preferred_duration (delta : Z) (u : option AgentUsage) : Z :=
  match u with
  | Some u => if u_duration_ms u =? 0 then delta else u_duration_ms u
  | None => delta
  end.

(** The first 500 characters of the text, lower-cased, match the error
    pattern. *)
Definition looks_like_error (text : option string) : bool :=
  match text with
  | Some out => Re.test error_re (Js.toLowerCase (Js.slice0 500 out))
  | None => false
  end.

(** Re-keying as the specification words it: whenever a pre under one key is
    followed by a post of the same session and description under another
    key, the first key is gone and the record sits under the second. *)
Definition rekey_as_stated (sha1_hex : string -> string) (clock : nat -> Z) (config : Config)
    (pre_body post_body : json) (st : State) : Prop :=
  forall ev1 ev2,
    HookEventSchema pre_body = Some ev1 -> tool_name ev1 = "Task" -> hook_phase ev1 = pre ->
    HookEventSchema post_body = Some ev2 -> tool_name ev2 = "Task" -> hook_phase ev2 = post ->
    ev_session_id ev2 = ev_session_id ev1 ->
    eventDescription ev2 = eventDescription ev1 ->
    eventKey sha1_hex ev2 <> eventKey sha1_hex ev1 ->
    let st1 := exec (postEvent sha1_hex clock config pre_body) st in
    let st2 := exec (postEvent sha1_hex clock config post_body) st1 in
    JsMap.get (eventKey sha1_hex ev1) (agents st2) = None /\
    exists r', JsMap.get (eventKey sha1_hex ev2) (agents st2) = Some r' /\
               id r' = eventKey sha1_hex ev2.

(** The duration of a TaskOutput completion as the specification words it:
    the usage duration replaces the wall-clock one only below a second. *)
Definition output_duration_as_stated (sha1_hex : string -> string) (clock : nat -> Z)
    (config : Config) (body : json) (st : State) : Prop :=
  forall ev k r,
    HookEventSchema body = Some ev -> tool_name ev = "TaskOutput" -> hook_phase ev = post ->
    findTaskOutputAgent (agents st) (eventTaskId ev) (ev_session_id ev) = Some (k, r) ->
    exists r' ended,
      JsMap.get k (agents (exec (postEvent sha1_hex clock config body) st)) = Some r' /\
      ended_at r' = Some ended /\
      duration_ms r' =
        Some (guarded_duration (ended - started_at r') (parseUsage (tool_output ev))).

(** The classification of a completion signal without [is_error] as the
    specification words it: errored exactly when the text matches. *)
Definition complete_classification_as_stated (clock : nat -> Z) (config : Config)
    (body : json) (st : State) : Prop :=
  forall cev k r,
    CompleteEventSchema body = Some cev -> c_is_error cev = None ->
    findMatchingAgent (agents st) (c_tool_use_id cev) (c_agent_id cev) = Some (k, r) ->
    exists r',
      JsMap.get k (agents (exec (postComplete clock config body) st)) = Some r' /\
      (status r' = errored <-> looks_like_error (c_result cev) = true).

(** One agent of session [s1] with description [d1], under key [tu_0]. *)
Definition first_alike : State :=
  exec (postEvent toy_digest clock_1ms defaultConfig (hook_body "pre" "Task" (Some "tu_0") task_d1 None))
    initialState.

Definition pre_tu_1 : json := hook_body "pre" "Task" (Some "tu_1") task_d1 None.

Definition post_tu_9 : json := hook_body "post" "Task" (Some "tu_9") task_d1 (Some "done").

(** A pre without [tool_use_id], keyed by the hash of session and
    description. *)
Definition pre_hashed : json := hook_body "pre" "Task" None task_d1 None.

(** A registry that holds a finished record under the key [tu_9]. *)
Definition key_taken : State :=
  run_all
    [postEvent toy_digest clock_1ms defaultConfig (hook_body "pre" "Task" (Some "tu_9") task_d1 None);
     postEvent toy_digest clock_1ms defaultConfig post_tu_9]
    initialState.

Definition post_failed_word : json :=
  hook_body "post" "Task" (Some "tu_1") task_d1 (Some "All 12 tests passed, 0 failed").

(** A record as the fixtures of the tests build it. *)
Definition makeAgent (key sessionId : string) (bg : bool) (st : Status) (started : Z)
    (agentId' : option string) : AgentRecord :=
  mkAgent key sessionId "Test agent" "Do something" "worker" bg st started started
    None None None None None USER None agentId'.

(** Two background agents of one session, one foreground agent, and one
    agent of another session. *)
Definition sample_registry : JsMap.t :=
  [("key1", makeAgent "key1" "session-abc" true running 1704070800000 None);
   ("key2", makeAgent "key2" "session-abc" true running 1704067200000 (Some "task_001"));
   ("key3", makeAgent "key3" "session-abc" false running 1704074400000 None);
   ("key4", makeAgent "key4" "other-session" true running 1704060000000 None);
   ("key5", makeAgent "key5" "session-abc" true completed 1704050000000 None)].

(** Storage that holds one running and one completed agent. *)
Definition sample_db : Db :=
  mkDb [makeAgent "a1" "s1" false running 1700000000000 None;
        makeAgent "a2" "s1" false completed 1700000000500 None]
       [] (Some "7") None.

(** The event that a sample body parses to, and the record that a sample
    state holds under a key. *)
Definition event_of (body : json) : HookEvent :=
  match HookEventSchema body with
  | Some ev => ev
  | None => mkHookEvent "" pre "" None [] None None
  end.

Definition complete_event_of (body : json) : CompleteEvent :=
  match CompleteEventSchema body with
  | Some ev => ev
  | None => mkCompleteEvent None None None None None None None None
  end.

Definition record_at (k : string) (st : State) : AgentRecord :=
  match JsMap.get k (agents st) with
  | Some r => r
  | None => makeAgent k "" false errored 0 None
  end.

(** * Vocabulary of the further properties *)

(** [x] is the first element of [l] that passes [f]. *)
Definition FirstPassing {A} (f : A -> bool) (l : list A) (x : A) : Prop :=
  exists before after : list A,
    l = (before ++ x :: after)%list /\ f x = true /\
    forall y, In y before -> f y = false.

(** Tier 1 of [findMatchingAgent]: a non-empty [tool_use_id] that is the key
    of a running record. *)
Definition Tier1 (ags : JsMap.t) (toolUseId : option string) (k : string)
    (r : AgentRecord) : Prop :=
  toolUseId = Some k /\ k <> "" /\ JsMap.get k ags = Some r /\ status r = running.

(** A running record whose [agentId] is [a]. *)
Definition RunningWithAgentId (a : string) (e : Ref) : bool :=
  is_running (status e.2) && opt_str_eqb (agentId e.2) a.

(** A handler has recorded the time of the request and changed nothing else
    of the registry, the log, the counters and the timing state. *)
Definition OnlyTimeTouched (clock : nat -> Z) (st st' : State) : Prop :=
  agents st' = agents st /\ messages st' = messages st /\
  messageCounter st' = messageCounter st /\ sessionUsage st' = sessionUsage st /\
  lastCompletionTime st' = lastCompletionTime st /\
  autoResetTimer st' = autoResetTimer st /\
  lastEventTime st' = clock (ticks st).

(** The test of the pre block for a new batch: no agent running, a
    non-empty registry, and more than a minute since the last completion. *)
Definition quiet_period (now : Z) (st : State) : bool :=
  negb (any_running (agents st)) && (0 <? JsMap.size (agents st))%nat
  && (60000 <? now - lastCompletionTime st).

(** The id of the parent that the pre block gives to a new record. *)
Definition parent_of (ags : JsMap.t) (sessionId key : string) : string :=
  match findDeepestRunningAgent ags sessionId key with
  | Some p => id p.2
  | None => USER
  end.

(** The record that the pre block creates, started at [t1]. *)
Definition pre_record (ev : HookEvent) (description' key parent : string) (t1 t2 : Z)
    : AgentRecord :=
  mkAgent key (ev_session_id ev) description'
    (match field "prompt" (tool_input ev) with
     | Some (JStr p) => Js.slice0 1500 p
     | _ => ""
     end)
    (str_or (field "subagent_type" (tool_input ev)) "unknown")
    (truthy (field "run_in_background" (tool_input ev)))
    running t1 t2 None None None None
    (str_or_null (field "output_file" (tool_input ev)))
    parent None None.

(** The state in which the pre block creates its record: the timer
    cancelled, the clock read once, and everything reset after a quiet
    period. *)
Definition pre_base (clock : nat -> Z) (st : State) : State :=
  let s1 := with_ticks (S (ticks st)) (with_autoResetTimer None st) in
  if quiet_period (clock (ticks st)) st then exec (resetState clock) s1 else s1.

(** The state after the pre block. *)
Definition after_pre (clock : nat -> Z) (config : Config) (ev : HookEvent)
    (description' key : string) (st : State) : State :=
  let s2 := pre_base clock st in
  let parent := parent_of (agents s2) (ev_session_id ev) key in
  let record := pre_record ev description' key parent
                  (clock (ticks s2)) (clock (S (ticks s2))) in
  let s3 := with_agents (JsMap.set key record (agents s2))
              (with_ticks (S (S (ticks s2))) s2) in
  exec (addMessage clock config parent key
          (if String.eqb parent USER then "Prompt" else "TaskCreate")) s3.

(** The conditions of a new batch at the time [now]. *)
Definition QuietPeriod (now : Z) (st : State) : Prop :=
  ~ AnyRunning st /\ agents st <> [] /\ 60000 < now - lastCompletionTime st.

(** * The rest of the server *)

(** ** Maps with string keys, in insertion order *)

Module StrMap.

Definition t (V : Type) : Type := list (string * V).

(** [m.get(k)] *)
Fixpoint get {V} (k : string) (m : t V) : option V :=
  match m with
  | [] => None
  | (k', v) :: m' => if String.eqb k k' then Some v else get k m'
  end.

(** [m.set(k, v)]: an existing key keeps its place, a new key goes last. *)
Fixpoint set {V} (k : string) (v : V) (m : t V) : t V :=
  match m with
  | [] => [(k, v)]
  | (k', v') :: m' => if String.eqb k k' then (k, v) :: m' else (k', v') :: set k v m'
  end.

(** [m.delete(k)] *)
Fixpoint delete {V} (k : string) (m : t V) : t V :=
  match m with
  | [] => []
  | (k', v') :: m' => if String.eqb k k' then delete k m' else (k', v') :: delete k m'
  end.

(** [m.has(k)] *)
Definition has {V} (k : string) (m : t V) : bool :=
  match get k m with Some _ => true | None => false end.

End StrMap.

(** ** [parseInt(s)] without a radix *)

Module JsNum.

Fixpoint trim_start (s : string) : string :=
  match s with
  | String c s' => if Js.is_space c then trim_start s' else s
  | EmptyString => s
  end.

Definition dec_value (c : ascii) : option Z :=
  if Js.is_digit c then Some (Z.of_N (Js.code c - 48)) else None.

Definition hex_value (c : ascii) : option Z :=
  if Js.is_digit c then Some (Z.of_N (Js.code c - 48))
  else if Js.in_range 97 102 c then Some (Z.of_N (Js.code c - 87))
  else if Js.in_range 65 70 c then Some (Z.of_N (Js.code c - 55))
  else None.

(** The value of the longest prefix of digits; [None] when it is empty. *)
Fixpoint digits (radix : Z) (value : ascii -> option Z) (acc : option Z) (s : string)
    : option Z :=
  match s with
  | String c s' =>
      match value c with
      | Some d =>
          digits radix value
            (Some (radix * match acc with Some n => n | None => 0 end + d)) s'
      | None => acc
      end
  | EmptyString => acc
  end.

(** The numeral after the sign: hexadecimal after the prefix [0x] or [0X],
    decimal otherwise. *)
Definition magnitude (s : string) : option Z :=
  match s with
  | String "0" (String "x" s') | String "0" (String "X" s') => digits 16 hex_value None s'
  | s' => digits 10 dec_value None s'
  end.

(** [parseInt(s)]: leading white space, a sign, the prefix [0x] or [0X] of
    a hexadecimal numeral, and the longest prefix of digits; [None] is NaN. *)
Definition parseInt (s : string) : option Z :=
  let s := trim_start s in
  let signed :=
    match s with
    | String "-" s' => (true, s')
    | String "+" s' => (false, s')
    | _ => (false, s)
    end in
  option_map (fun n => if signed.1 then - n else n) (magnitude signed.2).

End JsNum.

(** ** Further settings of config.ts *)

Record Settings : Type := mkSettings {
  bossModel : string;
  cleanupMs : Z;
  staleAgentMs : Z;
  approvalDecisionCleanupMs : Z;
  pendingApprovalCleanupMs : Z;
}.

(** The defaults of [loadConfig]. *)
Definition defaultSettings : Settings := mkSettings "opus" 1800000 300000 300000 90000.

(** ** Approval state (src/state.ts, src/routes/approval.ts) *)

Record ApprovalRecord : Type := mkApprovalRecord {
  requestId : string;
  toolName : string;
  toolInput : list (string * json);
  sessionId : string;
  createdAt : Z;
}.

Record ApprovalDecision : Type := mkApprovalDecision {
  decision : string;
  decidedAt : Z;
}.

(** What GET /approval/response/:id writes to a response:
    [{ status: 'decided', decision }], [{ status: 'unknown' }] or
    [{ status: 'pending' }]. *)
Inductive PollReply : Type :=
| PollDecided (d : string)
| PollUnknown
| PollPending.

(** The pending timeout of a waiter: the connection of its response, the
    request it waits for, and the delay in milliseconds. *)
Record WaiterTimer : Type := mkWaiterTimer {
  wt_res : nat;
  wt_id : string;
  wt_delay : Z;
}.

(** The approval state of state.ts with the waiters of approval.ts. A
    waiter is named by the connection of its response object. *)
Record Approvals : Type := mkApprovals {
  pendingApprovals : StrMap.t ApprovalRecord;
  approvalDecisions : StrMap.t ApprovalDecision;
  approvalEnabled : bool;
  approvalWaiters : StrMap.t (list nat);
  (** the timeouts of waiters that are pending *)
  waiterTimers : list WaiterTimer;
  (** the replies written to long-poll responses, in order *)
  pollReplies : list (nat * PollReply);
  (** number of calls of [crypto.randomUUID()] *)
  uuidCalls : nat;
  (** number of connections accepted by GET /approval/response/:id *)
  connections : nat;
  (** the ['close'] handlers registered on responses, with the request
      that the waiter waits for *)
  closeHandlers : list (nat * string);
  (** connections whose ['close'] event has been emitted *)
  closedConnections : list nat;
}.

Definition initialApprovals : Approvals := mkApprovals [] [] false [] [] [] 0 0 [] [].

Definition with_pendingApprovals (v : StrMap.t ApprovalRecord) (ap : Approvals) : Approvals :=
  mkApprovals v (approvalDecisions ap) (approvalEnabled ap) (approvalWaiters ap)
    (waiterTimers ap) (pollReplies ap) (uuidCalls ap) (connections ap) (closeHandlers ap)
    (closedConnections ap).
Definition with_approvalDecisions (v : StrMap.t ApprovalDecision) (ap : Approvals) : Approvals :=
  mkApprovals (pendingApprovals ap) v (approvalEnabled ap) (approvalWaiters ap)
    (waiterTimers ap) (pollReplies ap) (uuidCalls ap) (connections ap) (closeHandlers ap)
    (closedConnections ap).
Definition with_approvalEnabled (v : bool) (ap : Approvals) : Approvals :=
  mkApprovals (pendingApprovals ap) (approvalDecisions ap) v (approvalWaiters ap)
    (waiterTimers ap) (pollReplies ap) (uuidCalls ap) (connections ap) (closeHandlers ap)
    (closedConnections ap).
Definition with_approvalWaiters (v : StrMap.t (list nat)) (ap : Approvals) : Approvals :=
  mkApprovals (pendingApprovals ap) (approvalDecisions ap) (approvalEnabled ap) v
    (waiterTimers ap) (pollReplies ap) (uuidCalls ap) (connections ap) (closeHandlers ap)
    (closedConnections ap).
Definition with_waiterTimers (v : list WaiterTimer) (ap : Approvals) : Approvals :=
  mkApprovals (pendingApprovals ap) (approvalDecisions ap) (approvalEnabled ap)
    (approvalWaiters ap) v (pollReplies ap) (uuidCalls ap) (connections ap)
    (closeHandlers ap) (closedConnections ap).
Definition with_pollReplies (v : list (nat * PollReply)) (ap : Approvals) : Approvals :=
  mkApprovals (pendingApprovals ap) (approvalDecisions ap) (approvalEnabled ap)
    (approvalWaiters ap) (waiterTimers ap) v (uuidCalls ap) (connections ap)
    (closeHandlers ap) (closedConnections ap).
Definition with_uuidCalls (v : nat) (ap : Approvals) : Approvals :=
  mkApprovals (pendingApprovals ap) (approvalDecisions ap) (approvalEnabled ap)
    (approvalWaiters ap) (waiterTimers ap) (pollReplies ap) v (connections ap)
    (closeHandlers ap) (closedConnections ap).
Definition with_connections (v : nat) (ap : Approvals) : Approvals :=
  mkApprovals (pendingApprovals ap) (approvalDecisions ap) (approvalEnabled ap)
    (approvalWaiters ap) (waiterTimers ap) (pollReplies ap) (uuidCalls ap) v
    (closeHandlers ap) (closedConnections ap).
Definition with_closeHandlers (v : list (nat * string)) (ap : Approvals) : Approvals :=
  mkApprovals (pendingApprovals ap) (approvalDecisions ap) (approvalEnabled ap)
    (approvalWaiters ap) (waiterTimers ap) (pollReplies ap) (uuidCalls ap)
    (connections ap) v (closedConnections ap).
Definition with_closedConnections (v : list nat) (ap : Approvals) : Approvals :=
  mkApprovals (pendingApprovals ap) (approvalDecisions ap) (approvalEnabled ap)
    (approvalWaiters ap) (waiterTimers ap) (pollReplies ap) (uuidCalls ap) (connections ap)
    (closeHandlers ap) v.

(** [res.headersSent] *)
Definition headersSent (res : nat) (ap : Approvals) : bool :=
  existsb (fun e : nat * PollReply => Nat.eqb e.1 res) (pollReplies ap).

(** [res.json(reply)] *)
Definition sendReply (res : nat) (reply : PollReply) (ap : Approvals) : Approvals :=
  with_pollReplies (pollReplies ap ++ [(res, reply)])%list ap.

(** [clearTimeout(waiter.timer)] *)
Definition clearWaiterTimeout (waiter : nat) (ap : Approvals) : Approvals :=
  with_waiterTimers
    (filter (fun e : WaiterTimer => negb (Nat.eqb (wt_res e) waiter)) (waiterTimers ap)) ap.

(** One turn of the loop of [resolveApprovalWaiters]. *)
Definition resolveWaiter (d : string) (ap : Approvals) (waiter : nat) : Approvals :=
  let ap := clearWaiterTimeout waiter ap in
  if headersSent waiter ap then ap else sendReply waiter (PollDecided d) ap.

Definition resolveApprovalWaiters (id' d : string) (ap : Approvals) : Approvals :=
  match StrMap.get id' (approvalWaiters ap) with
  | Some waiters =>
      let ap := fold_left (resolveWaiter d) waiters ap in
      with_approvalWaiters (StrMap.delete id' (approvalWaiters ap)) ap
  | None => ap
  end.

(** [waiters.indexOf(waiter)] followed by [waiters.splice(idx, 1)]. *)
Fixpoint remove_first (waiter : nat) (waiters : list nat) : list nat :=
  match waiters with
  | [] => []
  | w :: rest => if Nat.eqb w waiter then rest else w :: remove_first waiter rest
  end.

(** [removeWaiter] of the long-poll route. *)
Definition removeWaiter (id' : string) (waiter : nat) (ap : Approvals) : Approvals :=
  match StrMap.get id' (approvalWaiters ap) with
  | Some waiters =>
      let waiters := remove_first waiter waiters in
      if (length waiters =? 0)%nat
      then with_approvalWaiters (StrMap.delete id' (approvalWaiters ap)) ap
      else with_approvalWaiters (StrMap.set id' waiters (approvalWaiters ap)) ap
  | None => ap
  end.

(** [z.string()] *)
Definition zod_string (v : option json) : option string :=
  match v with
  | Some (JStr s) => Some s
  | _ => None
  end.

(** [ApprovalRequestSchema.safeParse(body)] *)
Definition ApprovalRequestSchema (body : json)
    : option (string * list (string * json) * string) :=
  match body with
  | JObj o =>
      tn ← Zod.string_default "unknown" (field "toolName" o);
      ti ← Zod.record_default (field "toolInput" o);
      sid ← Zod.string_default "" (field "sessionId" o);
      Some (tn, ti, sid)
  | _ => None
  end.

(** [ApprovalRespondSchema.safeParse(body)] *)
Definition ApprovalRespondSchema (body : json) : option (string * string) :=
  match body with
  | JObj o =>
      rid ← zod_string (field "requestId" o);
      d ← zod_string (field "decision" o);
      Some (rid, d)
  | _ => None
  end.

(** Replies of POST /approval/request. *)
Inductive RequestReply : Type :=
| AutoApproved
| RequestPending (id' : string)
| RequestInvalid.

(** Replies of POST /approval/respond. *)
Inductive RespondReply : Type :=
| RespondOk
| RespondInvalid
| RespondNotFound.

(** [Math.min(Math.max(parseInt(String(req.query.wait)) || 0, 0), 55)],
    from the string [String(req.query.wait)]. *)
Definition waitSeconds (wait : string) : Z :=
  Z.min (Z.max (match JsNum.parseInt wait with Some n => n | None => 0 end) 0) 55.

(** The diagnostic reason written by the stale check. *)
Definition STALE : string := "Agent appears stale (no activity for 5+ minutes)".

(** [while (l.length > 0 && p(l[0])) l.shift()] *)
Fixpoint shift_while {A} (p : A -> bool) (l : list A) : list A :=
  match l with
  | [] => []
  | x :: l' => if p x then shift_while p l' else l
  end.

(** ** The view built for GET /state (src/state.ts) *)

Record Summary : Type := mkSummary {
  sum_total : nat;
  sum_running : nat;
  sum_completed : nat;
  sum_errored : nat;
}.

Inductive BossStatus : Type := BossRunning | BossDone | BossIdle.

Record TaskInfo : Type := mkTaskInfo {
  task_id : string;
  task_name : string;
  task_status : Status;
  task_subagent_type : string;
}.

Record SessionInfo : Type := mkSessionInfo {
  si_session_id : string;
  si_agent_count : nat;
  si_running : nat;
  si_completed : nat;
  si_errored : nat;
}.

Record AppState : Type := mkAppState {
  app_summary : Summary;
  app_boss : BossStatus * string;
  app_agents : list AgentRecord;
  app_messages : list Message;
  app_tasks : list TaskInfo;
  app_sessions : list SessionInfo;
  app_usage : SessionUsage * bool;
  app_approval : bool * list ApprovalRecord;
}.

(** [l.filter((a) => a.status === s).length] *)
Definition count_status (s : Status) (l : list AgentRecord) : nat :=
  length (filter (fun a => Status_eqb (status a) s) l).

Definition buildTasks (ags : JsMap.t) : list TaskInfo :=
  map (fun e : Ref =>
         mkTaskInfo (id e.2) (description e.2) (status e.2) (subagent_type e.2)) ags.

(** The counters of a session after one more agent of status [s]. *)
Definition bump (s : Status) (i : SessionInfo) : SessionInfo :=
  let i := mkSessionInfo (si_session_id i) (S (si_agent_count i)) (si_running i)
             (si_completed i) (si_errored i) in
  match s with
  | running =>
      mkSessionInfo (si_session_id i) (si_agent_count i) (S (si_running i))
        (si_completed i) (si_errored i)
  | completed =>
      mkSessionInfo (si_session_id i) (si_agent_count i) (si_running i)
        (S (si_completed i)) (si_errored i)
  | errored =>
      mkSessionInfo (si_session_id i) (si_agent_count i) (si_running i)
        (si_completed i) (S (si_errored i))
  end.

(** One turn of the loop of [buildSessions]. *)
Definition session_step (m : StrMap.t SessionInfo) (e : Ref) : StrMap.t SessionInfo :=
  let sid := Js.or_str (session_id e.2) "unknown" in
  let m := if StrMap.has sid m then m
           else StrMap.set sid (mkSessionInfo sid 0 0 0 0) m in
  match StrMap.get sid m with
  | Some s => StrMap.set sid (bump (status e.2) s) m
  | None => m
  end.

Definition buildSessions (ags : JsMap.t) : list SessionInfo :=
  map snd (fold_left session_step ags []).

(** [Array.prototype.sort] with the comparator
    [(a, b) => started(b) - started(a)]: the sort is stable, so the result
    is the arrangement by descending start in which records with the same
    start keep their order. *)
Fixpoint insert_newest (a : AgentRecord) (l : list AgentRecord) : list AgentRecord :=
  match l with
  | [] => [a]
  | b :: l' =>
      if started_at b <=? started_at a then a :: b :: l' else b :: insert_newest a l'
  end.

Definition sort_newest_first (l : list AgentRecord) : list AgentRecord :=
  fold_right insert_newest [] l.

(** ** Rows of the agents table (src/db.ts) *)

Record AgentRow : Type := mkAgentRow {
  row_id : string;
  row_session_id : string;
  row_description : string;
  row_prompt : string;
  row_subagent_type : string;
  row_background : Z;
  row_status : Status;
  row_started_at : Z;
  row_last_activity : Z;
  row_ended_at : option Z;
  row_duration_ms : option Z;
  row_error : option string;
  row_output_preview : option string;
  row_output_file : option string;
  row_parent_id : string;
  row_usage_tokens : option Z;
  row_usage_tool_uses : option Z;
  row_usage_duration_ms : option Z;
  row_agent_id : option string;
}.

Definition agentToRow (a : AgentRecord) : AgentRow :=
  mkAgentRow (id a) (session_id a) (description a) (prompt a) (subagent_type a)
    (if background a then 1 else 0) (status a) (started_at a) (last_activity a)
    (ended_at a) (duration_ms a) (error a) (output_preview a) (output_file a)
    (parent_id a)
    (option_map u_total_tokens (usage a))
    (option_map u_tool_uses (usage a))
    (option_map u_duration_ms (usage a))
    (agentId a).

(** [v != null] *)
Definition not_null {A} (v : option A) : bool :=
  match v with Some _ => true | None => false end.

Definition rowToAgent (row : AgentRow) : AgentRecord :=
  let hasUsage := not_null (row_usage_tokens row) || not_null (row_usage_tool_uses row)
                  || not_null (row_usage_duration_ms row) in
  let agent :=
    mkAgent (row_id row) (row_session_id row) (row_description row) (row_prompt row)
      (row_subagent_type row) (negb (row_background row =? 0)) (row_status row)
      (row_started_at row) (row_last_activity row) (row_ended_at row)
      (row_duration_ms row) (row_error row) (row_output_preview row)
      (row_output_file row) (row_parent_id row)
      (if hasUsage
       then Some (mkUsage (num_or_zero (row_usage_tokens row))
                    (num_or_zero (row_usage_tool_uses row))
                    (num_or_zero (row_usage_duration_ms row)))
       else None)
      None in
  match row_agent_id row with
  | Some a => if Js.nonempty a then set_agentId (Some a) agent else agent
  | None => agent
  end.

(** [loadAllAgents]: the rows of the table, each through [rowToAgent]. *)
Definition loadAllAgents (rows : list AgentRow) : list AgentRecord := map rowToAgent rows.

Section Maintenance.

Variable sha1_hex : string -> string.
Variable clock : nat -> Z.
Variable config : Config.
Variable settings : Settings.
(** The successive results of [crypto.randomUUID()]. *)
Variable randomUUID : nat -> string.

(** *** GET /state *)

Definition buildState (ap : Approvals) : M AppState :=
  ags <- gets agents ;;
  let allAgents := map snd ags in
  let summary := mkSummary (length allAgents) (count_status running allAgents)
                   (count_status completed allAgents) (count_status errored allAgents) in
  let list := take 200 (sort_newest_first allAgents) in
  let hasRunningAgents := (0 <? sum_running summary)%nat in
  now <- Date_now clock ;;
  last <- gets lastEventTime ;;
  let bossActive := now - last <? bossActiveMs config in
  let bossStatus :=
    if hasRunningAgents then BossRunning
    else if bossActive then BossRunning
    else if (0 <? length allAgents)%nat then BossDone
    else BossIdle in
  msgs <- gets messages ;;
  su <- gets sessionUsage ;;
  ret (mkAppState summary (bossStatus, bossModel settings) list msgs
         (buildTasks ags) (buildSessions ags)
         (su, 0 <? total_tokens su)
         (approvalEnabled ap, map snd (pendingApprovals ap))).

(** *** Background cleanup (state.ts, [runCleanup]) *)

(** The loop that marks stale running agents as errored; the result tells
    whether any was marked. *)
Fixpoint markStale (now : Z) (l : JsMap.t) : M (JsMap.t * bool) :=
  match l with
  | [] => ret ([], false)
  | (k, record) :: l' =>
      if is_running (status record) && (staleAgentMs settings <? now - last_activity record)
      then
        t <- Date_now clock ;;
        let record' :=
          set_duration_ms (Some (now - started_at record))
            (set_ended_at (Some t)
               (set_error (Some STALE) (set_status errored record))) in
        (* persistAgent(record) *)
        rest <- markStale now l' ;;
        ret ((k, record') :: rest.1, true)
      else
        rest <- markStale now l' ;;
        ret ((k, record) :: rest.1, rest.2)
  end.

(** A record that the cleanup keeps: running, or ended within [cleanupMs]. *)
Definition kept_by_cleanup (now : Z) (e : Ref) : bool :=
  is_running (status e.2)
  || negb (cleanupMs settings <? now - match ended_at e.2 with Some t => t | None => 0 end).

(** One turn of the loop over the pending approvals. *)
Definition expirePending (now : Z) (ap : Approvals) (e : string * ApprovalRecord)
    : Approvals :=
  if pendingApprovalCleanupMs settings <? now - createdAt e.2 then
    let ap := resolveApprovalWaiters e.1 "allow" ap in
    with_pendingApprovals (StrMap.delete e.1 (pendingApprovals ap)) ap
  else ap.

Definition runCleanup (ap : Approvals) : M Approvals :=
  now <- Date_now clock ;;
  let ap :=
    with_approvalDecisions
      (filter (fun e : string * ApprovalDecision =>
                 negb (approvalDecisionCleanupMs settings <? now - decidedAt e.2))
         (approvalDecisions ap)) ap in
  let ap := fold_left (expirePending now) (pendingApprovals ap) ap in
  ags <- gets agents ;;
  marked <- markStale now ags ;;
  modify (with_agents marked.1) ;;
  when marked.2 (notifyClients clock ;; scheduleAutoReset config) ;;
  (* removeAgentFromDb(key) for each removed record *)
  modify (fun st => with_agents (filter (kept_by_cleanup now) (agents st)) st) ;;
  let cutoff := now - cleanupMs settings in
  modify (fun st =>
    with_messages (shift_while (fun m => m_timestamp m <? cutoff) (messages st)) st) ;;
  ret ap.

(** *** The approval gate (src/routes/approval.ts) *)

(** POST /approval/request *)
Definition approvalRequest (body : json) (ap : Approvals) : M (RequestReply * Approvals) :=
  if negb (approvalEnabled ap) then ret (AutoApproved, ap)
  else
    match ApprovalRequestSchema body with
    | None => ret (RequestInvalid, ap)
    | Some (toolName', toolInput', sessionId') =>
        let requestId' := randomUUID (uuidCalls ap) in
        let ap := with_uuidCalls (S (uuidCalls ap)) ap in
        t <- Date_now clock ;;
        let ap :=
          with_pendingApprovals
            (StrMap.set requestId'
               (mkApprovalRecord requestId' toolName' toolInput' sessionId' t)
               (pendingApprovals ap)) ap in
        notifyClients clock ;;
        ret (RequestPending requestId', ap)
    end.

(** GET /approval/response/:id, for the connection that the server
    accepts next; [wait] is [String(req.query.wait)]. *)
Definition approvalResponse (id' wait : string) (ap : Approvals) : Approvals :=
  let res := connections ap in
  let ap := with_connections (S res) ap in
  match StrMap.get id' (approvalDecisions ap) with
  | Some d => sendReply res (PollDecided (decision d)) ap
  | None =>
      if negb (StrMap.has id' (pendingApprovals ap)) then sendReply res PollUnknown ap
      else
        let waitSec := waitSeconds wait in
        if waitSec =? 0 then sendReply res PollPending ap
        else
          let ap :=
            with_waiterTimers
              (waiterTimers ap ++ [mkWaiterTimer res id' (waitSec * 1000)])%list ap in
          let ap := if StrMap.has id' (approvalWaiters ap) then ap
                    else with_approvalWaiters (StrMap.set id' [] (approvalWaiters ap)) ap in
          let ap :=
            match StrMap.get id' (approvalWaiters ap) with
            | Some waiters =>
                with_approvalWaiters
                  (StrMap.set id' (waiters ++ [res])%list (approvalWaiters ap)) ap
            | None => ap
            end in
          match StrMap.get id' (approvalDecisions ap) with
          | Some lateDecision => resolveApprovalWaiters id' (decision lateDecision) ap
          | None => with_closeHandlers ((res, id') :: closeHandlers ap) ap
          end
  end.

(** The timeout of the waiter of connection [res] for the request [id']. *)
Definition waiterTimeout (id' : string) (res : nat) (ap : Approvals) : Approvals :=
  let ap := clearWaiterTimeout res ap in
  let ap := removeWaiter id' res ap in
  if headersSent res ap then ap else sendReply res PollPending ap.

(** The handler of the ['close'] event of the response of a waiter. *)
Definition waiterClosed (id' : string) (res : nat) (ap : Approvals) : Approvals :=
  let ap := clearWaiterTimeout res ap in
  removeWaiter id' res ap.

(** POST /approval/respond *)
Definition approvalRespond (body : json) (ap : Approvals) : M (RespondReply * Approvals) :=
  match ApprovalRespondSchema body with
  | None => ret (RespondInvalid, ap)
  | Some (requestId', decision') =>
      match StrMap.get requestId' (pendingApprovals ap) with
      | None => ret (RespondNotFound, ap)
      | Some _ =>
          let ap := with_pendingApprovals (StrMap.delete requestId' (pendingApprovals ap)) ap in
          t <- Date_now clock ;;
          let ap :=
            with_approvalDecisions
              (StrMap.set requestId' (mkApprovalDecision decision' t) (approvalDecisions ap))
              ap in
          let ap := resolveApprovalWaiters requestId' decision' ap in
          notifyClients clock ;;
          ret (RespondOk, ap)
      end
  end.

(** The loop of POST /approval/toggle over the pending requests. *)
Fixpoint approveAll (ids : list string) (ap : Approvals) : M Approvals :=
  match ids with
  | [] => ret ap
  | id' :: rest =>
      t <- Date_now clock ;;
      let ap :=
        with_approvalDecisions
          (StrMap.set id' (mkApprovalDecision "allow" t) (approvalDecisions ap)) ap in
      let ap := resolveApprovalWaiters id' "allow" ap in
      approveAll rest ap
  end.

(** POST /approval/toggle; the reply carries the new value of the switch. *)
Definition approvalToggle (ap : Approvals) : M (bool * Approvals) :=
  let newValue := negb (approvalEnabled ap) in
  let ap := with_approvalEnabled newValue ap in
  ap <- (if negb newValue then
           ap <- approveAll (map fst (pendingApprovals ap)) ap ;;
           ret (with_pendingApprovals [] ap)
         else ret ap) ;;
  notifyClients clock ;;
  ret (newValue, ap).

(** *** The server as a whole (src/index.ts) *)

Record World : Type := mkWorld {
  core : State;
  gate : Approvals;
}.

(** The requests that the routes serve and the callbacks of the timers. *)
Inductive Request : Type :=
| PostEvent (body : json)
| PostComplete (body : json)
| PostHeartbeat
| PostReset
| GetState
| AutoResetTimeout
| CleanupInterval
| ApprovalRequest (body : json)
| ApprovalResponse (id' wait : string)
| ApprovalRespond (body : json)
| ApprovalToggle
| WaiterTimeout (res : nat)
| ConnectionClosed (res : nat).

(** The pending timeout of the waiter of a connection. *)
Definition pendingTimer (res : nat) (ap : Approvals) : option WaiterTimer :=
  find (fun e : WaiterTimer => Nat.eqb (wt_res e) res) (waiterTimers ap).

(** The ['close'] event of an accepted connection is emitted once; it runs
    the handler that the long-poll route registered, if any. *)
Definition connectionClosed (res : nat) (ap : Approvals) : Approvals :=
  if (res <? connections ap)%nat && negb (existsb (Nat.eqb res) (closedConnections ap)) then
    let ap := with_closedConnections (res :: closedConnections ap) ap in
    match find (fun e : nat * string => Nat.eqb e.1 res) (closeHandlers ap) with
    | Some h => waiterClosed h.2 res ap
    | None => ap
    end
  else ap.

Definition step (w : World) (req : Request) : World :=
  match req with
  | PostEvent body => mkWorld (exec (postEvent sha1_hex clock config body) (core w)) (gate w)
  | PostComplete body => mkWorld (exec (postComplete clock config body) (core w)) (gate w)
  | PostHeartbeat => mkWorld (exec (postHeartbeat clock) (core w)) (gate w)
  | PostReset => mkWorld (exec (postReset clock) (core w)) (gate w)
  | GetState => mkWorld (exec (buildState (gate w)) (core w)) (gate w)
  | AutoResetTimeout =>
      match autoResetTimer (core w) with
      | Some _ => mkWorld (exec (autoResetFire clock config) (core w)) (gate w)
      | None => w
      end
  | CleanupInterval =>
      mkWorld (exec (runCleanup (gate w)) (core w)) (eval (runCleanup (gate w)) (core w))
  | ApprovalRequest body =>
      mkWorld (exec (approvalRequest body (gate w)) (core w))
        (eval (approvalRequest body (gate w)) (core w)).2
  | ApprovalResponse id' wait => mkWorld (core w) (approvalResponse id' wait (gate w))
  | ApprovalRespond body =>
      mkWorld (exec (approvalRespond body (gate w)) (core w))
        (eval (approvalRespond body (gate w)) (core w)).2
  | ApprovalToggle =>
      mkWorld (exec (approvalToggle (gate w)) (core w))
        (eval (approvalToggle (gate w)) (core w)).2
  | WaiterTimeout res =>
      (* a timer callback runs only while its timeout is pending *)
      match pendingTimer res (gate w) with
      | Some timer => mkWorld (core w) (waiterTimeout (wt_id timer) res (gate w))
      | None => w
      end
  | ConnectionClosed res => mkWorld (core w) (connectionClosed res (gate w))
  end.

(** [initState]: the state loaded from durable storage. *)
Definition boot (db : Db) : World :=
  mkWorld (exec (loadFromDb clock db) initialState) initialApprovals.

Definition run (w : World) (reqs : list Request) : World := fold_left step reqs w.

End Maintenance.

(** ** Vocabulary of the invariants *)

(** The work of POST /event on a valid event, between the recording of
    the time of the event and the notification of the clients. *)
Definition hookBlock (sha1_hex : string -> string) (clock : nat -> Z) (config : Config)
    (ev : HookEvent) : M unit :=
  if negb (String.eqb (tool_name ev) "Task") && negb (String.eqb (tool_name ev) "TaskOutput")
  then ret tt
  else
    match String.eqb (tool_name ev) "TaskOutput", hook_phase ev with
    | true, post => taskOutputPost clock config ev
    | _, _ =>
        match hook_phase ev with
        | pre => prePhase clock config ev (eventDescription ev) (eventKey sha1_hex ev)
        | post => postPhase clock config ev (eventDescription ev) (eventKey sha1_hex ev)
        end
    end.

(** The usage that POST /complete records. *)
Definition complete_usage (cev : CompleteEvent) : AgentUsage :=
  mkUsage (num_or_zero (c_tokens cev)) (num_or_zero (c_tool_uses cev))
    (num_or_zero (c_duration_ms cev)).

(** The record that POST /complete leaves behind, ended at [t] and with
    the duration [d]. *)
Definition complete_record (cev : CompleteEvent) (t d : Z) (r : AgentRecord) : AgentRecord :=
  assignCompleteResult (c_is_error cev) (c_result cev) (complete_usage cev)
    (set_duration_ms (Some d)
       (set_ended_at (Some t) (assignCompleteStatus (c_is_error cev) r))).

(** The duration that POST /complete records: the reported one, or the
    wall-clock time since the start when none or zero is reported. *)
Definition complete_duration (clock : nat -> Z) (cev : CompleteEvent) (r : AgentRecord)
    (st0 : State) : Z :=
  if num_or_zero (c_duration_ms cev) =? 0
  then clock (S (ticks st0)) - started_at r
  else num_or_zero (c_duration_ms cev).

(** The state after POST /complete has completed the matched record [r]
    held under [k], from the state [st0] in which it was matched. *)
Definition after_complete (clock : nat -> Z) (config : Config) (cev : CompleteEvent)
    (k : string) (r : AgentRecord) (st0 : State) : State :=
  let record := complete_record cev (clock (ticks st0)) (complete_duration clock cev r st0) r in
  let n := if num_or_zero (c_duration_ms cev) =? 0 then S (S (ticks st0)) else S (ticks st0) in
  let st1 := with_agents (JsMap.set k record (agents st0))
               (with_lastCompletionTime (clock n) (with_ticks (S n) st0)) in
  let st2 := exec (countCompletion (Some (complete_usage cev))) st1 in
  let st3 := exec (addMessage clock config (id record) (Js.or_str (parent_id record) USER)
                     "Response") st2 in
  exec (scheduleAutoReset config) st3.

(** The countdown to the automatic reset is pending only while no agent
    is running. *)
Definition TimerIdle (st : State) : Prop :=
  autoResetTimer st <> None -> ~ AnyRunning st.

(** Every record is stored under its own id, and no key is held twice. *)
Definition KeyedById (ags : JsMap.t) : Prop :=
  Forall (fun e : Ref => id e.2 = e.1) ags /\ NoDup (map fst ags).

(** The invariant of the registry. *)
Definition RegistryInv (st : State) : Prop :=
  KeyedById (agents st) /\ TimerIdle st.

(** ** Vocabulary of the cleanup *)

(** A running record without activity for more than [staleAgentMs]. *)
Definition is_stale (settings : Settings) (now : Z) (r : AgentRecord) : bool :=
  is_running (status r) && (staleAgentMs settings <? now - last_activity r).

(** The record that the stale check leaves behind, ended at [t]. *)
Definition stale_at (now t : Z) (r : AgentRecord) : AgentRecord :=
  set_duration_ms (Some (now - started_at r))
    (set_ended_at (Some t) (set_error (Some STALE) (set_status errored r))).

(** The approval state after the cleanup at the time [now]. *)
Definition cleanupApprovals (settings : Settings) (now : Z) (ap : Approvals) : Approvals :=
  let ap :=
    with_approvalDecisions
      (filter (fun e : string * ApprovalDecision =>
                 negb (approvalDecisionCleanupMs settings <? now - decidedAt e.2))
         (approvalDecisions ap)) ap in
  fold_left (expirePending settings now) (pendingApprovals ap) ap.

(** A record of the registry that ended more than [cleanupMs] before
    [now]; a record without an end counts as ended at the epoch. *)
Definition Expired (settings : Settings) (now : Z) (r : AgentRecord) : Prop :=
  status r <> running /\
  cleanupMs settings < now - match ended_at r with Some t => t | None => 0 end.

(** ** Vocabulary of the usage counters *)

(** The session counters after one more completion with the usage [u]. *)
Definition counted (u : option AgentUsage) (su : SessionUsage) : SessionUsage :=
  match u with
  | Some u =>
      mkSessionUsage (add_if_nonzero (total_tokens su) (u_total_tokens u))
        (add_if_nonzero (tool_uses su) (u_tool_uses u))
        (add_if_nonzero (su_duration_ms su) (u_duration_ms u))
        (agent_count su + 1)
  | None =>
      mkSessionUsage (total_tokens su) (tool_uses su) (su_duration_ms su)
        (agent_count su + 1)
  end.

(** No counter of [su'] is below its value in [su]. *)
Definition UsageLe (su su' : SessionUsage) : Prop :=
  total_tokens su <= total_tokens su' /\ tool_uses su <= tool_uses su' /\
  su_duration_ms su <= su_duration_ms su' /\ agent_count su <= agent_count su'.

(** Every running record that carries the [agent_id] of a completion
    signal is held under [k]. *)
Definition AgentIdOnlyAt (cev : CompleteEvent) (k : string) (ags : JsMap.t) : Prop :=
  forall a e, c_agent_id cev = Some a -> In e ags ->
    is_running (status e.2) && opt_str_eqb (agentId e.2) a = true -> e.1 = k.

(** ** Vocabulary of the view *)

(** The session under which [buildSessions] counts a record. *)
Definition session_of (r : AgentRecord) : string := Js.or_str (session_id r) "unknown".

(** A record of the session [sid] whose status passes [p]. *)
Definition in_session (sid : string) (p : Status -> bool) (e : Ref) : bool :=
  String.eqb (session_of e.2) sid && p (status e.2).

(** The row of the session [sid] counts the records of [l]. *)
Definition SessionCounts (sid : string) (l : JsMap.t) (i : SessionInfo) : Prop :=
  si_session_id i = sid /\
  si_agent_count i = length (filter (in_session sid (fun _ => true)) l) /\
  si_running i = length (filter (in_session sid is_running) l) /\
  si_completed i = length (filter (in_session sid (fun s => Status_eqb s completed)) l) /\
  si_errored i = length (filter (in_session sid (fun s => Status_eqb s errored)) l).

(** Newest first. *)
Definition newer_or_same (a b : AgentRecord) : Prop := started_at b <= started_at a.

(** The controller counts as active at the clock reading [now]. *)
Definition bossActiveAt (config : Config) (now : Z) (st : State) : Prop :=
  now - lastEventTime st < bossActiveMs config.

(** What the loop of [buildSessions] has built after the records [l]. *)
Definition SessionsBuilt (l : JsMap.t) (m : StrMap.t SessionInfo) : Prop :=
  (forall sid,
     match StrMap.get sid m with
     | Some i => SessionCounts sid l i
     | None => forall e, In e l -> session_of e.2 <> sid
     end) /\
  NoDup (map fst m) /\
  list_sum (map (fun e : string * SessionInfo => si_agent_count e.2) m) = length l.

(** ** Sample data of the further properties *)

(** A hook event of a tool that is no agent. *)
Definition read_event : json := hook_body "post" "Read" None [] None.

Definition pre_tu_2 : json := hook_body "pre" "Task" (Some "tu_2") task_d1 None.

Definition pre_bg_tu_1 : json := hook_body "pre" "Task" (Some "tu_1") bg_task_d1 None.

Definition post_launch_tu_1 : json :=
  hook_body "post" "Task" (Some "tu_1") bg_task_d1 (Some launch_output).

(** A finished batch followed by seven heartbeats: 70 seconds without a
    completion. *)
Definition idle_batch : State :=
  run_all (repeat (postHeartbeat clock_5s) 7) finished_batch.

(** A background agent that has just been started. *)
Definition bg_running : State :=
  exec (postEvent toy_digest clock_5s defaultConfig pre_bg_tu_1) initialState.

(** A clock whose readings are ten minutes apart, and an agent started
    under it. *)
Definition clock_10min : nat -> Z := tick_clock 1700000000000 600000.

Definition forgotten_agent : State :=
  exec (postEvent toy_digest clock_10min defaultConfig pre_tu_1) initialState.

(** A completion signal that reports its usage. *)
Definition complete_tu_1 : json :=
  JObj [("tool_use_id", JStr "tu_1"); ("result", JStr "done"); ("tokens", JNum 4200);
        ("tool_uses", JNum 7)].

(** ** Vocabulary of the approval gate *)

(** The connections that wait for the decision on the request [id']. *)
Definition waitersOf (id' : string) (ap : Approvals) : list nat :=
  match StrMap.get id' (approvalWaiters ap) with
  | Some waiters => waiters
  | None => []
  end.

(** The reply [r] has been written to the connection [res]. *)
Definition Replied (res : nat) (r : PollReply) (ap : Approvals) : Prop :=
  In (res, r) (pollReplies ap).

(** Everything of the approval state but the waiters, their timers and
    the replies is the same. *)
Definition SameRequests (ap ap' : Approvals) : Prop :=
  pendingApprovals ap' = pendingApprovals ap /\
  approvalDecisions ap' = approvalDecisions ap /\
  approvalEnabled ap' = approvalEnabled ap /\
  uuidCalls ap' = uuidCalls ap /\
  connections ap' = connections ap /\
  closeHandlers ap' = closeHandlers ap /\
  closedConnections ap' = closedConnections ap.

(** The connection [res] has a timeout pending. *)
Definition TimerPending (res : nat) (ap : Approvals) : Prop :=
  exists t, In t (waiterTimers ap) /\ wt_res t = res.

(** No long poll is left hanging: every connection that the long-poll
    route accepted has been answered, or was closed by the client, or has
    its timeout pending. *)
Definition NoPollHangs (ap : Approvals) : Prop :=
  forall c, (c < connections ap)%nat ->
    headersSent c ap = true \/ In c (closedConnections ap) \/ TimerPending c ap.

(** The invariant of the approval gate. *)
Record GateInv (ap : Approvals) : Prop := mkGateInv {
  (** no connection is answered twice *)
  answered_once : NoDup (map fst (pollReplies ap));
  replies_known : forall e, In e (pollReplies ap) -> (e.1 < connections ap)%nat;
  (** a registered waiter is an accepted connection without an answer *)
  waiters_open : forall id' w, In w (waitersOf id' ap) ->
    (w < connections ap)%nat /\ headersSent w ap = false;
  (** a connection waits at most once, for one request *)
  waiters_once : forall id', NoDup (waitersOf id' ap);
  waiters_owner : forall id1 id2 w,
    In w (waitersOf id1 ap) -> In w (waitersOf id2 ap) -> id1 = id2;
  (** a pending timeout belongs to the request its connection waits for *)
  timers_known : forall t, In t (waiterTimers ap) ->
    (wt_res t < connections ap)%nat /\
    forall id', In (wt_res t) (waitersOf id' ap) -> id' = wt_id t;
  no_poll_hangs : NoPollHangs ap;
  (** only accepted connections are closed *)
  closed_known : forall c, In c (closedConnections ap) -> (c < connections ap)%nat;
}.

(** ** Sample runs of the approval gate *)

Definition sample_uuid (n : nat) : string := "req-" ++ pretty n.

Definition empty_db : Db := mkDb [] [] None None.

Definition approval_body : json := JObj [("toolName", JStr "Bash")].

Definition respond_body (id' d : string) : json :=
  JObj [("requestId", JStr id'); ("decision", JStr d)].

(** The server of the sample runs. *)
Definition sample_run : World -> list Request -> World :=
  run toy_digest clock_5s defaultConfig defaultSettings sample_uuid.

(** The gate is switched on and a request is pending. *)
Definition pending_world : World :=
  sample_run (boot clock_5s empty_db) [ApprovalToggle; ApprovalRequest approval_body].

(** A long poll waits for the pending request. *)
Definition waiting_world : World :=
  sample_run pending_world [ApprovalResponse "req-0" "30"].

(** ** Vocabulary of the requests of the approval gate *)

(** The requests and the decisions of the gate, and who waits for them;
    [randomUUID] is the source of the request ids. *)
Record LedgerInv (randomUUID : nat -> string) (ap : Approvals) : Prop := mkLedgerInv {
  (** no request is pending twice *)
  pending_once : NoDup (map fst (pendingApprovals ap));
  (** a pending request is stored under its own id *)
  pending_own_id : forall k r, In (k, r) (pendingApprovals ap) -> requestId r = k;
  (** the ids of the requests and of the decisions were issued by the gate *)
  pending_issued : forall k, StrMap.has k (pendingApprovals ap) = true ->
    exists i, (i < uuidCalls ap)%nat /\ k = randomUUID i;
  decided_issued : forall k, StrMap.has k (approvalDecisions ap) = true ->
    exists i, (i < uuidCalls ap)%nat /\ k = randomUUID i;
  (** while the gate is off nothing is pending *)
  off_nothing_pending : approvalEnabled ap = false -> pendingApprovals ap = [];
  (** long polls wait for pending requests only *)
  waiters_pending : forall k w, In w (waitersOf k ap) ->
    StrMap.has k (pendingApprovals ap) = true;
}.

(** No pending request has a decision. *)
Definition Undecided (ap : Approvals) : Prop :=
  forall k, StrMap.has k (pendingApprovals ap) = true ->
            StrMap.get k (approvalDecisions ap) = None.

(** * Properties *)

Lemma Status_eqb_eq a b : Status_eqb a b = true <-> a = b.
Proof. destruct a, b; simpl; split; congruence. Qed.

Example parseUsage_block :
  parseUsage (Some "Some result
<usage>
total_tokens: 5000
tool_uses: 12
duration_ms: 30000
</usage>") = Some (mkUsage 5000 12 30000).
Proof. vm_compute. reflexivity. Qed.

Example parseUsage_partial : parseUsage (Some "total_tokens: 500") = Some (mkUsage 500 0 0).
Proof. vm_compute. reflexivity. Qed.

Example parseUsage_none : parseUsage (Some "just some text") = None.
Proof. vm_compute. reflexivity. Qed.

Example error_pattern_boundaries :
  isError None (Some "errors: 2") = false /\
  isError None (Some "stderr: none") = false /\
  isError None (Some "ERROR; retrying") = true /\
  isError None (Some "3 tests failed-over") = true /\
  isError None (Some "unfailed") = false /\
  isError None (Some "NoSuchElementException") = false.
Proof. vm_compute. repeat split; reflexivity. Qed.

Example launch_acknowledgment :
  isBgLaunch true (Some "async AGENT Launched") = true /\
  isBgLaunch true None = true /\
  isBgLaunch true (Some "done") = false /\
  isBgLaunch false None = false /\
  assignLaunch (Some launch_output) (makeAgent "k" "s" true running 0 None) =
    set_agentId (Some "a1") (set_output_file (Some "/tmp/x") (makeAgent "k" "s" true running 0 None)).
Proof. vm_compute. repeat split; reflexivity. Qed.

Example isError_patterns :
  isError None (Some "Error: connection failed") = true /\
  isError None (Some "Operation failed") = true /\
  isError None (Some "Exception thrown") = true /\
  isError None (Some "Traceback (most recent call last)") = true /\
  isError None (Some "Task completed successfully") = false /\
  isError None (Some "no errors found") = false /\
  isError (Some false) (Some "Error: something") = false /\
  isError (Some true) (Some "success") = true /\
  isError None None = false.
Proof. vm_compute. repeat split; reflexivity. Qed.


(** ** Reflection of the boolean tests *)

Lemma is_running_true s : is_running s = true <-> s = running.
Proof. apply Status_eqb_eq. Qed.

Lemma is_running_false s : is_running s = false <-> s <> running.
Proof. destruct s; simpl; split; congruence. Qed.

Lemma opt_str_eqb_true o s : opt_str_eqb o s = true <-> o = Some s.
Proof.
  destruct o as [x|]; simpl; [|split; congruence].
  rewrite String.eqb_eq. split; congruence.
Qed.

(** ** Matching *)

Lemma task_candidate_true taskId r : task_candidate taskId r = true <-> TaskMatch taskId r.
Proof.
  unfold task_candidate, TaskMatch.
  rewrite !andb_true_iff, is_running_true, opt_str_eqb_true. tauto.
Qed.

Lemma bg_candidate_true sessionId r : bg_candidate sessionId r = true <-> BgInSession sessionId r.
Proof.
  unfold bg_candidate, BgInSession.
  rewrite !andb_true_iff, is_running_true, String.eqb_eq. tauto.
Qed.

Lemma deep_candidate_true sessionId excludeKey r :
  deep_candidate sessionId excludeKey r = true <-> RunningInSession sessionId excludeKey r.
Proof.
  unfold deep_candidate, RunningInSession.
  rewrite !andb_true_iff, negb_true_iff, is_running_true, String.eqb_eq, String.eqb_neq. tauto.
Qed.

Lemma in_snoc {A} (e x : A) (l : list A) : In e (l ++ [x]) <-> In e l \/ e = x.
Proof. rewrite in_app_iff. simpl. intuition congruence. Qed.

Lemma older_step_selected sessionId l acc x :
  Selected (bg_candidate sessionId) Z.le l acc ->
  Selected (bg_candidate sessionId) Z.le (l ++ [x])%list (older_step sessionId acc x).
Proof.
  unfold Selected, older_step. intros IH.
  destruct acc as [o|]; destruct (bg_candidate sessionId x.2) eqn:Hx.
  - destruct IH as (Hin & Ho & Hmin).
    destruct (started_at x.2 <? started_at o.2) eqn:Hlt.
    + apply Z.ltb_lt in Hlt. split; [apply in_snoc; right; reflexivity|].
      split; [assumption|]. intros e He Hc. apply in_snoc in He as [He| ->]; [|lia].
      specialize (Hmin e He Hc). lia.
    + apply Z.ltb_ge in Hlt. split; [apply in_snoc; left; assumption|].
      split; [assumption|]. intros e He Hc. apply in_snoc in He as [He| ->]; [|lia].
      apply Hmin; assumption.
  - destruct IH as (Hin & Ho & Hmin).
    split; [apply in_snoc; left; assumption|]. split; [assumption|].
    intros e He Hc. apply in_snoc in He as [He| ->]; [|congruence].
    apply Hmin; assumption.
  - split; [apply in_snoc; right; reflexivity|]. split; [assumption|].
    intros e He Hc. apply in_snoc in He as [He| ->]; [|lia].
    rewrite (IH e He) in Hc. discriminate.
  - intros e He. apply in_snoc in He as [He| ->]; [apply IH|]; assumption.
Qed.

Lemma older_fold_selected sessionId l :
  Selected (bg_candidate sessionId) Z.le l (fold_left (older_step sessionId) l None).
Proof.
  induction l as [|x l IH] using rev_ind.
  - intros e [].
  - rewrite fold_left_app. apply older_step_selected, IH.
Qed.

Lemma newer_step_selected sessionId excludeKey l acc x :
  Selected (deep_candidate sessionId excludeKey) Z.ge l acc ->
  Selected (deep_candidate sessionId excludeKey) Z.ge (l ++ [x])%list
    (newer_step sessionId excludeKey acc x).
Proof.
  unfold Selected, newer_step. intros IH.
  destruct acc as [b|]; destruct (deep_candidate sessionId excludeKey x.2) eqn:Hx.
  - destruct IH as (Hin & Hb & Hmax).
    destruct (started_at b.2 <? started_at x.2) eqn:Hlt.
    + apply Z.ltb_lt in Hlt. split; [apply in_snoc; right; reflexivity|].
      split; [assumption|]. intros e He Hc. apply in_snoc in He as [He| ->]; [|lia].
      specialize (Hmax e He Hc). lia.
    + apply Z.ltb_ge in Hlt. split; [apply in_snoc; left; assumption|].
      split; [assumption|]. intros e He Hc. apply in_snoc in He as [He| ->]; [|lia].
      apply Hmax; assumption.
  - destruct IH as (Hin & Hb & Hmax).
    split; [apply in_snoc; left; assumption|]. split; [assumption|].
    intros e He Hc. apply in_snoc in He as [He| ->]; [|congruence].
    apply Hmax; assumption.
  - split; [apply in_snoc; right; reflexivity|]. split; [assumption|].
    intros e He Hc. apply in_snoc in He as [He| ->]; [|lia].
    rewrite (IH e He) in Hc. discriminate.
  - intros e He. apply in_snoc in He as [He| ->]; [apply IH|]; assumption.
Qed.

Lemma newer_fold_selected sessionId excludeKey l :
  Selected (deep_candidate sessionId excludeKey) Z.ge l
    (fold_left (newer_step sessionId excludeKey) l None).
Proof.
  induction l as [|x l IH] using rev_ind.
  - intros e [].
  - rewrite fold_left_app. apply newer_step_selected, IH.
Qed.

(** C4. [findTaskOutputAgent] returns a running background record whose
    [agentId] is [taskId] when the registry holds one; otherwise the running
    background record of the session with the smallest [started_at]; and
    nothing when the registry holds neither. *)
Theorem findTaskOutputAgent_spec (ags : JsMap.t) (taskId sessionId : string) :
  ((exists e, In e ags /\ TaskMatch taskId e.2) ->
     exists o, findTaskOutputAgent ags taskId sessionId = Some o /\
               In o ags /\ TaskMatch taskId o.2)
  /\
  ((forall e, In e ags -> ~ TaskMatch taskId e.2) ->
     ((exists e, In e ags /\ BgInSession sessionId e.2) ->
        exists o, findTaskOutputAgent ags taskId sessionId = Some o /\
                  In o ags /\ BgInSession sessionId o.2 /\
                  forall e, In e ags -> BgInSession sessionId e.2 ->
                            started_at o.2 <= started_at e.2)
     /\
     ((forall e, In e ags -> ~ BgInSession sessionId e.2) ->
        findTaskOutputAgent ags taskId sessionId = None)).
Proof.
  unfold findTaskOutputAgent. split.
  - intros (e & He & Hm).
    destruct (find (fun e0 : Ref => task_candidate taskId e0.2) ags) as [o|] eqn:Hf.
    + apply find_some in Hf as [Ho Hc]. exists o. split; [reflexivity|].
      split; [assumption|]. apply task_candidate_true, Hc.
    + apply (find_none _ _ Hf) in He. apply task_candidate_true in Hm. congruence.
  - intros Hno.
    destruct (find (fun e0 : Ref => task_candidate taskId e0.2) ags) as [o|] eqn:Hf.
    { apply find_some in Hf as [Ho Hc]. apply task_candidate_true in Hc.
      exfalso. exact (Hno o Ho Hc). }
    pose proof (older_fold_selected sessionId ags) as Hsel. unfold Selected in Hsel.
    destruct (fold_left (older_step sessionId) ags None) as [o|]; simpl in Hsel; split.
    + intros _. destruct Hsel as (Hin & Hc & Hmin). exists o.
      split; [reflexivity|]. split; [assumption|].
      split; [apply bg_candidate_true, Hc|].
      intros e He Hb. apply Hmin; [assumption|]. apply bg_candidate_true, Hb.
    + intros Hnone. destruct Hsel as (Hin & Hc & _).
      apply bg_candidate_true in Hc. exfalso. exact (Hnone o Hin Hc).
    + intros (e & He & Hb). apply bg_candidate_true in Hb.
      rewrite (Hsel e He) in Hb. discriminate.
    + reflexivity.
Qed.

(** C8. [findDeepestRunningAgent] returns a running record of the session
    whose id is not [excludeKey] and whose [started_at] is the latest among
    such records, and nothing when there is no such record. *)
Theorem findDeepestRunningAgent_spec (ags : JsMap.t) (sessionId excludeKey : string) :
  ((exists e, In e ags /\ RunningInSession sessionId excludeKey e.2) ->
     exists b, findDeepestRunningAgent ags sessionId excludeKey = Some b /\
               In b ags /\ RunningInSession sessionId excludeKey b.2 /\
               forall e, In e ags -> RunningInSession sessionId excludeKey e.2 ->
                         started_at e.2 <= started_at b.2)
  /\
  ((forall e, In e ags -> ~ RunningInSession sessionId excludeKey e.2) ->
     findDeepestRunningAgent ags sessionId excludeKey = None).
Proof.
  unfold findDeepestRunningAgent.
  pose proof (newer_fold_selected sessionId excludeKey ags) as Hsel. unfold Selected in Hsel.
  destruct (fold_left (newer_step sessionId excludeKey) ags None) as [b|];
    simpl in Hsel; split.
  - intros _. destruct Hsel as (Hin & Hc & Hmax). exists b.
    split; [reflexivity|]. split; [assumption|].
    split; [apply deep_candidate_true, Hc|].
    intros e He Hr. apply deep_candidate_true in Hr. specialize (Hmax e He Hr). lia.
  - intros Hnone. destruct Hsel as (Hin & Hc & _).
    apply deep_candidate_true in Hc. exfalso. exact (Hnone b Hin Hc).
  - intros (e & He & Hr). apply deep_candidate_true in Hr.
    rewrite (Hsel e He) in Hr. discriminate.
  - reflexivity.
Qed.

(** ** Message log *)

Section MessageLog.

Variable clock : nat -> Z.
Variable config : Config.

Lemma addMessage_run from_id to_id type st :
  let entry := mkMessage (pretty (messageCounter st + 1)%N) from_id to_id type
                 (clock (ticks st)) in
  let all := (messages st ++ [entry])%list in
  addMessage clock config from_id to_id type st =
    (tt, mkState (agents st) (drop (length all - maxMessages config) all)
           (messageCounter st + 1)%N (sessionUsage st) (lastEventTime st)
           (lastCompletionTime st) (autoResetTimer st) (S (ticks st))).
Proof.
  unfold addMessage, bind, modify, gets, Date_now, when, ret; simpl.
  destruct (maxMessages config <? length (messages st ++ [_]))%nat eqn:Hlt; simpl.
  - reflexivity.
  - apply Nat.ltb_ge in Hlt.
    replace (length (messages st ++ [_]) - maxMessages config)%nat with 0%nat by lia.
    reflexivity.
Qed.

(** C6. After [addMessage] the log is no longer than the cap; it is the old
    log followed by the new entry, with just enough entries dropped from the
    front; the counter has advanced by one whether or not entries were
    dropped, the new id is the decimal string of the new counter value and
    differs from the decimal string of every earlier counter value; and the
    ids of the log stay strictly increasing. *)
Theorem addMessage_bounded_fifo_fresh from_id to_id type st :
  let st' := exec (addMessage clock config from_id to_id type) st in
  let entry := mkMessage (pretty (messageCounter st + 1)%N) from_id to_id type
                 (clock (ticks st)) in
  let all := (messages st ++ [entry])%list in
  (length (messages st') <= maxMessages config)%nat /\
  messages st' = drop (length all - maxMessages config) all /\
  messageCounter st' = (messageCounter st + 1)%N /\
  (forall n : N, (n <= messageCounter st)%N -> pretty n <> m_id entry) /\
  (IdsIncreasing st -> IdsIncreasing st').
Proof.
  intros st' entry all. subst st'. unfold exec.
  rewrite addMessage_run. fold entry. fold all. simpl.
  repeat split.
  - rewrite length_drop. lia.
  - intros n Hn Heq. simpl in Heq. apply (inj pretty) in Heq. lia.
  - intros (ns & Hids & Hsorted & Hle). unfold IdsIncreasing; simpl.
    exists (drop (length all - maxMessages config) (ns ++ [(messageCounter st + 1)%N])).
    split; [|split].
    + rewrite !fmap_drop. f_equal. subst all. rewrite !fmap_app, Hids. reflexivity.
    + assert (Hall : StronglySorted N.lt (ns ++ [(messageCounter st + 1)%N])).
      { apply StronglySorted_app. split; [|split].
        - intros x1 x2 H1 H2. apply list_elem_of_singleton in H2. subst x2.
          rewrite Forall_forall in Hle. specialize (Hle x1 H1). simpl in Hle. lia.
        - assumption.
        - repeat constructor. }
      rewrite <- (take_drop (length all - maxMessages config)) in Hall.
      apply StronglySorted_app in Hall. tauto.
    + apply Forall_drop, Forall_app. split.
      * eapply Forall_impl; [exact Hle|]. simpl. intros; lia.
      * repeat constructor. lia.
Qed.

End MessageLog.

(** ** The Map operations *)

Lemma get_set_same k v m : JsMap.get k (JsMap.set k v m) = Some v.
Proof.
  induction m as [|[k' v'] m IH]; simpl.
  - rewrite String.eqb_refl. reflexivity.
  - destruct (String.eqb k k') eqn:E; simpl; rewrite ?String.eqb_refl, ?E; auto.
Qed.

Lemma get_set_other k k' v m : k <> k' -> JsMap.get k (JsMap.set k' v m) = JsMap.get k m.
Proof.
  intros Hne. induction m as [|[k0 v0] m IH]; simpl.
  - apply String.eqb_neq in Hne. rewrite Hne. reflexivity.
  - destruct (String.eqb k' k0) eqn:E; simpl.
    + apply String.eqb_eq in E. subst k0. apply String.eqb_neq in Hne. rewrite Hne. reflexivity.
    + destruct (String.eqb k k0); auto.
Qed.

Lemma get_delete_same k m : JsMap.get k (JsMap.delete k m) = None.
Proof.
  induction m as [|[k' v'] m IH]; simpl; [reflexivity|].
  destruct (String.eqb k k') eqn:E; simpl; rewrite ?E; auto.
Qed.

Lemma get_delete_other k k' m : k <> k' -> JsMap.get k (JsMap.delete k' m) = JsMap.get k m.
Proof.
  intros Hne. induction m as [|[k0 v0] m IH]; simpl; [reflexivity|].
  destruct (String.eqb k' k0) eqn:E; simpl.
  - apply String.eqb_eq in E. subst k0. apply String.eqb_neq in Hne. rewrite Hne. apply IH.
  - destruct (String.eqb k k0); auto.
Qed.

Lemma get_Some_In k v m : JsMap.get k m = Some v -> In (k, v) m.
Proof.
  induction m as [|[k' v'] m IH]; simpl; [discriminate|].
  destruct (String.eqb k k') eqn:E.
  - apply String.eqb_eq in E. intros [= ->]. left. congruence.
  - intros H. right. auto.
Qed.

Lemma get_None_notin k m : JsMap.get k m = None -> forall v, ~ In (k, v) m.
Proof.
  induction m as [|[k' v'] m IH]; simpl; [tauto|].
  destruct (String.eqb k k') eqn:E; [discriminate|].
  apply String.eqb_neq in E. intros H v [[= -> ->]|Hin]; [congruence|].
  exact (IH H v Hin).
Qed.

(** ** Restart recovery *)

Section Recovery.

Variable clock : nat -> Z.

Lemma load_get_other k l m :
  ~ In k (map id l) ->
  JsMap.get k (fold_left (fun m agent => JsMap.set (id agent) agent m) l m) = JsMap.get k m.
Proof.
  revert m. induction l as [|x l IH]; simpl; intros m Hk; [reflexivity|].
  rewrite IH by tauto. apply get_set_other. intros ->. tauto.
Qed.

Lemma load_get_loaded a l m :
  NoDup (map id l) -> In a l ->
  JsMap.get (id a) (fold_left (fun m agent => JsMap.set (id agent) agent m) l m) = Some a.
Proof.
  revert m. induction l as [|x l IH]; simpl; intros m Hnd Hin; [contradiction|].
  apply NoDup_cons in Hnd as [Hx Hnd]. destruct Hin as [->|Hin].
  - rewrite load_get_other by (rewrite <- list_elem_of_In; exact Hx). apply get_set_same.
  - apply IH; assumption.
Qed.

Lemma markRestarted_cons k0 a l st :
  eval (markRestarted clock ((k0, a) :: l)) st =
    (k0, if is_running (status a) then restarted_at (clock (ticks st)) a else a)
    :: eval (markRestarted clock l)
         (if is_running (status a) then with_ticks (S (ticks st)) st else st).
Proof.
  unfold eval; simpl; unfold bind. destruct (is_running (status a)); reflexivity.
Qed.

Lemma markRestarted_none_running l st :
  forall k r, In (k, r) (eval (markRestarted clock l) st) -> status r <> running.
Proof.
  revert st. induction l as [|[k0 a] l IH]; intros st k r.
  - intros [].
  - rewrite markRestarted_cons. intros [[= <- <-]|Hin].
    + destruct (is_running (status a)) eqn:Hrun; [discriminate|].
      apply is_running_false; exact Hrun.
    + exact (IH _ k r Hin).
Qed.

Lemma markRestarted_get l st k a :
  JsMap.get k l = Some a -> status a = running ->
  exists t, JsMap.get k (eval (markRestarted clock l) st) = Some (restarted_at t a).
Proof.
  revert st. induction l as [|[k0 a0] l IH]; intros st; [discriminate|].
  rewrite markRestarted_cons. simpl. intros Hget Hrun.
  destruct (String.eqb k k0) eqn:E.
  - injection Hget as ->. rewrite Hrun. simpl. eexists; reflexivity.
  - apply IH; assumption.
Qed.

Lemma loadFromDb_agents db st :
  agents (exec (loadFromDb clock db) st) =
  eval (markRestarted clock
          (fold_left (fun m agent => JsMap.set (id agent) agent m) (db_agents db) (agents st)))
       (with_agents
          (fold_left (fun m agent => JsMap.set (id agent) agent m) (db_agents db) (agents st))
          st).
Proof.
  unfold loadFromDb, exec, eval, bind, modify, gets, ret; simpl.
  destruct (db_messageCounter db), (db_sessionUsage db); reflexivity.
Qed.

(** C9. After [loadFromDb] no record of the registry is running, and every
    agent that storage held as running is in the registry as errored, with
    the fixed diagnostic reason and an [ended_at]. *)
Theorem loadFromDb_marks_running_errored (db : Db) (st : State) :
  let st' := exec (loadFromDb clock db) st in
  (forall k r, In (k, r) (agents st') -> status r <> running) /\
  (NoDup (map id (db_agents db)) ->
   forall a, In a (db_agents db) -> status a = running ->
     exists t, JsMap.get (id a) (agents st') = Some (restarted_at t a) /\
               status (restarted_at t a) = errored /\
               error (restarted_at t a) = Some RESTARTED /\
               ended_at (restarted_at t a) = Some t).
Proof.
  intros st'. subst st'. rewrite loadFromDb_agents. split.
  - apply markRestarted_none_running.
  - intros Hnd a Hin Hrun.
    destruct (markRestarted_get _
                (with_agents (fold_left (fun m agent => JsMap.set (id agent) agent m)
                                (db_agents db) (agents st)) st)
                _ _ (load_get_loaded a _ (agents st) Hnd Hin) Hrun) as [t Ht].
    exists t. split; [exact Ht|]. repeat split.
Qed.

End Recovery.

(** ** Run equations of the state operations *)

Section Runs.

Variable clock : nat -> Z.
Variable config : Config.

Lemma bind_run {A B} (m : M A) (k : A -> M B) st :
  bind m k st = k (eval m st) (exec m st).
Proof. reflexivity. Qed.

Lemma exec_bind {A B} (m : M A) (k : A -> M B) st :
  exec (bind m k) st = exec (k (eval m st)) (exec m st).
Proof. reflexivity. Qed.

Lemma unit_run (m : M unit) st : m st = (tt, exec m st).
Proof. unfold exec. destruct (m st) as [[] s]; reflexivity. Qed.

Lemma any_running_true st : any_running (agents st) = true <-> AnyRunning st.
Proof.
  unfold any_running, AnyRunning. rewrite existsb_exists.
  split; intros (e & He & Hr); exists e; split; auto; apply is_running_true; exact Hr.
Qed.

Lemma any_running_false st : any_running (agents st) = false <-> ~ AnyRunning st.
Proof.
  rewrite <- any_running_true. destruct (any_running (agents st)); split; congruence.
Qed.

Lemma notifyClients_run st :
  notifyClients clock st = (tt, with_ticks (S (ticks st)) st).
Proof. reflexivity. Qed.

Lemma resetState_run st :
  resetState clock st =
    (tt, mkState [] [] 0%N emptyUsage 0 (lastCompletionTime st) (autoResetTimer st)
           (S (ticks st))).
Proof. reflexivity. Qed.

Lemma scheduleAutoReset_run st :
  scheduleAutoReset config st =
    (tt, with_autoResetTimer
           (if any_running (agents st) then None
            else match agents st with [] => None | _ :: _ => Some (autoResetMs config) end)
           st).
Proof.
  unfold scheduleAutoReset, bind, modify, gets, when, ret; simpl.
  destruct (any_running (agents st)); [reflexivity|].
  destruct (agents st); reflexivity.
Qed.

Lemma countCompletion_run u st :
  countCompletion u st =
    (tt, with_sessionUsage
           (let su := sessionUsage st in
            match u with
            | Some u =>
                mkSessionUsage (add_if_nonzero (total_tokens su) (u_total_tokens u))
                  (add_if_nonzero (tool_uses su) (u_tool_uses u))
                  (add_if_nonzero (su_duration_ms su) (u_duration_ms u))
                  (agent_count su + 1)
            | None =>
                mkSessionUsage (total_tokens su) (tool_uses su) (su_duration_ms su)
                  (agent_count su + 1)
            end) st).
Proof. destruct u; reflexivity. Qed.

Lemma postPhase_run ev d key st r0 st0 :
  resolvePost clock ev d key st = (r0, st0) ->
  postPhase clock config ev d key st =
    (tt, if isBgLaunch (background r0) (tool_output ev)
         then after_post_launched clock config ev key r0 st0
         else after_post_completed clock config ev key r0 st0).
Proof.
  intros Hres. rewrite (unit_run (postPhase _ _ _ _ _)). f_equal.
  unfold exec, postPhase. rewrite bind_run. unfold eval, exec. rewrite Hres.
  cbn [fst snd]. rewrite bind_run.
  change (eval (Date_now clock) st0) with (clock (ticks st0)).
  change (exec (Date_now clock) st0) with (with_ticks (S (ticks st0)) st0).
  cbn [background set_last_activity].
  destruct (isBgLaunch (background r0) (tool_output ev)); reflexivity.
Qed.

End Runs.

(** ** Auto-reset *)

Section AutoReset.

Variable clock : nat -> Z.
Variable config : Config.

Lemma autoResetFire_run st :
  autoResetFire clock config st =
    (tt, if any_running (agents st) then with_autoResetTimer None st
         else if clock (ticks st) - lastEventTime st <? bossActiveMs config
              then with_autoResetTimer
                     (match agents st with [] => None | _ :: _ => Some (autoResetMs config) end)
                     (with_ticks (S (ticks st)) st)
              else mkState [] [] 0%N emptyUsage 0 (lastCompletionTime st) None
                     (S (S (ticks st)))).
Proof.
  rewrite (unit_run (autoResetFire _ _)). f_equal.
  unfold exec, autoResetFire, bind, gets, Date_now.
  cbn [fst snd lastEventTime agents ticks with_ticks].
  destruct (any_running (agents st)) eqn:Hrun; [reflexivity|].
  destruct (clock (ticks st) - lastEventTime st <? bossActiveMs config).
  - rewrite scheduleAutoReset_run. cbn [snd agents with_ticks]. rewrite Hrun. reflexivity.
  - reflexivity.
Qed.

(** C3 (as amended). When the timer fires with an agent running, nothing is
    cleared and the timer is left unarmed; with no agent running and the
    controller active within the window, nothing is cleared and the timer is
    armed again when the registry is not empty; with no agent running and no
    recent activity, the registry, the log and the usage counters are
    emptied. [scheduleAutoReset] arms the timer exactly when no agent is
    running and the registry is not empty. *)
Theorem autoResetFire_spec (st : State) :
  let st' := exec (autoResetFire clock config) st in
  (AnyRunning st -> StateKept st st' /\ autoResetTimer st' = None) /\
  (~ AnyRunning st -> BossActive clock config st ->
     StateKept st st' /\
     autoResetTimer st' =
       match agents st with [] => None | _ :: _ => Some (autoResetMs config) end) /\
  (~ AnyRunning st -> ~ BossActive clock config st ->
     Cleared st' /\ autoResetTimer st' = None) /\
  (forall d, autoResetTimer (exec (scheduleAutoReset config) st) = Some d <->
             ~ AnyRunning st /\ agents st <> [] /\ d = autoResetMs config).
Proof.
  intros st'. subst st'. unfold exec, BossActive.
  rewrite autoResetFire_run, scheduleAutoReset_run. cbn [snd].
  split; [|split; [|split]].
  - intros Hrun. apply any_running_true in Hrun. rewrite Hrun.
    repeat split.
  - intros Hrun Hact. apply any_running_false in Hrun. rewrite Hrun.
    apply Z.ltb_lt in Hact. rewrite Hact. repeat split.
  - intros Hrun Hact. apply any_running_false in Hrun. rewrite Hrun.
    apply Z.nlt_ge, Z.ltb_ge in Hact. rewrite Hact. repeat split.
  - intros d. destruct (any_running (agents st)) eqn:Hrun; cbn [autoResetTimer with_autoResetTimer].
    + apply any_running_true in Hrun. split; [discriminate|]. tauto.
    + apply any_running_false in Hrun. destruct (agents st) eqn:Hags.
      * split; [discriminate|]. intros (_ & Hne & _). congruence.
      * split; [intros [= <-]|intros (_ & _ & ->); reflexivity].
        split; [assumption|]. split; [discriminate|reflexivity].
Qed.

End AutoReset.

(** C3, witness: a finished batch fired while the controller is active is
    kept and its timer armed again; fired after the window it is cleared. *)
Lemma autoResetFire_spec_witness :
  (~ AnyRunning completed_once /\ BossActive clock_1ms defaultConfig completed_once /\
   StateKept completed_once (exec (autoResetFire clock_1ms defaultConfig) completed_once) /\
   autoResetTimer (exec (autoResetFire clock_1ms defaultConfig) completed_once) = Some 60000)
  /\
  (~ AnyRunning finished_batch /\ ~ BossActive clock_5s defaultConfig finished_batch /\
   Cleared (exec (autoResetFire clock_5s defaultConfig) finished_batch) /\
   autoResetTimer (exec (autoResetFire clock_5s defaultConfig) finished_batch) = None).
Proof.
  split.
  - assert (Hrun : ~ AnyRunning completed_once).
    { apply any_running_false. vm_compute. reflexivity. }
    assert (Hact : BossActive clock_1ms defaultConfig completed_once).
    { vm_compute. reflexivity. }
    split; [exact Hrun|]. split; [exact Hact|].
    exact (proj1 (proj2 (autoResetFire_spec clock_1ms defaultConfig completed_once)) Hrun Hact).
  - assert (Hrun : ~ AnyRunning finished_batch).
    { apply any_running_false. vm_compute. reflexivity. }
    assert (Hact : ~ BossActive clock_5s defaultConfig finished_batch).
    { vm_compute. intros H. discriminate H. }
    split; [exact Hrun|]. split; [exact Hact|].
    exact (proj1 (proj2 (proj2 (autoResetFire_spec clock_5s defaultConfig finished_batch)))
             Hrun Hact).
Defined.

(** C3, counterexample: after POST /reset the timer of the finished batch is
    still pending; when it fires during controller activity it is not armed
    again, because the registry is empty. *)
Lemma fire_as_stated_fails :
  ~ fire_as_stated clock_5s defaultConfig reset_then_heartbeats.
Proof.
  intros (_ & Hrearm & _).
  assert (Hrun : ~ AnyRunning reset_then_heartbeats).
  { apply any_running_false. vm_compute. reflexivity. }
  assert (Hact : BossActive clock_5s defaultConfig reset_then_heartbeats).
  { vm_compute. reflexivity. }
  destruct (Hrearm Hrun Hact) as [_ Htimer].
  vm_compute in Htimer. discriminate.
Qed.

(** ** The routes *)

(** Runs the binds of a handler one after the other. *)
Ltac step_bind := repeat (rewrite bind_run; cbv beta).
Ltac step_exec := repeat (rewrite exec_bind; cbv beta).

Section Routes.

Variable sha1_hex : string -> string.
Variable clock : nat -> Z.
Variable config : Config.

Lemma postEvent_invalid body st :
  HookEventSchema body = None ->
  postEvent sha1_hex clock config body st = (BadRequest400, st).
Proof. intros H. unfold postEvent. rewrite H. reflexivity. Qed.

Lemma postComplete_invalid body st :
  CompleteEventSchema body = None ->
  postComplete clock config body st = (BadRequest400, stamped clock st).
Proof. intros H. unfold postComplete, bind. rewrite H. reflexivity. Qed.

Lemma postEvent_task_post body ev st :
  HookEventSchema body = Some ev ->
  tool_name ev = "Task" -> hook_phase ev = post ->
  postEvent sha1_hex clock config body st =
    (Ok200,
     exec (notifyClients clock)
       (exec (postPhase clock config ev (eventDescription ev) (eventKey sha1_hex ev))
          (stamped clock st))).
Proof.
  intros Hparse Hname Hphase. unfold postEvent. rewrite Hparse, Hname, Hphase.
  cbn [String.eqb Ascii.eqb Bool.eqb negb andb]. step_bind. reflexivity.
Qed.

Lemma postEvent_task_pre body ev st :
  HookEventSchema body = Some ev ->
  tool_name ev = "Task" -> hook_phase ev = pre ->
  postEvent sha1_hex clock config body st =
    (Ok200,
     exec (notifyClients clock)
       (exec (prePhase clock config ev (eventDescription ev) (eventKey sha1_hex ev))
          (stamped clock st))).
Proof.
  intros Hparse Hname Hphase. unfold postEvent. rewrite Hparse, Hname, Hphase.
  cbn [String.eqb Ascii.eqb Bool.eqb negb andb]. step_bind. reflexivity.
Qed.

Lemma postEvent_taskOutput_post body ev st :
  HookEventSchema body = Some ev ->
  tool_name ev = "TaskOutput" -> hook_phase ev = post ->
  postEvent sha1_hex clock config body st =
    (Ok200, exec (notifyClients clock) (exec (taskOutputPost clock config ev) (stamped clock st))).
Proof.
  intros Hparse Hname Hphase. unfold postEvent. rewrite Hparse, Hname, Hphase.
  cbn [String.eqb Ascii.eqb Bool.eqb negb andb]. step_bind. reflexivity.
Qed.

(** The three ways in which the post block resolves its record. *)
Lemma resolvePost_by_key ev d key st r :
  JsMap.get key (agents st) = Some r ->
  resolvePost clock ev d key st = (r, st).
Proof. intros H. unfold resolvePost, bind, gets. cbn [fst snd]. rewrite H. reflexivity. Qed.

Lemma resolvePost_rekey ev d key st k1 r :
  JsMap.get key (agents st) = None ->
  find (rekey_candidate (ev_session_id ev) d) (agents st) = Some (k1, r) ->
  resolvePost clock ev d key st =
    (set_id key r,
     with_agents (JsMap.set key (set_id key r) (JsMap.delete k1 (agents st))) st).
Proof.
  intros H Hf. unfold resolvePost, bind, gets. cbn [fst snd]. rewrite H, Hf. reflexivity.
Qed.

Lemma resolvePost_holds_key ev d key st :
  JsMap.get key (agents (exec (resolvePost clock ev d key) st)) =
    Some (eval (resolvePost clock ev d key) st).
Proof.
  unfold exec, eval, resolvePost, bind, gets. cbn [fst snd].
  destruct (JsMap.get key (agents st)) eqn:Hget; [exact Hget|].
  destruct (find (rekey_candidate (ev_session_id ev) d) (agents st)) as [[k1 r]|];
    cbn [fst snd agents with_agents]; apply get_set_same.
Qed.

(** After the post block the record under the key is the finished one. *)
Lemma postPhase_record ev d key st :
  let r0 := eval (resolvePost clock ev d key) st in
  let st0 := exec (resolvePost clock ev d key) st in
  JsMap.get key (agents (exec (postPhase clock config ev d key) st)) =
    Some (if isBgLaunch (background r0) (tool_output ev)
          then post_launched ev (set_last_activity (clock (ticks st0)) r0)
          else post_completed ev (clock (S (ticks st0)))
                 (set_last_activity (clock (ticks st0)) r0)).
Proof.
  intros r0 st0. unfold exec at 1.
  rewrite (postPhase_run clock config ev d key st r0 st0)
    by (unfold r0, st0, eval, exec; destruct (resolvePost _ _ _ _ _); reflexivity).
  cbn [snd].
  destruct (isBgLaunch (background r0) (tool_output ev)).
  - unfold after_post_launched, exec. rewrite scheduleAutoReset_run. cbn.
    apply get_set_same.
  - unfold after_post_completed, exec.
    rewrite scheduleAutoReset_run, countCompletion_run, addMessage_run. cbn.
    apply get_set_same.
Qed.

End Routes.

(** ** Fields of the records that the completion branches leave behind *)

Lemma assignOutcome_identity ie out ended r : SameIdentity r (assignOutcome ie out ended r).
Proof. repeat split. Qed.

Lemma assignOutcome_fields ie out ended r :
  let r' := assignOutcome ie out ended r in
  status r' = (if isError ie out then errored else completed) /\
  ended_at r' = Some ended /\
  duration_ms r' = Some (ended - started_at r).
Proof. repeat split. Qed.

Lemma assignOutput_identity ie out r : SameIdentity r (assignOutput ie out r).
Proof. repeat split. Qed.

Lemma assignOutput_outcome ie out r :
  SameOutcome r (assignOutput ie out r) /\
  duration_ms (assignOutput ie out r) = duration_ms r.
Proof. repeat split. Qed.

Lemma captureInto_output_file label out r :
  SameIdentity r (captureInto label out set_output_file r) /\
  SameOutcome r (captureInto label out set_output_file r) /\
  duration_ms (captureInto label out set_output_file r) = duration_ms r.
Proof. unfold captureInto. destruct (Re.group1 _); repeat split. Qed.

Lemma captureInto_agentId label out r :
  SameIdentity r (captureInto label out set_agentId r) /\
  SameOutcome r (captureInto label out set_agentId r).
Proof. unfold captureInto. destruct (Re.group1 _); repeat split. Qed.

Lemma assignOutputFile_fields out r :
  SameIdentity r (assignOutputFile out r) /\
  SameOutcome r (assignOutputFile out r) /\
  duration_ms (assignOutputFile out r) = duration_ms r.
Proof.
  unfold assignOutputFile. destruct out; [apply captureInto_output_file|repeat split].
Qed.

Lemma assignLaunch_fields out r :
  SameIdentity r (assignLaunch out r) /\ SameOutcome r (assignLaunch out r).
Proof.
  unfold assignLaunch. destruct out as [out|]; [|repeat split].
  destruct (captureInto_output_file "output_file:" out r) as ((I1 & I2 & I3) & (O1 & O2) & _).
  destruct (captureInto_agentId "agentId:" out
              (captureInto "output_file:" out set_output_file r)) as ((J1 & J2 & J3) & (P1 & P2)).
  repeat split; congruence.
Qed.

Lemma assignUsagePost_fields u r :
  SameIdentity r (assignUsagePost u r) /\ SameOutcome r (assignUsagePost u r).
Proof.
  unfold assignUsagePost. destruct u as [u|]; cbn [duration_ms set_usage].
  - destruct (duration_ms r) as [d|]; [destruct (_ && _)|]; repeat split.
  - destruct (duration_ms r); repeat split.
Qed.

Lemma assignUsagePost_duration u r d :
  duration_ms r = Some d ->
  duration_ms (assignUsagePost u r) =
    Some (match u with
          | Some u => if (d <? 1000) && negb (u_duration_ms u =? 0)
                      then u_duration_ms u else d
          | None => d
          end).
Proof.
  intros Hd. unfold assignUsagePost. destruct u as [u|]; cbn [duration_ms set_usage];
    rewrite Hd; [destruct (_ && _)|]; cbn [duration_ms set_duration_ms set_usage]; auto.
Qed.

Lemma assignUsageTaskOutput_fields u r :
  SameIdentity r (assignUsageTaskOutput u r) /\ SameOutcome r (assignUsageTaskOutput u r).
Proof.
  unfold assignUsageTaskOutput. destruct u as [u|]; [destruct (_ =? _)|]; repeat split.
Qed.

Lemma assignUsageTaskOutput_duration u r d :
  duration_ms r = Some d ->
  duration_ms (assignUsageTaskOutput u r) =
    Some (match u with
          | Some u => if u_duration_ms u =? 0 then d else u_duration_ms u
          | None => d
          end).
Proof.
  intros Hd. unfold assignUsageTaskOutput. destruct u as [u|]; [destruct (_ =? _)|];
    cbn [duration_ms set_duration_ms set_usage]; auto.
Qed.

Lemma post_completed_fields ev ended r :
  let r' := post_completed ev ended r in
  SameIdentity r r' /\
  status r' = (if isError (ev_is_error ev) (tool_output ev) then errored else completed) /\
  ended_at r' = Some ended /\
  duration_ms r' =
    Some (let delta := ended - started_at r in
          match parseUsage (tool_output ev) with
          | Some u => if (delta <? 1000) && negb (u_duration_ms u =? 0)
                      then u_duration_ms u else delta
          | None => delta
          end).
Proof.
  unfold post_completed.
  set (r1 := assignOutcome (ev_is_error ev) (tool_output ev) ended r).
  set (r2 := assignOutput (ev_is_error ev) (tool_output ev) r1).
  set (r3 := assignOutputFile (tool_output ev) r2).
  destruct (assignOutcome_identity (ev_is_error ev) (tool_output ev) ended r) as (A1 & A2 & A3).
  destruct (assignOutcome_fields (ev_is_error ev) (tool_output ev) ended r) as (A4 & A5 & A6).
  destruct (assignOutput_identity (ev_is_error ev) (tool_output ev) r1) as (B1 & B2 & B3).
  destruct (assignOutput_outcome (ev_is_error ev) (tool_output ev) r1) as ((B4 & B5) & B6).
  destruct (assignOutputFile_fields (tool_output ev) r2) as ((C1 & C2 & C3) & (C4 & C5) & C6).
  destruct (assignUsagePost_fields (parseUsage (tool_output ev)) r3)
    as ((D1 & D2 & D3) & (D4 & D5)).
  fold r1 in A1, A2, A3, A4, A5, A6. fold r2 in B1, B2, B3, B4, B5, B6.
  fold r3 in C1, C2, C3, C4, C5, C6.
  assert (Hd : duration_ms r3 = Some (ended - started_at r)) by congruence.
  cbv zeta. rewrite (assignUsagePost_duration _ _ _ Hd).
  repeat split; congruence.
Qed.

Lemma post_launched_fields ev r :
  SameIdentity r (post_launched ev r) /\ SameOutcome r (post_launched ev r).
Proof. apply assignLaunch_fields. Qed.

Lemma output_completed_fields ev t ended r :
  let r' := output_completed ev t ended r in
  SameIdentity r r' /\
  status r' = (if isError (ev_is_error ev) (tool_output ev) then errored else completed) /\
  ended_at r' = Some ended /\
  duration_ms r' =
    Some (match parseUsage (tool_output ev) with
          | Some u => if u_duration_ms u =? 0 then ended - started_at r else u_duration_ms u
          | None => ended - started_at r
          end).
Proof.
  unfold output_completed.
  set (r0 := set_last_activity t r).
  set (r1 := assignOutcome (ev_is_error ev) (tool_output ev) ended r0).
  set (r2 := assignOutput (ev_is_error ev) (tool_output ev) r1).
  destruct (assignOutcome_identity (ev_is_error ev) (tool_output ev) ended r0) as (A1 & A2 & A3).
  destruct (assignOutcome_fields (ev_is_error ev) (tool_output ev) ended r0) as (A4 & A5 & A6).
  destruct (assignOutput_identity (ev_is_error ev) (tool_output ev) r1) as (B1 & B2 & B3).
  destruct (assignOutput_outcome (ev_is_error ev) (tool_output ev) r1) as ((B4 & B5) & B6).
  destruct (assignUsageTaskOutput_fields (parseUsage (tool_output ev)) r2)
    as ((D1 & D2 & D3) & (D4 & D5)).
  fold r1 in A1, A2, A3, A4, A5, A6. fold r2 in B1, B2, B3, B4, B5, B6.
  assert (Hd : duration_ms r2 = Some (ended - started_at r)).
  { rewrite B6, A6. reflexivity. }
  cbv zeta. rewrite (assignUsageTaskOutput_duration _ _ _ Hd).
  change (id r0) with (id r) in A1. change (started_at r0) with (started_at r) in A2.
  change (background r0) with (background r) in A3.
  repeat split; congruence.
Qed.

(** ** Frames: what the state operations leave alone *)

Section Frames.

Variable clock : nat -> Z.
Variable config : Config.

Lemma schedule_frame st :
  let st' := exec (scheduleAutoReset config) st in
  agents st' = agents st /\ messages st' = messages st /\
  messageCounter st' = messageCounter st /\ sessionUsage st' = sessionUsage st /\
  lastEventTime st' = lastEventTime st.
Proof. unfold exec. rewrite scheduleAutoReset_run. repeat split. Qed.

Lemma count_frame u st :
  let st' := exec (countCompletion u) st in
  agents st' = agents st /\ messages st' = messages st /\
  messageCounter st' = messageCounter st /\
  agent_count (sessionUsage st') = agent_count (sessionUsage st) + 1.
Proof. unfold exec. rewrite countCompletion_run. destruct u; repeat split. Qed.

Lemma addMessage_frame from_id to_id type st :
  let st' := exec (addMessage clock config from_id to_id type) st in
  agents st' = agents st /\ sessionUsage st' = sessionUsage st /\
  messageCounter st' = (messageCounter st + 1)%N.
Proof. unfold exec. rewrite addMessage_run. repeat split. Qed.

Lemma notify_frame st :
  let st' := exec (notifyClients clock) st in
  agents st' = agents st /\ messages st' = messages st /\
  messageCounter st' = messageCounter st /\ sessionUsage st' = sessionUsage st /\
  lastEventTime st' = lastEventTime st.
Proof. repeat split. Qed.

Lemma after_post_completed_frame ev key r0 st0 :
  let st' := after_post_completed clock config ev key r0 st0 in
  agents st' =
    JsMap.set key (post_completed ev (clock (S (ticks st0)))
                     (set_last_activity (clock (ticks st0)) r0)) (agents st0) /\
  agent_count (sessionUsage st') = agent_count (sessionUsage st0) + 1 /\
  messageCounter st' = (messageCounter st0 + 1)%N /\
  exists m, m_type m = "Response" /\ m_from_id m = key /\
            m_id m = pretty (messageCounter st0 + 1)%N /\
            messages st' =
              drop (length (messages st0 ++ [m]) - maxMessages config) (messages st0 ++ [m]).
Proof.
  unfold after_post_completed. cbv zeta.
  match goal with
  | |- context [exec (scheduleAutoReset config) ?s] =>
      destruct (schedule_frame s) as (S1 & S2 & S3 & S4 & S5)
  end.
  match goal with
  | |- context [exec (countCompletion ?u) ?s] =>
      destruct (count_frame u s) as (C1 & C2 & C3 & C4)
  end.
  match goal with
  | |- context [exec (addMessage clock config ?a ?b ?c) ?s] =>
      destruct (addMessage_frame a b c s) as (A1 & A2 & A3)
  end.
  rewrite S1, S2, S3, S4, C1, C2, C3, C4, A1, A2, A3.
  split; [reflexivity|]. split; [reflexivity|]. split; [reflexivity|].
  unfold exec at 1. rewrite addMessage_run. cbn [snd messages].
  eexists. split; [|split; [|split; [|reflexivity]]]; reflexivity.
Qed.

Lemma after_post_launched_frame ev key r0 st0 :
  let st' := after_post_launched clock config ev key r0 st0 in
  agents st' =
    JsMap.set key (post_launched ev (set_last_activity (clock (ticks st0)) r0)) (agents st0) /\
  sessionUsage st' = sessionUsage st0 /\ messages st' = messages st0 /\
  messageCounter st' = messageCounter st0.
Proof.
  unfold after_post_launched. cbv zeta.
  match goal with
  | |- context [exec (scheduleAutoReset config) ?s] =>
      destruct (schedule_frame s) as (S1 & S2 & S3 & S4 & S5)
  end.
  rewrite S1, S2, S3, S4. repeat split.
Qed.

Lemma after_output_completed_frame ev k r st0 :
  let st' := after_output_completed clock config ev k r st0 in
  agents st' =
    JsMap.set k (output_completed ev (clock (ticks st0)) (clock (S (ticks st0))) r)
      (agents st0) /\
  agent_count (sessionUsage st') = agent_count (sessionUsage st0) + 1 /\
  messageCounter st' = (messageCounter st0 + 1)%N.
Proof.
  unfold after_output_completed. cbv zeta.
  match goal with
  | |- context [exec (scheduleAutoReset config) ?s] =>
      destruct (schedule_frame s) as (S1 & S2 & S3 & S4 & S5)
  end.
  match goal with
  | |- context [exec (countCompletion ?u) ?s] =>
      destruct (count_frame u s) as (C1 & C2 & C3 & C4)
  end.
  match goal with
  | |- context [exec (addMessage clock config ?a ?b ?c) ?s] =>
      destruct (addMessage_frame a b c s) as (A1 & A2 & A3)
  end.
  rewrite S1, S3, S4, C1, C3, C4, A1, A2, A3. repeat split.
Qed.

(** [findTaskOutputAgent] only ever returns a running record, so the guard
    of the TaskOutput branch never fires. *)
Lemma findTaskOutputAgent_running ags taskId sessionId k r :
  findTaskOutputAgent ags taskId sessionId = Some (k, r) -> status r = running.
Proof.
  unfold findTaskOutputAgent.
  destruct (find (fun e : Ref => task_candidate taskId e.2) ags) as [o|] eqn:Hf.
  - intros [= ->]. apply find_some in Hf as [_ Hc].
    apply task_candidate_true in Hc. apply Hc.
  - intros Hfold. pose proof (older_fold_selected sessionId ags) as Hsel.
    rewrite Hfold in Hsel. destruct Hsel as (_ & Hc & _).
    apply bg_candidate_true in Hc. apply Hc.
Qed.

Lemma taskOutputPost_run ev st k r :
  findTaskOutputAgent (agents st) (eventTaskId ev) (ev_session_id ev) = Some (k, r) ->
  taskOutputPost clock config ev st = (tt, after_output_completed clock config ev k r st).
Proof.
  intros Hfind. rewrite (unit_run (taskOutputPost _ _ _)). f_equal.
  unfold exec, taskOutputPost. rewrite bind_run. unfold gets at 1, eval, exec.
  cbn [fst snd]. fold (eventTaskId ev). rewrite Hfind.
  rewrite (findTaskOutputAgent_running _ _ _ _ _ Hfind). cbn [is_running Status_eqb negb].
  reflexivity.
Qed.

End Frames.

(** ** Validation *)

Section Validation.

Variable sha1_hex : string -> string.
Variable clock : nat -> Z.
Variable config : Config.

(** C7. A body that fails the schema is answered with status 400. POST
    /event then leaves the whole state as it was; POST /complete leaves the
    registry, the log, the usage counters and the completion time as they
    were, but has already overwritten [lastEventTime] with the reading of
    the clock. *)
Theorem invalid_body_rejected (body : json) (st : State) :
  (HookEventSchema body = None ->
     postEvent sha1_hex clock config body st = (BadRequest400, st)) /\
  (CompleteEventSchema body = None ->
     let st' := exec (postComplete clock config body) st in
     eval (postComplete clock config body) st = BadRequest400 /\
     agents st' = agents st /\ messages st' = messages st /\
     messageCounter st' = messageCounter st /\ sessionUsage st' = sessionUsage st /\
     lastCompletionTime st' = lastCompletionTime st /\
     autoResetTimer st' = autoResetTimer st /\
     lastEventTime st' = clock (ticks st)).
Proof.
  split.
  - apply postEvent_invalid.
  - intros H. unfold exec, eval. rewrite (postComplete_invalid clock config body st H).
    repeat split.
Qed.

End Validation.

(** C7, witness: a completion signal whose [tokens] is a string is refused,
    and [lastEventTime] has moved although the request was refused. *)
Lemma invalid_body_rejected_witness :
  CompleteEventSchema complete_malformed = None /\
  eval (postComplete clock_1ms defaultConfig complete_malformed) one_running = BadRequest400 /\
  lastEventTime one_running = 1700000000000 /\
  lastEventTime (exec (postComplete clock_1ms defaultConfig complete_malformed) one_running)
    = 1700000000006.
Proof.
  assert (H : CompleteEventSchema complete_malformed = None) by (vm_compute; reflexivity).
  destruct (proj2 (invalid_body_rejected toy_digest clock_1ms defaultConfig
                     complete_malformed one_running) H) as (Hr & _ & _ & _ & _ & _ & _ & Ht).
  split; [exact H|]. split; [exact Hr|]. split; [vm_compute; reflexivity|].
  rewrite Ht. vm_compute. reflexivity.
Defined.

(** ** Completion through hook events *)

Section HookCompletion.

Variable sha1_hex : string -> string.
Variable clock : nat -> Z.
Variable config : Config.

Lemma task_post_state body ev st :
  HookEventSchema body = Some ev -> tool_name ev = "Task" -> hook_phase ev = post ->
  let r0 := eval (resolvePost clock ev (eventDescription ev) (eventKey sha1_hex ev))
              (stamped clock st) in
  let st0 := exec (resolvePost clock ev (eventDescription ev) (eventKey sha1_hex ev))
               (stamped clock st) in
  exec (postEvent sha1_hex clock config body) st =
    exec (notifyClients clock)
      (if isBgLaunch (background r0) (tool_output ev)
       then after_post_launched clock config ev (eventKey sha1_hex ev) r0 st0
       else after_post_completed clock config ev (eventKey sha1_hex ev) r0 st0).
Proof.
  intros Hparse Hname Hphase r0 st0. unfold exec at 1.
  rewrite (postEvent_task_post sha1_hex clock config body ev st Hparse Hname Hphase).
  cbn [snd]. f_equal. unfold exec at 1.
  rewrite (postPhase_run clock config ev _ _ (stamped clock st) r0 st0)
    by (unfold r0, st0, eval, exec; destruct (resolvePost _ _ _ _ _); reflexivity).
  reflexivity.
Qed.

Lemma task_post_record body ev st :
  HookEventSchema body = Some ev -> tool_name ev = "Task" -> hook_phase ev = post ->
  let r0 := eval (resolvePost clock ev (eventDescription ev) (eventKey sha1_hex ev))
              (stamped clock st) in
  let st0 := exec (resolvePost clock ev (eventDescription ev) (eventKey sha1_hex ev))
               (stamped clock st) in
  JsMap.get (eventKey sha1_hex ev) (agents (exec (postEvent sha1_hex clock config body) st)) =
    Some (if isBgLaunch (background r0) (tool_output ev)
          then post_launched ev (set_last_activity (clock (ticks st0)) r0)
          else post_completed ev (clock (S (ticks st0)))
                 (set_last_activity (clock (ticks st0)) r0)).
Proof.
  intros Hparse Hname Hphase r0 st0. unfold exec at 1.
  rewrite (postEvent_task_post sha1_hex clock config body ev st Hparse Hname Hphase).
  cbn [snd]. rewrite (proj1 (notify_frame clock _)).
  apply (postPhase_record clock config).
Qed.

Lemma task_output_state body ev st k r :
  HookEventSchema body = Some ev -> tool_name ev = "TaskOutput" -> hook_phase ev = post ->
  findTaskOutputAgent (agents st) (eventTaskId ev) (ev_session_id ev) = Some (k, r) ->
  exec (postEvent sha1_hex clock config body) st =
    exec (notifyClients clock) (after_output_completed clock config ev k r (stamped clock st)).
Proof.
  intros Hparse Hname Hphase Hfind. unfold exec at 1.
  rewrite (postEvent_taskOutput_post sha1_hex clock config body ev st Hparse Hname Hphase).
  cbn [snd]. unfold exec at 2.
  rewrite (taskOutputPost_run clock config ev (stamped clock st) k r Hfind). reflexivity.
Qed.

Lemma task_output_record body ev st k r :
  HookEventSchema body = Some ev -> tool_name ev = "TaskOutput" -> hook_phase ev = post ->
  findTaskOutputAgent (agents st) (eventTaskId ev) (ev_session_id ev) = Some (k, r) ->
  JsMap.get k (agents (exec (postEvent sha1_hex clock config body) st)) =
    Some (output_completed ev (clock (S (ticks st))) (clock (S (S (ticks st)))) r).
Proof.
  intros Hparse Hname Hphase Hfind.
  rewrite (task_output_state body ev st k r Hparse Hname Hphase Hfind).
  rewrite (proj1 (notify_frame clock _)).
  rewrite (proj1 (after_output_completed_frame clock config ev k r (stamped clock st))).
  apply get_set_same.
Qed.

(** C5 (as amended). A completion finalized by a Task post event has
    [duration_ms] equal to [ended_at - started_at], replaced by the usage
    duration exactly when that difference is below 1000 and a non-zero usage
    duration was parsed. A completion finalized by a TaskOutput event has
    [duration_ms] equal to the usage duration whenever a non-zero one was
    parsed, and to [ended_at - started_at] otherwise. *)
Theorem hook_completion_duration (body : json) (ev : HookEvent) (st : State) :
  HookEventSchema body = Some ev -> hook_phase ev = post ->
  let st' := exec (postEvent sha1_hex clock config body) st in
  (tool_name ev = "Task" ->
     exists r', JsMap.get (eventKey sha1_hex ev) (agents st') = Some r' /\
       (isBgLaunch (background r') (tool_output ev) = false ->
          exists ended, ended_at r' = Some ended /\
            duration_ms r' =
              Some (guarded_duration (ended - started_at r') (parseUsage (tool_output ev)))))
  /\
  (tool_name ev = "TaskOutput" ->
     forall k r,
       findTaskOutputAgent (agents st) (eventTaskId ev) (ev_session_id ev) = Some (k, r) ->
       exists r' ended, JsMap.get k (agents st') = Some r' /\ ended_at r' = Some ended /\
         duration_ms r' =
           Some (preferred_duration (ended - started_at r') (parseUsage (tool_output ev)))).
Proof.
  intros Hparse Hphase st'. subst st'. split.
  - intros Hname. eexists. split; [apply (task_post_record body ev st Hparse Hname Hphase)|].
    set (r0 := eval (resolvePost clock ev (eventDescription ev) (eventKey sha1_hex ev))
                 (stamped clock st)).
    set (st0 := exec (resolvePost clock ev (eventDescription ev) (eventKey sha1_hex ev))
                  (stamped clock st)).
    destruct (isBgLaunch (background r0) (tool_output ev)) eqn:Hbg.
    + intros Hbg'. destruct (post_launched_fields ev (set_last_activity (clock (ticks st0)) r0))
        as ((_ & _ & Hb) & _).
      rewrite Hb in Hbg'. cbn [background set_last_activity] in Hbg'. congruence.
    + intros _.
      destruct (post_completed_fields ev (clock (S (ticks st0)))
                  (set_last_activity (clock (ticks st0)) r0))
        as ((_ & Hs & _) & _ & He & Hd).
      exists (clock (S (ticks st0))). split; [exact He|].
      rewrite Hd, Hs. reflexivity.
  - intros Hname k r Hfind.
    exists (output_completed ev (clock (S (ticks st))) (clock (S (S (ticks st)))) r),
           (clock (S (S (ticks st)))).
    split; [apply (task_output_record body ev st k r Hparse Hname Hphase Hfind)|].
    destruct (output_completed_fields ev (clock (S (ticks st))) (clock (S (S (ticks st)))) r)
      as ((_ & Hs & _) & _ & He & Hd).
    split; [exact He|]. rewrite Hd, Hs. reflexivity.
Qed.

(** Hook events without [is_error] are classified by the error pattern. *)
Lemma hook_classification (body : json) (ev : HookEvent) (st : State) :
  HookEventSchema body = Some ev -> hook_phase ev = post -> ev_is_error ev = None ->
  let st' := exec (postEvent sha1_hex clock config body) st in
  (tool_name ev = "Task" ->
     exists r', JsMap.get (eventKey sha1_hex ev) (agents st') = Some r' /\
       (isBgLaunch (background r') (tool_output ev) = false ->
          status r' = (if looks_like_error (tool_output ev) then errored else completed)))
  /\
  (tool_name ev = "TaskOutput" ->
     forall k r,
       findTaskOutputAgent (agents st) (eventTaskId ev) (ev_session_id ev) = Some (k, r) ->
       exists r', JsMap.get k (agents st') = Some r' /\
         status r' = (if looks_like_error (tool_output ev) then errored else completed))
  /\
  looks_like_error None = false.
Proof.
  intros Hparse Hphase Hnone st'. subst st'.
  assert (Hcls : isError (ev_is_error ev) (tool_output ev) = looks_like_error (tool_output ev)).
  { rewrite Hnone. reflexivity. }
  split; [|split; [|reflexivity]].
  - intros Hname. eexists. split; [apply (task_post_record body ev st Hparse Hname Hphase)|].
    set (r0 := eval (resolvePost clock ev (eventDescription ev) (eventKey sha1_hex ev))
                 (stamped clock st)).
    set (st0 := exec (resolvePost clock ev (eventDescription ev) (eventKey sha1_hex ev))
                  (stamped clock st)).
    destruct (isBgLaunch (background r0) (tool_output ev)) eqn:Hbg.
    + intros Hbg'. destruct (post_launched_fields ev (set_last_activity (clock (ticks st0)) r0))
        as ((_ & _ & Hb) & _).
      rewrite Hb in Hbg'. cbn [background set_last_activity] in Hbg'. congruence.
    + intros _.
      destruct (post_completed_fields ev (clock (S (ticks st0)))
                  (set_last_activity (clock (ticks st0)) r0)) as (_ & Hst & _).
      rewrite Hst, Hcls. reflexivity.
  - intros Hname k r Hfind.
    exists (output_completed ev (clock (S (ticks st))) (clock (S (S (ticks st)))) r).
    split; [apply (task_output_record body ev st k r Hparse Hname Hphase Hfind)|].
    destruct (output_completed_fields ev (clock (S (ticks st))) (clock (S (S (ticks st)))) r)
      as (_ & Hst & _).
    rewrite Hst, Hcls. reflexivity.
Qed.

End HookCompletion.

(** ** POST /complete *)

Section CompleteRoute.

Variable clock : nat -> Z.
Variable config : Config.

Lemma postComplete_matched body cev st k r :
  CompleteEventSchema body = Some cev ->
  findMatchingAgent (agents st) (c_tool_use_id cev) (c_agent_id cev) = Some (k, r) ->
  exists r', JsMap.get k (agents (exec (postComplete clock config body) st)) = Some r' /\
             status r' = match c_is_error cev with Some true => errored | _ => completed end.
Proof.
  intros Hparse Hfind. unfold exec, postComplete.
  rewrite bind_run; cbv beta. rewrite bind_run; cbv beta.
  rewrite Hparse.
  rewrite bind_run; cbv beta. rewrite bind_run; cbv beta.
  change (eval (gets agents) ?s) with (agents s).
  set (s1 := exec (setLastEventTime (eval (Date_now clock) st)) (exec (Date_now clock) st)).
  change (agents s1) with (agents st).
  rewrite Hfind. cbv beta iota zeta.
  rewrite bind_run; cbv beta.
  match goal with
  | |- context [agents (ret Ok200 ?s).2] => change (agents (ret Ok200 s).2) with (agents s)
  end.
  rewrite (proj1 (notify_frame clock _)).
  step_exec.
  rewrite (proj1 (schedule_frame config _)).
  rewrite (proj1 (addMessage_frame clock config _ _ _ _)).
  rewrite (proj1 (count_frame _ _)).
  match goal with
  | |- context [exec (writeRecord ?k ?R) ?s] =>
      exists R; split;
        [change (JsMap.get k (JsMap.set k R (agents s)) = Some R); apply get_set_same|]
  end.
  destruct (c_is_error cev) as [[]|]; reflexivity.
Qed.

End CompleteRoute.

(** ** The claims on completion *)

Section Completion.

Variable sha1_hex : string -> string.
Variable clock : nat -> Z.
Variable config : Config.

(** C10 (as amended). A hook event without [is_error] that finalizes a
    record leaves it errored exactly when the first 500 characters of the
    output, lower-cased, match the error pattern, and completed otherwise;
    without an output the pattern never matches. A completion signal of POST
    /complete without [is_error] always leaves the record completed. *)
Theorem completion_classification (st : State) :
  (forall body ev,
     HookEventSchema body = Some ev -> hook_phase ev = post -> ev_is_error ev = None ->
     let st' := exec (postEvent sha1_hex clock config body) st in
     (tool_name ev = "Task" ->
        exists r', JsMap.get (eventKey sha1_hex ev) (agents st') = Some r' /\
          (isBgLaunch (background r') (tool_output ev) = false ->
             (status r' = errored <-> looks_like_error (tool_output ev) = true) /\
             (status r' = completed <-> looks_like_error (tool_output ev) = false)))
     /\
     (tool_name ev = "TaskOutput" ->
        forall k r,
          findTaskOutputAgent (agents st) (eventTaskId ev) (ev_session_id ev) = Some (k, r) ->
          exists r', JsMap.get k (agents st') = Some r' /\
            (status r' = errored <-> looks_like_error (tool_output ev) = true) /\
            (status r' = completed <-> looks_like_error (tool_output ev) = false)))
  /\
  (forall body cev k r,
     CompleteEventSchema body = Some cev -> c_is_error cev = None ->
     findMatchingAgent (agents st) (c_tool_use_id cev) (c_agent_id cev) = Some (k, r) ->
     exists r', JsMap.get k (agents (exec (postComplete clock config body) st)) = Some r' /\
                status r' = completed)
  /\
  looks_like_error None = false.
Proof.
  assert (Hiff : forall (s : Status) (b : bool), s = (if b then errored else completed) ->
                 (s = errored <-> b = true) /\ (s = completed <-> b = false)).
  { intros s [] ->; split; split; congruence. }
  split; [|split; [|reflexivity]].
  - intros body ev Hparse Hphase Hnone st'. subst st'.
    destruct (hook_classification sha1_hex clock config body ev st Hparse Hphase Hnone)
      as (Htask & Hout & _).
    split.
    + intros Hname. destruct (Htask Hname) as (r' & Hget & Hst).
      exists r'. split; [exact Hget|]. intros Hbg. apply Hiff, Hst, Hbg.
    + intros Hname k r Hfind. destruct (Hout Hname k r Hfind) as (r' & Hget & Hst).
      exists r'. split; [exact Hget|]. apply Hiff, Hst.
  - intros body cev k r Hparse Hnone Hfind.
    destruct (postComplete_matched clock config body cev st k r Hparse Hfind)
      as (r' & Hget & Hst).
    exists r'. split; [exact Hget|]. rewrite Hst, Hnone. reflexivity.
Qed.

(** C1. A Task post event whose key holds a record that is already terminal
    leaves that record terminal; but when its output is not a launch
    acknowledgment the handler counts the completion again: [agent_count]
    is incremented and one more Response message is appended. *)
Theorem duplicate_post_recounts (body : json) (ev : HookEvent) (st : State) (r : AgentRecord) :
  HookEventSchema body = Some ev -> tool_name ev = "Task" -> hook_phase ev = post ->
  JsMap.get (eventKey sha1_hex ev) (agents st) = Some r ->
  status r <> running ->
  let st' := exec (postEvent sha1_hex clock config body) st in
  (exists r', JsMap.get (eventKey sha1_hex ev) (agents st') = Some r' /\
              status r' <> running) /\
  (isBgLaunch (background r) (tool_output ev) = false ->
     agent_count (sessionUsage st') = agent_count (sessionUsage st) + 1 /\
     messageCounter st' = (messageCounter st + 1)%N /\
     exists m, m_type m = "Response" /\ m_from_id m = eventKey sha1_hex ev /\
               messages st' =
                 drop (length (messages st ++ [m]) - maxMessages config) (messages st ++ [m])).
Proof.
  intros Hparse Hname Hphase Hget Hterm st'. subst st'.
  pose proof (task_post_state sha1_hex clock config body ev st Hparse Hname Hphase) as Hst.
  pose proof (task_post_record sha1_hex clock config body ev st Hparse Hname Hphase) as Hrec.
  cbv zeta in Hst, Hrec. unfold eval, exec in Hst, Hrec.
  rewrite (resolvePost_by_key clock ev _ _ (stamped clock st) r Hget) in Hst, Hrec.
  cbn [fst snd] in Hst, Hrec. fold (exec (postEvent sha1_hex clock config body) st) in Hst, Hrec.
  split.
  - eexists. split; [exact Hrec|].
    destruct (isBgLaunch (background r) (tool_output ev)).
    + destruct (post_launched_fields ev
                  (set_last_activity (clock (ticks (stamped clock st))) r)) as (_ & Hs & _).
      rewrite Hs. exact Hterm.
    + destruct (post_completed_fields ev (clock (S (ticks (stamped clock st))))
                  (set_last_activity (clock (ticks (stamped clock st))) r)) as (_ & Hs & _).
      rewrite Hs. destruct (isError _ _); discriminate.
  - intros Hbg. rewrite Hbg in Hst. rewrite Hst.
    fold (exec (notifyClients clock)
            (after_post_completed clock config ev (eventKey sha1_hex ev) r (stamped clock st))).
    destruct (notify_frame clock
                (after_post_completed clock config ev (eventKey sha1_hex ev) r
                   (stamped clock st))) as (_ & N2 & N3 & N4 & _).
    destruct (after_post_completed_frame clock config ev (eventKey sha1_hex ev) r
                (stamped clock st)) as (_ & F2 & F3 & m & M1 & M2 & _ & M4).
    rewrite N2, N3, N4. split; [exact F2|]. split; [exact F3|].
    exists m. split; [exact M1|]. split; [exact M2|]. exact M4.
Qed.

End Completion.

(** ** Re-keying *)

Lemma isMatchable_true r :
  isMatchable r = true <->
  status r = running \/ (status r = errored /\ error r = Some RESTARTED).
Proof.
  unfold isMatchable.
  rewrite orb_true_iff, andb_true_iff, is_running_true, Status_eqb_eq, opt_str_eqb_true.
  tauto.
Qed.

Lemma rekey_candidate_true sessionId description' (e : Ref) :
  rekey_candidate sessionId description' e = true <-> Adoptable sessionId description' e.2.
Proof.
  unfold rekey_candidate, Adoptable.
  rewrite !andb_true_iff, !String.eqb_eq, isMatchable_true. tauto.
Qed.

Lemma find_FirstAdoptable sessionId description' ags k r :
  FirstAdoptable sessionId description' ags k r ->
  find (rekey_candidate sessionId description') ags = Some (k, r).
Proof.
  intros (before & after & -> & Hr & Hbefore).
  induction before as [|e before IH]; simpl.
  - apply (rekey_candidate_true _ _ (k, r)) in Hr. rewrite Hr. reflexivity.
  - destruct (rekey_candidate sessionId description' e) eqn:He.
    + apply rekey_candidate_true in He. exfalso. apply (Hbefore e); [left; reflexivity|exact He].
    + apply IH. intros e' Hin. apply Hbefore. right. exact Hin.
Qed.

(** The entries of a Map around one of its keys. *)
Lemma delete_middle k r (before after : JsMap.t) :
  NoDup (map fst (before ++ (k, r) :: after)%list) ->
  JsMap.delete k (before ++ (k, r) :: after)%list = (before ++ after)%list.
Proof.
  induction before as [|[k0 r0] before IH]; cbn [app map fst JsMap.delete]; intros Hnd.
  - rewrite String.eqb_refl. apply NoDup_cons in Hnd as [Hk _]. clear r.
    induction after as [|[k1 r1] after IH]; [reflexivity|].
    cbn [JsMap.delete]. destruct (String.eqb k k1) eqn:E.
    + apply String.eqb_eq in E. subst k1. destruct Hk. cbn [map fst]. left.
    + f_equal. apply IH. intros H. apply Hk. cbn [map fst]. right. exact H.
  - apply NoDup_cons in Hnd as [Hk0 Hnd]. destruct (String.eqb k k0) eqn:E.
    + apply String.eqb_eq in E. subst k0. destruct Hk0. rewrite map_app.
      apply list_elem_of_In, in_app_iff. right. left. reflexivity.
    + f_equal. apply IH, Hnd.
Qed.

Lemma set_absent k v (m : JsMap.t) :
  JsMap.get k m = None -> JsMap.set k v m = (m ++ [(k, v)])%list.
Proof.
  induction m as [|[k0 v0] m IH]; cbn [JsMap.get JsMap.set app]; [reflexivity|].
  destruct (String.eqb k k0); [discriminate|]. intros H. rewrite IH by exact H. reflexivity.
Qed.

Lemma set_last k v v' (m : JsMap.t) :
  JsMap.get k m = None -> JsMap.set k v' (m ++ [(k, v)])%list = (m ++ [(k, v')])%list.
Proof.
  induction m as [|[k0 v0] m IH]; cbn [JsMap.get JsMap.set app].
  - rewrite String.eqb_refl. reflexivity.
  - destruct (String.eqb k k0); [discriminate|]. intros H. rewrite IH by exact H. reflexivity.
Qed.

Lemma get_app_None k (m m' : JsMap.t) :
  JsMap.get k (m ++ m')%list = None <-> JsMap.get k m = None /\ JsMap.get k m' = None.
Proof.
  induction m as [|[k0 v0] m IH]; cbn [JsMap.get app]; [tauto|].
  destruct (String.eqb k k0); [split; [discriminate|intros [H _]; discriminate H]|exact IH].
Qed.

(** What the assignments of the post block leave alone. *)
Lemma SameOrigin_trans r1 r2 r3 : SameOrigin r1 r2 -> SameOrigin r2 r3 -> SameOrigin r1 r3.
Proof.
  intros (A1 & A2 & A3 & A4 & A5 & A6 & A7) (B1 & B2 & B3 & B4 & B5 & B6 & B7).
  repeat split; congruence.
Qed.

Lemma captureInto_origin label out assign r :
  (forall v x, SameOrigin x (assign v x)) -> SameOrigin r (captureInto label out assign r).
Proof. intros H. unfold captureInto. destruct (Re.group1 _); [apply H|repeat split]. Qed.

Lemma post_launched_origin ev r : SameOrigin r (post_launched ev r).
Proof.
  unfold post_launched, assignLaunch. destruct (tool_output ev) as [out|]; [|repeat split].
  eapply SameOrigin_trans; apply captureInto_origin; intros v x; repeat split.
Qed.

Lemma post_completed_origin ev ended r : SameOrigin r (post_completed ev ended r).
Proof.
  unfold post_completed.
  set (r1 := assignOutcome (ev_is_error ev) (tool_output ev) ended r).
  set (r2 := assignOutput (ev_is_error ev) (tool_output ev) r1).
  set (r3 := assignOutputFile (tool_output ev) r2).
  assert (H1 : SameOrigin r r1) by repeat split.
  assert (H2 : SameOrigin r1 r2) by repeat split.
  assert (H3 : SameOrigin r2 r3).
  { unfold r3, assignOutputFile. destruct (tool_output ev) as [out|]; [|repeat split].
    apply captureInto_origin. intros v x. repeat split. }
  assert (H4 : SameOrigin r3 (assignUsagePost (parseUsage (tool_output ev)) r3)).
  { unfold assignUsagePost. destruct (parseUsage (tool_output ev)) as [u|];
      cbn [duration_ms set_usage].
    - destruct (duration_ms r3) as [d|]; [destruct (_ && _)|]; repeat split.
    - destruct (duration_ms r3); repeat split. }
  exact (SameOrigin_trans _ _ _ (SameOrigin_trans _ _ _ (SameOrigin_trans _ _ _ H1 H2) H3) H4).
Qed.

Section Rekeying.

Variable sha1_hex : string -> string.
Variable clock : nat -> Z.
Variable config : Config.

(** C2 (as amended). When a Task post event arrives under a key [K2] that
    the registry does not hold, and the first record in insertion order
    that has the session and description of the event and is running, or
    errored by the restart recovery, sits under a key [K1], then the record
    is moved and not copied: afterwards no record is under [K1], the other
    entries are what they were, in their order, and the last entry holds
    under [K2] that same record - same session, description, prompt,
    type, background flag, start and parent - with id [K2] and the status
    of the post outcome: unchanged for a launch acknowledgment, errored or
    completed otherwise. The registry, a Map that holds no key twice, keeps
    its size, and a later record of the same session and description stays
    under its key. *)
Theorem post_rekey_moves_record (body : json) (ev : HookEvent) (st : State)
    (K1 : string) (r : AgentRecord) (before after : JsMap.t) :
  HookEventSchema body = Some ev -> tool_name ev = "Task" -> hook_phase ev = post ->
  NoDup (map fst (agents st)) ->
  JsMap.get (eventKey sha1_hex ev) (agents st) = None ->
  agents st = (before ++ (K1, r) :: after)%list ->
  AdoptableBy ev r ->
  (forall e : Ref, In e before -> ~ AdoptableBy ev e.2) ->
  let st' := exec (postEvent sha1_hex clock config body) st in
  let K2 := eventKey sha1_hex ev in
  K1 <> K2 /\
  JsMap.get K1 (agents st') = None /\
  length (agents st') = length (agents st) /\
  exists r',
    agents st' = (before ++ after ++ [(K2, r')])%list /\
    JsMap.get K2 (agents st') = Some r' /\
    id r' = K2 /\ SameOrigin r r' /\
    status r' =
      if isBgLaunch (background r) (tool_output ev) then status r
      else if isError (ev_is_error ev) (tool_output ev) then errored else completed.
Proof.
  intros Hparse Hname Hphase Hnd Hget Hags [Htext Hr] Hbefore st' K2. subst st'.
  assert (Hne : K1 <> K2).
  { intros ->. apply (get_None_notin _ _ Hget r). rewrite Hags.
    apply in_app_iff. right. left. reflexivity. }
  assert (Hfirst : FirstAdoptable (ev_session_id ev) (eventDescription ev) (agents st) K1 r).
  { exists before, after. split; [exact Hags|]. split; [exact Hr|].
    intros e He Ha. apply (Hbefore e He). split; assumption. }
  apply find_FirstAdoptable in Hfirst.
  pose proof (task_post_state sha1_hex clock config body ev st Hparse Hname Hphase) as Hst.
  cbv zeta in Hst. unfold eval, exec in Hst.
  rewrite (resolvePost_rekey clock ev _ _ (stamped clock st) K1 r Hget Hfirst) in Hst.
  cbn [fst snd] in Hst. fold (exec (postEvent sha1_hex clock config body) st) in Hst.
  change (background (set_id (eventKey sha1_hex ev) r)) with (background r) in Hst.
  rewrite Hst. clear Hst. fold K2. fold K2 in Hget.
  assert (Hmoved : JsMap.set K2 (set_id K2 r) (JsMap.delete K1 (agents (stamped clock st))) =
                   ((before ++ after) ++ [(K2, set_id K2 r)])%list).
  { change (agents (stamped clock st)) with (agents st). rewrite Hags, delete_middle.
    - apply set_absent. rewrite Hags in Hget. apply get_app_None in Hget as [Hb Ha].
      apply get_app_None. split; [exact Hb|]. cbn [JsMap.get] in Ha.
      destruct (String.eqb K2 K1); [discriminate Ha|exact Ha].
    - rewrite <- Hags. exact Hnd. }
  assert (Habsent : JsMap.get K2 (before ++ after)%list = None).
  { rewrite Hags in Hget. apply get_app_None in Hget as [Hb Ha].
    apply get_app_None. split; [exact Hb|]. cbn [JsMap.get] in Ha.
    destruct (String.eqb K2 K1); [discriminate Ha|exact Ha]. }
  assert (Hgone : JsMap.get K1 (before ++ after)%list = None).
  { rewrite <- (delete_middle K1 r before after) by (rewrite <- Hags; exact Hnd).
    apply get_delete_same. }
  set (st0 := with_agents (JsMap.set K2 (set_id K2 r) (JsMap.delete K1 (agents (stamped clock st))))
                (stamped clock st)).
  assert (Hfinal : forall R, JsMap.set K2 R (agents st0) = (before ++ after ++ [(K2, R)])%list).
  { intros R. unfold st0. cbn [agents with_agents]. rewrite Hmoved, app_assoc.
    apply set_last, Habsent. }
  assert (Hshape : forall R,
            JsMap.get K1 (before ++ after ++ [(K2, R)])%list = None /\
            length (before ++ after ++ [(K2, R)])%list = length (agents st) /\
            JsMap.get K2 (before ++ after ++ [(K2, R)])%list = Some R).
  { intros R. rewrite <- (Hfinal R). split; [|split; [|apply get_set_same]].
    - rewrite get_set_other by exact Hne. unfold st0. cbn [agents with_agents].
      rewrite get_set_other by exact Hne. apply get_delete_same.
    - rewrite (Hfinal R), Hags, !length_app. cbn [length]. lia. }
  split; [exact Hne|].
  destruct (isBgLaunch (background r) (tool_output ev)).
  - fold (exec (notifyClients clock) (after_post_launched clock config ev K2 (set_id K2 r) st0)).
    rewrite (proj1 (notify_frame clock _)).
    rewrite (proj1 (after_post_launched_frame clock config ev K2 (set_id K2 r) st0)).
    rewrite Hfinal.
    destruct (Hshape (post_launched ev (set_last_activity (clock (ticks st0)) (set_id K2 r))))
      as (S1 & S2 & S3).
    split; [exact S1|]. split; [exact S2|]. eexists. split; [reflexivity|].
    split; [exact S3|].
    destruct (post_launched_fields ev (set_last_activity (clock (ticks st0)) (set_id K2 r)))
      as ((Hi & _) & Hs & _).
    split; [rewrite Hi; reflexivity|]. split; [|rewrite Hs; reflexivity].
    apply (SameOrigin_trans _ (set_last_activity (clock (ticks st0)) (set_id K2 r)));
      [repeat split|apply post_launched_origin].
  - fold (exec (notifyClients clock) (after_post_completed clock config ev K2 (set_id K2 r) st0)).
    rewrite (proj1 (notify_frame clock _)).
    rewrite (proj1 (after_post_completed_frame clock config ev K2 (set_id K2 r) st0)).
    rewrite Hfinal.
    destruct (Hshape (post_completed ev (clock (S (ticks st0)))
                        (set_last_activity (clock (ticks st0)) (set_id K2 r))))
      as (S1 & S2 & S3).
    split; [exact S1|]. split; [exact S2|]. eexists. split; [reflexivity|].
    split; [exact S3|].
    destruct (post_completed_fields ev (clock (S (ticks st0)))
                (set_last_activity (clock (ticks st0)) (set_id K2 r)))
      as ((Hi & _) & Hs & _).
    split; [rewrite Hi; reflexivity|]. split; [|rewrite Hs; reflexivity].
    apply (SameOrigin_trans _ (set_last_activity (clock (ticks st0)) (set_id K2 r)));
      [repeat split|apply post_completed_origin].
Qed.

End Rekeying.

(** ** The claims at sample inputs *)

(** C4, witness: with a record carrying the task id, that record is
    returned; with an unknown task id, the oldest running background record
    of the session is. *)
Lemma findTaskOutputAgent_spec_witness :
  (exists o, findTaskOutputAgent sample_registry "task_001" "session-abc" = Some o /\
             In o sample_registry /\ TaskMatch "task_001" o.2) /\
  (exists o, findTaskOutputAgent sample_registry "nonexistent" "session-abc" = Some o /\
             In o sample_registry /\ BgInSession "session-abc" o.2 /\
             forall e, In e sample_registry -> BgInSession "session-abc" e.2 ->
                       started_at o.2 <= started_at e.2) /\
  findTaskOutputAgent sample_registry "nonexistent" "no-session" = None.
Proof.
  split; [|split].
  - apply (proj1 (findTaskOutputAgent_spec sample_registry "task_001" "session-abc")).
    eexists. split; [right; left; reflexivity|]. repeat split.
  - apply (proj2 (findTaskOutputAgent_spec sample_registry "nonexistent" "session-abc")).
    + intros e He (_ & _ & Hid).
      repeat (destruct He as [<-|He]; [discriminate Hid|]). destruct He.
    + eexists. split; [left; reflexivity|]. repeat split.
  - apply (proj2 (findTaskOutputAgent_spec sample_registry "nonexistent" "no-session")).
    + intros e He (_ & _ & Hid).
      repeat (destruct He as [<-|He]; [discriminate Hid|]). destruct He.
    + intros e He (_ & _ & Hs).
      repeat (destruct He as [<-|He]; [discriminate Hs|]). destruct He.
Defined.

(** C8, witness: the latest running record of the session is returned, the
    excluded key apart; a session without running records yields nothing. *)
Lemma findDeepestRunningAgent_spec_witness :
  (exists b, findDeepestRunningAgent sample_registry "session-abc" "key3" = Some b /\
             In b sample_registry /\ RunningInSession "session-abc" "key3" b.2 /\
             forall e, In e sample_registry -> RunningInSession "session-abc" "key3" e.2 ->
                       started_at e.2 <= started_at b.2) /\
  findDeepestRunningAgent sample_registry "no-session" "key3" = None.
Proof.
  split.
  - apply (proj1 (findDeepestRunningAgent_spec sample_registry "session-abc" "key3")).
    eexists. split; [left; reflexivity|]. repeat split. discriminate.
  - apply (proj2 (findDeepestRunningAgent_spec sample_registry "no-session" "key3")).
    intros e He (_ & Hs & _).
    repeat (destruct He as [<-|He]; [discriminate Hs|]). destruct He.
Defined.

(** C6, witness: a third message after the two of a finished batch, under
    the default cap and under a cap of two. *)
Lemma addMessage_bounded_fifo_fresh_witness :
  IdsIncreasing completed_once /\
  IdsIncreasing (exec (addMessage clock_1ms defaultConfig "a" "b" "Prompt") completed_once) /\
  m_id <$> messages (exec (addMessage clock_1ms (mkConfig 30000 60000 2) "a" "b" "Prompt")
                       completed_once) = ["2"; "3"].
Proof.
  assert (H : IdsIncreasing completed_once).
  { exists [1%N; 2%N]. split; [vm_compute; reflexivity|].
    split; [repeat constructor|]. repeat constructor; vm_compute; discriminate. }
  split; [exact H|]. split.
  - exact (proj2 (proj2 (proj2 (proj2
             (addMessage_bounded_fifo_fresh clock_1ms defaultConfig "a" "b" "Prompt"
                completed_once)))) H).
  - rewrite (proj1 (proj2 (addMessage_bounded_fifo_fresh clock_1ms (mkConfig 30000 60000 2)
                             "a" "b" "Prompt" completed_once))).
    vm_compute. reflexivity.
Defined.

(** C9, witness: the running agent of the sample storage is loaded as
    errored, with the diagnostic reason and an [ended_at]. *)
Lemma loadFromDb_marks_running_errored_witness :
  exists t,
    JsMap.get "a1" (agents (exec (loadFromDb clock_1ms sample_db) initialState)) =
      Some (restarted_at t (makeAgent "a1" "s1" false running 1700000000000 None)) /\
    status (restarted_at t (makeAgent "a1" "s1" false running 1700000000000 None)) = errored /\
    error (restarted_at t (makeAgent "a1" "s1" false running 1700000000000 None))
      = Some RESTARTED /\
    ended_at (restarted_at t (makeAgent "a1" "s1" false running 1700000000000 None)) = Some t.
Proof.
  apply (proj2 (loadFromDb_marks_running_errored clock_1ms sample_db initialState)
           ltac:(simpl; repeat constructor; rewrite ?list_elem_of_In; simpl;
                 intuition discriminate)
           (makeAgent "a1" "s1" false running 1700000000000 None)).
  - left. reflexivity.
  - reflexivity.
Defined.

(** C1, witness: the post of a completed agent delivered a second time. The
    record stays completed, and the completion is counted a second time. *)
Lemma duplicate_post_recounts_witness :
  let st' := exec (postEvent toy_digest clock_1ms defaultConfig duplicate_post) completed_once in
  (exists r, JsMap.get "tu_1" (agents completed_once) = Some r /\ status r = completed) /\
  (exists r', JsMap.get "tu_1" (agents st') = Some r' /\ status r' <> running) /\
  agent_count (sessionUsage completed_once) = 1 /\
  agent_count (sessionUsage st') = 2 /\
  total_tokens (sessionUsage completed_once) = 5000 /\
  total_tokens (sessionUsage st') = 10000 /\
  m_type <$> messages completed_once = ["Prompt"; "Response"] /\
  m_type <$> messages st' = ["Prompt"; "Response"; "Response"].
Proof.
  intros st'.
  destruct (duplicate_post_recounts toy_digest clock_1ms defaultConfig duplicate_post
              (event_of duplicate_post) completed_once (record_at "tu_1" completed_once))
    as [Hterm Hcount].
  - vm_compute. reflexivity.
  - reflexivity.
  - reflexivity.
  - vm_compute. reflexivity.
  - vm_compute. discriminate.
  - destruct Hcount as (Hc & _); [vm_compute; reflexivity|].
    split; [eexists; split; vm_compute; reflexivity|].
    split; [exact Hterm|].
    split; [vm_compute; reflexivity|].
    split; [fold st' in Hc; rewrite Hc; vm_compute; reflexivity|].
    repeat split; vm_compute; reflexivity.
Defined.

(** C2, witness: a pre keyed by the hash of session and description, and
    its post under a [tool_use_id]: the record moves to the new key. And
    two agents of one session with the same description under their own
    keys, with a post under a third key: the record that was created first
    moves to the new key, at the end of the registry, and the other one
    stays where it was. *)
Lemma post_rekey_moves_record_witness :
  (let st' := exec (postEvent toy_digest clock_1ms defaultConfig post_tu_9) hashed_pre in
   agents hashed_pre = [("s1:d1", record_at "s1:d1" hashed_pre)] /\
   status (record_at "s1:d1" hashed_pre) = running /\
   exists r', agents st' = [("tu_9", r')] /\ id r' = "tu_9" /\ description r' = "d1" /\
              started_at r' = started_at (record_at "s1:d1" hashed_pre) /\
              status r' = completed) /\
  (let st' := exec (postEvent toy_digest clock_1ms defaultConfig post_other_key) two_alike in
   agents two_alike =
     [("tu_0", record_at "tu_0" two_alike); ("tu_1", record_at "tu_1" two_alike)] /\
   status (record_at "tu_0" two_alike) = running /\
   JsMap.get "tu_0" (agents st') = None /\
   length (agents st') = 2%nat /\
   exists r', agents st' = [("tu_1", record_at "tu_1" two_alike); ("tu_2", r')] /\
              id r' = "tu_2" /\ description r' = "d1" /\
              started_at r' = started_at (record_at "tu_0" two_alike) /\
              status r' = completed).
Proof.
  split; intros st'.
  - destruct (post_rekey_moves_record toy_digest clock_1ms defaultConfig post_tu_9
                (event_of post_tu_9) hashed_pre "s1:d1" (record_at "s1:d1" hashed_pre) [] [])
      as (_ & _ & _ & r' & Hags & _ & Hid & (_ & Hd & _ & _ & _ & Hs & _) & Hst).
    + vm_compute. reflexivity.
    + reflexivity.
    + reflexivity.
    + vm_compute. apply NoDup_singleton.
    + vm_compute. reflexivity.
    + vm_compute. reflexivity.
    + split; [reflexivity|]. repeat split. left. reflexivity.
    + intros e [].
    + split; [vm_compute; reflexivity|]. split; [reflexivity|].
      exists r'. split; [exact Hags|]. split; [exact Hid|]. split; [exact Hd|].
      split; [exact Hs|exact Hst].
  - destruct (post_rekey_moves_record toy_digest clock_1ms defaultConfig post_other_key
                (event_of post_other_key) two_alike "tu_0" (record_at "tu_0" two_alike)
                [] [("tu_1", record_at "tu_1" two_alike)])
      as (_ & Hgone & Hlen & r' & Hags & _ & Hid & (_ & Hd & _ & _ & _ & Hs & _) & Hst).
    + vm_compute. reflexivity.
    + reflexivity.
    + reflexivity.
    + vm_compute. apply NoDup_cons. split; [|apply NoDup_singleton].
      intros H. apply list_elem_of_In in H. destruct H as [H|[]]. discriminate H.
    + vm_compute. reflexivity.
    + vm_compute. reflexivity.
    + split; [reflexivity|]. repeat split. left. reflexivity.
    + intros e [].
    + split; [vm_compute; reflexivity|]. split; [reflexivity|].
      split; [exact Hgone|]. split; [exact Hlen|].
      exists r'. split; [exact Hags|]. split; [exact Hid|]. split; [exact Hd|].
      split; [exact Hs|exact Hst].
Defined.

(** C2, counterexample: the statement fails in two ways. With two agents
    of one session and the same description under their own keys, a post
    under a third key adopts the one that was created first, and the
    record created by the later pre stays where it was. And when the
    registry already holds the key of the post, the post takes the record
    under that key and adopts nothing, so the record of the pre stays
    under its key. *)
Lemma rekey_as_stated_fails :
  ~ rekey_as_stated toy_digest clock_1ms defaultConfig pre_tu_1 post_other_key first_alike /\
  ~ rekey_as_stated toy_digest clock_1ms defaultConfig pre_hashed post_tu_9 key_taken.
Proof.
  split.
  - intros H.
    destruct (H (event_of pre_tu_1) (event_of post_other_key)) as [Hgone _].
    + vm_compute. reflexivity.
    + reflexivity.
    + reflexivity.
    + vm_compute. reflexivity.
    + reflexivity.
    + reflexivity.
    + reflexivity.
    + reflexivity.
    + vm_compute. discriminate.
    + vm_compute in Hgone. discriminate.
  - intros H.
    destruct (H (event_of pre_hashed) (event_of post_tu_9)) as [Hgone _].
    + vm_compute. reflexivity.
    + reflexivity.
    + reflexivity.
    + vm_compute. reflexivity.
    + reflexivity.
    + reflexivity.
    + reflexivity.
    + reflexivity.
    + vm_compute. discriminate.
    + vm_compute in Hgone. discriminate.
Qed.

(** C5, witness: a Task post 6 ms after its pre takes the usage duration; a
    TaskOutput 45 s after the launch takes the usage duration as well. *)
Lemma hook_completion_duration_witness :
  (exists r', JsMap.get "tu_1"
                (agents (exec (postEvent toy_digest clock_1ms defaultConfig duplicate_post)
                           one_running)) = Some r' /\
              exists ended, ended_at r' = Some ended /\
                duration_ms r' =
                  Some (guarded_duration (ended - started_at r') (parseUsage (Some usage_output))))
  /\
  (exists r' ended, JsMap.get "tu_1"
                (agents (exec (postEvent toy_digest clock_5s defaultConfig task_output_a1)
                           launched_bg)) = Some r' /\
              ended_at r' = Some ended /\
              duration_ms r' =
                Some (preferred_duration (ended - started_at r') (parseUsage (Some usage_output)))).
Proof.
  split.
  - destruct (proj1 (hook_completion_duration toy_digest clock_1ms defaultConfig duplicate_post
                       (event_of duplicate_post) one_running
                       ltac:(vm_compute; reflexivity) eq_refl) eq_refl)
      as (r' & Hget & Hd).
    exists r'. split; [exact Hget|]. apply Hd.
    vm_compute in Hget. injection Hget as <-. vm_compute. reflexivity.
  - destruct (proj2 (hook_completion_duration toy_digest clock_5s defaultConfig task_output_a1
                       (event_of task_output_a1) launched_bg
                       ltac:(vm_compute; reflexivity) eq_refl) eq_refl
                "tu_1" (record_at "tu_1" launched_bg))
      as (r' & ended & Hget & He & Hd).
    + vm_compute. reflexivity.
    + exists r', ended. split; [exact Hget|]. split; [exact He|]. exact Hd.
Defined.

(** C5, counterexample: the TaskOutput of a background agent arrives 45 s
    after its start and reports a usage duration of 1234 ms; the record gets
    1234, not the 45000 of the wall clock. *)
Lemma output_duration_as_stated_fails :
  ~ output_duration_as_stated toy_digest clock_5s defaultConfig task_output_a1 launched_bg.
Proof.
  intros H.
  destruct (H (event_of task_output_a1) "tu_1" (record_at "tu_1" launched_bg))
    as (r' & ended & Hget & He & Hd).
  - vm_compute. reflexivity.
  - reflexivity.
  - reflexivity.
  - vm_compute. reflexivity.
  - vm_compute in Hget. injection Hget as <-.
    vm_compute in He. injection He as <-.
    vm_compute in Hd. discriminate.
Qed.

(** C10, witness: a Task post whose output says "0 failed" is recorded as
    errored; a completion signal whose result says "failed" is recorded as
    completed. *)
Lemma completion_classification_witness :
  (exists r', JsMap.get "tu_1"
                (agents (exec (postEvent toy_digest clock_1ms defaultConfig post_failed_word)
                           one_running)) = Some r' /\
              status r' = errored) /\
  (exists r', JsMap.get "tu_1"
                (agents (exec (postComplete clock_1ms defaultConfig complete_failed_text)
                           one_running)) = Some r' /\
              status r' = completed).
Proof.
  destruct (completion_classification toy_digest clock_1ms defaultConfig one_running)
    as (Hhook & Hcomplete & _).
  split.
  - destruct (proj1 (Hhook post_failed_word (event_of post_failed_word)
                       ltac:(vm_compute; reflexivity) eq_refl eq_refl)
                eq_refl) as (r' & Hget & Hcls).
    exists r'. split; [exact Hget|].
    apply Hcls; [|vm_compute; reflexivity].
    vm_compute in Hget. injection Hget as <-. vm_compute. reflexivity.
  - apply (Hcomplete complete_failed_text (complete_event_of complete_failed_text)
             "tu_1" (record_at "tu_1" one_running)).
    + vm_compute. reflexivity.
    + reflexivity.
    + vm_compute. reflexivity.
Defined.

(** C10, counterexample: a completion signal without [is_error] whose result
    is "Operation failed" matches the error pattern, and the record is
    completed all the same. *)
Lemma complete_classification_as_stated_fails :
  ~ complete_classification_as_stated clock_1ms defaultConfig complete_failed_text one_running.
Proof.
  intros H.
  destruct (H (complete_event_of complete_failed_text) "tu_1" (record_at "tu_1" one_running))
    as (r' & Hget & Hiff).
  - vm_compute. reflexivity.
  - reflexivity.
  - vm_compute. reflexivity.
  - vm_compute in Hget. injection Hget as <-.
    destruct Hiff as [_ Herr].
    assert (Hm : looks_like_error (Some "Operation failed") = true) by (vm_compute; reflexivity).
    specialize (Herr Hm). vm_compute in Herr. discriminate.
Qed.

(** ** The end-to-end scenarios of the test plan *)

Example scenario_pre_then_post :
  (status <$> JsMap.get "tu_1" (agents one_running)) = Some running /\
  (m_type <$> messages one_running) = ["Prompt"] /\
  (m_from_id <$> messages one_running) = [USER] /\
  (status <$> JsMap.get "tu_1" (agents finished_batch)) = Some completed /\
  (m_type <$> messages finished_batch) = ["Prompt"; "Response"] /\
  (m_to_id <$> messages finished_batch) = ["tu_1"; USER] /\
  agent_count (sessionUsage finished_batch) = 1.
Proof. vm_compute. repeat split; reflexivity. Qed.

Example scenario_background_launch :
  let done := exec (postEvent toy_digest clock_5s defaultConfig task_output_a1) launched_bg in
  (status <$> JsMap.get "tu_1" (agents launched_bg)) = Some running /\
  (output_file <$> JsMap.get "tu_1" (agents launched_bg)) = Some (Some "/tmp/x") /\
  (agentId <$> JsMap.get "tu_1" (agents launched_bg)) = Some (Some "a1") /\
  (status <$> JsMap.get "tu_1" (agents done)) = Some completed.
Proof. vm_compute. repeat split; reflexivity. Qed.

Example scenario_complete_without_match :
  let st' := exec (postComplete clock_1ms defaultConfig
                     (JObj [("tool_use_id", JStr "tu_404")])) one_running in
  eval (postComplete clock_1ms defaultConfig (JObj [("tool_use_id", JStr "tu_404")]))
    one_running = Ok200 /\
  agents st' = agents one_running /\ messages st' = messages one_running /\
  sessionUsage st' = sessionUsage one_running.
Proof. vm_compute. repeat split; reflexivity. Qed.

(** * Further properties of the code *)

(** ** findMatchingAgent *)

Lemma find_FirstPassing {A} (f : A -> bool) (l : list A) (x : A) :
  find f l = Some x <-> FirstPassing f l x.
Proof.
  split.
  - induction l as [|y l IH]; simpl; [discriminate|].
    destruct (f y) eqn:Hy.
    + intros [= ->]. exists [], l. split; [reflexivity|]. split; [exact Hy|]. intros z [].
    + intros H. destruct (IH H) as (before & after & -> & Hx & Hb).
      exists (y :: before), after. split; [reflexivity|]. split; [exact Hx|].
      intros z [<-|Hz]; [exact Hy|apply Hb, Hz].
  - intros (before & after & -> & Hx & Hb).
    induction before as [|y before IH]; simpl.
    + rewrite Hx. reflexivity.
    + rewrite (Hb y (or_introl eq_refl)). apply IH. intros z Hz. apply Hb. right. exact Hz.
Qed.

Lemma nonempty_true s : Js.nonempty s = true <-> s <> "".
Proof. destruct s; simpl; split; congruence. Qed.

Lemma nonempty_false s : Js.nonempty s = false <-> s = "".
Proof. destruct s; simpl; split; congruence. Qed.

(** X1. [findMatchingAgent] returns the running record stored under a
    non-empty [tool_use_id] when there is one; otherwise, for a non-empty
    [agent_id], the first running record in insertion order that carries
    it; and nothing in every other case. Whatever it returns is a running
    record of the registry. *)
Theorem findMatchingAgent_spec (ags : JsMap.t) (toolUseId agentId' : option string) :
  (forall k r, Tier1 ags toolUseId k r ->
     findMatchingAgent ags toolUseId agentId' = Some (k, r)) /\
  ((forall k r, ~ Tier1 ags toolUseId k r) ->
     (forall a, agentId' = Some a -> a <> "" ->
        forall o, findMatchingAgent ags toolUseId agentId' = Some o <->
                  FirstPassing (RunningWithAgentId a) ags o) /\
     (agentId' = None \/ agentId' = Some "" ->
        findMatchingAgent ags toolUseId agentId' = None)) /\
  (forall k r, findMatchingAgent ags toolUseId agentId' = Some (k, r) ->
     In (k, r) ags /\ status r = running).
Proof.
  assert (Htier : forall k r,
            (match toolUseId with
             | Some k0 =>
                 if Js.nonempty k0 then
                   match JsMap.get k0 ags with
                   | Some record => if is_running (status record) then Some (k0, record) else None
                   | None => None
                   end
                 else None
             | None => None
             end) = Some (k, r) <-> Tier1 ags toolUseId k r).
  { intros k r. unfold Tier1. destruct toolUseId as [k0|]; [|split; [discriminate|intros (H & _); discriminate]].
    destruct (Js.nonempty k0) eqn:Hne.
    - apply nonempty_true in Hne.
      destruct (JsMap.get k0 ags) as [record|] eqn:Hget.
      + destruct (is_running (status record)) eqn:Hrun.
        * apply is_running_true in Hrun. split.
          -- intros [= <- <-]. auto.
          -- intros ([= <-] & _ & Hg & _). rewrite Hget in Hg. congruence.
        * apply is_running_false in Hrun. split; [discriminate|].
          intros ([= <-] & _ & Hg & Hs). rewrite Hget in Hg. congruence.
      + split; [discriminate|]. intros ([= <-] & _ & Hg & _). congruence.
    - apply nonempty_false in Hne. split; [discriminate|]. intros ([= <-] & Hk & _). congruence. }
  unfold findMatchingAgent.
  split; [|split].
  - intros k r Ht. apply Htier in Ht. rewrite Ht. reflexivity.
  - intros Hno.
    destruct (match toolUseId with Some _ => _ | None => _ end) as [[k r]|] eqn:Ht.
    { exfalso. apply (Hno k r), Htier. reflexivity. }
    split.
    + intros a -> Ha o. apply nonempty_true in Ha. rewrite Ha. apply find_FirstPassing.
    + intros [->| ->]; reflexivity.
  - intros k r.
    destruct (match toolUseId with Some _ => _ | None => _ end) as [[k0 r0]|] eqn:Ht.
    + intros [= <- <-]. destruct (proj1 (Htier k0 r0) eq_refl) as (_ & _ & Hg & Hs).
      split; [apply get_Some_In, Hg|exact Hs].
    + destruct agentId' as [a|]; [|discriminate].
      destruct (Js.nonempty a); [|discriminate].
      intros Hf. apply find_some in Hf as [Hin Hc]. split; [exact Hin|].
      unfold RunningWithAgentId in Hc. apply andb_true_iff in Hc as [Hc _].
      apply is_running_true, Hc.
Qed.

(** ** Events that find nothing to do *)

Section Idle.

Variable sha1_hex : string -> string.
Variable clock : nat -> Z.
Variable config : Config.

(** X2. A hook event of any tool other than Task and TaskOutput is answered
    with 200 and only records the time of the event: registry, log,
    counters, completion time and timer are unchanged. *)
Theorem other_tool_event_only_time (body : json) (ev : HookEvent) (st : State) :
  HookEventSchema body = Some ev ->
  tool_name ev <> "Task" -> tool_name ev <> "TaskOutput" ->
  eval (postEvent sha1_hex clock config body) st = Ok200 /\
  OnlyTimeTouched clock st (exec (postEvent sha1_hex clock config body) st).
Proof.
  intros Hparse H1 H2. apply String.eqb_neq in H1, H2.
  unfold eval, exec, postEvent. rewrite Hparse. step_bind. rewrite H1, H2.
  cbn [negb andb]. step_bind. repeat split.
Qed.

(** X3. A completion signal that matches no running record changes nothing
    but the time of the last event: this holds for a TaskOutput post event
    for which [findTaskOutputAgent] finds nothing, and for POST /complete
    when [findMatchingAgent] finds nothing. Both are answered with 200. *)
Theorem unmatched_completion_only_time (st : State) :
  (forall body ev,
     HookEventSchema body = Some ev -> tool_name ev = "TaskOutput" -> hook_phase ev = post ->
     findTaskOutputAgent (agents st) (eventTaskId ev) (ev_session_id ev) = None ->
     eval (postEvent sha1_hex clock config body) st = Ok200 /\
     OnlyTimeTouched clock st (exec (postEvent sha1_hex clock config body) st)) /\
  (forall body cev,
     CompleteEventSchema body = Some cev ->
     findMatchingAgent (agents st) (c_tool_use_id cev) (c_agent_id cev) = None ->
     eval (postComplete clock config body) st = Ok200 /\
     OnlyTimeTouched clock st (exec (postComplete clock config body) st)).
Proof.
  split.
  - intros body ev Hparse Hname Hphase Hnone.
    unfold eval, exec.
    rewrite (postEvent_taskOutput_post sha1_hex clock config body ev st Hparse Hname Hphase).
    cbn [fst snd]. split; [reflexivity|].
    unfold taskOutputPost, exec. rewrite bind_run. unfold gets at 1, eval, exec.
    cbn [fst snd]. fold (eventTaskId ev).
    change (agents (stamped clock st)) with (agents st). rewrite Hnone.
    repeat split.
  - intros body cev Hparse Hnone.
    unfold eval, exec, postComplete. step_bind. rewrite Hparse. step_bind.
    change (eval (gets agents) ?s) with (agents s).
    set (s1 := exec (setLastEventTime (eval (Date_now clock) st)) (exec (Date_now clock) st)).
    change (agents s1) with (agents st). rewrite Hnone. step_bind.
    repeat split.
Qed.

End Idle.

(** ** The pre block *)

Section PreBlock.

Variable sha1_hex : string -> string.
Variable clock : nat -> Z.
Variable config : Config.

Lemma prePhase_run ev d key st :
  prePhase clock config ev d key st = (tt, after_pre clock config ev d key st).
Proof.
  rewrite (unit_run (prePhase _ _ _ _ _)). f_equal.
  unfold prePhase, after_pre, pre_base, quiet_period, parent_of, pre_record.
  step_exec.
  cbn [eval exec gets Date_now cancelAutoReset modify fst snd
       with_autoResetTimer with_ticks agents lastCompletionTime ticks].
  destruct (negb (any_running (agents st)) && (0 <? JsMap.size (agents st))%nat
            && (60000 <? clock (ticks st) - lastCompletionTime st)) eqn:Hq;
    reflexivity.
Qed.

Lemma quiet_period_true now st : quiet_period now st = true <-> QuietPeriod now st.
Proof.
  unfold quiet_period, QuietPeriod.
  rewrite !andb_true_iff, negb_true_iff, any_running_false, Nat.ltb_lt, Z.ltb_lt.
  assert (Hsize : (0 < JsMap.size (agents st))%nat <-> agents st <> []).
  { unfold JsMap.size. destruct (agents st); simpl; split; intros; try lia; congruence. }
  rewrite Hsize. tauto.
Qed.

Lemma task_pre_state body ev st :
  HookEventSchema body = Some ev -> tool_name ev = "Task" -> hook_phase ev = pre ->
  exec (postEvent sha1_hex clock config body) st =
    exec (notifyClients clock)
      (after_pre clock config ev (eventDescription ev) (eventKey sha1_hex ev)
         (stamped clock st)).
Proof.
  intros Hparse Hname Hphase. unfold exec at 1.
  rewrite (postEvent_task_pre sha1_hex clock config body ev st Hparse Hname Hphase).
  cbn [snd]. unfold exec at 2. rewrite prePhase_run. reflexivity.
Qed.

Lemma after_pre_frame ev d key st :
  let base := pre_base clock st in
  let parent := parent_of (agents base) (ev_session_id ev) key in
  let record := pre_record ev d key parent (clock (ticks base)) (clock (S (ticks base))) in
  let st' := after_pre clock config ev d key st in
  agents st' = JsMap.set key record (agents base) /\
  sessionUsage st' = sessionUsage base /\
  messageCounter st' = (messageCounter base + 1)%N /\
  autoResetTimer st' = None /\
  lastCompletionTime st' = lastCompletionTime st /\
  lastEventTime st' = lastEventTime base /\
  exists m, m_from_id m = parent /\ m_to_id m = key /\
            m_type m = (if String.eqb parent USER then "Prompt" else "TaskCreate") /\
            m_id m = pretty (messageCounter base + 1)%N /\
            messages st' =
              drop (length (messages base ++ [m]) - maxMessages config) (messages base ++ [m]).
Proof.
  intros base parent record st'. subst st'. unfold after_pre. fold base. cbv zeta.
  fold parent. fold record. unfold exec. rewrite addMessage_run. cbn [snd].
  cbn [agents sessionUsage messageCounter autoResetTimer lastCompletionTime messages
       lastEventTime with_agents with_ticks].
  split; [reflexivity|]. split; [reflexivity|]. split; [reflexivity|].
  split; [unfold base, pre_base; destruct (quiet_period _ _); reflexivity|].
  split; [unfold base, pre_base; destruct (quiet_period _ _); reflexivity|].
  split; [reflexivity|].
  eexists. split; [|split; [|split; [|split; [|reflexivity]]]]; reflexivity.
Qed.

Lemma notify_timer st :
  autoResetTimer (exec (notifyClients clock) st) = autoResetTimer st /\
  lastCompletionTime (exec (notifyClients clock) st) = lastCompletionTime st.
Proof. split; reflexivity. Qed.

(** X4. A Task pre event whose description is a string, or is missing,
    always leaves a running record under its key: the record carries the
    key as id, the session and description of the event, no end, no
    duration and no usage; some agent is running and the auto-reset timer
    is not pending afterwards. *)
Theorem pre_creates_running_record (body : json) (ev : HookEvent) (st : State) :
  HookEventSchema body = Some ev -> tool_name ev = "Task" -> hook_phase ev = pre ->
  description_is_text ev = true ->
  let st' := exec (postEvent sha1_hex clock config body) st in
  exists r,
    JsMap.get (eventKey sha1_hex ev) (agents st') = Some r /\
    id r = eventKey sha1_hex ev /\ status r = running /\
    session_id r = ev_session_id ev /\ description r = eventDescription ev /\
    ended_at r = None /\ duration_ms r = None /\ usage r = None /\
    AnyRunning st' /\ autoResetTimer st' = None.
Proof.
  intros Hparse Hname Hphase _ st'. subst st'.
  rewrite (task_pre_state body ev st Hparse Hname Hphase).
  destruct (after_pre_frame ev (eventDescription ev) (eventKey sha1_hex ev) (stamped clock st))
    as (Hags & _ & _ & Htimer & _).
  cbv zeta in Hags.
  eexists. split.
  { rewrite (proj1 (notify_frame clock _)), Hags. apply get_set_same. }
  repeat split.
  - eexists. split.
    + rewrite (proj1 (notify_frame clock _)), Hags. apply get_Some_In, get_set_same.
    + reflexivity.
  - rewrite (proj1 (notify_timer _)). exact Htimer.
Qed.

(** X5. New batch: when a Task pre event arrives while no agent is running,
    the registry is not empty and the last completion is more than 60000 ms
    before the clock reading of the pre block, everything earlier is
    dropped: the registry holds only the new record, whose parent is the
    controller, the usage counters are zero, the message counter restarts
    so that the Prompt message has id 1, and [lastEventTime] is back at 0. *)
Theorem pre_after_quiet_period_resets (body : json) (ev : HookEvent) (st : State) :
  HookEventSchema body = Some ev -> tool_name ev = "Task" -> hook_phase ev = pre ->
  QuietPeriod (clock (S (ticks st))) st ->
  let st' := exec (postEvent sha1_hex clock config body) st in
  (exists r, agents st' = [(eventKey sha1_hex ev, r)] /\ parent_id r = USER) /\
  sessionUsage st' = emptyUsage /\
  messageCounter st' = 1%N /\
  lastEventTime st' = 0 /\
  ((0 < maxMessages config)%nat ->
     exists m, messages st' = [m] /\ m_id m = "1" /\ m_type m = "Prompt" /\
               m_from_id m = USER /\ m_to_id m = eventKey sha1_hex ev).
Proof.
  intros Hparse Hname Hphase Hquiet st'. subst st'.
  rewrite (task_pre_state body ev st Hparse Hname Hphase).
  assert (Hq : quiet_period (clock (ticks (stamped clock st))) (stamped clock st) = true).
  { apply quiet_period_true. exact Hquiet. }
  destruct (after_pre_frame ev (eventDescription ev) (eventKey sha1_hex ev) (stamped clock st))
    as (Hags & Hus & Hcnt & _ & _ & Hlast & m & M1 & M2 & M3 & M4 & Hmsgs).
  cbv zeta in Hags, Hus, Hcnt, Hlast, M1, M3, M4, Hmsgs.
  unfold pre_base in Hags, Hus, Hcnt, Hlast, M1, M3, M4, Hmsgs.
  rewrite Hq in Hags, Hus, Hcnt, Hlast, M1, M3, M4, Hmsgs.
  unfold exec in Hags, Hus, Hcnt, Hlast, M1, M3, M4, Hmsgs.
  rewrite resetState_run in Hags, Hus, Hcnt, Hlast, M1, M3, M4, Hmsgs.
  cbn [snd agents messages messageCounter sessionUsage lastEventTime ticks parent_of
       findDeepestRunningAgent fold_left JsMap.set length app]
    in Hags, Hus, Hcnt, Hlast, M1, M3, M4, Hmsgs.
  destruct (notify_frame clock
              (after_pre clock config ev (eventDescription ev) (eventKey sha1_hex ev)
                 (stamped clock st))) as (N1 & N2 & N3 & N4 & N5).
  rewrite N1, N2, N3, N4, N5.
  split; [eexists; split; [exact Hags|reflexivity]|].
  split; [exact Hus|]. split; [exact Hcnt|]. split; [exact Hlast|].
  intros Hcap. exists m.
  replace (1 - maxMessages config)%nat with 0%nat in Hmsgs by lia.
  split; [exact Hmsgs|]. split; [exact M4|]. split; [exact M3|]. split; [exact M1|exact M2].
Qed.

End PreBlock.

Lemma set_length_present k v v' m :
  JsMap.get k m = Some v -> length (JsMap.set k v' m) = length m.
Proof.
  induction m as [|[k0 v0] m IH]; simpl; [discriminate|].
  destruct (String.eqb k k0); simpl; [reflexivity|]. intros H. rewrite IH; auto.
Qed.

Lemma set_length_absent k v m :
  JsMap.get k m = None -> length (JsMap.set k v m) = S (length m).
Proof.
  induction m as [|[k0 v0] m IH]; simpl; [reflexivity|].
  destruct (String.eqb k k0); simpl; [discriminate|]. intros H. rewrite IH; auto.
Qed.

Section WithinBatch.

Variable sha1_hex : string -> string.
Variable clock : nat -> Z.
Variable config : Config.

(** X6. Within a batch (an agent is running, or the registry is empty, or
    the last completion is at most 60000 ms back) a Task pre event whose
    description is a string, or is missing, keeps every record stored
    under another key and the usage counters, and adds one message. The
    parent of the new record is the controller when the session has no
    running record other than the one under the key, and otherwise the id
    of a running record of the session that was started latest. *)
Theorem pre_within_batch_keeps_records (body : json) (ev : HookEvent) (st : State) :
  HookEventSchema body = Some ev -> tool_name ev = "Task" -> hook_phase ev = pre ->
  description_is_text ev = true ->
  ~ QuietPeriod (clock (S (ticks st))) st ->
  let st' := exec (postEvent sha1_hex clock config body) st in
  (forall k, k <> eventKey sha1_hex ev ->
     JsMap.get k (agents st') = JsMap.get k (agents st)) /\
  sessionUsage st' = sessionUsage st /\
  messageCounter st' = (messageCounter st + 1)%N /\
  exists r, JsMap.get (eventKey sha1_hex ev) (agents st') = Some r /\
    ((forall e, In e (agents st) ->
        ~ RunningInSession (ev_session_id ev) (eventKey sha1_hex ev) e.2) ->
     parent_id r = USER) /\
    ((exists e, In e (agents st) /\
        RunningInSession (ev_session_id ev) (eventKey sha1_hex ev) e.2) ->
     exists b, In b (agents st) /\
       RunningInSession (ev_session_id ev) (eventKey sha1_hex ev) b.2 /\
       parent_id r = id b.2 /\
       forall e, In e (agents st) ->
         RunningInSession (ev_session_id ev) (eventKey sha1_hex ev) e.2 ->
         started_at e.2 <= started_at b.2).
Proof.
  intros Hparse Hname Hphase _ Hquiet st'. subst st'.
  rewrite (task_pre_state sha1_hex clock config body ev st Hparse Hname Hphase).
  assert (Hq : quiet_period (clock (ticks (stamped clock st))) (stamped clock st) = false).
  { destruct (quiet_period _ _) eqn:E; [|reflexivity].
    apply quiet_period_true in E. exfalso. exact (Hquiet E). }
  destruct (after_pre_frame clock config ev (eventDescription ev) (eventKey sha1_hex ev)
              (stamped clock st)) as (Hags & Hus & Hcnt & _ & _ & _ & _).
  cbv zeta in Hags, Hus, Hcnt. unfold pre_base in Hags, Hus, Hcnt.
  rewrite Hq in Hags, Hus, Hcnt.
  cbn [agents sessionUsage messageCounter ticks with_ticks with_autoResetTimer stamped
       with_lastEventTime] in Hags, Hus, Hcnt.
  destruct (notify_frame clock
              (after_pre clock config ev (eventDescription ev) (eventKey sha1_hex ev)
                 (stamped clock st))) as (N1 & _ & N3 & N4 & _).
  rewrite N1, N3, N4, Hags. clear N1 N3 N4 Hags.
  split; [intros k Hk; apply get_set_other; exact Hk|].
  split; [exact Hus|]. split; [exact Hcnt|].
  eexists. split; [apply get_set_same|].
  cbn [parent_id pre_record]. unfold parent_of, findDeepestRunningAgent.
  pose proof (newer_fold_selected (ev_session_id ev) (eventKey sha1_hex ev) (agents st)) as Hsel.
  unfold Selected in Hsel.
  destruct (fold_left (newer_step (ev_session_id ev) (eventKey sha1_hex ev)) (agents st) None)
    as [b|]; split.
  - intros Hnone. destruct Hsel as (Hin & Hc & _). apply deep_candidate_true in Hc.
    exfalso. exact (Hnone b Hin Hc).
  - intros _. destruct Hsel as (Hin & Hc & Hmax). exists b.
    split; [exact Hin|]. split; [apply deep_candidate_true, Hc|]. split; [reflexivity|].
    intros e He Hr. apply deep_candidate_true in Hr. specialize (Hmax e He Hr). lia.
  - reflexivity.
  - intros (e & He & Hr). apply deep_candidate_true in Hr. rewrite (Hsel e He) in Hr.
    discriminate.
Qed.

(** X7. A launch acknowledgment never completes anything. When the record
    under the key of a Task post event, whose description is a string or
    is missing, is a background record and the output is absent or
    announces an asynchronous launch, the record keeps its id, its status
    and its end, no record is added, and the log, the message counter, the
    usage counters and the time of the last completion stay as they
    were. *)
Theorem launch_ack_completes_nothing (body : json) (ev : HookEvent) (st : State)
    (r : AgentRecord) :
  HookEventSchema body = Some ev -> tool_name ev = "Task" -> hook_phase ev = post ->
  description_is_text ev = true ->
  JsMap.get (eventKey sha1_hex ev) (agents st) = Some r ->
  isBgLaunch (background r) (tool_output ev) = true ->
  let st' := exec (postEvent sha1_hex clock config body) st in
  (exists r', JsMap.get (eventKey sha1_hex ev) (agents st') = Some r' /\
              status r' = status r /\ ended_at r' = ended_at r /\ id r' = id r) /\
  messages st' = messages st /\ messageCounter st' = messageCounter st /\
  sessionUsage st' = sessionUsage st /\
  lastCompletionTime st' = lastCompletionTime st /\
  length (agents st') = length (agents st).
Proof.
  intros Hparse Hname Hphase _ Hget Hbg st'. subst st'.
  pose proof (task_post_state sha1_hex clock config body ev st Hparse Hname Hphase) as Hst.
  cbv zeta in Hst. unfold eval, exec in Hst.
  rewrite (resolvePost_by_key clock ev _ _ (stamped clock st) r Hget) in Hst.
  cbn [fst snd] in Hst. fold (exec (postEvent sha1_hex clock config body) st) in Hst.
  rewrite Hbg in Hst. rewrite Hst.
  fold (exec (notifyClients clock)
          (after_post_launched clock config ev (eventKey sha1_hex ev) r (stamped clock st))).
  destruct (notify_frame clock
              (after_post_launched clock config ev (eventKey sha1_hex ev) r
                 (stamped clock st))) as (N1 & N2 & N3 & N4 & _).
  destruct (after_post_launched_frame clock config ev (eventKey sha1_hex ev) r
              (stamped clock st)) as (F1 & F2 & F3 & F4).
  rewrite N1, N2, N3, N4, F1.
  destruct (post_launched_fields ev (set_last_activity (clock (ticks (stamped clock st))) r))
    as ((Hi & _) & Hs & He).
  split; [eexists; split; [apply get_set_same|]; rewrite Hs, He, Hi; repeat split|].
  split; [exact F3|]. split; [exact F4|]. split; [exact F2|].
  split.
  - unfold notifyClients, after_post_launched, exec. rewrite scheduleAutoReset_run. reflexivity.
  - apply (set_length_present _ r). exact Hget.
Qed.

(** X8. A Task pre followed by a Task post under the same key, the
    description of each being a string or missing, completes the record
    that the pre created instead of adding one: the registry has the same
    size, the record keeps its start, becomes errored or completed, and
    exactly one completion is counted and one message issued. This holds
    whenever the output is not a launch acknowledgment for the record. *)
Theorem pre_then_post_same_key (body1 body2 : json) (ev1 ev2 : HookEvent) (st : State) :
  HookEventSchema body1 = Some ev1 -> tool_name ev1 = "Task" -> hook_phase ev1 = pre ->
  HookEventSchema body2 = Some ev2 -> tool_name ev2 = "Task" -> hook_phase ev2 = post ->
  description_is_text ev1 = true -> description_is_text ev2 = true ->
  eventKey sha1_hex ev2 = eventKey sha1_hex ev1 ->
  isBgLaunch (truthy (field "run_in_background" (tool_input ev1))) (tool_output ev2) = false ->
  let st1 := exec (postEvent sha1_hex clock config body1) st in
  let st2 := exec (postEvent sha1_hex clock config body2) st1 in
  exists r1 r2,
    JsMap.get (eventKey sha1_hex ev1) (agents st1) = Some r1 /\
    JsMap.get (eventKey sha1_hex ev1) (agents st2) = Some r2 /\
    status r1 = running /\
    status r2 = (if isError (ev_is_error ev2) (tool_output ev2) then errored else completed) /\
    started_at r2 = started_at r1 /\
    length (agents st2) = length (agents st1) /\
    agent_count (sessionUsage st2) = agent_count (sessionUsage st1) + 1 /\
    messageCounter st2 = (messageCounter st1 + 1)%N.
Proof.
  intros Hp1 Hn1 Hph1 Hp2 Hn2 Hph2 _ _ Hkey Hbg st1 st2.
  assert (Hrec : exists r1, JsMap.get (eventKey sha1_hex ev1) (agents st1) = Some r1 /\
                   status r1 = running /\
                   background r1 = truthy (field "run_in_background" (tool_input ev1))).
  { subst st1. rewrite (task_pre_state sha1_hex clock config body1 ev1 st Hp1 Hn1 Hph1).
    destruct (after_pre_frame clock config ev1 (eventDescription ev1) (eventKey sha1_hex ev1)
                (stamped clock st)) as (Hags & _).
    cbv zeta in Hags. rewrite (proj1 (notify_frame clock _)), Hags.
    eexists. split; [apply get_set_same|]. split; reflexivity. }
  destruct Hrec as (r1 & Hget1 & Hrun1 & Hbg1).
  rewrite <- Hbg1 in Hbg. rewrite <- Hkey in Hget1.
  pose proof (task_post_state sha1_hex clock config body2 ev2 st1 Hp2 Hn2 Hph2) as Hst.
  cbv zeta in Hst. unfold eval, exec in Hst.
  rewrite (resolvePost_by_key clock ev2 _ _ (stamped clock st1) r1 Hget1) in Hst.
  cbn [fst snd] in Hst. fold (exec (postEvent sha1_hex clock config body2) st1) in Hst.
  rewrite Hbg in Hst. fold st2 in Hst.
  fold (exec (notifyClients clock)
          (after_post_completed clock config ev2 (eventKey sha1_hex ev2) r1 (stamped clock st1)))
    in Hst.
  destruct (notify_frame clock
              (after_post_completed clock config ev2 (eventKey sha1_hex ev2) r1
                 (stamped clock st1))) as (N1 & _ & N3 & N4 & _).
  destruct (after_post_completed_frame clock config ev2 (eventKey sha1_hex ev2) r1
              (stamped clock st1)) as (F1 & F2 & F3 & _).
  rewrite <- Hst in N1, N3, N4. rewrite F1 in N1.
  destruct (post_completed_fields ev2 (clock (S (ticks (stamped clock st1))))
              (set_last_activity (clock (ticks (stamped clock st1))) r1))
    as ((_ & Hs & _) & Hstat & _).
  rewrite <- Hkey.
  exists r1. eexists.
  split; [exact Hget1|].
  split; [rewrite N1; apply get_set_same|].
  split; [exact Hrun1|]. split; [exact Hstat|]. split; [exact Hs|].
  split; [rewrite N1; apply (set_length_present _ r1); exact Hget1|].
  split; [rewrite N4; exact F2|]. rewrite N3. exact F3.
Qed.

End WithinBatch.

(** ** Invariants of the registry *)

Lemma set_Forall (P : Ref -> Prop) k v m :
  Forall P m -> P (k, v) -> Forall P (JsMap.set k v m).
Proof.
  intros Hm Hv. induction m as [|[k0 v0] m IH]; simpl.
  - repeat constructor. exact Hv.
  - apply Forall_cons in Hm as [H0 Hm]. destruct (String.eqb k k0).
    + constructor; assumption.
    + constructor; auto.
Qed.

Lemma delete_In k (e : Ref) m : In e (JsMap.delete k m) -> In e m /\ e.1 <> k.
Proof.
  induction m as [|[k0 v0] m IH]; simpl; [tauto|].
  destruct (String.eqb k k0) eqn:E.
  - intros H. destruct (IH H). tauto.
  - apply String.eqb_neq in E. intros [<-|H]; [simpl; split; [tauto|congruence]|].
    destruct (IH H). tauto.
Qed.

Lemma set_In k v (e : Ref) m : In e (JsMap.set k v m) -> e = (k, v) \/ In e m.
Proof.
  induction m as [|[k0 v0] m IH]; simpl.
  - intros [<-|[]]. left. reflexivity.
  - destruct (String.eqb k k0); simpl; intros [<-|H]; auto. destruct (IH H); auto.
Qed.

Lemma set_keys k v m k' :
  In k' (map fst (JsMap.set k v m)) <-> k' = k \/ In k' (map fst m).
Proof.
  induction m as [|[k0 v0] m IH]; simpl; [intuition congruence|].
  destruct (String.eqb k k0) eqn:E; simpl.
  - apply String.eqb_eq in E. subst k0. intuition congruence.
  - rewrite IH. intuition congruence.
Qed.

Lemma set_NoDup k v m : NoDup (map fst m) -> NoDup (map fst (JsMap.set k v m)).
Proof.
  induction m as [|[k0 v0] m IH]; simpl; intros Hnd.
  - repeat constructor. intros H. apply list_elem_of_In in H. destruct H.
  - apply NoDup_cons in Hnd as [H0 Hnd]. destruct (String.eqb k k0) eqn:E; simpl.
    + apply String.eqb_eq in E. subst k0. apply NoDup_cons. split; assumption.
    + apply String.eqb_neq in E. apply NoDup_cons. split; [|auto].
      rewrite list_elem_of_In, set_keys. rewrite list_elem_of_In in H0.
      intros [->|H]; [congruence|tauto].
Qed.

Lemma delete_NoDup k m : NoDup (map fst m) -> NoDup (map fst (JsMap.delete k m)).
Proof.
  induction m as [|[k0 v0] m IH]; simpl; intros Hnd; [exact Hnd|].
  apply NoDup_cons in Hnd as [H0 Hnd]. destruct (String.eqb k k0); [auto|].
  simpl. apply NoDup_cons. split; [|auto].
  rewrite list_elem_of_In in *. intros H. apply H0.
  apply in_map_iff in H as (e & <- & He). apply delete_In in He as [He _].
  apply in_map. exact He.
Qed.

Lemma keyed_nil : KeyedById [].
Proof. split; constructor. Qed.

Lemma keyed_set k r ags : KeyedById ags -> id r = k -> KeyedById (JsMap.set k r ags).
Proof.
  intros [Hid Hnd] Hr. split; [apply set_Forall; assumption|apply set_NoDup, Hnd].
Qed.

Lemma keyed_delete k ags : KeyedById ags -> KeyedById (JsMap.delete k ags).
Proof.
  intros [Hid Hnd]. split; [|apply delete_NoDup, Hnd].
  rewrite Forall_forall in *. intros e He. apply list_elem_of_In, delete_In in He as [He _].
  apply Hid, list_elem_of_In, He.
Qed.

Lemma keyed_In k r ags : KeyedById ags -> In (k, r) ags -> id r = k.
Proof.
  intros [Hid _] Hin. rewrite Forall_forall in Hid.
  apply (Hid (k, r)), list_elem_of_In, Hin.
Qed.
Section Invariants.

Variable sha1_hex : string -> string.
Variable clock : nat -> Z.
Variable config : Config.

Lemma postEvent_run body st :
  postEvent sha1_hex clock config body st =
    match HookEventSchema body with
    | None => (BadRequest400, st)
    | Some ev =>
        (Ok200, exec (notifyClients clock)
                  (exec (hookBlock sha1_hex clock config ev) (stamped clock st)))
    end.
Proof.
  unfold postEvent, hookBlock. destruct (HookEventSchema body) as [ev|]; [|reflexivity].
  step_bind.
  destruct (negb (String.eqb (tool_name ev) "Task")
            && negb (String.eqb (tool_name ev) "TaskOutput")).
  - step_bind. reflexivity.
  - destruct (String.eqb (tool_name ev) "TaskOutput"), (hook_phase ev); step_bind; reflexivity.
Qed.

Lemma postComplete_run body st :
  postComplete clock config body st =
    match CompleteEventSchema body with
    | None => (BadRequest400, stamped clock st)
    | Some cev =>
        (Ok200,
         exec (notifyClients clock)
           match findMatchingAgent (agents st) (c_tool_use_id cev) (c_agent_id cev) with
           | Some (k, r) => after_complete clock config cev k r (stamped clock st)
           | None => stamped clock st
           end)
    end.
Proof.
  unfold postComplete. step_bind.
  destruct (CompleteEventSchema body) as [cev|]; [|reflexivity].
  step_bind. change (eval (gets agents) ?s) with (agents s).
  set (s1 := exec (setLastEventTime (eval (Date_now clock) st)) (exec (Date_now clock) st)).
  change (agents s1) with (agents st). change s1 with (stamped clock st). clear s1.
  destruct (findMatchingAgent (agents st) (c_tool_use_id cev) (c_agent_id cev)) as [[k r]|];
    [|reflexivity].
  cbv beta iota zeta. step_bind. unfold ret. f_equal. f_equal.
  unfold after_complete, complete_duration, complete_record. fold (complete_usage cev).
  cbv zeta. change (exec (gets agents) ?s) with s.
  set (st0 := stamped clock st).
  destruct (num_or_zero (c_duration_ms cev) =? 0); step_exec.
  - f_equal.
  - f_equal.
Qed.


Lemma findTaskOutputAgent_In ags taskId sessionId k r :
  findTaskOutputAgent ags taskId sessionId = Some (k, r) -> In (k, r) ags.
Proof.
  unfold findTaskOutputAgent.
  destruct (find (fun e : Ref => task_candidate taskId e.2) ags) as [o|] eqn:Hf.
  - intros [= ->]. apply find_some in Hf as [Hin _]. exact Hin.
  - intros Hfold. pose proof (older_fold_selected sessionId ags) as Hsel.
    rewrite Hfold in Hsel. destruct Hsel as (Hin & _). exact Hin.
Qed.

Lemma findMatchingAgent_In ags toolUseId agentId' k r :
  findMatchingAgent ags toolUseId agentId' = Some (k, r) ->
  In (k, r) ags /\ status r = running.
Proof.
  unfold findMatchingAgent.
  assert (Htier2 : match agentId' with
                   | Some a =>
                       if Js.nonempty a
                       then find (fun e : Ref => is_running (status e.2)
                                                 && opt_str_eqb (agentId e.2) a) ags
                       else None
                   | None => None
                   end = Some (k, r) -> In (k, r) ags /\ status r = running).
  { destruct agentId' as [a|]; [|discriminate]. destruct (Js.nonempty a); [|discriminate].
    intros Hf. apply find_some in Hf as [Hin Hc]. split; [exact Hin|].
    apply andb_true_iff in Hc as [Hc _]. apply is_running_true, Hc. }
  destruct toolUseId as [k0|]; [|exact Htier2].
  destruct (Js.nonempty k0); [|exact Htier2].
  destruct (JsMap.get k0 ags) as [record|] eqn:Hget; [|exact Htier2].
  destruct (is_running (status record)) eqn:Hrun; [|exact Htier2].
  intros [= <- <-]. split; [apply get_Some_In, Hget|apply is_running_true, Hrun].
Qed.

Lemma anyRunning_agents st st' : agents st' = agents st -> AnyRunning st' <-> AnyRunning st.
Proof. unfold AnyRunning. intros ->. reflexivity. Qed.

Lemma inv_frame st st' :
  agents st' = agents st -> autoResetTimer st' = autoResetTimer st ->
  RegistryInv st -> RegistryInv st'.
Proof.
  intros Ha Ht [HK HT]. split; [rewrite Ha; exact HK|].
  unfold TimerIdle. rewrite Ht, (anyRunning_agents _ _ Ha). exact HT.
Qed.

Lemma timerIdle_schedule st : TimerIdle (exec (scheduleAutoReset config) st).
Proof.
  unfold exec. rewrite scheduleAutoReset_run. cbn [snd]. unfold TimerIdle.
  rewrite (anyRunning_agents st _ eq_refl).
  cbn [autoResetTimer with_autoResetTimer].
  destruct (any_running (agents st)) eqn:Hrun; [congruence|].
  intros _. apply any_running_false, Hrun.
Qed.

Lemma timerIdle_none st : autoResetTimer st = None -> TimerIdle st.
Proof. unfold TimerIdle. congruence. Qed.

Lemma inv_stamped st : RegistryInv st -> RegistryInv (stamped clock st).
Proof. apply inv_frame; reflexivity. Qed.

Lemma inv_notify st : RegistryInv st -> RegistryInv (exec (notifyClients clock) st).
Proof. apply inv_frame; reflexivity. Qed.

Lemma inv_taskOutputPost ev st :
  RegistryInv st -> RegistryInv (exec (taskOutputPost clock config ev) st).
Proof.
  intros [HK HT].
  destruct (findTaskOutputAgent (agents st) (eventTaskId ev) (ev_session_id ev))
    as [[k r]|] eqn:Hf.
  - unfold exec. rewrite (taskOutputPost_run clock config ev st k r Hf). cbn [snd].
    split; [|apply timerIdle_schedule].
    rewrite (proj1 (after_output_completed_frame clock config ev k r st)).
    apply keyed_set; [exact HK|].
    destruct (output_completed_fields ev (clock (ticks st)) (clock (S (ticks st))) r)
      as ((Hid & _) & _).
    rewrite Hid. apply (keyed_In k r (agents st) HK), (findTaskOutputAgent_In _ _ _ _ _ Hf).
  - unfold exec, taskOutputPost. rewrite bind_run. unfold gets at 1, eval, exec.
    cbn [fst snd]. fold (eventTaskId ev). rewrite Hf. split; assumption.
Qed.

Lemma inv_prePhase ev d key st :
  RegistryInv st -> RegistryInv (exec (prePhase clock config ev d key) st).
Proof.
  intros [HK HT]. unfold exec. rewrite prePhase_run. cbn [snd].
  destruct (after_pre_frame clock config ev d key st) as (Hags & _ & _ & Htimer & _).
  cbv zeta in Hags.
  split; [|apply timerIdle_none, Htimer].
  rewrite Hags. apply keyed_set; [|reflexivity].
  unfold pre_base. destruct (quiet_period _ _); [apply keyed_nil|exact HK].
Qed.

Lemma resolvePost_keyed ev d key st :
  KeyedById (agents st) ->
  KeyedById (agents (exec (resolvePost clock ev d key) st)) /\
  id (eval (resolvePost clock ev d key) st) = key.
Proof.
  intros HK. unfold exec, eval, resolvePost, bind, gets. cbn [fst snd].
  destruct (JsMap.get key (agents st)) as [r|] eqn:Hget.
  - split; [exact HK|]. apply (keyed_In key r (agents st) HK), get_Some_In, Hget.
  - destruct (find (rekey_candidate (ev_session_id ev) d) (agents st)) as [[k1 r]|];
      cbn [fst snd agents with_agents].
    + split; [|reflexivity]. apply keyed_set; [apply keyed_delete, HK|reflexivity].
    + split; [|reflexivity]. apply keyed_set; [exact HK|reflexivity].
Qed.

Lemma inv_postPhase ev d key st :
  RegistryInv st -> RegistryInv (exec (postPhase clock config ev d key) st).
Proof.
  intros [HK HT].
  destruct (resolvePost_keyed ev d key st HK) as [HK0 Hid0].
  set (r0 := eval (resolvePost clock ev d key) st) in *.
  set (st0 := exec (resolvePost clock ev d key) st) in *.
  unfold exec at 1.
  rewrite (postPhase_run clock config ev d key st r0 st0)
    by (unfold r0, st0, eval, exec; destruct (resolvePost _ _ _ _ _); reflexivity).
  cbn [snd]. destruct (isBgLaunch (background r0) (tool_output ev)).
  - split; [|apply timerIdle_schedule].
    rewrite (proj1 (after_post_launched_frame clock config ev key r0 st0)).
    apply keyed_set; [exact HK0|].
    destruct (post_launched_fields ev (set_last_activity (clock (ticks st0)) r0))
      as ((Hid & _) & _).
    rewrite Hid. exact Hid0.
  - split; [|apply timerIdle_schedule].
    rewrite (proj1 (after_post_completed_frame clock config ev key r0 st0)).
    apply keyed_set; [exact HK0|].
    destruct (post_completed_fields ev (clock (S (ticks st0)))
                (set_last_activity (clock (ticks st0)) r0)) as ((Hid & _) & _).
    rewrite Hid. exact Hid0.
Qed.

Lemma inv_hookBlock ev st :
  RegistryInv st -> RegistryInv (exec (hookBlock sha1_hex clock config ev) st).
Proof.
  intros Hinv. unfold hookBlock.
  destruct (negb (String.eqb (tool_name ev) "Task")
            && negb (String.eqb (tool_name ev) "TaskOutput")); [exact Hinv|].
  destruct (String.eqb (tool_name ev) "TaskOutput"), (hook_phase ev);
    auto using inv_taskOutputPost, inv_prePhase, inv_postPhase.
Qed.

Lemma inv_postEvent body st :
  RegistryInv st -> RegistryInv (exec (postEvent sha1_hex clock config body) st).
Proof.
  intros Hinv. unfold exec. rewrite postEvent_run.
  destruct (HookEventSchema body) as [ev|]; [|exact Hinv].
  cbn [snd]. apply inv_notify, inv_hookBlock, inv_stamped, Hinv.
Qed.

Lemma after_complete_frame cev k r st0 :
  let st' := after_complete clock config cev k r st0 in
  agents st' =
    JsMap.set k (complete_record cev (clock (ticks st0)) (complete_duration clock cev r st0) r)
      (agents st0) /\
  messageCounter st' = (messageCounter st0 + 1)%N /\
  sessionUsage st' =
    (let su := sessionUsage st0 in
     let u := complete_usage cev in
     mkSessionUsage (add_if_nonzero (total_tokens su) (u_total_tokens u))
       (add_if_nonzero (tool_uses su) (u_tool_uses u))
       (add_if_nonzero (su_duration_ms su) (u_duration_ms u))
       (agent_count su + 1)).
Proof.
  unfold after_complete. cbv zeta.
  match goal with
  | |- context [exec (scheduleAutoReset config) ?s] =>
      destruct (schedule_frame config s) as (S1 & S2 & S3 & S4 & S5)
  end.
  match goal with
  | |- context [exec (addMessage clock config ?a ?b ?c) ?s] =>
      destruct (addMessage_frame clock config a b c s) as (A1 & A2 & A3)
  end.
  match goal with
  | |- context [exec (countCompletion ?u) ?s] =>
      destruct (count_frame u s) as (C1 & C2 & C3 & C4)
  end.
  rewrite S1, S3, S4, A1, A2, A3, C1, C3.
  split; [reflexivity|]. split; [reflexivity|].
  unfold exec. rewrite countCompletion_run. reflexivity.
Qed.

Lemma inv_postComplete body st :
  RegistryInv st -> RegistryInv (exec (postComplete clock config body) st).
Proof.
  intros Hinv. unfold exec. rewrite postComplete_run.
  destruct (CompleteEventSchema body) as [cev|]; [|apply inv_stamped, Hinv].
  cbn [snd]. apply inv_notify.
  destruct (findMatchingAgent (agents st) (c_tool_use_id cev) (c_agent_id cev))
    as [[k r]|] eqn:Hf; [|apply inv_stamped, Hinv].
  split; [|apply timerIdle_schedule].
  rewrite (proj1 (after_complete_frame cev k r (stamped clock st))).
  apply keyed_set; [apply Hinv|].
  apply (keyed_In k r (agents st)); [apply Hinv|].
  apply (findMatchingAgent_In _ _ _ _ _ Hf).
Qed.

Lemma not_anyRunning_nil st : agents st = [] -> ~ AnyRunning st.
Proof. intros H (e & He & _). rewrite H in He. destruct He. Qed.

Lemma inv_resetState st :
  RegistryInv st -> RegistryInv (exec (resetState clock) st).
Proof.
  intros _. unfold exec. rewrite resetState_run. cbn [snd].
  split; [apply keyed_nil|]. intros _. apply not_anyRunning_nil. reflexivity.
Qed.

Lemma inv_autoResetFire st :
  RegistryInv st -> RegistryInv (exec (autoResetFire clock config) st).
Proof.
  intros [HK HT]. unfold exec. rewrite autoResetFire_run. cbn [snd].
  destruct (any_running (agents st)) eqn:Hrun.
  - split; [exact HK|apply timerIdle_none; reflexivity].
  - destruct (clock (ticks st) - lastEventTime st <? bossActiveMs config).
    + split; [exact HK|]. intros _. apply any_running_false in Hrun. exact Hrun.
    + split; [apply keyed_nil|apply timerIdle_none; reflexivity].
Qed.

End Invariants.
(** ** Background cleanup *)

Section Cleanup.

Variable clock : nat -> Z.
Variable config : Config.
Variable settings : Settings.

Lemma markStale_cons now k r l st :
  markStale clock settings now ((k, r) :: l) st =
    (let st1 := if is_stale settings now r then with_ticks (S (ticks st)) st else st in
     let rest := markStale clock settings now l st1 in
     (((k, if is_stale settings now r then stale_at now (clock (ticks st)) r else r)
         :: rest.1.1,
       is_stale settings now r || rest.1.2), rest.2)).
Proof.
  cbn [markStale]. fold (is_stale settings now r).
  destruct (is_stale settings now r); reflexivity.
Qed.

(** The loop only reads the clock. *)
Lemma markStale_state now l st :
  exists n, exec (markStale clock settings now l) st = with_ticks n st.
Proof.
  revert st. induction l as [|[k r] l IH]; intros st.
  - exists (ticks st). destruct st; reflexivity.
  - unfold exec. rewrite markStale_cons. cbn [snd].
    destruct (is_stale settings now r).
    + destruct (IH (with_ticks (S (ticks st)) st)) as [n Hn]. exists n.
      unfold exec in Hn. rewrite Hn. reflexivity.
    + apply IH.
Qed.

Lemma markStale_shape now l st :
  Forall2 (fun e e' : Ref =>
             e'.1 = e.1 /\
             if is_stale settings now e.2
             then exists n, (ticks st <= n)%nat /\ e'.2 = stale_at now (clock n) e.2
             else e'.2 = e.2)
    l (eval (markStale clock settings now l) st).1.
Proof.
  revert st. induction l as [|[k r] l IH]; intros st.
  - constructor.
  - unfold eval. rewrite markStale_cons. cbn [fst snd]. constructor.
    + split; [reflexivity|]. cbn [snd]. destruct (is_stale settings now r); eauto.
    + eapply Forall2_impl; [apply IH|]. intros e e' [He Hr]. split; [exact He|].
      destruct (is_stale settings now e.2); [|exact Hr].
      destruct Hr as (n & Hn & Hr). exists n. split; [|exact Hr].
      destruct (is_stale settings now r); cbn [ticks with_ticks] in Hn; lia.
Qed.

Lemma markStale_flag now l st :
  (eval (markStale clock settings now l) st).2 =
    existsb (fun e : Ref => is_stale settings now e.2) l.
Proof.
  revert st. induction l as [|[k r] l IH]; intros st; [reflexivity|].
  unfold eval. rewrite markStale_cons. cbn [fst snd existsb]. f_equal. apply IH.
Qed.

Lemma runCleanup_run ap st :
  runCleanup clock config settings ap st =
    (let now := clock (ticks st) in
     let marked := markStale clock settings now (agents st) (with_ticks (S (ticks st)) st) in
     let s1 := with_agents marked.1.1 marked.2 in
     let s2 := if marked.1.2
               then exec (scheduleAutoReset config) (exec (notifyClients clock) s1)
               else s1 in
     (cleanupApprovals settings now ap,
      with_messages
        (shift_while (fun m => m_timestamp m <? now - cleanupMs settings) (messages s2))
        (with_agents (filter (kept_by_cleanup settings now) (agents s2)) s2))).
Proof.
  unfold runCleanup. step_bind. cbv zeta.
  change (eval (Date_now clock) st) with (clock (ticks st)).
  change (exec (Date_now clock) st) with (with_ticks (S (ticks st)) st).
  change (eval (gets agents) ?s) with (agents s).
  change (exec (gets agents) ?s) with s.
  change (agents (with_ticks (S (ticks st)) st)) with (agents st).
  unfold eval, exec.
  destruct (markStale clock settings (clock (ticks st)) (agents st)
              (with_ticks (S (ticks st)) st)) as [[ags' flag] s'].
  cbn [fst snd]. destruct flag; reflexivity.
Qed.


Lemma keyed_filter (f : Ref -> bool) ags : KeyedById ags -> KeyedById (filter f ags).
Proof.
  unfold JsMap.t. intros [Hid Hnd]. split.
  - apply Forall_forall. intros e He. rewrite Forall_forall in Hid.
    apply Hid. apply list_elem_of_filter in He. tauto.
  - clear Hid. induction ags as [|[k r] ags IH]; [constructor|].
    cbn [map fst] in Hnd. apply NoDup_cons in Hnd as [Hk Hnd].
    rewrite filter_cons. destruct (decide (f (k, r))); [|auto].
    cbn [map fst]. apply NoDup_cons. split; [|auto].
    intros Hin. apply Hk. apply list_elem_of_fmap in Hin as (e & He1 & He2).
    apply list_elem_of_filter in He2 as [_ He2].
    apply list_elem_of_fmap. exists e. split; assumption.
Qed.

Lemma keyed_Forall2 (l l' : JsMap.t) :
  Forall2 (fun e e' : Ref => e'.1 = e.1 /\ id e'.2 = id e.2) l l' ->
  KeyedById l -> KeyedById l'.
Proof.
  intros HF [Hid Hnd].
  assert (Hkeys : map fst l' = map fst l).
  { induction HF as [|e e' l l' [He _] _ IH]; [reflexivity|]. cbn [map]. rewrite He, IH; auto.
    - apply Forall_cons in Hid. tauto.
    - cbn [map] in Hnd. apply NoDup_cons in Hnd. tauto. }
  split; [|rewrite Hkeys; exact Hnd].
  clear Hnd Hkeys. induction HF as [|e e' l l' [He1 He2] _ IH]; [constructor|].
  apply Forall_cons in Hid as [H0 Hid]. constructor; [congruence|auto].
Qed.

Lemma Forall2_In_l {A B} (R : A -> B -> Prop) l l' x :
  Forall2 R l l' -> In x l -> exists y, In y l' /\ R x y.
Proof.
  induction 1 as [|a b l l' Hab _ IH]; [intros []|].
  intros [<-|Hin]; [exists b; simpl; auto|].
  destruct (IH Hin) as (y & Hy & Hr). exists y. simpl. auto.
Qed.

Lemma Forall2_In_r {A B} (R : A -> B -> Prop) l l' y :
  Forall2 R l l' -> In y l' -> exists x, In x l /\ R x y.
Proof.
  induction 1 as [|a b l l' Hab _ IH]; [intros []|].
  intros [<-|Hin]; [exists a; simpl; auto|].
  destruct (IH Hin) as (x & Hx & Hr). exists x. simpl. auto.
Qed.

Lemma stale_at_fields now t r :
  id (stale_at now t r) = id r /\ status (stale_at now t r) = errored /\
  error (stale_at now t r) = Some STALE /\ ended_at (stale_at now t r) = Some t /\
  duration_ms (stale_at now t r) = Some (now - started_at r).
Proof. repeat split. Qed.

(** The stale check makes no record running. *)
Lemma markStale_running now l st e' :
  In e' (eval (markStale clock settings now l) st).1 -> status e'.2 = running ->
  In e' l /\ is_stale settings now e'.2 = false.
Proof.
  intros Hin Hrun.
  destruct (Forall2_In_r _ _ _ _ (markStale_shape now l st) Hin) as ([k r] & Hx & Hk & Hr).
  cbn [fst snd] in Hk, Hr. destruct (is_stale settings now r) eqn:Hs.
  - destruct Hr as (n & _ & Hr). rewrite Hr in Hrun. discriminate.
  - destruct e' as [k' r']. cbn [fst snd] in *. subst. auto.
Qed.

Lemma inv_runCleanup ap st :
  RegistryInv st -> RegistryInv (exec (runCleanup clock config settings ap) st).
Proof.
  intros [HK HT]. unfold exec. rewrite runCleanup_run. cbv zeta. cbn [snd].
  destruct (markStale_state (clock (ticks st)) (agents st) (with_ticks (S (ticks st)) st))
    as [n Hn].
  pose proof (markStale_shape (clock (ticks st)) (agents st) (with_ticks (S (ticks st)) st))
    as Hshape.
  pose proof (markStale_running (clock (ticks st)) (agents st) (with_ticks (S (ticks st)) st))
    as Hrun.
  unfold exec in Hn. unfold eval in Hshape, Hrun.
  destruct (markStale clock settings (clock (ticks st)) (agents st)
              (with_ticks (S (ticks st)) st)) as [[ags' flag] s'].
  cbn [fst snd] in *. subst s'.
  assert (HK' : KeyedById ags').
  { apply (keyed_Forall2 (agents st)); [|exact HK].
    eapply Forall2_impl; [exact Hshape|]. intros e e' [He Hr]. split; [exact He|].
    destruct (is_stale settings (clock (ticks st)) e.2);
      [destruct Hr as (m & _ & ->)|rewrite Hr]; reflexivity. }
  set (s1 := with_agents ags' (with_ticks n (with_ticks (S (ticks st)) st))).
  assert (Hinv2 : RegistryInv (if flag
                               then exec (scheduleAutoReset config)
                                      (exec (notifyClients clock) s1)
                               else s1)).
  { destruct flag.
    - split; [|apply timerIdle_schedule].
      rewrite (proj1 (schedule_frame config _)). exact HK'.
    - split; [exact HK'|]. intros Ht (e & He & Hr). apply HT; [exact Ht|].
      exists e. split; [|exact Hr]. apply (Hrun e He Hr). }
  match goal with
  | |- RegistryInv (with_messages _ (with_agents _ ?s)) => set (s2 := s) in *
  end.
  destruct Hinv2 as [HK2 HT2]. split.
  - apply keyed_filter, HK2.
  - intros Ht (e & He & Hr). apply HT2; [exact Ht|]. exists e. split; [|exact Hr].
    cbn [agents with_messages with_agents] in He.
    apply list_elem_of_In, list_elem_of_filter in He as [_ He]. apply list_elem_of_In, He.
Qed.

End Cleanup.
(** ** The server as a whole *)

Section Reachable.

Variable sha1_hex : string -> string.
Variable clock : nat -> Z.
Variable config : Config.
Variable settings : Settings.
Variable randomUUID : nat -> string.

Lemma markRestarted_state l st :
  exists n, exec (markRestarted clock l) st = with_ticks n st.
Proof.
  revert st. induction l as [|[k a] l IH]; intros st.
  - exists (ticks st). destruct st; reflexivity.
  - cbn [markRestarted]. rewrite !exec_bind.
    destruct (is_running (status a)).
    + rewrite exec_bind.
      destruct (IH (exec (ret (set_ended_at
                                 (Some (eval (Date_now clock) st))
                                 (set_error (Some RESTARTED) (set_status errored a))))
                      (exec (Date_now clock) st))) as [n Hn].
      exists n. unfold exec at 1. unfold ret at 1. cbn [snd]. rewrite Hn. reflexivity.
    + destruct (IH (exec (ret a) st)) as [n Hn]. exists n.
      unfold exec at 1. unfold ret at 1. cbn [snd]. rewrite Hn. reflexivity.
Qed.

Lemma markRestarted_shape l st :
  Forall2 (fun e e' : Ref => e'.1 = e.1 /\ id e'.2 = id e.2)
    l (eval (markRestarted clock l) st).
Proof.
  revert st. induction l as [|[k a] l IH]; intros st; [constructor|].
  rewrite markRestarted_cons. constructor; [|apply IH].
  split; [reflexivity|]. destruct (is_running (status a)); reflexivity.
Qed.

Lemma load_keyed l m :
  KeyedById m ->
  KeyedById (fold_left (fun m agent => JsMap.set (id agent) agent m) l m).
Proof.
  revert m. induction l as [|a l IH]; intros m Hm; [exact Hm|].
  cbn [fold_left]. apply IH, keyed_set; [exact Hm|reflexivity].
Qed.

Lemma loadFromDb_timer db st :
  autoResetTimer (exec (loadFromDb clock db) st) = autoResetTimer st.
Proof.
  unfold loadFromDb. step_exec.
  change (eval (gets agents) ?s) with (agents s). change (exec (gets agents) ?s) with s.
  match goal with
  | |- context [exec (markRestarted clock ?l) ?s] =>
      destruct (markRestarted_state l s) as [n Hn]; rewrite Hn
  end.
  destruct (db_messageCounter db), (db_sessionUsage db); reflexivity.
Qed.

Lemma inv_boot db : RegistryInv (core (boot clock db)).
Proof.
  unfold boot. cbn [core]. split.
  - rewrite loadFromDb_agents. eapply keyed_Forall2; [apply markRestarted_shape|].
    apply load_keyed, keyed_nil.
  - apply timerIdle_none. rewrite loadFromDb_timer. reflexivity.
Qed.

Lemma inv_with_ticks n st : RegistryInv st -> RegistryInv (with_ticks n st).
Proof. apply inv_frame; reflexivity. Qed.

Lemma buildState_state ap st :
  exec (buildState clock config settings ap) st = with_ticks (S (ticks st)) st.
Proof. reflexivity. Qed.

Lemma approvalRequest_state body ap st :
  exists n, exec (approvalRequest clock randomUUID body ap) st = with_ticks n st.
Proof.
  unfold approvalRequest. destruct (approvalEnabled ap); cbn [negb].
  - destruct (ApprovalRequestSchema body) as [[[tn ti] sid]|].
    + exists (S (S (ticks st))). reflexivity.
    + exists (ticks st). destruct st; reflexivity.
  - exists (ticks st). destruct st; reflexivity.
Qed.

Lemma approvalRespond_state body ap st :
  exists n, exec (approvalRespond clock body ap) st = with_ticks n st.
Proof.
  unfold approvalRespond. destruct (ApprovalRespondSchema body) as [[rid d]|].
  - destruct (StrMap.get rid (pendingApprovals ap)).
    + exists (S (S (ticks st))). reflexivity.
    + exists (ticks st). destruct st; reflexivity.
  - exists (ticks st). destruct st; reflexivity.
Qed.

Lemma approveAll_state ids ap st :
  exec (approveAll clock ids ap) st = with_ticks (length ids + ticks st) st.
Proof.
  revert ap st. induction ids as [|i ids IH]; intros ap st.
  - destruct st; reflexivity.
  - cbn [approveAll]. rewrite exec_bind, IH. cbn [length].
    change (exec (Date_now clock) st) with (with_ticks (S (ticks st)) st).
    cbn [ticks with_ticks]. rewrite Nat.add_succ_r. reflexivity.
Qed.

Lemma approvalToggle_state ap st :
  exists n, exec (approvalToggle clock ap) st = with_ticks n st.
Proof.
  unfold approvalToggle. cbv zeta. destruct (approvalEnabled ap); cbn [negb].
  - eexists. step_exec. rewrite approveAll_state. reflexivity.
  - exists (S (ticks st)). reflexivity.
Qed.

Lemma inv_step w req :
  RegistryInv (core w) ->
  RegistryInv (core (step sha1_hex clock config settings randomUUID w req)).
Proof.
  intros Hinv. destruct req; cbn [step core].
  - apply inv_postEvent, Hinv.
  - apply inv_postComplete, Hinv.
  - apply (inv_frame (core w)); [reflexivity|reflexivity|exact Hinv].
  - apply (inv_resetState clock), Hinv.
  - rewrite buildState_state. apply inv_with_ticks, Hinv.
  - destruct (autoResetTimer (core w)); [apply inv_autoResetFire|]; exact Hinv.
  - apply inv_runCleanup, Hinv.
  - destruct (approvalRequest_state body (gate w) (core w)) as [n ->].
    apply inv_with_ticks, Hinv.
  - exact Hinv.
  - destruct (approvalRespond_state body (gate w) (core w)) as [n ->].
    apply inv_with_ticks, Hinv.
  - destruct (approvalToggle_state (gate w) (core w)) as [n ->].
    apply inv_with_ticks, Hinv.
  - destruct (pendingTimer res (gate w)); exact Hinv.
  - exact Hinv.
Qed.

(** X9. In every state that the server reaches from its start, whatever
    the durable storage held and whatever requests, timer callbacks and
    cleanup runs followed, every record of the registry is stored under
    its own id, no key is held twice, and the countdown to the automatic
    reset is pending only while no agent is running. *)
Theorem registry_invariant (db : Db) (reqs : list Request) :
  let w := run sha1_hex clock config settings randomUUID (boot clock db) reqs in
  KeyedById (agents (core w)) /\ TimerIdle (core w).
Proof.
  cbv zeta. unfold run.
  generalize (inv_boot db). generalize (boot clock db).
  induction reqs as [|req reqs IH]; intros w Hinv; [exact Hinv|].
  cbn [fold_left]. apply IH, inv_step, Hinv.
Qed.

End Reachable.
Section CleanupProperties.

Variable clock : nat -> Z.
Variable config : Config.
Variable settings : Settings.

Lemma kept_not_expired now (e : Ref) :
  kept_by_cleanup settings now e = true <-> ~ Expired settings now e.2.
Proof.
  unfold kept_by_cleanup, Expired.
  rewrite orb_true_iff, negb_true_iff, Z.ltb_ge, is_running_true.
  destruct (is_running (status e.2)) eqn:Hrun.
  - apply is_running_true in Hrun. tauto.
  - apply is_running_false in Hrun. split; [intros [H|H]; [tauto|lia]|].
    intros H. right. apply Z.nlt_ge. tauto.
Qed.

Lemma runCleanup_agents ap st :
  agents (exec (runCleanup clock config settings ap) st) =
    filter (kept_by_cleanup settings (clock (ticks st)))
      (eval (markStale clock settings (clock (ticks st)) (agents st))
         (with_ticks (S (ticks st)) st)).1.
Proof.
  unfold exec. rewrite runCleanup_run. cbv zeta. cbn [snd agents with_messages with_agents].
  unfold eval.
  destruct (markStale clock settings (clock (ticks st)) (agents st)
              (with_ticks (S (ticks st)) st)) as [[ags' flag] s'].
  cbn [fst snd]. destruct flag; [rewrite (proj1 (schedule_frame config _))|]; reflexivity.
Qed.

Lemma runCleanup_messages ap st :
  messages (exec (runCleanup clock config settings ap) st) =
    shift_while (fun m => m_timestamp m <? clock (ticks st) - cleanupMs settings)
      (messages st) /\
  messageCounter (exec (runCleanup clock config settings ap) st) = messageCounter st /\
  sessionUsage (exec (runCleanup clock config settings ap) st) = sessionUsage st.
Proof.
  unfold exec. rewrite runCleanup_run. cbv zeta.
  cbn [snd messages messageCounter sessionUsage with_messages with_agents].
  destruct (markStale_state clock settings (clock (ticks st)) (agents st)
              (with_ticks (S (ticks st)) st)) as [n Hn].
  unfold exec in Hn.
  destruct (markStale clock settings (clock (ticks st)) (agents st)
              (with_ticks (S (ticks st)) st)) as [[ags' flag] s'].
  cbn [fst snd] in *. subst s'.
  destruct flag.
  - destruct (schedule_frame config
                (exec (notifyClients clock)
                   (with_agents ags' (with_ticks n (with_ticks (S (ticks st)) st)))))
      as (_ & S2 & S3 & S4 & _).
    rewrite S2, S3, S4. repeat split.
  - repeat split.
Qed.

Lemma runCleanup_In ap st (e : Ref) :
  In e (agents (exec (runCleanup clock config settings ap) st)) <->
  In e (eval (markStale clock settings (clock (ticks st)) (agents st))
          (with_ticks (S (ticks st)) st)).1 /\
  ~ Expired settings (clock (ticks st)) e.2.
Proof.
  rewrite runCleanup_agents.
  rewrite <- list_elem_of_In, list_elem_of_filter, list_elem_of_In.
  rewrite <- kept_not_expired. unfold Is_true.
  destruct (kept_by_cleanup settings (clock (ticks st)) e); intuition congruence.
Qed.

(** X10. A cleanup pass at the clock reading [now] keeps a record that is
    not stale exactly when it has not expired, unchanged; it turns a stale
    record into an errored one; and the registry afterwards holds nothing
    else: every record in it is unexpired and not stale, and is either a
    record from before or the errored version of a stale one. *)
Theorem cleanup_registry (ap : Approvals) (st : State) :
  let now := clock (ticks st) in
  let st' := exec (runCleanup clock config settings ap) st in
  (forall k r, In (k, r) (agents st) -> is_stale settings now r = false ->
     (In (k, r) (agents st') <-> ~ Expired settings now r)) /\
  (forall k r, In (k, r) (agents st) -> is_stale settings now r = true ->
     exists n, (ticks st < n)%nat /\
       (~ Expired settings now (stale_at now (clock n) r) ->
        In (k, stale_at now (clock n) r) (agents st'))) /\
  (forall k r', In (k, r') (agents st') ->
     ~ Expired settings now r' /\ is_stale settings now r' = false /\
     (In (k, r') (agents st) \/
      exists r n, In (k, r) (agents st) /\ is_stale settings now r = true /\
                  r' = stale_at now (clock n) r)).
Proof.
  cbv zeta.
  pose proof (markStale_shape clock settings (clock (ticks st)) (agents st)
                (with_ticks (S (ticks st)) st)) as Hshape.
  split; [|split].
  - intros k r Hin Hs. rewrite runCleanup_In. cbn [snd].
    destruct (Forall2_In_l _ _ _ _ Hshape Hin) as ([k' r'] & Hin' & Hk & Hr).
    cbn [fst snd] in Hk, Hr. rewrite Hs in Hr. subst k' r'. tauto.
  - intros k r Hin Hs.
    destruct (Forall2_In_l _ _ _ _ Hshape Hin) as ([k' r'] & Hin' & Hk & Hr).
    cbn [fst snd] in Hk, Hr. rewrite Hs in Hr. destruct Hr as (n & Hn & ->). subst k'.
    exists n. split; [cbn [ticks with_ticks] in Hn; lia|].
    intros Hexp. apply runCleanup_In. split; [exact Hin'|exact Hexp].
  - intros k r' Hin. apply runCleanup_In in Hin as [Hin Hexp]. cbn [snd] in Hexp.
    split; [exact Hexp|].
    destruct (Forall2_In_r _ _ _ _ Hshape Hin) as ([k0 r] & Hin0 & Hk & Hr).
    cbn [fst snd] in Hk, Hr. subst k0.
    destruct (is_stale settings (clock (ticks st)) r) eqn:Hs.
    + destruct Hr as (n & _ & ->). split; [reflexivity|]. right. exists r, n. auto.
    + subst r'. split; [exact Hs|]. left. exact Hin0.
Qed.

(** X11. With a clock that never runs backwards and a non-negative
    retention time, a running record without activity for more than
    [staleAgentMs] is still in the registry after the cleanup pass that
    finds it, errored with the stale reason, ended at a clock reading not
    before the pass, and with the time since its start as duration. *)
Theorem cleanup_keeps_marked_stale (ap : Approvals) (st : State) (k : string)
    (r : AgentRecord) :
  (forall i j, (i <= j)%nat -> clock i <= clock j) ->
  0 <= cleanupMs settings ->
  In (k, r) (agents st) -> status r = running ->
  staleAgentMs settings < clock (ticks st) - last_activity r ->
  let now := clock (ticks st) in
  exists r' t, In (k, r') (agents (exec (runCleanup clock config settings ap) st)) /\
    id r' = id r /\ status r' = errored /\ error r' = Some STALE /\
    ended_at r' = Some t /\ now <= t /\ duration_ms r' = Some (now - started_at r).
Proof.
  intros Hmono Hkeep Hin Hrun Hidle now.
  assert (Hs : is_stale settings now r = true).
  { unfold is_stale. rewrite andb_true_iff, is_running_true, Z.ltb_lt. auto. }
  pose proof (markStale_shape clock settings now (agents st)
                (with_ticks (S (ticks st)) st)) as Hshape.
  destruct (Forall2_In_l _ _ _ _ Hshape Hin) as ([k' r'] & Hin' & Hk & Hr).
  cbn [fst snd] in Hk, Hr. rewrite Hs in Hr. destruct Hr as (n & Hn & ->). subst k'.
  cbn [ticks with_ticks] in Hn.
  assert (Hle : now <= clock n) by (apply Hmono; lia).
  exists (stale_at now (clock n) r), (clock n).
  split; [|repeat split; exact Hle].
  apply runCleanup_In. split; [exact Hin'|].
  intros [_ Hexp]. cbn in Hexp. fold now in Hexp. lia.
Qed.

(** X12. A cleanup pass drops from the message log exactly its longest
    leading run of messages older than the retention time; what remains is
    the rest of the log in order, and the message counter and the usage
    counters are untouched. *)
Theorem cleanup_trims_log_front (ap : Approvals) (st : State) :
  let cutoff := clock (ticks st) - cleanupMs settings in
  let st' := exec (runCleanup clock config settings ap) st in
  (exists dropped,
     messages st = (dropped ++ messages st')%list /\
     Forall (fun m => m_timestamp m < cutoff) dropped) /\
  (forall m rest, messages st' = m :: rest -> cutoff <= m_timestamp m) /\
  messageCounter st' = messageCounter st /\
  sessionUsage st' = sessionUsage st.
Proof.
  cbv zeta. destruct (runCleanup_messages ap st) as (Hm & Hc & Hu).
  rewrite Hm, Hc, Hu. clear Hm Hc Hu. split; [|split; [|split; reflexivity]].
  - induction (messages st) as [|m l IH]; [exists []; split; [reflexivity|constructor]|].
    cbn [shift_while].
    destruct (m_timestamp m <? clock (ticks st) - cleanupMs settings) eqn:Hold.
    + destruct IH as (dropped & Heq & Hall). exists (m :: dropped).
      split; [cbn [app]; rewrite <- Heq; reflexivity|].
      constructor; [apply Z.ltb_lt, Hold|exact Hall].
    + exists []. split; [reflexivity|constructor].
  - induction (messages st) as [|m0 l IH]; [discriminate|].
    cbn [shift_while].
    destruct (m_timestamp m0 <? clock (ticks st) - cleanupMs settings) eqn:Hold; [exact IH|].
    intros m rest [= <- <-]. apply Z.ltb_ge, Hold.
Qed.

End CleanupProperties.
(** ** Usage counters *)

Lemma parseInt_go_nonneg s acc : 0 <= acc -> 0 <= Js.parseInt_go acc s.
Proof.
  revert acc. induction s as [|c s IH]; intros acc Hacc; cbn [Js.parseInt_go]; [exact Hacc|].
  destruct (Js.is_digit c); [|exact Hacc]. apply IH. lia.
Qed.

Lemma parseInt_nonneg s : 0 <= Js.parseInt s.
Proof. apply parseInt_go_nonneg. lia. Qed.

Lemma parseUsage_nonneg out u :
  parseUsage out = Some u ->
  0 <= u_total_tokens u /\ 0 <= u_tool_uses u /\ 0 <= u_duration_ms u.
Proof.
  unfold parseUsage. destruct out as [out|]; [|discriminate]. cbv zeta.
  destruct (Re.group1 (Re.exec (counter_re "total_tokens") _)) as [a|];
    destruct (Re.group1 (Re.exec (counter_re "tool_uses") _)) as [b|];
    destruct (Re.group1 (Re.exec (counter_re "duration_ms") _)) as [c|];
    intros [= <-]; cbn [u_total_tokens u_tool_uses u_duration_ms];
    repeat split; try apply parseInt_nonneg; lia.
Qed.

Lemma add_if_nonzero_le acc d : 0 <= d -> acc <= add_if_nonzero acc d.
Proof. unfold add_if_nonzero. destruct (d =? 0); lia. Qed.

Lemma UsageLe_refl su : UsageLe su su.
Proof. unfold UsageLe. lia. Qed.

Lemma counted_le u su :
  (forall u', u = Some u' ->
     0 <= u_total_tokens u' /\ 0 <= u_tool_uses u' /\ 0 <= u_duration_ms u') ->
  UsageLe su (counted u su) /\ agent_count (counted u su) = agent_count su + 1.
Proof.
  intros Hu. destruct u as [u|]; cbn.
  - destruct (Hu u eq_refl) as (H1 & H2 & H3).
    unfold UsageLe; cbn. repeat split; try apply add_if_nonzero_le; try assumption; lia.
  - unfold UsageLe; cbn. repeat split; lia.
Qed.

Section Usage.

Variable sha1_hex : string -> string.
Variable clock : nat -> Z.
Variable config : Config.

Lemma count_usage u st :
  sessionUsage (exec (countCompletion u) st) = counted u (sessionUsage st).
Proof. unfold exec. rewrite countCompletion_run. destruct u; reflexivity. Qed.

Lemma after_output_completed_usage ev k r st0 :
  sessionUsage (after_output_completed clock config ev k r st0) =
    counted (parseUsage (tool_output ev)) (sessionUsage st0).
Proof.
  unfold after_output_completed. cbv zeta.
  rewrite (proj1 (proj2 (proj2 (proj2 (schedule_frame config _))))), count_usage.
  rewrite (proj1 (proj2 (addMessage_frame clock config _ _ _ _))). reflexivity.
Qed.

Lemma after_post_completed_usage ev key r0 st0 :
  sessionUsage (after_post_completed clock config ev key r0 st0) =
    counted (parseUsage (tool_output ev)) (sessionUsage st0).
Proof.
  unfold after_post_completed. cbv zeta.
  rewrite (proj1 (proj2 (proj2 (proj2 (schedule_frame config _))))), count_usage.
  rewrite (proj1 (proj2 (addMessage_frame clock config _ _ _ _))). reflexivity.
Qed.

Lemma resolvePost_usage ev d key st :
  sessionUsage (exec (resolvePost clock ev d key) st) = sessionUsage st.
Proof.
  unfold exec, resolvePost, bind, gets. cbn [fst snd].
  destruct (JsMap.get key (agents st)); [reflexivity|].
  destruct (find (rekey_candidate (ev_session_id ev) d) (agents st)) as [[k1 r]|]; reflexivity.
Qed.

Lemma taskOutputPost_none ev st :
  findTaskOutputAgent (agents st) (eventTaskId ev) (ev_session_id ev) = None ->
  taskOutputPost clock config ev st = (tt, st).
Proof.
  intros Hf. unfold taskOutputPost. rewrite bind_run. unfold gets at 1, eval, exec.
  cbn [fst snd]. fold (eventTaskId ev). rewrite Hf. reflexivity.
Qed.

(** X13. A post-phase hook event never lowers a usage counter of the
    session: total tokens, tool uses and duration stay or grow, and the
    number of completed agents stays or grows by one. *)
Theorem hook_post_never_lowers_usage (body : json) (ev : HookEvent) (st : State) :
  HookEventSchema body = Some ev -> hook_phase ev = post ->
  let su := sessionUsage st in
  let su' := sessionUsage (exec (postEvent sha1_hex clock config body) st) in
  UsageLe su su' /\ agent_count su' <= agent_count su + 1.
Proof.
  intros Hparse Hphase. cbv zeta. unfold exec. rewrite postEvent_run, Hparse. cbn [snd].
  rewrite (proj1 (proj2 (proj2 (proj2 (notify_frame clock _))))).
  change (sessionUsage st) with (sessionUsage (stamped clock st)).
  generalize (stamped clock st). clear st. intros st.
  assert (Hcounted : forall out,
            UsageLe (sessionUsage st) (counted (parseUsage out) (sessionUsage st)) /\
            agent_count (counted (parseUsage out) (sessionUsage st))
              <= agent_count (sessionUsage st) + 1).
  { intros out. destruct (counted_le (parseUsage out) (sessionUsage st)) as [H1 H2].
    - intros u Hu. apply (parseUsage_nonneg out u Hu).
    - split; [exact H1|lia]. }
  assert (Hsame : UsageLe (sessionUsage st) (sessionUsage st) /\
                  agent_count (sessionUsage st) <= agent_count (sessionUsage st) + 1).
  { split; [apply UsageLe_refl|lia]. }
  unfold hookBlock. rewrite Hphase.
  destruct (negb (String.eqb (tool_name ev) "Task")
            && negb (String.eqb (tool_name ev) "TaskOutput")); [exact Hsame|].
  destruct (String.eqb (tool_name ev) "TaskOutput").
  - destruct (findTaskOutputAgent (agents st) (eventTaskId ev) (ev_session_id ev))
      as [[k r]|] eqn:Hf.
    + unfold exec. rewrite (taskOutputPost_run clock config ev st k r Hf). cbn [snd].
      rewrite after_output_completed_usage. apply Hcounted.
    + unfold exec. rewrite (taskOutputPost_none ev st Hf). exact Hsame.
  - set (d := eventDescription ev). set (key := eventKey sha1_hex ev).
    set (r0 := eval (resolvePost clock ev d key) st).
    set (st0 := exec (resolvePost clock ev d key) st).
    unfold exec at 1 2.
    rewrite (postPhase_run clock config ev d key st r0 st0)
      by (unfold r0, st0, eval, exec; destruct (resolvePost _ _ _ _ _); reflexivity).
    cbn [snd]. destruct (isBgLaunch (background r0) (tool_output ev)).
    + rewrite (proj1 (proj2 (after_post_launched_frame clock config ev key r0 st0))).
      unfold st0. rewrite resolvePost_usage. exact Hsame.
    + rewrite after_post_completed_usage. unfold st0. rewrite resolvePost_usage.
      apply Hcounted.
Qed.

End Usage.
(** ** POST /complete: what is recorded, and replays *)

Lemma set_length_In k (r v : AgentRecord) m :
  In (k, r) m -> length (JsMap.set k v m) = length m.
Proof.
  induction m as [|[k0 v0] m IH]; [intros []|]. cbn [JsMap.set].
  destruct (String.eqb k k0) eqn:E; [reflexivity|].
  intros [[= -> ->]|Hin]; [rewrite String.eqb_refl in E; discriminate|].
  cbn [length]. rewrite IH; auto.
Qed.

Lemma set_In_NoDup k v (e : Ref) m :
  NoDup (map fst m) -> In e (JsMap.set k v m) -> e = (k, v) \/ (In e m /\ e.1 <> k).
Proof.
  induction m as [|[k0 v0] m IH]; cbn [JsMap.set map fst]; intros Hnd.
  - intros [<-|[]]. left. reflexivity.
  - apply NoDup_cons in Hnd as [H0 Hnd]. destruct (String.eqb k k0) eqn:E.
    + apply String.eqb_eq in E. subst k0. intros [<-|Hin]; [left; reflexivity|].
      right. split; [right; exact Hin|]. intros <-. apply H0.
      apply list_elem_of_In, in_map, Hin.
    + apply String.eqb_neq in E. intros [<-|Hin].
      * right. split; [left; reflexivity|]. cbn. congruence.
      * destruct (IH Hnd Hin) as [->|[Hin' Hne]]; [left; reflexivity|].
        right. split; [right; exact Hin'|exact Hne].
Qed.

Section CompleteProperties.

Variable clock : nat -> Z.
Variable config : Config.

Lemma complete_record_fields cev t d r :
  let r' := complete_record cev t d r in
  id r' = id r /\ started_at r' = started_at r /\ parent_id r' = parent_id r /\
  agentId r' = agentId r /\
  status r' = match c_is_error cev with Some true => errored | _ => completed end /\
  ended_at r' = Some t /\ duration_ms r' = Some d /\
  usage r' = Some (complete_usage cev) /\
  output_preview r' = option_map (Js.slice0 2000) (c_result cev).
Proof.
  cbv zeta. unfold complete_record. destruct (c_is_error cev) as [[]|]; repeat split.
Qed.

Lemma after_complete_rest cev k r st0 :
  let st' := after_complete clock config cev k r st0 in
  lastEventTime st' = lastEventTime st0 /\
  exists m, m_type m = "Response" /\ m_from_id m = id r /\
            m_to_id m = Js.or_str (parent_id r) USER /\
            m_id m = pretty (messageCounter st0 + 1)%N /\
            messages st' =
              drop (length (messages st0 ++ [m]) - maxMessages config) (messages st0 ++ [m]).
Proof.
  unfold after_complete. cbv zeta.
  destruct (complete_record_fields cev (clock (ticks st0))
              (complete_duration clock cev r st0) r) as (R1 & _ & R3 & _).
  cbv zeta in R1, R3.
  set (record := complete_record cev (clock (ticks st0))
                   (complete_duration clock cev r st0) r) in *.
  set (st1 := with_agents _ _).
  set (st2 := exec (countCompletion (Some (complete_usage cev))) st1).
  assert (H2 : lastEventTime st2 = lastEventTime st0 /\ messages st2 = messages st0 /\
               messageCounter st2 = messageCounter st0).
  { unfold st2, exec. rewrite countCompletion_run. repeat split. }
  destruct H2 as (L2 & M2 & C2).
  match goal with
  | |- context [exec (scheduleAutoReset config) ?s] =>
      destruct (schedule_frame config s) as (_ & S2 & _ & _ & S5)
  end.
  rewrite S2, S5. unfold exec. rewrite addMessage_run. cbn [snd lastEventTime messages].
  rewrite L2, M2, C2, R1, R3. split; [reflexivity|].
  eexists. split; [|split; [|split; [|split; [|reflexivity]]]]; reflexivity.
Qed.

(** X14. When POST /complete matches a running record, the record keeps
    its id, start and parent and gets the end time of the request; its
    duration is the reported one, or the wall-clock time since its start
    when none or zero is reported; its usage is the reported numbers with
    zero for each missing one, and the same numbers are added to the
    session counters. One Response message goes from the record to its
    parent, and no record is added. *)
Theorem complete_records_report (body : json) (cev : CompleteEvent) (st : State)
    (k : string) (r : AgentRecord) :
  CompleteEventSchema body = Some cev ->
  findMatchingAgent (agents st) (c_tool_use_id cev) (c_agent_id cev) = Some (k, r) ->
  let st' := exec (postComplete clock config body) st in
  let reported := num_or_zero (c_duration_ms cev) in
  (exists r', JsMap.get k (agents st') = Some r' /\
     id r' = id r /\ started_at r' = started_at r /\ parent_id r' = parent_id r /\
     ended_at r' = Some (clock (S (ticks st))) /\
     duration_ms r' =
       Some (if reported =? 0 then clock (S (S (ticks st))) - started_at r else reported) /\
     usage r' = Some (mkUsage (num_or_zero (c_tokens cev)) (num_or_zero (c_tool_uses cev))
                        reported) /\
     output_preview r' = option_map (Js.slice0 2000) (c_result cev)) /\
  sessionUsage st' = counted (Some (complete_usage cev)) (sessionUsage st) /\
  messageCounter st' = (messageCounter st + 1)%N /\
  length (agents st') = length (agents st) /\
  exists m, m_type m = "Response" /\ m_from_id m = id r /\
            m_to_id m = Js.or_str (parent_id r) USER /\
            m_id m = pretty (messageCounter st + 1)%N /\
            messages st' =
              drop (length (messages st ++ [m]) - maxMessages config) (messages st ++ [m]).
Proof.
  intros Hparse Hfind. cbv zeta. unfold exec at 1 2 3 4 5.
  rewrite postComplete_run, Hparse, Hfind. cbn [snd].
  destruct (notify_frame clock (after_complete clock config cev k r (stamped clock st)))
    as (N1 & N2 & N3 & N4 & _).
  destruct (after_complete_frame clock config cev k r (stamped clock st)) as (F1 & F2 & F3).
  destruct (after_complete_rest cev k r (stamped clock st)) as (_ & Hmsg).
  rewrite N1, N2, N3, N4, F1, F2, F3. clear N1 N2 N3 N4 F1 F2 F3.
  split; [|split; [reflexivity|split; [reflexivity|split]]].
  - eexists. split; [apply get_set_same|].
    destruct (complete_record_fields cev (clock (ticks (stamped clock st)))
                (complete_duration clock cev r (stamped clock st)) r)
      as (R1 & R2 & R3 & _ & _ & R6 & R7 & R8 & R9).
    cbv zeta in R1, R2, R3, R6, R7, R8, R9.
    split; [exact R1|]. split; [exact R2|]. split; [exact R3|]. split; [exact R6|].
    split; [rewrite R7; reflexivity|]. split; [exact R8|exact R9].
  - apply (set_length_In k r).
    apply (proj1 (findMatchingAgent_In _ _ _ _ _ Hfind)).
  - exact Hmsg.
Qed.

Lemma findMatchingAgent_after_complete cev k r r' ags :
  KeyedById ags ->
  findMatchingAgent ags (c_tool_use_id cev) (c_agent_id cev) = Some (k, r) ->
  AgentIdOnlyAt cev k ags ->
  status r' <> running ->
  findMatchingAgent (JsMap.set k r' ags) (c_tool_use_id cev) (c_agent_id cev) = None.
Proof.
  intros [_ Hnd] Hfind Honly Hdone. unfold findMatchingAgent in *.
  assert (Htier2 : match c_agent_id cev with
                   | Some a =>
                       if Js.nonempty a
                       then find (fun e : Ref => is_running (status e.2)
                                                 && opt_str_eqb (agentId e.2) a)
                              (JsMap.set k r' ags)
                       else None
                   | None => None
                   end = None).
  { destruct (c_agent_id cev) as [a|] eqn:Ha; [|reflexivity].
    destruct (Js.nonempty a); [|reflexivity].
    destruct (find (fun e : Ref => is_running (status e.2) && opt_str_eqb (agentId e.2) a)
                (JsMap.set k r' ags)) as [e|] eqn:Hf; [|reflexivity].
    exfalso. apply find_some in Hf as [Hin Hc].
    destruct (set_In_NoDup k r' e ags Hnd Hin) as [->|[Hin' Hne]].
    - cbn [snd] in Hc. apply andb_true_iff in Hc as [Hc _].
      apply is_running_true in Hc. contradiction.
    - apply Hne. apply (Honly a e Ha Hin' Hc). }
  destruct (c_tool_use_id cev) as [k0|]; [|exact Htier2].
  destruct (Js.nonempty k0); [|exact Htier2].
  destruct (String.eqb k0 k) eqn:E.
  - apply String.eqb_eq in E. subst k0. rewrite get_set_same.
    apply is_running_false in Hdone. rewrite Hdone. exact Htier2.
  - apply String.eqb_neq in E. rewrite get_set_other by exact E.
    destruct (JsMap.get k0 ags) as [record|] eqn:Hget; [|exact Htier2].
    destruct (is_running (status record)); [|exact Htier2].
    injection Hfind as Hk _. congruence.
Qed.

(** X15. POST /complete is idempotent for a matched record: when the same
    completion signal is sent again, and no other running record carries
    its [agent_id], the second request finds nothing to complete and only
    records its time. *)
Theorem complete_replay_changes_nothing (body : json) (cev : CompleteEvent) (st : State)
    (k : string) (r : AgentRecord) :
  CompleteEventSchema body = Some cev ->
  KeyedById (agents st) ->
  findMatchingAgent (agents st) (c_tool_use_id cev) (c_agent_id cev) = Some (k, r) ->
  AgentIdOnlyAt cev k (agents st) ->
  let st1 := exec (postComplete clock config body) st in
  let st2 := exec (postComplete clock config body) st1 in
  eval (postComplete clock config body) st1 = Ok200 /\
  OnlyTimeTouched clock st1 st2.
Proof.
  intros Hparse HK Hfind Honly. cbv zeta.
  set (st1 := exec (postComplete clock config body) st).
  assert (Hnone : findMatchingAgent (agents st1) (c_tool_use_id cev) (c_agent_id cev) = None).
  { unfold st1, exec. rewrite postComplete_run, Hparse, Hfind. cbn [snd].
    rewrite (proj1 (notify_frame clock _)).
    rewrite (proj1 (after_complete_frame clock config cev k r (stamped clock st))).
    apply (findMatchingAgent_after_complete cev k r); try assumption.
    destruct (complete_record_fields cev (clock (ticks (stamped clock st)))
                (complete_duration clock cev r (stamped clock st)) r)
      as (_ & _ & _ & _ & R5 & _).
    cbv zeta in R5. rewrite R5. destruct (c_is_error cev) as [[]|]; discriminate. }
  unfold eval, exec. rewrite postComplete_run, Hparse, Hnone. cbn [fst snd].
  split; [reflexivity|]. repeat split.
Qed.

End CompleteProperties.
(** ** Start from durable storage *)

Lemma pretty_N_char_digit d :
  (d < 10)%N ->
  Js.is_digit (pretty_N_char d) = true /\
  Z.of_N (Js.code (pretty_N_char d) - 48) = Z.of_N d.
Proof.
  intros Hd.
  assert (d = 0 \/ d = 1 \/ d = 2 \/ d = 3 \/ d = 4 \/ d = 5 \/ d = 6 \/ d = 7 \/ d = 8
          \/ d = 9)%N as H by lia.
  repeat (destruct H as [->|H]; [split; reflexivity|]). subst d. split; reflexivity.
Qed.

Lemma parseInt_go_pretty x :
  exists n : nat, forall s acc,
    Js.parseInt_go acc (pretty_N_go x s) = Js.parseInt_go (acc * 10 ^ Z.of_nat n + Z.of_N x) s.
Proof.
  induction (N.lt_wf_0 x) as [x _ IH].
  destruct (decide (x = 0%N)) as [->|Hx].
  - exists 0%nat. intros s acc. rewrite pretty_N_go_0. f_equal. cbn. lia.
  - destruct (IH (x `div` 10)%N) as [n Hn]; [apply N.div_lt; lia|].
    exists (S n). intros s acc. rewrite pretty_N_go_step by lia. rewrite Hn.
    cbn [Js.parseInt_go].
    destruct (pretty_N_char_digit (x `mod` 10)%N) as [Hd Hv]; [apply N.mod_lt; lia|].
    rewrite Hd, Hv. f_equal.
    rewrite Nat2Z.inj_succ, Z.pow_succ_r by lia.
    rewrite (N.div_mod x 10) at 3 by lia. lia.
Qed.

(** [parseInt(String(n), 10)] is [n]. *)
Lemma parseInt_pretty (n : N) : Js.parseInt (pretty n) = Z.of_N n.
Proof.
  unfold pretty, pretty_N. destruct (decide (n = 0%N)) as [->|Hn]; [reflexivity|].
  destruct (parseInt_go_pretty n) as [k Hk]. unfold Js.parseInt. rewrite Hk.
  cbn [Js.parseInt_go]. lia.
Qed.

Section Restart.

Variable clock : nat -> Z.

Lemma load_keys l m :
  NoDup (map id l) -> (forall a, In a l -> JsMap.get (id a) m = None) ->
  map fst (fold_left (fun m agent => JsMap.set (id agent) agent m) l m)
    = (map fst m ++ map id l)%list.
Proof.
  revert m. induction l as [|a l IH]; intros m Hnd Hfresh.
  - cbn. rewrite app_nil_r. reflexivity.
  - cbn [map] in Hnd. apply NoDup_cons in Hnd as [Ha Hnd]. cbn [fold_left map].
    rewrite IH; [|exact Hnd|].
    + assert (Hset : map fst (JsMap.set (id a) a m) = (map fst m ++ [id a])%list).
      { specialize (Hfresh a (or_introl eq_refl)). clear -Hfresh.
        induction m as [|[k0 v0] m IHm]; [reflexivity|]. cbn [JsMap.get] in Hfresh.
        cbn [JsMap.set]. destruct (String.eqb (id a) k0); [discriminate|].
        cbn [map fst app]. rewrite IHm by exact Hfresh. reflexivity. }
      rewrite Hset, <- app_assoc. reflexivity.
    + intros b Hb. rewrite get_set_other.
      * apply Hfresh. right. exact Hb.
      * intros Heq. apply Ha. rewrite <- Heq. apply list_elem_of_In, in_map, Hb.
Qed.

Lemma markRestarted_keys l st :
  map fst (eval (markRestarted clock l) st) = map fst l.
Proof.
  revert st. induction l as [|[k a] l IH]; intros st; [reflexivity|].
  rewrite markRestarted_cons. cbn [map fst]. rewrite IH. reflexivity.
Qed.

Lemma markRestarted_get_finished l st k a :
  JsMap.get k l = Some a -> status a <> running ->
  JsMap.get k (eval (markRestarted clock l) st) = Some a.
Proof.
  revert st. induction l as [|[k0 a0] l IH]; intros st; [discriminate|].
  rewrite markRestarted_cons. cbn [JsMap.get]. destruct (String.eqb k k0).
  - intros [= ->] Hrun. apply is_running_false in Hrun. rewrite Hrun. reflexivity.
  - apply IH.
Qed.

Lemma loadFromDb_rest db st :
  let st' := exec (loadFromDb clock db) st in
  messages st' = (messages st ++ db_messages db)%list /\
  messageCounter st' =
    match db_messageCounter db with
    | Some c => Z.to_N (Js.parseInt c)
    | None => messageCounter st
    end /\
  sessionUsage st' =
    match db_sessionUsage db with Some su => su | None => sessionUsage st end /\
  lastEventTime st' = lastEventTime st /\ lastCompletionTime st' = lastCompletionTime st.
Proof.
  cbv zeta. unfold loadFromDb. step_exec.
  change (eval (gets agents) ?s) with (agents s). change (exec (gets agents) ?s) with s.
  match goal with
  | |- context [exec (markRestarted clock ?l) ?s] =>
      destruct (markRestarted_state clock l s) as [n Hn]; rewrite Hn
  end.
  destruct (db_messageCounter db), (db_sessionUsage db); repeat split.
Qed.

(** X16. Start from durable storage with distinct stored ids: the registry
    holds the stored agents under their ids in stored order; an agent that
    storage held as finished is loaded unchanged; the stored messages
    become the log; and a message counter that was saved as the decimal
    string of [c] is restored to [c], so that message ids continue where
    they stopped. *)
Theorem loadFromDb_restores (db : Db) :
  NoDup (map id (db_agents db)) ->
  let st' := exec (loadFromDb clock db) initialState in
  map fst (agents st') = map id (db_agents db) /\
  (forall a, In a (db_agents db) -> status a <> running ->
     JsMap.get (id a) (agents st') = Some a) /\
  messages st' = db_messages db /\
  (forall c : N, db_messageCounter db = Some (pretty c) -> messageCounter st' = c) /\
  (forall su, db_sessionUsage db = Some su -> sessionUsage st' = su).
Proof.
  intros Hnd. cbv zeta.
  destruct (loadFromDb_rest db initialState) as (Hm & Hc & Hu & _).
  cbv zeta in Hm, Hc, Hu. rewrite Hm, Hc, Hu, loadFromDb_agents.
  split; [|split; [|split; [|split]]].
  - rewrite markRestarted_keys.
    rewrite load_keys; [reflexivity|exact Hnd|reflexivity].
  - intros a Hin Hrun. apply markRestarted_get_finished; [|exact Hrun].
    apply load_get_loaded; assumption.
  - reflexivity.
  - intros c ->. rewrite parseInt_pretty. apply N2Z.id.
  - intros su ->. reflexivity.
Qed.

End Restart.
(** ** Maps with string keys *)

Section StrMapFacts.

Context {V : Type}.
Implicit Types (m : StrMap.t V) (k : string) (v : V).

Lemma smap_get_set_same k v m : StrMap.get k (StrMap.set k v m) = Some v.
Proof.
  induction m as [|[k' v'] m IH]; cbn [StrMap.set StrMap.get].
  - rewrite String.eqb_refl. reflexivity.
  - destruct (String.eqb k k') eqn:E; cbn [StrMap.get]; rewrite ?String.eqb_refl, ?E; auto.
Qed.

Lemma smap_get_set_other k k' v m :
  k <> k' -> StrMap.get k (StrMap.set k' v m) = StrMap.get k m.
Proof.
  intros Hne. induction m as [|[k0 v0] m IH]; cbn [StrMap.set StrMap.get].
  - apply String.eqb_neq in Hne. rewrite Hne. reflexivity.
  - destruct (String.eqb k' k0) eqn:E; cbn [StrMap.get].
    + apply String.eqb_eq in E. subst k0. apply String.eqb_neq in Hne. rewrite Hne.
      reflexivity.
    + destruct (String.eqb k k0); auto.
Qed.

Lemma smap_get_delete_same k m : StrMap.get k (StrMap.delete k m) = None.
Proof.
  induction m as [|[k' v'] m IH]; cbn [StrMap.delete StrMap.get]; [reflexivity|].
  destruct (String.eqb k k') eqn:E; cbn [StrMap.get]; rewrite ?E; auto.
Qed.

Lemma smap_get_delete_other k k' m :
  k <> k' -> StrMap.get k (StrMap.delete k' m) = StrMap.get k m.
Proof.
  intros Hne. induction m as [|[k0 v0] m IH]; cbn [StrMap.delete StrMap.get]; [reflexivity|].
  destruct (String.eqb k' k0) eqn:E; cbn [StrMap.get].
  - apply String.eqb_eq in E. subst k0. apply String.eqb_neq in Hne. rewrite Hne. apply IH.
  - destruct (String.eqb k k0); auto.
Qed.

Lemma smap_get_In k v m : StrMap.get k m = Some v -> In (k, v) m.
Proof.
  induction m as [|[k' v'] m IH]; cbn [StrMap.get]; [discriminate|].
  destruct (String.eqb k k') eqn:E.
  - apply String.eqb_eq in E. intros [= ->]. left. congruence.
  - intros H. right. auto.
Qed.

Lemma smap_get_None k m : StrMap.get k m = None <-> ~ In k (map fst m).
Proof.
  induction m as [|[k' v'] m IH]; cbn [StrMap.get map fst]; [split; [intros _ []|reflexivity]|].
  destruct (String.eqb k k') eqn:E.
  - apply String.eqb_eq in E. subst k'. split; [discriminate|]. intros H. exfalso. apply H.
    left. reflexivity.
  - apply String.eqb_neq in E. rewrite IH. cbn [In]. intuition congruence.
Qed.

Lemma smap_In_get k v m : NoDup (map fst m) -> In (k, v) m -> StrMap.get k m = Some v.
Proof.
  induction m as [|[k' v'] m IH]; cbn [map fst StrMap.get]; intros Hnd; [intros []|].
  apply NoDup_cons in Hnd as [H0 Hnd]. intros [[= -> ->]|Hin].
  - rewrite String.eqb_refl. reflexivity.
  - destruct (String.eqb k k') eqn:E; [|auto].
    apply String.eqb_eq in E. subst k'. exfalso. apply H0.
    apply list_elem_of_In. apply (in_map fst) in Hin. exact Hin.
Qed.

Lemma smap_set_keys k v m k' :
  In k' (map fst (StrMap.set k v m)) <-> k' = k \/ In k' (map fst m).
Proof.
  induction m as [|[k0 v0] m IH]; cbn [StrMap.set map fst In]; [intuition congruence|].
  destruct (String.eqb k k0) eqn:E; cbn [map fst In].
  - apply String.eqb_eq in E. subst k0. intuition congruence.
  - rewrite IH. intuition congruence.
Qed.

Lemma smap_set_NoDup k v m : NoDup (map fst m) -> NoDup (map fst (StrMap.set k v m)).
Proof.
  induction m as [|[k0 v0] m IH]; cbn [StrMap.set map fst]; intros Hnd.
  - repeat constructor. intros H. apply list_elem_of_In in H. destruct H.
  - apply NoDup_cons in Hnd as [H0 Hnd]. destruct (String.eqb k k0) eqn:E; cbn [map fst].
    + apply String.eqb_eq in E. subst k0. apply NoDup_cons. split; assumption.
    + apply String.eqb_neq in E. apply NoDup_cons. split; [|auto].
      rewrite list_elem_of_In, smap_set_keys. rewrite list_elem_of_In in H0.
      intros [->|H]; [congruence|tauto].
Qed.

Lemma smap_delete_In k (e : string * V) m :
  In e (StrMap.delete k m) <-> In e m /\ e.1 <> k.
Proof.
  induction m as [|[k0 v0] m IH]; cbn [StrMap.delete In]; [tauto|].
  destruct (String.eqb k k0) eqn:E.
  - apply String.eqb_eq in E. subst k0. rewrite IH. split; [tauto|].
    intros [[<-|H] Hne]; [cbn in Hne; congruence|tauto].
  - apply String.eqb_neq in E. cbn [In]. rewrite IH. split.
    + intros [<-|[H Hne]]; [cbn; split; [tauto|congruence]|tauto].
    + tauto.
Qed.

Lemma smap_delete_NoDup k m : NoDup (map fst m) -> NoDup (map fst (StrMap.delete k m)).
Proof.
  induction m as [|[k0 v0] m IH]; cbn [StrMap.delete map fst]; intros Hnd; [exact Hnd|].
  apply NoDup_cons in Hnd as [H0 Hnd]. destruct (String.eqb k k0); [auto|].
  cbn [map fst]. apply NoDup_cons. split; [|auto].
  rewrite list_elem_of_In in *. intros H. apply H0.
  apply in_map_iff in H as (e & <- & He). apply smap_delete_In in He as [He _].
  apply in_map. exact He.
Qed.

Lemma smap_has_true k m : StrMap.has k m = true <-> exists v, StrMap.get k m = Some v.
Proof.
  unfold StrMap.has. destruct (StrMap.get k m) as [v|]; split; try discriminate; eauto.
  intros [v Hv]. discriminate.
Qed.

Lemma smap_has_false k m : StrMap.has k m = false <-> StrMap.get k m = None.
Proof. unfold StrMap.has. destruct (StrMap.get k m); split; congruence. Qed.

Lemma smap_sum_set_present (f : V -> nat) k v v0 m :
  StrMap.get k m = Some v0 ->
  (list_sum (map (fun e => f e.2) (StrMap.set k v m)) + f v0 =
     list_sum (map (fun e => f e.2) m) + f v)%nat.
Proof.
  induction m as [|[k' v'] m IH]; cbn [StrMap.get StrMap.set]; [discriminate|].
  destruct (String.eqb k k'); cbn [map list_sum fold_right snd].
  - intros [= ->]. lia.
  - intros H. specialize (IH H). unfold list_sum in IH. lia.
Qed.

Lemma smap_sum_set_absent (f : V -> nat) k v m :
  StrMap.get k m = None ->
  (list_sum (map (fun e => f e.2) (StrMap.set k v m)) =
     list_sum (map (fun e => f e.2) m) + f v)%nat.
Proof.
  induction m as [|[k' v'] m IH]; cbn [StrMap.get StrMap.set map list_sum fold_right snd];
    [lia|].
  destruct (String.eqb k k'); [discriminate|]. cbn [map list_sum fold_right snd].
  intros H. specialize (IH H). unfold list_sum in IH. lia.
Qed.

End StrMapFacts.
(** ** The view built for GET /state *)

Lemma length_filter_snoc {A} (p : A -> bool) (l : list A) (x : A) :
  length (filter p (l ++ [x])%list) = (length (filter p l) + (if p x then 1 else 0))%nat.
Proof.
  rewrite filter_app, length_app. f_equal. rewrite filter_cons, filter_nil.
  destruct (decide (p x)) as [H|H]; destruct (p x); try reflexivity; cbn in H;
    contradiction.
Qed.

Lemma length_filter_none {A} (p : A -> bool) (l : list A) :
  (forall x, In x l -> p x = false) -> length (filter p l) = 0%nat.
Proof.
  induction l as [|x l IH]; intros H; [reflexivity|].
  rewrite filter_cons. destruct (decide (p x)) as [Hp|Hp].
  - rewrite (H x (or_introl eq_refl)) in Hp. destruct Hp.
  - apply IH. intros y Hy. apply H. right. exact Hy.
Qed.

Lemma in_session_other sid p (e : Ref) :
  session_of e.2 <> sid -> in_session sid p e = false.
Proof. intros H. unfold in_session. apply String.eqb_neq in H. rewrite H. reflexivity. Qed.

Lemma in_session_self p (e : Ref) : in_session (session_of e.2) p e = p (status e.2).
Proof. unfold in_session. rewrite String.eqb_refl. reflexivity. Qed.

Lemma sessions_bump l m (e : Ref) i0 :
  SessionsBuilt l m -> StrMap.get (session_of e.2) m = Some i0 ->
  SessionsBuilt (l ++ [e])%list (StrMap.set (session_of e.2) (bump (status e.2) i0) m).
Proof.
  intros (Hrows & Hnd & Hsum) Hget. split; [|split].
  - intros sid. destruct (String.eqb sid (session_of e.2)) eqn:E.
    + apply String.eqb_eq in E. subst sid. rewrite smap_get_set_same.
      specialize (Hrows (session_of e.2)). rewrite Hget in Hrows.
      destruct Hrows as (H0 & H1 & H2 & H3 & H4).
      unfold SessionCounts, JsMap.t, Ref in *. rewrite !length_filter_snoc.
      rewrite !in_session_self.
      destruct (status e.2); cbn [bump si_session_id si_agent_count si_running si_completed
                                  si_errored is_running Status_eqb];
        rewrite H1, H2, H3, H4; repeat split; try exact H0; lia.
    + apply String.eqb_neq in E. rewrite smap_get_set_other by exact E.
      specialize (Hrows sid). destruct (StrMap.get sid m) as [i|].
      * destruct Hrows as (H0 & H1 & H2 & H3 & H4).
        unfold SessionCounts, JsMap.t, Ref in *. rewrite !length_filter_snoc.
        rewrite !(in_session_other sid _ e) by congruence.
        rewrite !Nat.add_0_r. auto.
      * intros e' He'. apply in_app_iff in He' as [He'|[<-|[]]]; [auto|congruence].
  - apply smap_set_NoDup, Hnd.
  - pose proof (smap_sum_set_present si_agent_count (session_of e.2)
                  (bump (status e.2) i0) i0 m Hget) as Hs.
    rewrite length_app. cbn [length].
    assert (Hb : si_agent_count (bump (status e.2) i0) = S (si_agent_count i0))
      by (destruct (status e.2); reflexivity).
    lia.
Qed.

Lemma sessions_open l m sid :
  SessionsBuilt l m -> StrMap.get sid m = None ->
  SessionsBuilt l (StrMap.set sid (mkSessionInfo sid 0 0 0 0) m).
Proof.
  intros (Hrows & Hnd & Hsum) Hget. split; [|split].
  - intros sid'. destruct (String.eqb sid' sid) eqn:E.
    + apply String.eqb_eq in E. subst sid'. rewrite smap_get_set_same.
      specialize (Hrows sid). rewrite Hget in Hrows.
      unfold SessionCounts, JsMap.t, Ref in *.
      cbn [si_session_id si_agent_count si_running si_completed si_errored].
      rewrite !length_filter_none; [auto| | | |];
        intros e He; apply in_session_other, Hrows, He.
    + apply String.eqb_neq in E. rewrite smap_get_set_other by exact E. apply Hrows.
  - apply smap_set_NoDup, Hnd.
  - rewrite (smap_sum_set_absent si_agent_count sid _ m Hget). cbn. lia.
Qed.

Lemma sessions_step l m (e : Ref) :
  SessionsBuilt l m -> SessionsBuilt (l ++ [e])%list (session_step m e).
Proof.
  intros Hb. unfold session_step. cbv zeta. fold (session_of e.2).
  destruct (StrMap.has (session_of e.2) m) eqn:Hhas.
  - apply smap_has_true in Hhas as [i0 Hget]. rewrite Hget.
    apply sessions_bump; assumption.
  - apply smap_has_false in Hhas. rewrite smap_get_set_same.
    apply sessions_bump; [apply sessions_open; assumption|apply smap_get_set_same].
Qed.

Lemma sessions_built l : SessionsBuilt l (fold_left session_step l []).
Proof.
  induction l as [|e l IH] using rev_ind.
  - split; [|split]; [intros sid e []|constructor|reflexivity].
  - rewrite fold_left_app. apply sessions_step, IH.
Qed.

(** *** The list of agents, newest first *)

Lemma insert_newest_In a b l : In b (insert_newest a l) <-> b = a \/ In b l.
Proof.
  induction l as [|c l IH]; cbn [insert_newest In]; [intuition|].
  destruct (started_at c <=? started_at a); cbn [In]; [intuition|].
  rewrite IH. intuition.
Qed.

Lemma insert_newest_perm a l : Permutation (a :: l) (insert_newest a l).
Proof.
  induction l as [|c l IH]; cbn [insert_newest]; [reflexivity|].
  destruct (started_at c <=? started_at a); [reflexivity|].
  rewrite <- IH. apply perm_swap.
Qed.

Lemma sort_newest_perm l : Permutation l (sort_newest_first l).
Proof.
  induction l as [|a l IH]; [reflexivity|]. cbn [sort_newest_first fold_right].
  rewrite <- insert_newest_perm. apply perm_skip, IH.
Qed.

Lemma insert_newest_sorted a l :
  StronglySorted newer_or_same l -> StronglySorted newer_or_same (insert_newest a l).
Proof.
  induction 1 as [|c l Hs IH Hc]; cbn [insert_newest]; [repeat constructor|].
  destruct (started_at c <=? started_at a) eqn:E.
  - apply Z.leb_le in E. constructor; [constructor; assumption|].
    constructor; [exact E|]. eapply Forall_impl; [exact Hc|].
    intros b Hb. unfold newer_or_same in *. lia.
  - apply Z.leb_gt in E. constructor; [exact IH|].
    apply Forall_forall. intros b Hb. apply list_elem_of_In, insert_newest_In in Hb.
    destruct Hb as [->|Hb]; [unfold newer_or_same; lia|].
    rewrite Forall_forall in Hc. apply Hc, list_elem_of_In, Hb.
Qed.

Lemma sort_newest_sorted l : StronglySorted newer_or_same (sort_newest_first l).
Proof.
  induction l as [|a l IH]; [constructor|]. apply insert_newest_sorted, IH.
Qed.

(** The sort is stable: records with the same start keep their order. *)
Lemma insert_newest_stable t a l :
  filter (fun b => started_at b =? t) (insert_newest a l) =
    filter (fun b => started_at b =? t) (a :: l).
Proof.
  induction l as [|c l IH]; cbn [insert_newest]; [reflexivity|].
  destruct (started_at c <=? started_at a) eqn:E; [reflexivity|].
  apply Z.leb_gt in E. rewrite (filter_cons _ c), IH, !(filter_cons _ a), (filter_cons _ c).
  destruct (decide (started_at a =? t)) as [Ha|Ha]; [|reflexivity].
  destruct (decide (started_at c =? t)) as [Hc|Hc]; [|reflexivity].
  apply Is_true_true in Ha, Hc. apply Z.eqb_eq in Ha, Hc. lia.
Qed.

Lemma sort_newest_stable t l :
  filter (fun b => started_at b =? t) (sort_newest_first l) =
    filter (fun b => started_at b =? t) l.
Proof.
  induction l as [|a l IH]; [reflexivity|]. cbn [sort_newest_first fold_right].
  fold (sort_newest_first l). rewrite insert_newest_stable, !(filter_cons _ a), IH.
  reflexivity.
Qed.
Lemma sessions_rows_used l k :
  In k (map fst (fold_left session_step l [])) -> exists e, In e l /\ session_of e.2 = k.
Proof.
  induction l as [|e l IH] using rev_ind; [intros []|].
  rewrite fold_left_app. cbn [fold_left]. unfold session_step at 1. cbv zeta.
  fold (session_of e.2). set (m := fold_left session_step l []) in *.
  intros Hin.
  assert (Hk : k = session_of e.2 \/ In k (map fst m)).
  { destruct (StrMap.has (session_of e.2) m).
    - destruct (StrMap.get (session_of e.2) m); [|right; exact Hin].
      apply smap_set_keys in Hin. exact Hin.
    - rewrite smap_get_set_same in Hin. apply smap_set_keys in Hin as [->|Hin]; [auto|].
      apply smap_set_keys in Hin. exact Hin. }
  destruct Hk as [->|Hk].
  - exists e. split; [apply in_app_iff; right; left; reflexivity|reflexivity].
  - destruct (IH Hk) as (e' & He' & Hs). exists e'. split; [apply in_app_iff; auto|exact Hs].
Qed.

Lemma filter_cons_bool {A} (p : A -> bool) (x : A) (l : list A) :
  filter p (x :: l) = if p x then x :: filter p l else filter p l.
Proof.
  rewrite filter_cons. destruct (decide (p x)) as [H|H]; destruct (p x); try reflexivity;
    cbn in H; contradiction.
Qed.

Lemma elem_length_pos {A} (x : A) (l : list A) : x ∈ l -> (0 < length l)%nat.
Proof. intros H. destruct l; [inversion H|cbn [length]; lia]. Qed.

Lemma count_status_partition (l : list AgentRecord) :
  length l = (count_status running l + count_status completed l + count_status errored l)%nat.
Proof.
  unfold count_status. induction l as [|a l IH]; [reflexivity|].
  rewrite !filter_cons_bool. cbn [length]. rewrite IH.
  destruct (status a); cbn [Status_eqb length]; lia.
Qed.

Lemma in_session_partition sid (l : list Ref) :
  length (filter (in_session sid (fun _ => true)) l) =
    (length (filter (in_session sid is_running) l)
     + length (filter (in_session sid (fun s => Status_eqb s completed)) l)
     + length (filter (in_session sid (fun s => Status_eqb s errored)) l))%nat.
Proof.
  induction l as [|e l IH]; [reflexivity|].
  rewrite !filter_cons_bool.
  destruct (String.eqb (session_of e.2) sid) eqn:E.
  - apply String.eqb_eq in E. subst sid. rewrite !in_session_self.
    destruct (status e.2); cbn [is_running Status_eqb length]; lia.
  - apply String.eqb_neq in E. rewrite !(in_session_other sid _ e E). exact IH.
Qed.

Lemma count_running_pos (ags : JsMap.t) :
  (0 < count_status running (map snd ags))%nat <->
  exists e : Ref, In e ags /\ status e.2 = running.
Proof.
  unfold count_status. induction ags as [|e ags IH]; cbn [map].
  - split; [cbn; lia|intros (e & [] & _)].
  - rewrite filter_cons_bool. destruct (Status_eqb (status e.2) running) eqn:H.
    + split; [intros _|cbn [length]; lia]. exists e. split; [left; reflexivity|].
      apply Status_eqb_eq in H. exact H.
    + rewrite IH. split.
      * intros (e' & He' & Hr). exists e'. split; [right; exact He'|exact Hr].
      * intros (e' & [<-|He'] & Hr); [|eauto].
        apply Status_eqb_eq in Hr. congruence.
Qed.

Section View.

Variable clock : nat -> Z.
Variable config : Config.
Variable settings : Settings.

(** X17. The counts of the view agree with the registry: the summary
    total is the number of records and the sum of the three status counts;
    there is one task per record, in registry order; the sessions have
    distinct ids, each session counts exactly the records that carry its
    id (records without one count under the id unknown), split by status,
    every record is counted in some session, and the agent counts of the
    sessions add up to the total. *)
Theorem view_counts (ap : Approvals) (st : State) :
  let view := eval (buildState clock config settings ap) st in
  let s := app_summary view in
  sum_total s = length (agents st) /\
  sum_total s = (sum_running s + sum_completed s + sum_errored s)%nat /\
  map task_id (app_tasks view) = map (fun e : Ref => id e.2) (agents st) /\
  NoDup (map si_session_id (app_sessions view)) /\
  (forall i, In i (app_sessions view) ->
     SessionCounts (si_session_id i) (agents st) i /\
     (0 < si_agent_count i)%nat /\
     si_agent_count i = (si_running i + si_completed i + si_errored i)%nat) /\
  (forall e : Ref, In e (agents st) ->
     exists i, In i (app_sessions view) /\ si_session_id i = session_of e.2) /\
  list_sum (map si_agent_count (app_sessions view)) = sum_total s.
Proof.
  cbv zeta.
  change (app_summary (eval (buildState clock config settings ap) st))
    with (mkSummary (length (map snd (agents st))) (count_status running (map snd (agents st)))
            (count_status completed (map snd (agents st)))
            (count_status errored (map snd (agents st)))).
  change (app_tasks (eval (buildState clock config settings ap) st))
    with (buildTasks (agents st)).
  change (app_sessions (eval (buildState clock config settings ap) st))
    with (buildSessions (agents st)).
  cbn [sum_total sum_running sum_completed sum_errored].
  destruct (sessions_built (agents st)) as (Hrows & Hnd & Hsum).
  unfold buildSessions. set (m := fold_left session_step (agents st) []) in *.
  assert (Hrow : forall i, In i (map snd m) -> SessionCounts (si_session_id i) (agents st) i).
  { intros i Hi. apply in_map_iff in Hi as ([k i'] & <- & Hin). cbn [snd].
    pose proof (Hrows k) as Hk. rewrite (smap_In_get k i' m Hnd Hin) in Hk.
    destruct Hk as (H0 & Hk). rewrite H0. split; [exact H0|exact Hk]. }
  assert (Hkeys : map si_session_id (map snd m) = map fst m).
  { rewrite map_map. apply map_ext_in. intros [k i] Hin. cbn [fst snd].
    pose proof (Hrows k) as Hk. rewrite (smap_In_get k i m Hnd Hin) in Hk. apply Hk. }
  split; [apply length_map|]. split; [apply count_status_partition|].
  split; [unfold buildTasks; rewrite map_map; reflexivity|].
  split; [rewrite Hkeys; exact Hnd|].
  split; [|split].
  - intros i Hi. pose proof (Hrow i Hi) as Hc. split; [exact Hc|].
    destruct Hc as (_ & H1 & H2 & H3 & H4).
    split; [|rewrite H1, H2, H3, H4; apply in_session_partition].
    assert (Hk : In (si_session_id i) (map fst m)).
    { rewrite <- Hkeys. apply in_map, Hi. }
    destruct (sessions_rows_used (agents st) _ Hk) as (e & He & Hs).
    rewrite H1. unfold JsMap.t, Ref in *.
    apply list_elem_of_In in He.
    assert (Hin : e ∈ filter (in_session (si_session_id i) (fun _ => true)) (agents st)).
    { apply list_elem_of_filter. split; [|exact He].
      unfold in_session. rewrite <- Hs, String.eqb_refl. exact I. }
    apply (elem_length_pos e). exact Hin.
  - intros e He. pose proof (Hrows (session_of e.2)) as Hk.
    destruct (StrMap.get (session_of e.2) m) as [i|] eqn:Hget.
    + exists i. split; [|apply Hk]. apply smap_get_In in Hget.
      apply (in_map snd) in Hget. exact Hget.
    + exfalso. exact (Hk e He eq_refl).
  - rewrite map_map, length_map. exact Hsum.
Qed.

(** X18. The agent list of the view is the registry sorted by start,
    newest first, and cut after 200 records: it is sorted, it has the size
    of the registry or 200, it consists of records of the registry, and
    every record left out started no later than every record listed. While
    the registry holds at most 200 records, records with the same start
    appear in registry order. *)
Theorem view_agents_newest_first (ap : Approvals) (st : State) :
  let listed := app_agents (eval (buildState clock config settings ap) st) in
  StronglySorted newer_or_same listed /\
  length listed = Nat.min 200 (length (agents st)) /\
  (exists rest,
     Permutation (map snd (agents st)) (listed ++ rest) /\
     forall a b, In a listed -> In b rest -> started_at b <= started_at a) /\
  ((length (agents st) <= 200)%nat ->
   forall t, filter (fun b => started_at b =? t) listed =
             filter (fun b => started_at b =? t) (map snd (agents st))).
Proof.
  cbv zeta.
  change (app_agents (eval (buildState clock config settings ap) st))
    with (take 200 (sort_newest_first (map snd (agents st)))).
  set (sorted := sort_newest_first (map snd (agents st))).
  assert (Hlen : length sorted = length (agents st)).
  { unfold sorted. rewrite <- (Permutation_length (sort_newest_perm _)). apply length_map. }
  pose proof (sort_newest_sorted (map snd (agents st))) as Hs. fold sorted in Hs.
  rewrite <- (take_drop 200 sorted) in Hs. apply StronglySorted_app in Hs as (Hcross & H1 & _).
  split; [exact H1|]. split; [rewrite length_take, Hlen; reflexivity|]. split.
  - exists (drop 200 sorted). split.
    + rewrite take_drop. apply sort_newest_perm.
    + intros a b Ha Hb. apply (Hcross a b); apply list_elem_of_In; assumption.
  - intros Hsmall t. rewrite take_ge by lia. apply sort_newest_stable.
Qed.

(** X19. The status of the controller in the view is running exactly when
    some agent is running or the last event is less than [bossActiveMs]
    before the clock reading of the request; otherwise it is idle for an
    empty registry and done for a non-empty one. Building the view reads
    the clock once and changes nothing else; log, usage and pending
    approvals are reported as they are, and usage counts as available
    exactly when the token counter is positive. *)
Theorem view_boss_status (ap : Approvals) (st : State) :
  let view := eval (buildState clock config settings ap) st in
  let active := bossActiveAt config (clock (ticks st)) st in
  (app_boss view).1 =
    (if any_running (agents st) then BossRunning
     else if clock (ticks st) - lastEventTime st <? bossActiveMs config then BossRunning
     else match agents st with [] => BossIdle | _ :: _ => BossDone end) /\
  ((app_boss view).1 = BossRunning <-> AnyRunning st \/ active) /\
  ((app_boss view).1 = BossIdle <-> agents st = [] /\ ~ active) /\
  ((app_boss view).1 = BossDone <-> agents st <> [] /\ ~ AnyRunning st /\ ~ active) /\
  (app_boss view).2 = bossModel settings /\
  app_messages view = messages st /\
  app_usage view = (sessionUsage st, 0 <? total_tokens (sessionUsage st)) /\
  app_approval view = (approvalEnabled ap, map snd (pendingApprovals ap)) /\
  exec (buildState clock config settings ap) st = with_ticks (S (ticks st)) st.
Proof.
  cbv zeta.
  assert (Hboss : (app_boss (eval (buildState clock config settings ap) st)).1 =
            (if any_running (agents st) then BossRunning
             else if clock (ticks st) - lastEventTime st <? bossActiveMs config
                  then BossRunning
                  else match agents st with [] => BossIdle | _ :: _ => BossDone end)).
  { change ((app_boss (eval (buildState clock config settings ap) st)).1)
      with (if (0 <? count_status running (map snd (agents st)))%nat then BossRunning
            else if clock (ticks st) - lastEventTime st <? bossActiveMs config
                 then BossRunning
                 else if (0 <? length (map snd (agents st)))%nat then BossDone
                      else BossIdle).
    assert (Hrun : (0 <? count_status running (map snd (agents st)))%nat
                   = any_running (agents st)).
    { destruct (any_running (agents st)) eqn:Ha.
      - apply Nat.ltb_lt, count_running_pos. apply any_running_true in Ha. exact Ha.
      - apply Nat.ltb_ge. apply any_running_false in Ha.
        destruct (Nat.le_gt_cases (count_status running (map snd (agents st))) 0)
          as [H|H]; [exact H|].
        exfalso. apply Ha. apply count_running_pos. exact H. }
    rewrite Hrun. destruct (agents st); reflexivity. }
  split; [exact Hboss|]. rewrite Hboss. unfold bossActiveAt.
  pose proof (any_running_true st) as Htrue. pose proof (any_running_false st) as Hfalse.
  pose proof (Z.ltb_spec (clock (ticks st) - lastEventTime st) (bossActiveMs config)) as Hact.
  split; [|split; [|split;
    [|split; [reflexivity|split; [reflexivity|split; [reflexivity|split; reflexivity]]]]]].
  - destruct (any_running (agents st)).
    + split; [intros _; left; apply Htrue; reflexivity|reflexivity].
    + destruct Hact as [Hlt|Hge]; [split; [right; exact Hlt|reflexivity]|].
      assert (Hno : ~ AnyRunning st) by (apply Hfalse; reflexivity).
      destruct (agents st); split; try discriminate; intros [H|H]; try contradiction; lia.
  - destruct (any_running (agents st)) eqn:Ha.
    + split; [discriminate|]. intros [Hnil _]. exfalso.
      assert (Hr : AnyRunning st) by (apply Htrue; reflexivity).
      destruct Hr as (e & He & _). rewrite Hnil in He. destruct He.
    + destruct Hact as [Hlt|Hge]; [split; [discriminate|intros [_ H]; exfalso; apply H, Hlt]|].
      destruct (agents st); split; try discriminate; try (intros _; split; [reflexivity|lia]);
        intros [H _]; try reflexivity; discriminate.
  - destruct (any_running (agents st)) eqn:Ha.
    + split; [discriminate|]. intros (_ & H & _). exfalso. apply H, Htrue. reflexivity.
    + assert (Hno : ~ AnyRunning st) by (apply Hfalse; reflexivity).
      destruct Hact as [Hlt|Hge];
        [split; [discriminate|intros (_ & _ & H); exfalso; apply H, Hlt]|].
      destruct (agents st); split; try discriminate.
      * intros (H & _). congruence.
      * intros _. split; [discriminate|]. split; [exact Hno|lia].
      * reflexivity.
Qed.

End View.
(** ** Rows of the agents table *)

Lemma rowToAgent_agentToRow (a : AgentRecord) :
  agentId a <> Some "" -> rowToAgent (agentToRow a) = a.
Proof.
  intros Hid. destruct a as [i s d p t bg stt sa la ea du er op of' pa us ai].
  cbn [agentId] in Hid. unfold agentToRow, rowToAgent.
  cbn [id session_id description prompt subagent_type background status started_at
       last_activity ended_at duration_ms error output_preview output_file parent_id
       usage agentId row_id row_session_id row_description row_prompt row_subagent_type
       row_background row_status row_started_at row_last_activity row_ended_at
       row_duration_ms row_error row_output_preview row_output_file row_parent_id
       row_usage_tokens row_usage_tool_uses row_usage_duration_ms row_agent_id].
  destruct us as [[u1 u2 u3]|], ai as [[|c ai]|], bg; try congruence; reflexivity.
Qed.

(** X20. Writing a record to a row and reading the row back gives the
    record again, for every record whose [agentId] is absent or not empty,
    and so for every list of such records; an empty [agentId] is the one
    thing that is lost, it reads back as absent. A row read from storage
    and written again keeps all its columns when its background flag is 0
    or 1, its usage columns are all set or all null, and its agent id is
    not the empty string. *)
Theorem row_round_trip :
  (forall a, agentId a <> Some "" -> rowToAgent (agentToRow a) = a) /\
  (forall l, Forall (fun a => agentId a <> Some "") l ->
     loadAllAgents (map agentToRow l) = l) /\
  (forall a, agentId a = Some "" -> rowToAgent (agentToRow a) = set_agentId None a) /\
  (forall row,
     (row_background row = 0 \/ row_background row = 1) ->
     (not_null (row_usage_tokens row) = not_null (row_usage_tool_uses row) /\
      not_null (row_usage_tool_uses row) = not_null (row_usage_duration_ms row)) ->
     row_agent_id row <> Some "" ->
     agentToRow (rowToAgent row) = row).
Proof.
  split; [exact rowToAgent_agentToRow|]. split; [|split].
  - induction 1 as [|a l Ha _ IH]; [reflexivity|].
    unfold loadAllAgents in *. cbn [map]. rewrite IH, (rowToAgent_agentToRow a Ha).
    reflexivity.
  - intros a Hid. destruct a as [i s d p t bg stt sa la ea du er op of' pa us ai].
    cbn [agentId] in Hid. subst ai. unfold agentToRow, rowToAgent.
    destruct us as [[u1 u2 u3]|], bg; reflexivity.
  - intros row Hbg [Hu1 Hu2] Hid.
    destruct row as [i s d p t bg stt sa la ea du er op of' pa u1 u2 u3 ai].
    cbn [row_background row_usage_tokens row_usage_tool_uses row_usage_duration_ms
         row_agent_id] in *.
    unfold agentToRow, rowToAgent.
    destruct u1, u2, u3; try discriminate; destruct ai as [[|c ai]|]; try congruence;
      destruct Hbg as [-> | ->]; reflexivity.
Qed.
(** * Sample runs of the further properties *)

(** X2, witness: a Read event on a server with one running agent. *)
Lemma other_tool_event_only_time_witness :
  eval (postEvent toy_digest clock_1ms defaultConfig read_event) one_running = Ok200 /\
  OnlyTimeTouched clock_1ms one_running
    (exec (postEvent toy_digest clock_1ms defaultConfig read_event) one_running).
Proof.
  apply (other_tool_event_only_time toy_digest clock_1ms defaultConfig read_event
           (event_of read_event) one_running).
  - reflexivity.
  - vm_compute. discriminate.
  - vm_compute. discriminate.
Defined.

(** X4, witness: the first pre event of a server. *)
Lemma pre_creates_running_record_witness :
  let st' := exec (postEvent toy_digest clock_1ms defaultConfig pre_tu_1) initialState in
  exists r, JsMap.get "tu_1" (agents st') = Some r /\ id r = "tu_1" /\ status r = running /\
            session_id r = "s1" /\ description r = "d1" /\ autoResetTimer st' = None.
Proof.
  destruct (pre_creates_running_record toy_digest clock_1ms defaultConfig pre_tu_1
              (event_of pre_tu_1) initialState)
    as (r & Hget & Hid & Hst & Hs & Hd & _ & _ & _ & _ & Ht);
    [reflexivity|reflexivity|reflexivity|reflexivity|].
  exists r. repeat split; assumption.
Defined.

(** X5, witness: a pre event 70 seconds after the end of a batch. *)
Lemma pre_after_quiet_period_resets_witness :
  let st' := exec (postEvent toy_digest clock_5s defaultConfig pre_tu_2) idle_batch in
  length (agents idle_batch) = 1%nat /\ agent_count (sessionUsage idle_batch) = 1 /\
  (exists r, agents st' = [("tu_2", r)] /\ parent_id r = USER) /\
  sessionUsage st' = emptyUsage /\ messageCounter st' = 1%N /\ lastEventTime st' = 0.
Proof.
  destruct (pre_after_quiet_period_resets toy_digest clock_5s defaultConfig pre_tu_2
              (event_of pre_tu_2) idle_batch)
    as (Hr & Hu & Hc & Hl & _);
    [reflexivity|reflexivity|reflexivity| |].
  - apply quiet_period_true. vm_compute. reflexivity.
  - split; [reflexivity|]. split; [reflexivity|].
    split; [exact Hr|]. split; [exact Hu|]. split; [exact Hc|exact Hl].
Defined.

(** X6, witness: a second agent started while the first is running. *)
Lemma pre_within_batch_keeps_records_witness :
  let st' := exec (postEvent toy_digest clock_1ms defaultConfig pre_tu_2) one_running in
  JsMap.get "tu_1" (agents st') = JsMap.get "tu_1" (agents one_running) /\
  exists r, JsMap.get "tu_2" (agents st') = Some r /\ parent_id r = "tu_1".
Proof.
  destruct (pre_within_batch_keeps_records toy_digest clock_1ms defaultConfig pre_tu_2
              (event_of pre_tu_2) one_running)
    as (Hkeep & _ & _ & r & Hget & _ & Hparent);
    [reflexivity|reflexivity|reflexivity|reflexivity| |].
  - intros Hq. apply quiet_period_true in Hq. vm_compute in Hq. discriminate.
  - split; [apply Hkeep; vm_compute; discriminate|].
    exists r. split; [exact Hget|].
    destruct Hparent as (b & Hb & _ & Hp & _).
    + exists ("tu_1", record_at "tu_1" one_running).
      split; [left; reflexivity|]. vm_compute. repeat split; discriminate.
    + rewrite Hp. destruct Hb as [<-|[]]. reflexivity.
Defined.

(** X7, witness: the acknowledgment of the launch of a background agent. *)
Lemma launch_ack_completes_nothing_witness :
  let st' := exec (postEvent toy_digest clock_5s defaultConfig post_launch_tu_1) bg_running in
  (exists r', JsMap.get "tu_1" (agents st') = Some r' /\ status r' = running /\
              ended_at r' = None) /\
  messages st' = messages bg_running /\ sessionUsage st' = sessionUsage bg_running /\
  lastCompletionTime st' = lastCompletionTime bg_running.
Proof.
  destruct (launch_ack_completes_nothing toy_digest clock_5s defaultConfig post_launch_tu_1
              (event_of post_launch_tu_1) bg_running (record_at "tu_1" bg_running))
    as ((r' & Hget & Hs & He & _) & Hm & _ & Hu & Hl & _);
    [reflexivity|reflexivity|reflexivity|reflexivity|reflexivity|vm_compute; reflexivity|].
  split; [exists r'; split; [exact Hget|split; [exact Hs|exact He]]|].
  split; [exact Hm|]. split; [exact Hu|exact Hl].
Defined.

(** X8, witness: a pre and its post under the same [tool_use_id]. *)
Lemma pre_then_post_same_key_witness :
  let st1 := exec (postEvent toy_digest clock_1ms defaultConfig pre_tu_1) initialState in
  let st2 := exec (postEvent toy_digest clock_1ms defaultConfig duplicate_post) st1 in
  exists r1 r2,
    JsMap.get "tu_1" (agents st1) = Some r1 /\ JsMap.get "tu_1" (agents st2) = Some r2 /\
    status r1 = running /\ status r2 = completed /\ started_at r2 = started_at r1 /\
    length (agents st2) = length (agents st1) /\
    agent_count (sessionUsage st2) = agent_count (sessionUsage st1) + 1.
Proof.
  destruct (pre_then_post_same_key toy_digest clock_1ms defaultConfig pre_tu_1 duplicate_post
              (event_of pre_tu_1) (event_of duplicate_post) initialState)
    as (r1 & r2 & H1 & H2 & H3 & H4 & H5 & H6 & H7 & _);
    [reflexivity|reflexivity|reflexivity|reflexivity|reflexivity|reflexivity|reflexivity|
     reflexivity|reflexivity|vm_compute; reflexivity|].
  assert (Hk : eventKey toy_digest (event_of pre_tu_1) = "tu_1") by (vm_compute; reflexivity).
  assert (He : isError (ev_is_error (event_of duplicate_post))
                 (tool_output (event_of duplicate_post)) = false)
    by (vm_compute; reflexivity).
  rewrite Hk in H1, H2. rewrite He in H4.
  exists r1, r2.
  split; [exact H1|]. split; [exact H2|]. split; [exact H3|]. split; [exact H4|].
  split; [exact H5|]. split; [exact H6|exact H7].
Defined.

(** X11, witness: an agent that was started ten minutes before the
    cleanup pass and has shown no activity since. *)
Lemma cleanup_keeps_marked_stale_witness :
  status (record_at "tu_1" forgotten_agent) = running /\
  exists r' t,
    In ("tu_1", r')
       (agents (exec (runCleanup clock_10min defaultConfig defaultSettings initialApprovals)
                  forgotten_agent)) /\
    status r' = errored /\ error r' = Some STALE /\ ended_at r' = Some t.
Proof.
  split; [reflexivity|].
  destruct (cleanup_keeps_marked_stale clock_10min defaultConfig defaultSettings
              initialApprovals forgotten_agent "tu_1" (record_at "tu_1" forgotten_agent))
    as (r' & t & Hin & _ & Hs & He & Ht & _).
  - intros i j Hij. unfold clock_10min, tick_clock. lia.
  - vm_compute. discriminate.
  - left. reflexivity.
  - reflexivity.
  - vm_compute. reflexivity.
  - exists r', t. repeat split; assumption.
Defined.

(** X13, witness: the post event of an agent, with a usage block. *)
Lemma hook_post_never_lowers_usage_witness :
  let su := sessionUsage one_running in
  let su' := sessionUsage
               (exec (postEvent toy_digest clock_1ms defaultConfig duplicate_post) one_running) in
  UsageLe su su' /\ agent_count su' <= agent_count su + 1.
Proof.
  apply (hook_post_never_lowers_usage toy_digest clock_1ms defaultConfig duplicate_post
           (event_of duplicate_post) one_running); reflexivity.
Defined.

(** X14, witness: a completion signal that reports 4200 tokens and 7 tool
    uses and no duration. *)
Lemma complete_records_report_witness :
  let st' := exec (postComplete clock_1ms defaultConfig complete_tu_1) one_running in
  (exists r', JsMap.get "tu_1" (agents st') = Some r' /\
     usage r' = Some (mkUsage 4200 7 0) /\
     duration_ms r' = Some (clock_1ms (S (S (ticks one_running)))
                            - started_at (record_at "tu_1" one_running))) /\
  total_tokens (sessionUsage st') = 4200 /\ agent_count (sessionUsage st') = 1 /\
  length (agents st') = 1%nat.
Proof.
  destruct (complete_records_report clock_1ms defaultConfig complete_tu_1
              (complete_event_of complete_tu_1) one_running "tu_1"
              (record_at "tu_1" one_running))
    as ((r' & Hget & _ & _ & _ & _ & Hd & Hu & _) & Hsu & _ & Hlen & _);
    [reflexivity|reflexivity|].
  split; [exists r'; split; [exact Hget|split; [exact Hu|exact Hd]]|].
  cbv zeta. rewrite Hsu, Hlen. repeat split.
Defined.

(** X15, witness: the same completion signal sent twice. *)
Lemma complete_replay_changes_nothing_witness :
  let st1 := exec (postComplete clock_1ms defaultConfig complete_tu_1) one_running in
  let st2 := exec (postComplete clock_1ms defaultConfig complete_tu_1) st1 in
  agent_count (sessionUsage st1) = 1 /\
  eval (postComplete clock_1ms defaultConfig complete_tu_1) st1 = Ok200 /\
  OnlyTimeTouched clock_1ms st1 st2.
Proof.
  split; [reflexivity|].
  apply (complete_replay_changes_nothing clock_1ms defaultConfig complete_tu_1
           (complete_event_of complete_tu_1) one_running "tu_1"
           (record_at "tu_1" one_running)).
  - reflexivity.
  - apply (inv_postEvent toy_digest clock_1ms defaultConfig). split; [apply keyed_nil|].
    apply timerIdle_none. reflexivity.
  - reflexivity.
  - intros a e Ha. vm_compute in Ha. discriminate.
Defined.

(** X16, witness: storage that holds one running and one completed agent
    and the counter 7. *)
Lemma loadFromDb_restores_witness :
  let st' := exec (loadFromDb clock_1ms sample_db) initialState in
  map fst (agents st') = ["a1"; "a2"] /\
  JsMap.get "a2" (agents st') = Some (makeAgent "a2" "s1" false completed 1700000000500 None) /\
  messageCounter st' = 7%N.
Proof.
  destruct (loadFromDb_restores clock_1ms sample_db) as (Hk & Hfin & _ & Hc & _).
  - cbn [sample_db db_agents map]. apply NoDup_cons. split; [|apply NoDup_singleton].
    intros H. apply list_elem_of_In in H. destruct H as [H|[]]. vm_compute in H. discriminate.
  - split; [exact Hk|]. split.
    + apply (Hfin (makeAgent "a2" "s1" false completed 1700000000500 None)).
      * right. left. reflexivity.
      * discriminate.
    + apply (Hc 7%N). reflexivity.
Defined.
(** ** The approval gate *)

Lemma headersSent_true res ap :
  headersSent res ap = true <-> exists r, Replied res r ap.
Proof.
  unfold headersSent, Replied. rewrite existsb_exists. split.
  - intros ([c r] & Hin & Hc). cbn [fst] in Hc. apply Nat.eqb_eq in Hc. subst c. eauto.
  - intros (r & Hin). exists (res, r). split; [exact Hin|]. apply Nat.eqb_refl.
Qed.

Lemma headersSent_false res ap :
  headersSent res ap = false <-> forall r, ~ Replied res r ap.
Proof.
  destruct (headersSent res ap) eqn:H.
  - apply headersSent_true in H as [r Hr]. split; [discriminate|]. intros Hn.
    destruct (Hn r Hr).
  - split; [|reflexivity]. intros _ r Hr.
    assert (Ht : headersSent res ap = true) by (apply headersSent_true; eauto). congruence.
Qed.

Lemma clearWaiterTimeout_timers w ap (t : WaiterTimer) :
  In t (waiterTimers (clearWaiterTimeout w ap)) <-> In t (waiterTimers ap) /\ wt_res t <> w.
Proof.
  unfold clearWaiterTimeout. cbn [waiterTimers with_waiterTimers].
  rewrite <- !list_elem_of_In, list_elem_of_filter.
  unfold Is_true. destruct (Nat.eqb (wt_res t) w) eqn:E; cbn [negb].
  - apply Nat.eqb_eq in E. tauto.
  - apply Nat.eqb_neq in E. tauto.
Qed.

(** What the loop of [resolveApprovalWaiters] does for the waiters [ws]. *)
Lemma resolve_fold d ws ap :
  let ap' := fold_left (resolveWaiter d) ws ap in
  SameRequests ap ap' /\ approvalWaiters ap' = approvalWaiters ap /\
  (forall t, In t (waiterTimers ap') <-> In t (waiterTimers ap) /\ ~ In (wt_res t) ws) /\
  (exists added,
     pollReplies ap' = (pollReplies ap ++ added)%list /\
     Forall (fun e : nat * PollReply =>
               In e.1 ws /\ e.2 = PollDecided d /\ headersSent e.1 ap = false) added /\
     NoDup (map fst added)) /\
  (forall w, In w ws -> headersSent w ap' = true).
Proof.
  revert ap. induction ws as [|w ws IH]; intros ap; cbn [fold_left].
  - split; [repeat split|]. split; [reflexivity|]. split; [intros t; cbn [In]; tauto|].
    split; [|intros w []]. exists []. rewrite app_nil_r. repeat split; constructor.
  - set (ap1 := resolveWaiter d ap w).
    destruct (IH ap1) as (Hsame & Hw & Ht & (added & Hr & Hadded & Hnd) & Hsent).
    assert (H1 : SameRequests ap ap1 /\ approvalWaiters ap1 = approvalWaiters ap /\
                 (forall t, In t (waiterTimers ap1) <->
                            In t (waiterTimers ap) /\ wt_res t <> w) /\
                 pollReplies ap1 =
                   (pollReplies ap ++
                    (if headersSent w ap then [] else [(w, PollDecided d)]))%list).
    { unfold ap1, resolveWaiter. cbv zeta.
      change (headersSent w (clearWaiterTimeout w ap)) with (headersSent w ap).
      destruct (headersSent w ap).
      - split; [repeat split|]. split; [reflexivity|].
        split; [apply clearWaiterTimeout_timers|]. rewrite app_nil_r. reflexivity.
      - split; [repeat split|]. split; [reflexivity|].
        split; [apply clearWaiterTimeout_timers|]. reflexivity. }
    destruct H1 as (Hsame1 & Hw1 & Ht1 & Hr1).
    split; [|split; [|split; [|split]]].
    + destruct Hsame as (A1 & A2 & A3 & A4 & A5 & A6 & A7).
      destruct Hsame1 as (B1 & B2 & B3 & B4 & B5 & B6 & B7).
      repeat split; congruence.
    + congruence.
    + intros t. rewrite Ht, Ht1. cbn [In]. intuition congruence.
    + exists ((if headersSent w ap then [] else [(w, PollDecided d)]) ++ added)%list.
      split; [rewrite Hr, Hr1, app_assoc; reflexivity|].
      assert (Hsent1 : forall c, headersSent c ap1 = false ->
                headersSent c ap = false /\ (headersSent w ap = false -> c <> w)).
      { intros c Hc. rewrite headersSent_false in Hc. split.
        - apply headersSent_false. intros r Hin. apply (Hc r). unfold Replied in *.
          rewrite Hr1. apply in_app_iff. left. exact Hin.
        - intros Hw0 ->. apply (Hc (PollDecided d)). unfold Replied. rewrite Hr1, Hw0.
          apply in_app_iff. right. left. reflexivity. }
      split.
      * apply Forall_app. split.
        -- destruct (headersSent w ap) eqn:Hs; constructor; [|constructor].
           cbn [fst snd]. split; [left; reflexivity|]. split; [reflexivity|exact Hs].
        -- eapply Forall_impl; [exact Hadded|]. intros [c r] (Hin & Hd & Hc). cbn [fst snd] in *.
           split; [right; exact Hin|]. split; [exact Hd|]. apply (Hsent1 c Hc).
      * destruct (headersSent w ap) eqn:Hs; cbn [app map fst]; [exact Hnd|].
        apply NoDup_cons. split; [|exact Hnd]. intros Hin.
        apply list_elem_of_In, in_map_iff in Hin as ([c r] & Hc & Hin). cbn [fst] in Hc. subst c.
        rewrite Forall_forall in Hadded.
        destruct (Hadded (w, r) (proj2 (list_elem_of_In _ _) Hin)) as (_ & _ & Hc).
        cbn [fst] in Hc. destruct (Hsent1 w Hc) as [_ Hne]. apply (Hne eq_refl). reflexivity.
    + intros w' [<-|Hin]; [|apply Hsent, Hin].
      apply headersSent_true.
      assert (Hw' : exists r, Replied w r ap1).
      { unfold Replied. rewrite Hr1. destruct (headersSent w ap) eqn:Hs.
        - apply headersSent_true in Hs as [r Hr0]. exists r. apply in_app_iff. left. exact Hr0.
        - exists (PollDecided d). apply in_app_iff. right. left. reflexivity. }
      destruct Hw' as [r Hr0]. exists r. unfold Replied in *. rewrite Hr.
      apply in_app_iff. left. exact Hr0.
Qed.
Lemma smap_delete_absent {V} k (m : StrMap.t V) :
  StrMap.get k m = None -> StrMap.delete k m = m.
Proof.
  induction m as [|[k' v'] m IH]; cbn [StrMap.get StrMap.delete]; [reflexivity|].
  destruct (String.eqb k k'); [discriminate|]. intros H. rewrite IH; auto.
Qed.

Lemma waitersOf_with_waiters id' (m : StrMap.t (list nat)) ap :
  waitersOf id' (with_approvalWaiters m ap) =
    match StrMap.get id' m with Some ws => ws | None => [] end.
Proof. reflexivity. Qed.

Lemma resolve_spec id' d ap :
  let ap' := resolveApprovalWaiters id' d ap in
  SameRequests ap ap' /\
  (forall k, waitersOf k ap' = if String.eqb k id' then [] else waitersOf k ap) /\
  (forall t, In t (waiterTimers ap') <->
             In t (waiterTimers ap) /\ ~ In (wt_res t) (waitersOf id' ap)) /\
  (exists added,
     pollReplies ap' = (pollReplies ap ++ added)%list /\
     Forall (fun e : nat * PollReply =>
               In e.1 (waitersOf id' ap) /\ e.2 = PollDecided d /\
               headersSent e.1 ap = false) added /\
     NoDup (map fst added)) /\
  (forall w, In w (waitersOf id' ap) -> headersSent w ap' = true).
Proof.
  cbv zeta.
  destruct (StrMap.get id' (approvalWaiters ap)) as [ws|] eqn:Hget.
  - assert (Hws : waitersOf id' ap = ws) by (unfold waitersOf; rewrite Hget; reflexivity).
    rewrite !Hws. unfold resolveApprovalWaiters. rewrite Hget.
    destruct (resolve_fold d ws ap) as (Hsame & Hw & Ht & Hadd & Hsent).
    cbv zeta in Hsame, Hw, Ht, Hadd, Hsent.
    set (ap1 := fold_left (resolveWaiter d) ws ap) in *.
    split; [exact Hsame|]. split; [|split; [exact Ht|split; [exact Hadd|exact Hsent]]].
    intros k. rewrite waitersOf_with_waiters, Hw.
    destruct (String.eqb k id') eqn:E.
    + apply String.eqb_eq in E. subst k. rewrite smap_get_delete_same. reflexivity.
    + apply String.eqb_neq in E. rewrite smap_get_delete_other by exact E. reflexivity.
  - assert (Hws : waitersOf id' ap = []) by (unfold waitersOf; rewrite Hget; reflexivity).
    rewrite !Hws. unfold resolveApprovalWaiters. rewrite Hget.
    split; [repeat split|]. split; [|split; [|split]].
    + intros k. destruct (String.eqb k id') eqn:E; [|reflexivity].
      apply String.eqb_eq in E. subst k. exact Hws.
    + intros t. cbn [In]. tauto.
    + exists []. rewrite app_nil_r. repeat split; constructor.
    + intros w [].
Qed.

Lemma pendingTimer_Some res ap t :
  pendingTimer res ap = Some t -> In t (waiterTimers ap) /\ wt_res t = res.
Proof.
  unfold pendingTimer. intros H. apply find_some in H as [Hin Hc].
  split; [exact Hin|]. apply Nat.eqb_eq, Hc.
Qed.

Lemma headersSent_app res ap ap' added :
  pollReplies ap' = (pollReplies ap ++ added)%list ->
  headersSent res ap' = headersSent res ap || existsb (fun e => Nat.eqb e.1 res) added.
Proof. unfold headersSent. intros ->. apply existsb_app. Qed.

(** The invariant does not depend on the requests and their decisions. *)
Lemma gate_frame ap ap' :
  approvalWaiters ap' = approvalWaiters ap -> waiterTimers ap' = waiterTimers ap ->
  pollReplies ap' = pollReplies ap -> connections ap' = connections ap ->
  closedConnections ap' = closedConnections ap ->
  GateInv ap -> GateInv ap'.
Proof.
  intros Hw Ht Hr Hc Hcl [I1 I2 I3 I4 I5 I6 I7 I8].
  assert (Hwo : forall k, waitersOf k ap' = waitersOf k ap)
    by (intros k; unfold waitersOf; rewrite Hw; reflexivity).
  assert (Hs : forall c, headersSent c ap' = headersSent c ap)
    by (intros c; unfold headersSent; rewrite Hr; reflexivity).
  constructor.
  - rewrite Hr. exact I1.
  - rewrite Hr, Hc. exact I2.
  - intros k w. rewrite Hwo, Hc, Hs. apply I3.
  - intros k. rewrite Hwo. apply I4.
  - intros k1 k2 w. rewrite !Hwo. apply I5.
  - intros t. rewrite Ht, Hc. intros Hin. destruct (I6 t Hin) as [H1 H2].
    split; [exact H1|]. intros k. rewrite Hwo. apply H2.
  - intros c. rewrite Hc, Hs, Hcl. unfold TimerPending. rewrite Ht. apply I7.
  - rewrite Hcl, Hc. exact I8.
Qed.

Lemma gate_resolve id' d ap : GateInv ap -> GateInv (resolveApprovalWaiters id' d ap).
Proof.
  intros [I1 I2 I3 I4 I5 I6 I7 I8].
  destruct (resolve_spec id' d ap) as (Hsame & Hwo & Ht & (added & Hr & Hadded & Hnd) & Hsent).
  cbv zeta in Hsame, Hwo, Ht, Hr, Hsent.
  set (ap' := resolveApprovalWaiters id' d ap) in *.
  destruct Hsame as (_ & _ & _ & _ & Hc & _ & Hcl).
  rewrite Forall_forall in Hadded.
  assert (Hadd : forall e, In e added ->
            In e.1 (waitersOf id' ap) /\ e.2 = PollDecided d /\ headersSent e.1 ap = false).
  { intros e He. apply Hadded, list_elem_of_In, He. }
  assert (Hstill : forall k w, In w (waitersOf k ap') ->
            In w (waitersOf k ap) /\ k <> id').
  { intros k w. rewrite Hwo. destruct (String.eqb k id') eqn:E; [intros []|].
    apply String.eqb_neq in E. auto. }
  constructor.
  - rewrite Hr, map_app. apply NoDup_app. split; [exact I1|]. split; [|exact Hnd].
    intros c Hc1 Hc2. apply list_elem_of_In, in_map_iff in Hc1 as ([c1 r1] & <- & Hin1).
    apply list_elem_of_In, in_map_iff in Hc2 as ([c2 r2] & Heq & Hin2). cbn [fst] in *. subst c2.
    destruct (Hadd _ Hin2) as (_ & _ & Hs). cbn [fst] in Hs.
    rewrite headersSent_false in Hs. apply (Hs r1). exact Hin1.
  - intros e. rewrite Hr, Hc. intros He. apply in_app_iff in He as [He|He]; [apply I2, He|].
    destruct (Hadd e He) as (Hin & _). apply (I3 id'), Hin.
  - intros k w Hin. destruct (Hstill k w Hin) as [Hin0 Hne].
    destruct (I3 k w Hin0) as [Hlt Hs]. rewrite Hc. split; [exact Hlt|].
    rewrite (headersSent_app w ap ap' added Hr), Hs. cbn [orb].
    destruct (existsb _ added) eqn:Hex; [|reflexivity]. exfalso.
    apply existsb_exists in Hex as (e & He & Hw). apply Nat.eqb_eq in Hw. subst w.
    destruct (Hadd e He) as (Hin1 & _). apply Hne. apply (I5 k id' e.1 Hin0 Hin1).
  - intros k. rewrite Hwo. destruct (String.eqb k id'); [constructor|apply I4].
  - intros k1 k2 w H1 H2. destruct (Hstill k1 w H1) as [H1' _].
    destruct (Hstill k2 w H2) as [H2' _]. apply (I5 k1 k2 w H1' H2').
  - intros t Hin. apply Ht in Hin as [Hin _]. destruct (I6 t Hin) as [H1 H2].
    rewrite Hc. split; [exact H1|]. intros k Hk. destruct (Hstill k _ Hk) as [Hk' _].
    apply H2, Hk'.
  - intros c. rewrite Hc, Hcl. intros Hlt.
    destruct (I7 c Hlt) as [Hs|[Hclosed|(t & Hin & Hres)]].
    + left. rewrite (headersSent_app c ap ap' added Hr), Hs. reflexivity.
    + right. left. exact Hclosed.
    + destruct (in_dec Nat.eq_dec c (waitersOf id' ap)) as [Hw|Hw].
      * left. apply Hsent, Hw.
      * right. right. exists t. split; [|exact Hres]. apply Ht. split; [exact Hin|].
        rewrite Hres. exact Hw.
  - rewrite Hcl, Hc. exact I8.
Qed.
Lemma remove_first_In x w l : In w (remove_first x l) -> In w l.
Proof.
  induction l as [|y l IH]; cbn [remove_first]; [intros []|].
  destruct (Nat.eqb y x); cbn [In]; [auto|]. intros [->|H]; auto.
Qed.

Lemma remove_first_NoDup x l :
  NoDup l -> NoDup (remove_first x l) /\ ~ In x (remove_first x l).
Proof.
  induction l as [|y l IH]; cbn [remove_first]; intros Hnd; [split; [constructor|intros []]|].
  apply NoDup_cons in Hnd as [Hy Hnd]. destruct (Nat.eqb y x) eqn:E.
  - apply Nat.eqb_eq in E. subst y. split; [exact Hnd|].
    intros H. apply Hy, list_elem_of_In, H.
  - apply Nat.eqb_neq in E. destruct (IH Hnd) as [H1 H2]. split.
    + apply NoDup_cons. split; [|exact H1]. intros H. apply Hy.
      apply list_elem_of_In. apply list_elem_of_In in H. apply (remove_first_In x), H.
    + intros [->|H]; [congruence|auto].
Qed.

Lemma removeWaiter_spec id' w ap :
  let ap' := removeWaiter id' w ap in
  (forall k, waitersOf k ap' =
             if String.eqb k id' then remove_first w (waitersOf id' ap) else waitersOf k ap) /\
  waiterTimers ap' = waiterTimers ap /\ pollReplies ap' = pollReplies ap /\
  connections ap' = connections ap /\ closedConnections ap' = closedConnections ap.
Proof.
  cbv zeta. unfold removeWaiter.
  destruct (StrMap.get id' (approvalWaiters ap)) as [ws|] eqn:Hget.
  - assert (Hws : waitersOf id' ap = ws) by (unfold waitersOf; rewrite Hget; reflexivity).
    rewrite Hws. cbv zeta.
    destruct (length (remove_first w ws) =? 0)%nat eqn:Hlen; (split; [|repeat split]).
    + intros k. rewrite waitersOf_with_waiters. destruct (String.eqb k id') eqn:E.
      * apply String.eqb_eq in E. subst k. rewrite smap_get_delete_same.
        apply Nat.eqb_eq in Hlen. destruct (remove_first w ws); [reflexivity|discriminate].
      * apply String.eqb_neq in E. rewrite smap_get_delete_other by exact E. reflexivity.
    + intros k. rewrite waitersOf_with_waiters. destruct (String.eqb k id') eqn:E.
      * apply String.eqb_eq in E. subst k. rewrite smap_get_set_same. reflexivity.
      * apply String.eqb_neq in E. rewrite smap_get_set_other by exact E. reflexivity.
  - assert (Hws : waitersOf id' ap = []) by (unfold waitersOf; rewrite Hget; reflexivity).
    rewrite Hws. split; [|repeat split].
    intros k. destruct (String.eqb k id') eqn:E; [|reflexivity].
    apply String.eqb_eq in E. subst k. exact Hws.
Qed.

(** An immediate answer to the connection that is accepted next. *)
Lemma gate_accept_reply r ap :
  GateInv ap ->
  GateInv (sendReply (connections ap) r (with_connections (S (connections ap)) ap)).
Proof.
  intros [I1 I2 I3 I4 I5 I6 I7 I8].
  remember (connections ap) as c eqn:Ec.
  assert (Hfresh : headersSent c ap = false).
  { apply headersSent_false. intros r0 Hr0. specialize (I2 _ Hr0). cbn [fst] in I2. lia. }
  assert (Hs : forall w, headersSent w (sendReply c r (with_connections (S c) ap)) =
                         headersSent w ap || Nat.eqb c w).
  { intros w. unfold headersSent, sendReply.
    cbn [pollReplies with_pollReplies with_connections].
    rewrite existsb_app. cbn [existsb fst]. rewrite orb_false_r. reflexivity. }
  constructor; cbn [pollReplies connections sendReply with_pollReplies with_connections
                    closedConnections waiterTimers].
  - rewrite map_app. apply NoDup_app. split; [exact I1|]. split; [|apply NoDup_singleton].
    intros x Hx Hx'. apply list_elem_of_In in Hx'. destruct Hx' as [<-|[]].
    apply list_elem_of_In, in_map_iff in Hx as ([c0 r0] & Hc0 & Hin). cbn [fst] in Hc0. subst c0.
    apply (proj1 (headersSent_false _ _) Hfresh r0 Hin).
  - intros e He. apply in_app_iff in He as [He|[<-|[]]]; [specialize (I2 e He); lia|].
    cbn [fst]. lia.
  - intros k w Hw. change (waitersOf k (sendReply c r (with_connections (S c) ap)))
      with (waitersOf k ap) in Hw.
    destruct (I3 k w Hw) as [Hlt Hns]. split; [lia|]. rewrite Hs, Hns.
    cbn [orb]. apply Nat.eqb_neq. lia.
  - exact I4.
  - exact I5.
  - intros t Hin. destruct (I6 t Hin) as [H1 H2]. split; [lia|exact H2].
  - intros c0 Hlt. rewrite Hs.
    cbn [pollReplies connections sendReply with_pollReplies with_connections] in Hlt.
    destruct (Nat.eq_dec c0 c) as [->|Hne].
    + left. rewrite Nat.eqb_refl. apply orb_true_r.
    + destruct (I7 c0) as [H|[H|H]]; [lia| | |].
      * left. rewrite H. reflexivity.
      * right. left. exact H.
      * right. right. exact H.
  - intros c0 Hin. specialize (I8 c0 Hin). lia.
Qed.

(** The long-poll route registers the connection that is accepted next as a
    waiter with a timeout. *)
Lemma gate_register id' delay ap :
  let res := connections ap in
  forall ap',
  connections ap' = S res -> pollReplies ap' = pollReplies ap ->
  closedConnections ap' = closedConnections ap ->
  waiterTimers ap' = (waiterTimers ap ++ [mkWaiterTimer res id' delay])%list ->
  (forall k, waitersOf k ap' =
             if String.eqb k id' then (waitersOf id' ap ++ [res])%list else waitersOf k ap) ->
  GateInv ap -> GateInv ap'.
Proof.
  cbv zeta. intros ap' Hc Hr Hcl Ht Hw [I1 I2 I3 I4 I5 I6 I7 I8].
  assert (Hs : forall w, headersSent w ap' = headersSent w ap).
  { intros w. unfold headersSent. rewrite Hr. reflexivity. }
  assert (Hfresh : headersSent (connections ap) ap = false).
  { apply headersSent_false. intros r0 Hr0. specialize (I2 _ Hr0). cbn [fst] in I2. lia. }
  assert (Hold : forall k w, In w (waitersOf k ap') ->
            (In w (waitersOf k ap) /\ w <> connections ap) \/ (w = connections ap /\ k = id')).
  { intros k w Hin. rewrite Hw in Hin. destruct (String.eqb k id') eqn:E.
    - apply String.eqb_eq in E. subst k. apply in_app_iff in Hin as [Hin|[<-|[]]].
      + left. split; [exact Hin|]. destruct (I3 _ _ Hin). lia.
      + right. split; reflexivity.
    - left. split; [exact Hin|]. destruct (I3 _ _ Hin). lia. }
  constructor.
  - rewrite Hr. exact I1.
  - intros e He. rewrite Hr in He. specialize (I2 e He). lia.
  - intros k w Hin. rewrite Hs. destruct (Hold k w Hin) as [[Hin' _]|[-> _]].
    + destruct (I3 _ _ Hin'). split; [lia|assumption].
    + split; [lia|exact Hfresh].
  - intros k. rewrite Hw. destruct (String.eqb k id'); [|apply I4].
    apply NoDup_app. split; [apply I4|]. split; [|apply NoDup_singleton].
    intros x Hx Hx'. apply list_elem_of_In in Hx'. destruct Hx' as [<-|[]].
    apply list_elem_of_In in Hx. destruct (I3 _ _ Hx). lia.
  - intros k1 k2 w H1 H2.
    destruct (Hold k1 w H1) as [[H1' Hn1]|[Hw1 Hk1]], (Hold k2 w H2) as [[H2' Hn2]|[Hw2 Hk2]];
      try congruence. exact (I5 _ _ _ H1' H2').
  - intros t Hin. rewrite Ht in Hin. apply in_app_iff in Hin as [Hin|[<-|[]]].
    + destruct (I6 t Hin) as [Hlt Hown]. split; [lia|]. intros k Hk.
      destruct (Hold k _ Hk) as [[Hk' _]|[Hk' _]]; [exact (Hown k Hk')|lia].
    + cbn [wt_res wt_id]. split; [lia|]. intros k Hk.
      destruct (Hold k _ Hk) as [[_ Hk']|[_ Hk']]; [congruence|exact Hk'].
  - intros c Hlt. rewrite Hs, Hcl. destruct (Nat.eq_dec c (connections ap)) as [->|Hne].
    + right. right. exists (mkWaiterTimer (connections ap) id' delay). rewrite Ht.
      split; [apply in_app_iff; right; left; reflexivity|reflexivity].
    + destruct (I7 c) as [H|[H|(t & Hin & Heq)]]; [lia|auto|auto|].
      right. right. exists t. rewrite Ht. split; [apply in_app_iff; left; exact Hin|exact Heq].
  - intros c Hin. rewrite Hcl in Hin. specialize (I8 c Hin). lia.
Qed.

(** The waiter of a connection is taken off the list, with its timeout;
    nothing is written. *)
Lemma waiterClosed_spec id' res ap :
  let ap' := waiterClosed id' res ap in
  (forall k, waitersOf k ap' =
             if String.eqb k id' then remove_first res (waitersOf id' ap) else waitersOf k ap) /\
  (forall t, In t (waiterTimers ap') <-> In t (waiterTimers ap) /\ wt_res t <> res) /\
  pollReplies ap' = pollReplies ap /\
  connections ap' = connections ap /\ closedConnections ap' = closedConnections ap.
Proof.
  cbv zeta. unfold waiterClosed.
  destruct (removeWaiter_spec id' res (clearWaiterTimeout res ap)) as (Hw & Ht & Hr & Hc & Hcl).
  split; [|split; [|split; [|split]]].
  - intros k. rewrite Hw. reflexivity.
  - intros t. rewrite Ht. apply clearWaiterTimeout_timers.
  - rewrite Hr. reflexivity.
  - rewrite Hc. reflexivity.
  - rewrite Hcl. reflexivity.
Qed.

Lemma existsb_fst_false (added : list (nat * PollReply)) w :
  existsb (fun e => Nat.eqb e.1 w) added = false <-> ~ In w (map fst added).
Proof.
  induction added as [|[c r] added IH]; cbn [existsb map In fst].
  - split; [intros _ []|reflexivity].
  - rewrite orb_false_iff, IH, Nat.eqb_neq. tauto.
Qed.

(** Waiters and timeouts are only taken away, connections that had no
    answer get one, and every connection that loses its timeout is
    answered or closed afterwards. *)
Lemma gate_shrink ap ap' added :
  pollReplies ap' = (pollReplies ap ++ added)%list ->
  NoDup (map fst added) ->
  (forall e, In e added -> (e.1 < connections ap)%nat /\ headersSent e.1 ap = false) ->
  connections ap' = connections ap ->
  (forall c, In c (closedConnections ap) -> In c (closedConnections ap')) ->
  (forall c, In c (closedConnections ap') -> (c < connections ap)%nat) ->
  (forall k w, In w (waitersOf k ap') -> In w (waitersOf k ap) /\ ~ In w (map fst added)) ->
  (forall k, NoDup (waitersOf k ap) -> NoDup (waitersOf k ap')) ->
  (forall t, In t (waiterTimers ap') -> In t (waiterTimers ap)) ->
  (forall t, In t (waiterTimers ap) ->
     In t (waiterTimers ap') \/ In (wt_res t) (closedConnections ap') \/
     headersSent (wt_res t) ap' = true) ->
  GateInv ap -> GateInv ap'.
Proof.
  intros Hr Hnda Hadd Hc Hcl Hclk Hw Hnd Ht Hgone [I1 I2 I3 I4 I5 I6 I7 I8].
  pose proof (fun w => headersSent_app w ap ap' added Hr) as Hs.
  constructor.
  - rewrite Hr, map_app. apply NoDup_app. split; [exact I1|]. split; [|exact Hnda].
    intros x Hx Hx'. apply list_elem_of_In, in_map_iff in Hx as ([c r] & Hc0 & Hin).
    apply list_elem_of_In, in_map_iff in Hx' as (e & He & Hin').
    cbn [fst] in Hc0. subst c. destruct (Hadd e Hin') as [_ Hf]. rewrite He in Hf.
    apply (proj1 (headersSent_false _ _) Hf r Hin).
  - intros e He. rewrite Hr in He. rewrite Hc. apply in_app_iff in He as [He|He].
    + exact (I2 e He).
    + apply Hadd, He.
  - intros k w Hin. destruct (Hw k w Hin) as [Hin' Hna]. destruct (I3 k w Hin') as [Hlt Hf].
    rewrite Hc, Hs, Hf. split; [exact Hlt|]. cbn [orb]. apply existsb_fst_false, Hna.
  - intros k. apply Hnd, I4.
  - intros k1 k2 w H1 H2. exact (I5 _ _ _ (proj1 (Hw _ _ H1)) (proj1 (Hw _ _ H2))).
  - intros t Hin. destruct (I6 t (Ht t Hin)) as [Hlt Hown]. rewrite Hc. split; [exact Hlt|].
    intros k Hk. exact (Hown k (proj1 (Hw _ _ Hk))).
  - intros c Hlt. rewrite Hc in Hlt.
    destruct (I7 c Hlt) as [H|[H|(t & Hin & Heq)]].
    + left. rewrite Hs, H. reflexivity.
    + right. left. apply Hcl, H.
    + destruct (Hgone t Hin) as [H|[H|H]].
      * right. right. exists t. split; assumption.
      * right. left. rewrite <- Heq. exact H.
      * left. rewrite <- Heq. exact H.
  - rewrite Hc. exact Hclk.
Qed.

Lemma gate_closed res ap : GateInv ap -> GateInv (connectionClosed res ap).
Proof.
  intros Hinv. unfold connectionClosed.
  destruct (res <? connections ap)%nat eqn:Hlt; [|exact Hinv]. apply Nat.ltb_lt in Hlt.
  destruct (negb (existsb (Nat.eqb res) (closedConnections ap))); [|exact Hinv].
  cbn [andb]. cbv zeta.
  set (ap1 := with_closedConnections (res :: closedConnections ap) ap).
  change (closeHandlers ap1) with (closeHandlers ap).
  assert (Hk : forall c, In c (res :: closedConnections ap) -> (c < connections ap)%nat).
  { intros c [<-|Hin]; [exact Hlt|apply (closed_known _ Hinv), Hin]. }
  destruct (find _ (closeHandlers ap)) as [h|].
  - destruct (waiterClosed_spec h.2 res ap1) as (Hw & Ht & Hr & Hc & Hcl).
    apply (gate_shrink ap _ []); [| | |exact Hc| | | | | | |exact Hinv].
    + rewrite Hr, app_nil_r. reflexivity.
    + constructor.
    + intros e [].
    + intros c Hin. rewrite Hcl. right. exact Hin.
    + rewrite Hcl. exact Hk.
    + intros k w. rewrite Hw. change (waitersOf h.2 ap1) with (waitersOf h.2 ap).
      change (waitersOf k ap1) with (waitersOf k ap).
      destruct (String.eqb k h.2) eqn:E; [|intros H; split; [exact H|intros []]].
      apply String.eqb_eq in E. subst k. intros H. split; [|intros []].
      apply (remove_first_In res), H.
    + intros k. rewrite Hw. change (waitersOf h.2 ap1) with (waitersOf h.2 ap).
      change (waitersOf k ap1) with (waitersOf k ap).
      destruct (String.eqb k h.2) eqn:E; [|auto].
      apply String.eqb_eq in E. subst k. intros Hnd. apply remove_first_NoDup, Hnd.
    + intros t Hin. apply Ht in Hin. apply Hin.
    + intros t Hin. destruct (Nat.eq_dec (wt_res t) res) as [E|E].
      * right. left. rewrite Hcl, E. left. reflexivity.
      * left. apply Ht. split; assumption.
  - apply (gate_shrink ap _ []); [| | |reflexivity| |exact Hk| |auto|auto|auto|exact Hinv].
    + rewrite app_nil_r. reflexivity.
    + constructor.
    + intros e [].
    + intros c Hin. right. exact Hin.
    + intros k w H. split; [exact H|intros []].
Qed.

Lemma gate_timeout res ap t :
  pendingTimer res ap = Some t -> GateInv ap -> GateInv (waiterTimeout (wt_id t) res ap).
Proof.
  intros Hp Hinv. apply pendingTimer_Some in Hp as [Htin Hres].
  unfold waiterTimeout. cbv zeta.
  destruct (waiterClosed_spec (wt_id t) res ap) as (Hw & Ht & Hr & Hc & Hcl).
  unfold waiterClosed in Hw, Ht, Hr, Hc, Hcl. cbv zeta in Hw, Ht, Hr, Hc, Hcl.
  set (ap2 := removeWaiter (wt_id t) res (clearWaiterTimeout res ap)) in *.
  assert (Hs : forall w, headersSent w ap2 = headersSent w ap).
  { intros w. unfold headersSent. rewrite Hr. reflexivity. }
  assert (Hsub : forall k w, In w (waitersOf k ap2) -> In w (waitersOf k ap) /\ w <> res).
  { intros k w. rewrite Hw. destruct (String.eqb k (wt_id t)) eqn:E.
    - apply String.eqb_eq in E. subst k. intros Hin. split; [apply (remove_first_In res), Hin|].
      intros ->. apply (proj2 (remove_first_NoDup res _ (waiters_once _ Hinv (wt_id t)))), Hin.
    - apply String.eqb_neq in E. intros Hin. split; [exact Hin|]. intros ->.
      apply E. rewrite <- Hres in Hin. exact (proj2 (timers_known _ Hinv t Htin) k Hin). }
  assert (Hnd : forall k, NoDup (waitersOf k ap) -> NoDup (waitersOf k ap2)).
  { intros k. rewrite Hw. destruct (String.eqb k (wt_id t)) eqn:E; [|auto].
    apply String.eqb_eq in E. subst k. intros H. apply remove_first_NoDup, H. }
  rewrite Hs. destruct (headersSent res ap) eqn:Hsent.
  - apply (gate_shrink ap _ []); [| | |exact Hc| | | |exact Hnd| | |exact Hinv].
    + rewrite Hr, app_nil_r. reflexivity.
    + constructor.
    + intros e [].
    + rewrite Hcl. auto.
    + rewrite Hcl. apply (closed_known _ Hinv).
    + intros k w H. split; [apply (Hsub k w H)|intros []].
    + intros t0 Hin. apply Ht in Hin. apply Hin.
    + intros t0 Hin. destruct (Nat.eq_dec (wt_res t0) res) as [E|E].
      * right. right. rewrite Hs, E. exact Hsent.
      * left. apply Ht. split; assumption.
  - apply (gate_shrink ap _ [(res, PollPending)]).
    + cbn [sendReply pollReplies with_pollReplies]. rewrite Hr. reflexivity.
    + apply NoDup_singleton.
    + intros e [<-|[]]. cbn [fst]. split; [|exact Hsent].
      rewrite <- Hres. apply (timers_known _ Hinv t Htin).
    + exact Hc.
    + cbn [sendReply closedConnections with_pollReplies]. rewrite Hcl. auto.
    + cbn [sendReply closedConnections with_pollReplies]. rewrite Hcl.
      apply (closed_known _ Hinv).
    + intros k w H. change (waitersOf k (sendReply res PollPending ap2))
        with (waitersOf k ap2) in H. destruct (Hsub k w H) as [H1 H2].
      split; [exact H1|]. intros [E|[]]. cbn [fst] in E. congruence.
    + exact Hnd.
    + intros t0 Hin. cbn [sendReply waiterTimers with_pollReplies] in Hin.
      apply Ht in Hin. apply Hin.
    + intros t0 Hin. destruct (Nat.eq_dec (wt_res t0) res) as [E|E].
      * right. right. rewrite E. apply headersSent_true. exists PollPending.
        unfold Replied. cbn [sendReply pollReplies with_pollReplies].
        apply in_app_iff. right. left. reflexivity.
      * left. cbn [sendReply waiterTimers with_pollReplies]. apply Ht. split; assumption.
    + exact Hinv.
Qed.
Lemma gate_initial : GateInv initialApprovals.
Proof.
  constructor.
  - constructor.
  - intros e [].
  - intros k w [].
  - intros k. constructor.
  - intros k1 k2 w [].
  - intros t [].
  - intros c Hc. cbn [initialApprovals connections] in Hc. lia.
  - intros c [].
Qed.

Lemma eval_bind {A B} (m : M A) (k : A -> M B) st :
  eval (bind m k) st = eval (k (eval m st)) (exec m st).
Proof. reflexivity. Qed.

Section Gate.

Variable sha1_hex : string -> string.
Variable clock : nat -> Z.
Variable config : Config.
Variable settings : Settings.
Variable randomUUID : nat -> string.

(** The replies and the next approval state of the routes. *)
Lemma approvalRequest_run body ap st :
  eval (approvalRequest clock randomUUID body ap) st =
    if negb (approvalEnabled ap) then (AutoApproved, ap)
    else match ApprovalRequestSchema body with
         | None => (RequestInvalid, ap)
         | Some (toolName', toolInput', sessionId') =>
             let id' := randomUUID (uuidCalls ap) in
             (RequestPending id',
              with_pendingApprovals
                (StrMap.set id'
                   (mkApprovalRecord id' toolName' toolInput' sessionId' (clock (ticks st)))
                   (pendingApprovals ap))
                (with_uuidCalls (S (uuidCalls ap)) ap))
         end.
Proof.
  unfold approvalRequest. destruct (negb (approvalEnabled ap)); [reflexivity|].
  destruct (ApprovalRequestSchema body) as [[[tn ti] sid]|]; reflexivity.
Qed.

Lemma approvalRespond_run body ap st :
  eval (approvalRespond clock body ap) st =
    match ApprovalRespondSchema body with
    | None => (RespondInvalid, ap)
    | Some (requestId', decision') =>
        match StrMap.get requestId' (pendingApprovals ap) with
        | None => (RespondNotFound, ap)
        | Some _ =>
            (RespondOk,
             resolveApprovalWaiters requestId' decision'
               (with_approvalDecisions
                  (StrMap.set requestId' (mkApprovalDecision decision' (clock (ticks st)))
                     (approvalDecisions ap))
                  (with_pendingApprovals (StrMap.delete requestId' (pendingApprovals ap)) ap)))
        end
    end.
Proof.
  unfold approvalRespond. destruct (ApprovalRespondSchema body) as [[rid d]|]; [|reflexivity].
  destruct (StrMap.get rid (pendingApprovals ap)); reflexivity.
Qed.

Lemma approvalToggle_run ap st :
  eval (approvalToggle clock ap) st =
    if approvalEnabled ap
    then (false,
          with_pendingApprovals []
            (eval (approveAll clock (map fst (pendingApprovals ap))
                     (with_approvalEnabled false ap)) st))
    else (true, with_approvalEnabled true ap).
Proof.
  unfold approvalToggle. cbv zeta. destruct (approvalEnabled ap); reflexivity.
Qed.

Lemma runCleanup_gate ap st :
  eval (runCleanup clock config settings ap) st = cleanupApprovals settings (clock (ticks st)) ap.
Proof. unfold eval. rewrite runCleanup_run. reflexivity. Qed.

Lemma gate_request body ap st :
  GateInv ap -> GateInv (eval (approvalRequest clock randomUUID body ap) st).2.
Proof.
  intros Hinv. rewrite approvalRequest_run. destruct (negb (approvalEnabled ap)); [exact Hinv|].
  destruct (ApprovalRequestSchema body) as [[[tn ti] sid]|]; [|exact Hinv].
  apply (gate_frame ap); try reflexivity. exact Hinv.
Qed.

Lemma gate_respond body ap st :
  GateInv ap -> GateInv (eval (approvalRespond clock body ap) st).2.
Proof.
  intros Hinv. rewrite approvalRespond_run.
  destruct (ApprovalRespondSchema body) as [[rid d]|]; [|exact Hinv].
  destruct (StrMap.get rid (pendingApprovals ap)); [|exact Hinv].
  apply gate_resolve. apply (gate_frame ap); try reflexivity. exact Hinv.
Qed.

Lemma gate_approveAll ids ap st :
  GateInv ap -> GateInv (eval (approveAll clock ids ap) st).
Proof.
  revert ap st. induction ids as [|i ids IH]; intros ap st Hinv; [exact Hinv|].
  cbn [approveAll]. rewrite eval_bind. apply IH. apply gate_resolve.
  apply (gate_frame ap); try reflexivity. exact Hinv.
Qed.

Lemma gate_toggle ap st :
  GateInv ap -> GateInv (eval (approvalToggle clock ap) st).2.
Proof.
  intros Hinv. rewrite approvalToggle_run. destruct (approvalEnabled ap); cbn [snd].
  - apply (gate_frame (eval (approveAll clock (map fst (pendingApprovals ap))
                                   (with_approvalEnabled false ap)) st)); try reflexivity.
    apply gate_approveAll. apply (gate_frame ap); try reflexivity. exact Hinv.
  - apply (gate_frame ap); try reflexivity. exact Hinv.
Qed.

Lemma gate_expirePending now e ap :
  GateInv ap -> GateInv (expirePending settings now ap e).
Proof.
  intros Hinv. unfold expirePending. destruct (_ <? _); [|exact Hinv].
  cbv zeta. apply (gate_frame (resolveApprovalWaiters e.1 "allow" ap)); try reflexivity.
  apply gate_resolve, Hinv.
Qed.

Lemma gate_cleanup now ap : GateInv ap -> GateInv (cleanupApprovals settings now ap).
Proof.
  intros Hinv. unfold cleanupApprovals. cbv zeta.
  set (ap1 := with_approvalDecisions _ ap).
  assert (H1 : GateInv ap1) by (apply (gate_frame ap); try reflexivity; exact Hinv).
  change (pendingApprovals ap1) with (pendingApprovals ap).
  generalize (pendingApprovals ap). clearbody ap1. clear Hinv. revert ap1 H1.
  intros ap1 H1 l. revert ap1 H1. induction l as [|e l IH]; intros ap1 H1; [exact H1|].
  cbn [fold_left]. apply IH, gate_expirePending, H1.
Qed.

(** A long poll for a pending request with a positive wait: the connection
    is registered as a waiter, with its timeout and its close handler, and
    nothing is written. *)
Lemma approvalResponse_wait id' wait ap :
  StrMap.get id' (approvalDecisions ap) = None ->
  StrMap.has id' (pendingApprovals ap) = true ->
  waitSeconds wait <> 0 ->
  let res := connections ap in
  let ap' := approvalResponse id' wait ap in
  connections ap' = S res /\ pollReplies ap' = pollReplies ap /\
  closedConnections ap' = closedConnections ap /\
  waiterTimers ap' = (waiterTimers ap ++ [mkWaiterTimer res id' (waitSeconds wait * 1000)])%list /\
  (forall k, waitersOf k ap' =
             if String.eqb k id' then (waitersOf id' ap ++ [res])%list else waitersOf k ap) /\
  closeHandlers ap' = (res, id') :: closeHandlers ap /\
  pendingApprovals ap' = pendingApprovals ap /\ approvalDecisions ap' = approvalDecisions ap /\
  approvalEnabled ap' = approvalEnabled ap /\ uuidCalls ap' = uuidCalls ap.
Proof.
  intros Hd Hp Hwait. cbv zeta. unfold approvalResponse. cbv zeta.
  cbn [approvalDecisions pendingApprovals with_connections]. rewrite Hd, Hp. cbn [negb].
  destruct (waitSeconds wait =? 0) eqn:E; [apply Z.eqb_eq in E; contradiction|].
  unfold StrMap.has. cbn [approvalWaiters with_waiterTimers with_connections].
  destruct (StrMap.get id' (approvalWaiters ap)) as [ws|] eqn:Hw.
  - cbn [approvalWaiters with_waiterTimers with_connections]. rewrite Hw.
    cbn [approvalDecisions with_approvalWaiters with_waiterTimers with_connections].
    rewrite Hd. repeat split. intros k.
    unfold waitersOf. cbn [approvalWaiters with_closeHandlers with_approvalWaiters].
    rewrite Hw. destruct (String.eqb k id') eqn:Ek.
    + apply String.eqb_eq in Ek. subst k. rewrite smap_get_set_same. reflexivity.
    + apply String.eqb_neq in Ek. rewrite !smap_get_set_other by exact Ek. reflexivity.
  - cbn [approvalWaiters with_approvalWaiters with_waiterTimers with_connections].
    rewrite smap_get_set_same.
    cbn [approvalDecisions approvalWaiters with_approvalWaiters with_waiterTimers
         with_connections].
    rewrite Hd. repeat split. intros k.
    unfold waitersOf. cbn [approvalWaiters with_closeHandlers with_approvalWaiters].
    rewrite Hw. destruct (String.eqb k id') eqn:Ek.
    + apply String.eqb_eq in Ek. subst k. rewrite smap_get_set_same. reflexivity.
    + apply String.eqb_neq in Ek. rewrite !smap_get_set_other by exact Ek. reflexivity.
Qed.

Lemma gate_response id' wait ap : GateInv ap -> GateInv (approvalResponse id' wait ap).
Proof.
  intros Hinv.
  destruct (StrMap.get id' (approvalDecisions ap)) as [d|] eqn:Hd.
  { unfold approvalResponse. cbv zeta. cbn [approvalDecisions with_connections]. rewrite Hd.
    apply gate_accept_reply, Hinv. }
  destruct (StrMap.has id' (pendingApprovals ap)) eqn:Hp.
  2:{ unfold approvalResponse. cbv zeta.
      cbn [approvalDecisions pendingApprovals with_connections]. rewrite Hd, Hp.
      apply gate_accept_reply, Hinv. }
  destruct (Z.eq_dec (waitSeconds wait) 0) as [E|E].
  { unfold approvalResponse. cbv zeta.
    cbn [approvalDecisions pendingApprovals with_connections]. rewrite Hd, Hp, E.
    apply gate_accept_reply, Hinv. }
  destruct (approvalResponse_wait id' wait ap Hd Hp E) as (Hc & Hr & Hcl & Ht & Hw & _).
  exact (gate_register id' _ ap _ Hc Hr Hcl Ht Hw Hinv).
Qed.

Lemma gate_step w req :
  GateInv (gate w) -> GateInv (gate (step sha1_hex clock config settings randomUUID w req)).
Proof.
  intros Hinv. destruct req; cbn [step gate]; try exact Hinv.
  - destruct (autoResetTimer (core w)); exact Hinv.
  - rewrite runCleanup_gate. apply gate_cleanup, Hinv.
  - apply gate_request, Hinv.
  - apply gate_response, Hinv.
  - apply gate_respond, Hinv.
  - apply gate_toggle, Hinv.
  - destruct (pendingTimer res (gate w)) as [t|] eqn:Hp; [|exact Hinv].
    cbn [gate]. apply (gate_timeout res _ t Hp), Hinv.
  - apply gate_closed, Hinv.
Qed.

(** X26. Whatever requests, timeouts and disconnections the server has
    served since it started, the approval gate has answered no long poll
    twice, every long poll it accepted is answered, closed by its client
    or still has its timeout pending, a registered waiter is an accepted
    connection that has no answer yet and waits for one request only, and
    every pending timeout belongs to the request its connection waits
    for. *)
Theorem gate_invariant db reqs :
  GateInv (gate (run sha1_hex clock config settings randomUUID (boot clock db) reqs)).
Proof.
  unfold run. induction reqs as [|req reqs IH] using rev_ind.
  - exact gate_initial.
  - rewrite fold_left_app. cbn [fold_left]. apply gate_step, IH.
Qed.

End Gate.
(** The waiters of a request get its decision. *)
Lemma resolve_answers id' d ap w :
  GateInv ap -> In w (waitersOf id' ap) ->
  Replied w (PollDecided d) (resolveApprovalWaiters id' d ap) /\
  ~ TimerPending w (resolveApprovalWaiters id' d ap).
Proof.
  intros Hinv Hw.
  destruct (resolve_spec id' d ap) as (_ & _ & Ht & (added & Hr & Hadded & _) & Hsent).
  cbv zeta in Ht, Hr, Hsent. split.
  - pose proof (proj1 (headersSent_true _ _) (Hsent w Hw)) as [r Hr0].
    unfold Replied in *. rewrite Hr in *. apply in_app_iff in Hr0 as [Hold|Hnew].
    + destruct (waiters_open _ Hinv id' w Hw) as [_ Hf].
      destruct (proj1 (headersSent_false _ _) Hf r Hold).
    + rewrite Forall_forall in Hadded.
      destruct (Hadded _ (proj2 (list_elem_of_In _ _) Hnew)) as (_ & E & _).
      cbn [snd] in E. subst r. apply in_app_iff. right. exact Hnew.
  - intros (t & Hin & Hres). apply Ht in Hin as [_ Hn]. apply Hn. rewrite Hres. exact Hw.
Qed.

(** Nobody else is written to. *)
Lemma resolve_replies id' d ap c r :
  Replied c r (resolveApprovalWaiters id' d ap) ->
  Replied c r ap \/ (In c (waitersOf id' ap) /\ r = PollDecided d).
Proof.
  destruct (resolve_spec id' d ap) as (_ & _ & _ & (added & Hr & Hadded & _) & _).
  cbv zeta in Hr. unfold Replied. rewrite Hr. intros Hin.
  apply in_app_iff in Hin as [Hold|Hnew]; [left; exact Hold|right].
  rewrite Forall_forall in Hadded.
  destruct (Hadded _ (proj2 (list_elem_of_In _ _) Hnew)) as (H1 & H2 & _). auto.
Qed.

Lemma resolve_keeps_replies id' d ap c r :
  Replied c r ap -> Replied c r (resolveApprovalWaiters id' d ap).
Proof.
  destruct (resolve_spec id' d ap) as (_ & _ & _ & (added & Hr & _) & _).
  cbv zeta in Hr. unfold Replied. rewrite Hr. intros H. apply in_app_iff. left. exact H.
Qed.

Section Respond.

Variable clock : nat -> Z.

(** X22. A decision for a pending request is accepted: the request leaves
    the pending ones, the decision is recorded with the time of the
    call, every long poll that waits for the request is answered with the
    decision and loses its timeout, nobody else is written to, and the
    other requests, decisions and waiters are as before. *)
Theorem respond_answers_waiters body rid d ap st :
  GateInv ap ->
  ApprovalRespondSchema body = Some (rid, d) ->
  StrMap.has rid (pendingApprovals ap) = true ->
  let out := eval (approvalRespond clock body ap) st in
  out.1 = RespondOk /\
  StrMap.has rid (pendingApprovals out.2) = false /\
  StrMap.get rid (approvalDecisions out.2) = Some (mkApprovalDecision d (clock (ticks st))) /\
  waitersOf rid out.2 = [] /\
  (forall w, In w (waitersOf rid ap) ->
     Replied w (PollDecided d) out.2 /\ ~ TimerPending w out.2) /\
  (forall c r, Replied c r out.2 <->
     Replied c r ap \/ (In c (waitersOf rid ap) /\ r = PollDecided d)) /\
  (forall k, k <> rid ->
     StrMap.get k (pendingApprovals out.2) = StrMap.get k (pendingApprovals ap) /\
     StrMap.get k (approvalDecisions out.2) = StrMap.get k (approvalDecisions ap) /\
     waitersOf k out.2 = waitersOf k ap).
Proof.
  intros Hinv Hbody Hpending. cbv zeta. rewrite approvalRespond_run, Hbody.
  apply smap_has_true in Hpending as [rec Hrec]. rewrite Hrec. cbn [fst snd].
  set (ap1 := with_approvalDecisions _ _).
  assert (H1 : GateInv ap1) by (apply (gate_frame ap); try reflexivity; exact Hinv).
  destruct (resolve_spec rid d ap1) as (Hsame & Hwo & _).
  cbv zeta in Hsame, Hwo. destruct Hsame as (Hp & Hd & _).
  split; [reflexivity|]. split.
  { rewrite Hp. apply smap_has_false, smap_get_delete_same. }
  split. { rewrite Hd. apply smap_get_set_same. }
  split. { rewrite Hwo, String.eqb_refl. reflexivity. }
  split. { intros w Hw. apply (resolve_answers rid d ap1 w H1 Hw). }
  split.
  { intros c r. split; [apply (resolve_replies rid d ap1)|].
    intros [Hold|[Hw ->]]; [apply resolve_keeps_replies, Hold|].
    apply (resolve_answers rid d ap1 c H1 Hw). }
  intros k Hk. rewrite Hp, Hd, Hwo.
  apply String.eqb_neq in Hk as Hk'. rewrite Hk'. repeat split.
  - apply smap_get_delete_other, Hk.
  - apply smap_get_set_other, Hk.
Qed.

End Respond.

Lemma resolve_timers id' d ap t :
  In t (waiterTimers (resolveApprovalWaiters id' d ap)) -> In t (waiterTimers ap).
Proof.
  destruct (resolve_spec id' d ap) as (_ & _ & Ht & _). cbv zeta in Ht.
  intros H. apply Ht in H. apply H.
Qed.

Section Toggle.

Variable clock : nat -> Z.

(** The loop that approves the requests [ids]. *)
Lemma approveAll_spec ids : forall ap st,
  GateInv ap ->
  let ap' := eval (approveAll clock ids ap) st in
  GateInv ap' /\
  pendingApprovals ap' = pendingApprovals ap /\
  (approvalEnabled ap' = approvalEnabled ap /\ uuidCalls ap' = uuidCalls ap) /\
  (forall k, In k ids ->
     (exists t, StrMap.get k (approvalDecisions ap') = Some (mkApprovalDecision "allow" t)) /\
     waitersOf k ap' = [] /\
     forall w, In w (waitersOf k ap) ->
       Replied w (PollDecided "allow") ap' /\ ~ TimerPending w ap') /\
  (forall k, ~ In k ids ->
     StrMap.get k (approvalDecisions ap') = StrMap.get k (approvalDecisions ap) /\
     waitersOf k ap' = waitersOf k ap) /\
  (forall c r, Replied c r ap' ->
     Replied c r ap \/
     (r = PollDecided "allow" /\ exists k, In k ids /\ In c (waitersOf k ap))) /\
  (forall c r, Replied c r ap -> Replied c r ap') /\
  (forall t, In t (waiterTimers ap') -> In t (waiterTimers ap)).
Proof.
  induction ids as [|i ids IH]; intros ap st Hinv; cbv zeta.
  - cbn [approveAll]. change (eval (ret ap) st) with ap.
    split; [exact Hinv|]. split; [reflexivity|]. split; [split; reflexivity|].
    split; [intros k []|]. split; [intros k _; split; reflexivity|].
    split; [intros c r H; left; exact H|]. split; auto.
  - cbn [approveAll]. rewrite eval_bind. cbv beta zeta.
    set (ap0 := with_approvalDecisions _ ap).
    assert (H0 : GateInv ap0) by (apply (gate_frame ap); try reflexivity; exact Hinv).
    set (ap1 := resolveApprovalWaiters i "allow" ap0).
    assert (H1 : GateInv ap1) by apply gate_resolve, H0.
    destruct (resolve_spec i "allow" ap0) as (Hsame & Hwo & _).
    cbv zeta in Hsame, Hwo. fold ap1 in Hsame, Hwo.
    destruct Hsame as (Hp & Hd & He & Hu & _).
    change (waitersOf i ap0) with (waitersOf i ap) in *.
    assert (Hwo' : forall k, waitersOf k ap1 = if String.eqb k i then [] else waitersOf k ap)
      by exact Hwo.
    destruct (IH ap1 (exec (Date_now clock) st) H1)
      as (Hinv' & Hp' & He' & Hin' & Hout' & Hnew' & Hkeep' & Htm').
    cbv zeta in Hinv', Hp', He', Hin', Hout', Hnew', Hkeep', Htm'.
    set (ap' := eval (approveAll clock ids ap1) (exec (Date_now clock) st)) in *.
    split; [exact Hinv'|]. split; [rewrite Hp', Hp; reflexivity|].
    split; [destruct He' as [He' Hu']; rewrite He', He, Hu', Hu; split; reflexivity|].
    assert (Hfirst : forall w, In w (waitersOf i ap) ->
              Replied w (PollDecided "allow") ap' /\ ~ TimerPending w ap').
    { intros w Hw. destruct (resolve_answers i "allow" ap0 w H0 Hw) as [Hr Hnt].
      fold ap1 in Hr, Hnt. split; [apply Hkeep', Hr|].
      intros (t & Hin & Hres). apply Hnt. exists t. split; [apply Htm', Hin|exact Hres]. }
    split; [|split; [|split; [|split]]].
    + intros k Hk. destruct (in_dec String.string_dec k ids) as [Hin|Hnin].
      * destruct (Hin' k Hin) as (Hdec & Hw0 & Hans). split; [exact Hdec|].
        split; [exact Hw0|]. intros w Hw.
        destruct (String.eqb k i) eqn:E.
        -- apply String.eqb_eq in E. subst k. apply Hfirst, Hw.
        -- apply Hans. rewrite Hwo', E. exact Hw.
      * destruct Hk as [<-|Hk]; [|contradiction].
        destruct (Hout' i Hnin) as (Hdec & Hw0). split; [|split].
        -- exists (eval (Date_now clock) st). rewrite Hdec, Hd. apply smap_get_set_same.
        -- rewrite Hw0, Hwo', String.eqb_refl. reflexivity.
        -- apply Hfirst.
    + intros k Hk. assert (Hne : k <> i) by (intros ->; apply Hk; left; reflexivity).
      assert (Hnin : ~ In k ids) by (intros H; apply Hk; right; exact H).
      destruct (Hout' k Hnin) as (Hdec & Hw0). apply String.eqb_neq in Hne as E.
      split; [rewrite Hdec, Hd; apply smap_get_set_other, Hne|].
      rewrite Hw0, Hwo', E. reflexivity.
    + intros c r Hr. destruct (Hnew' c r Hr) as [Hold|(-> & k & Hk & Hw)].
      * destruct (resolve_replies i "allow" ap0 c r Hold) as [Hold0|[Hw ->]];
          [left; exact Hold0|right].
        split; [reflexivity|]. exists i. split; [left; reflexivity|exact Hw].
      * right. split; [reflexivity|]. exists k. split; [right; exact Hk|].
        rewrite Hwo' in Hw. destruct (String.eqb k i); [destruct Hw|exact Hw].
    + intros c r Hr. apply Hkeep', resolve_keeps_replies, Hr.
    + intros t Ht. apply (resolve_timers i "allow" ap0), Htm', Ht.
Qed.

(** X23. Switching the gate off approves what is pending: every pending
    request gets the decision allow, all long polls that wait for one are
    answered with it and lose their timeouts, nothing is pending
    afterwards, and nothing else is decided or written. *)
Theorem toggle_off_approves_pending ap st :
  GateInv ap -> approvalEnabled ap = true ->
  let out := eval (approvalToggle clock ap) st in
  out.1 = false /\ approvalEnabled out.2 = false /\ pendingApprovals out.2 = [] /\
  (forall k, StrMap.has k (pendingApprovals ap) = true ->
     (exists t, StrMap.get k (approvalDecisions out.2) = Some (mkApprovalDecision "allow" t)) /\
     waitersOf k out.2 = [] /\
     forall w, In w (waitersOf k ap) ->
       Replied w (PollDecided "allow") out.2 /\ ~ TimerPending w out.2) /\
  (forall k, StrMap.has k (pendingApprovals ap) = false ->
     StrMap.get k (approvalDecisions out.2) = StrMap.get k (approvalDecisions ap) /\
     waitersOf k out.2 = waitersOf k ap) /\
  (forall c r, Replied c r out.2 <->
     Replied c r ap \/
     (r = PollDecided "allow" /\
      exists k, StrMap.has k (pendingApprovals ap) = true /\ In c (waitersOf k ap))).
Proof.
  intros Hinv Hon. cbv zeta. rewrite approvalToggle_run, Hon. cbn [fst snd].
  set (ap0 := with_approvalEnabled false ap).
  assert (H0 : GateInv ap0) by (apply (gate_frame ap); try reflexivity; exact Hinv).
  destruct (approveAll_spec (map fst (pendingApprovals ap)) ap0 st H0)
    as (_ & _ & (He & _) & Hin & Hout & Hnew & Hkeep & _).
  cbv zeta in He, Hin, Hout, Hnew, Hkeep.
  set (ap' := eval (approveAll clock (map fst (pendingApprovals ap)) ap0) st) in *.
  assert (Hkeys : forall k, StrMap.has k (pendingApprovals ap) = true <->
                            In k (map fst (pendingApprovals ap))).
  { intros k. destruct (StrMap.has k (pendingApprovals ap)) eqn:E.
    - split; [intros _|reflexivity].
      destruct (in_dec String.string_dec k (map fst (pendingApprovals ap))) as [H|H];
        [exact H|].
      apply smap_get_None in H. apply smap_has_false in H. congruence.
    - split; [discriminate|]. intros H. apply smap_has_false, smap_get_None in E.
      contradiction. }
  split; [reflexivity|]. split; [exact He|]. split; [reflexivity|].
  split; [|split].
  - intros k Hk. apply Hkeys in Hk. exact (Hin k Hk).
  - intros k Hk. apply Hout. intros H. apply Hkeys in H. congruence.
  - intros c r. split.
    + intros Hr. destruct (Hnew c r Hr) as [Hold|(-> & k & Hk & Hw)]; [left; exact Hold|].
      right. split; [reflexivity|]. exists k. split; [apply Hkeys, Hk|exact Hw].
    + intros [Hold|(-> & k & Hk & Hw)]; [apply Hkeep, Hold|].
      apply Hkeys in Hk. apply (Hin k Hk), Hw.
Qed.

End Toggle.

Lemma gate_run sha1_hex clock config settings randomUUID w reqs :
  GateInv (gate w) ->
  GateInv (gate (run sha1_hex clock config settings randomUUID w reqs)).
Proof.
  unfold run. revert w. induction reqs as [|req reqs IH]; intros w Hinv; [exact Hinv|].
  cbn [fold_left]. apply IH, gate_step, Hinv.
Qed.

Lemma gate_waiting_world : GateInv (gate waiting_world).
Proof. apply gate_run, gate_run, gate_initial. Qed.

(** X22, witness: a long poll waits for the pending request when its
    decision arrives. *)
Lemma respond_answers_waiters_witness :
  let out := eval (approvalRespond clock_5s (respond_body "req-0" "deny") (gate waiting_world))
               (core waiting_world) in
  waitersOf "req-0" (gate waiting_world) = [0%nat] /\
  out.1 = RespondOk /\ Replied 0 (PollDecided "deny") out.2 /\ waitersOf "req-0" out.2 = [].
Proof.
  cbv zeta. split; [vm_compute; reflexivity|].
  destruct (respond_answers_waiters clock_5s (respond_body "req-0" "deny") "req-0" "deny"
              (gate waiting_world) (core waiting_world))
    as (Hok & _ & _ & Hnone & Hw & _).
  - exact gate_waiting_world.
  - reflexivity.
  - vm_compute. reflexivity.
  - split; [exact Hok|]. split; [|exact Hnone]. apply Hw. vm_compute. left. reflexivity.
Defined.

(** X23, witness: the gate is switched off while a long poll waits for a
    pending request. *)
Lemma toggle_off_approves_pending_witness :
  let out := eval (approvalToggle clock_5s (gate waiting_world)) (core waiting_world) in
  StrMap.has "req-0" (pendingApprovals (gate waiting_world)) = true /\
  out.1 = false /\ pendingApprovals out.2 = [] /\
  Replied 0 (PollDecided "allow") out.2.
Proof.
  cbv zeta. split; [vm_compute; reflexivity|].
  destruct (toggle_off_approves_pending clock_5s (gate waiting_world) (core waiting_world))
    as (Hoff & _ & Hnone & Hin & _).
  - exact gate_waiting_world.
  - vm_compute. reflexivity.
  - split; [exact Hoff|]. split; [exact Hnone|].
    apply (Hin "req-0"); [vm_compute; reflexivity|]. vm_compute. left. reflexivity.
Defined.
Lemma filter_all_bool {A} (p : A -> bool) (l : list A) :
  (forall x, In x l -> p x = true) -> filter p l = l.
Proof.
  induction l as [|x l IH]; intros H; [reflexivity|].
  rewrite filter_cons_bool, (H x (or_introl eq_refl)). f_equal.
  apply IH. intros y Hy. apply H. right. exact Hy.
Qed.

Lemma find_app_skip {A} (p : A -> bool) (l l' : list A) :
  (forall x, In x l -> p x = false) -> find p (l ++ l') = find p l'.
Proof.
  induction l as [|x l IH]; intros H; [reflexivity|].
  cbn [app find]. rewrite (H x (or_introl eq_refl)). apply IH.
  intros y Hy. apply H. right. exact Hy.
Qed.

Lemma remove_first_snoc x l : ~ In x l -> remove_first x (l ++ [x]) = l.
Proof.
  induction l as [|y l IH]; intros H; cbn [app remove_first].
  - rewrite Nat.eqb_refl. reflexivity.
  - destruct (Nat.eqb y x) eqn:E.
    + apply Nat.eqb_eq in E. subst y. destruct H. left. reflexivity.
    + f_equal. apply IH. intros Hin. apply H. right. exact Hin.
Qed.

(** [waitSeconds] is a number of seconds from 0 to 55. *)
Lemma waitSeconds_bounds wait : 0 <= waitSeconds wait <= 55.
Proof. unfold waitSeconds. lia. Qed.

(** X24. A long poll for a pending request with a positive wait is held:
    nothing is written, the connection waits for the request and its
    timeout is set to the wait, between one and fifty-five seconds. When
    the timeout fires, the connection is told that the request is still
    pending; when the client goes away first, nothing is written. Either
    way the waiters and the timeouts are what they were before the
    poll. *)
Theorem long_poll_held_until_timeout_or_close id' wait ap :
  GateInv ap ->
  StrMap.get id' (approvalDecisions ap) = None ->
  StrMap.has id' (pendingApprovals ap) = true ->
  waitSeconds wait <> 0 ->
  let res := connections ap in
  let timer := mkWaiterTimer res id' (waitSeconds wait * 1000) in
  let held := approvalResponse id' wait ap in
  let timed_out := waiterTimeout id' res held in
  let closed := connectionClosed res held in
  (pollReplies held = pollReplies ap /\ In res (waitersOf id' held) /\
   pendingTimer res held = Some timer /\ 1000 <= wt_delay timer <= 55000) /\
  (pollReplies timed_out = (pollReplies ap ++ [(res, PollPending)])%list /\
   waiterTimers timed_out = waiterTimers ap /\
   forall k, waitersOf k timed_out = waitersOf k ap) /\
  (pollReplies closed = pollReplies ap /\
   waiterTimers closed = waiterTimers ap /\
   (forall k, waitersOf k closed = waitersOf k ap) /\
   closedConnections closed = res :: closedConnections ap).
Proof.
  intros Hinv Hd Hp Hwait. cbv zeta.
  destruct (approvalResponse_wait id' wait ap Hd Hp Hwait)
    as (Hc & Hr & Hcl & Ht & Hw & Hh & _).
  cbv zeta in Hc, Hr, Hcl, Ht, Hw, Hh.
  set (res := connections ap) in *. set (held := approvalResponse id' wait ap) in *.
  set (timer := mkWaiterTimer res id' (waitSeconds wait * 1000)) in *.
  assert (Hold : forall t, In t (waiterTimers ap) -> wt_res t <> res).
  { intros t Hin. destruct (timers_known _ Hinv t Hin) as [Hlt _]. unfold res. lia. }
  assert (Hfresh : ~ In res (waitersOf id' ap)).
  { intros Hin. destruct (waiters_open _ Hinv _ _ Hin) as [Hlt _]. unfold res in Hlt. lia. }
  assert (Hunsent : headersSent res ap = false).
  { apply headersSent_false. intros r Hin. apply (replies_known _ Hinv) in Hin.
    cbn [fst] in Hin. unfold res in Hin. lia. }
  assert (Hclear : waiterTimers (clearWaiterTimeout res held) = waiterTimers ap).
  { unfold clearWaiterTimeout. cbn [waiterTimers with_waiterTimers]. rewrite Ht, filter_app.
    rewrite filter_all_bool.
    - rewrite filter_cons_bool. cbn [timer wt_res]. rewrite Nat.eqb_refl. cbn [negb].
      rewrite filter_nil. apply app_nil_r.
    - intros t Hin. apply negb_true_iff, Nat.eqb_neq, Hold, Hin. }
  assert (Hremoved : forall a, (forall k, waitersOf k a = waitersOf k held) ->
            forall k, waitersOf k (removeWaiter id' res a) = waitersOf k ap).
  { intros a Ha k. destruct (removeWaiter_spec id' res a) as (Hrw & _). cbv zeta in Hrw.
    rewrite Hrw, !Ha, !Hw, String.eqb_refl. destruct (String.eqb k id') eqn:E; [|reflexivity].
    apply String.eqb_eq in E. subst k. apply remove_first_snoc, Hfresh. }
  split; [|split].
  - split; [exact Hr|]. split; [rewrite Hw, String.eqb_refl; apply in_app_iff; right; left;
                                reflexivity|].
    split.
    + unfold pendingTimer. rewrite Ht, find_app_skip.
      * cbn [find timer wt_res]. rewrite Nat.eqb_refl. reflexivity.
      * intros t Hin. apply Nat.eqb_neq, Hold, Hin.
    + cbn [timer wt_delay]. pose proof (waitSeconds_bounds wait). lia.
  - unfold waiterTimeout. cbv zeta.
    destruct (removeWaiter_spec id' res (clearWaiterTimeout res held))
      as (_ & Ht2 & Hr2 & _). cbv zeta in Ht2, Hr2.
    set (ap2 := removeWaiter id' res (clearWaiterTimeout res held)) in *.
    assert (Hs : headersSent res ap2 = false).
    { unfold headersSent. rewrite Hr2. change (pollReplies (clearWaiterTimeout res held))
        with (pollReplies held). rewrite Hr. exact Hunsent. }
    rewrite Hs. cbn [sendReply pollReplies waiterTimers with_pollReplies].
    split; [rewrite Hr2; change (pollReplies (clearWaiterTimeout res held))
              with (pollReplies held); rewrite Hr; reflexivity|].
    split; [rewrite Ht2; exact Hclear|].
    intros k. change (waitersOf k (with_pollReplies (pollReplies ap2 ++ [(res, PollPending)]) ap2))
      with (waitersOf k ap2). apply Hremoved. reflexivity.
  - unfold connectionClosed. rewrite Hc.
    assert (Hlt : (res <? S res)%nat = true) by (apply Nat.ltb_lt; lia). rewrite Hlt.
    assert (Hnc : existsb (Nat.eqb res) (closedConnections held) = false).
    { rewrite Hcl. destruct (existsb _ _) eqn:E; [|reflexivity].
      apply existsb_exists in E as (c & Hin & Hc0). apply Nat.eqb_eq in Hc0. subst c.
      apply (closed_known _ Hinv) in Hin. unfold res in Hin. lia. }
    rewrite Hnc. cbn [andb negb]. cbv zeta. cbn [closeHandlers with_closedConnections].
    rewrite Hh. cbn [find fst]. rewrite Nat.eqb_refl. cbn [snd].
    set (ap1 := with_closedConnections (res :: closedConnections held) held).
    unfold waiterClosed. cbv zeta.
    destruct (removeWaiter_spec id' res (clearWaiterTimeout res ap1))
      as (_ & Ht2 & Hr2 & _ & Hcl2). cbv zeta in Ht2, Hr2, Hcl2.
    split; [rewrite Hr2; exact Hr|]. split; [rewrite Ht2; exact Hclear|].
    split; [|rewrite Hcl2; cbn [clearWaiterTimeout closedConnections with_waiterTimers ap1
                                 with_closedConnections]; rewrite Hcl; reflexivity].
    apply Hremoved. reflexivity.
Qed.

Lemma gate_pending_world : GateInv (gate pending_world).
Proof. apply gate_run, gate_initial. Qed.

(** X24, witness: a poll that waits thirty seconds for the pending
    request. *)
Lemma long_poll_held_until_timeout_or_close_witness :
  let held := approvalResponse "req-0" "30" (gate pending_world) in
  pendingTimer 0 held = Some (mkWaiterTimer 0 "req-0" 30000) /\
  pollReplies (waiterTimeout "req-0" 0 held) = [(0%nat, PollPending)] /\
  pollReplies (connectionClosed 0 held) = [].
Proof.
  cbv zeta.
  destruct (long_poll_held_until_timeout_or_close "req-0" "30" (gate pending_world))
    as ((_ & _ & Htimer & _) & (Hout & _) & (Hclosed & _)).
  - exact gate_pending_world.
  - vm_compute. reflexivity.
  - vm_compute. reflexivity.
  - vm_compute. discriminate.
  - split; [exact Htimer|]. split; [exact Hout|exact Hclosed].
Defined.

(** ** The wait of a long poll *)

Lemma digits_dec_some acc s :
  JsNum.digits 10 JsNum.dec_value (Some acc) s = Some (Js.parseInt_go acc s).
Proof.
  revert acc. induction s as [|c s IH]; intros acc; [reflexivity|].
  cbn [JsNum.digits Js.parseInt_go]. unfold JsNum.dec_value.
  destruct (Js.is_digit c); [apply IH|reflexivity].
Qed.

Lemma digits_nonneg radix value :
  0 <= radix -> (forall c d, value c = Some d -> 0 <= d) ->
  forall s acc n,
    match acc with Some a => 0 <= a | None => True end ->
    JsNum.digits radix value acc s = Some n -> 0 <= n.
Proof.
  intros Hr Hv. induction s as [|c s IH]; intros acc n Hacc; cbn [JsNum.digits].
  - intros ->. exact Hacc.
  - destruct (value c) as [d|] eqn:Hc; [|intros ->; exact Hacc].
    apply IH. specialize (Hv c d Hc). destruct acc as [a|]; nia.
Qed.

Lemma dec_value_nonneg c d : JsNum.dec_value c = Some d -> 0 <= d.
Proof. unfold JsNum.dec_value. destruct (Js.is_digit c); [|discriminate]. intros [= <-]. lia. Qed.

Lemma hex_value_nonneg c d : JsNum.hex_value c = Some d -> 0 <= d.
Proof.
  unfold JsNum.hex_value.
  repeat match goal with |- context [if ?b then _ else _] => destruct b end;
    try discriminate; intros [= <-]; lia.
Qed.

(** The numeral that [parseInt] reads after the sign is hexadecimal after
    the prefix [0x] or [0X] and decimal otherwise. *)
Lemma parseInt_magnitude (s : string) :
  JsNum.magnitude s = JsNum.digits 10 JsNum.dec_value None s \/
  exists s', JsNum.magnitude s = JsNum.digits 16 JsNum.hex_value None s'.
Proof.
  destruct s as [|c s]; [left; reflexivity|].
  destruct c as [[] [] [] [] [] [] [] []]; try (left; reflexivity).
  destruct s as [|c s]; [left; reflexivity|].
  destruct c as [[] [] [] [] [] [] [] []]; try (left; reflexivity);
    right; eexists; reflexivity.
Qed.

(** The magnitude that [parseInt] reads is not negative. *)
Lemma parseInt_minus s n : JsNum.parseInt (String "-" s) = Some n -> n <= 0.
Proof.
  unfold JsNum.parseInt. cbn [JsNum.trim_start].
  change (Js.is_space "-") with false. cbv iota. cbv zeta. cbn [fst snd].
  destruct (JsNum.magnitude s) as [k|] eqn:Hk; cbn [option_map]; [|discriminate].
  intros [= <-]. enough (0 <= k) by lia.
  destruct (parseInt_magnitude s) as [Hm|[s' Hm]]; rewrite Hk in Hm; symmetry in Hm.
  - exact (digits_nonneg 10 JsNum.dec_value ltac:(lia) dec_value_nonneg _ None _ I Hm).
  - exact (digits_nonneg 16 JsNum.hex_value ltac:(lia) hex_value_nonneg _ None _ I Hm).
Qed.

Lemma digit_cases c :
  Js.is_digit c = true ->
  (c = "0" \/ c = "1" \/ c = "2" \/ c = "3" \/ c = "4" \/
   c = "5" \/ c = "6" \/ c = "7" \/ c = "8" \/ c = "9")%char.
Proof.
  destruct c as [[] [] [] [] [] [] [] []]; intros H; try discriminate H; tauto.
Qed.

(** [parseInt] without a radix reads a decimal numeral as [parseInt] with
    the radix 10 does. *)
Lemma parseInt_decimal s :
  s <> EmptyString -> Forall (fun c => Js.is_digit c = true) (list_ascii_of_string s) ->
  JsNum.parseInt s = Some (Js.parseInt s).
Proof.
  destruct s as [|c s]; [congruence|]. intros _ Hd. cbn [list_ascii_of_string] in Hd.
  apply Forall_cons in Hd as [Hc Hd].
  assert (Hdec : JsNum.digits 10 JsNum.dec_value None (String c s) =
                 Some (Js.parseInt (String c s))).
  { unfold Js.parseInt. cbn [JsNum.digits Js.parseInt_go]. unfold JsNum.dec_value.
    rewrite Hc. apply digits_dec_some. }
  assert (Hmag : JsNum.magnitude (String c s) = JsNum.digits 10 JsNum.dec_value None (String c s)).
  { destruct (digit_cases c Hc) as [->|Hc']; [|repeat destruct Hc' as [->|Hc']; try subst c;
                                                reflexivity].
    destruct s as [|c2 s]; [reflexivity|]. cbn [list_ascii_of_string] in Hd.
    apply Forall_cons in Hd as [Hc2 _].
    destruct (digit_cases c2 Hc2) as [->|Hc']; [reflexivity|].
    repeat destruct Hc' as [->|Hc']; try subst c2; reflexivity. }
  assert (Hparse : JsNum.parseInt (String c s) =
                   option_map (fun n => n) (JsNum.magnitude (String c s))).
  { destruct (digit_cases c Hc) as [->|Hc']; [reflexivity|].
    repeat destruct Hc' as [->|Hc']; try subst c; reflexivity. }
  rewrite Hparse, Hmag, Hdec. reflexivity.
Qed.

Lemma pretty_N_go_decimal x : forall s,
  s <> EmptyString -> Forall (fun c => Js.is_digit c = true) (list_ascii_of_string s) ->
  pretty_N_go x s <> EmptyString /\
  Forall (fun c => Js.is_digit c = true) (list_ascii_of_string (pretty_N_go x s)).
Proof.
  induction (N.lt_wf_0 x) as [x _ IH]. intros s Hne Hd.
  destruct (decide (x = 0%N)) as [->|Hx]; [rewrite pretty_N_go_0; auto|].
  rewrite pretty_N_go_step by lia. apply IH.
  - apply N.div_lt; lia.
  - discriminate.
  - cbn [list_ascii_of_string]. apply Forall_cons. split; [|exact Hd].
    apply pretty_N_char_digit, N.mod_lt. lia.
Qed.

Lemma parseInt_pretty_N (n : N) : JsNum.parseInt (pretty n) = Some (Z.of_N n).
Proof.
  rewrite <- parseInt_pretty. apply parseInt_decimal.
  - unfold pretty, pretty_N. destruct (decide (n = 0%N)); [discriminate|].
    rewrite pretty_N_go_step by lia. apply pretty_N_go_decimal; [discriminate|].
    cbn [list_ascii_of_string]. apply Forall_cons. split; [|constructor].
    apply pretty_N_char_digit, N.mod_lt. lia.
  - unfold pretty, pretty_N. destruct (decide (n = 0%N)).
    + cbn [list_ascii_of_string]. apply Forall_cons. split; [reflexivity|constructor].
    + rewrite pretty_N_go_step by lia. apply pretty_N_go_decimal; [discriminate|].
      cbn [list_ascii_of_string]. apply Forall_cons. split; [|constructor].
      apply pretty_N_char_digit, N.mod_lt. lia.
Qed.

(** X28. The wait of a long poll is a whole number of seconds from 0 to
    55: a decimal numeral counts for its value, capped at 55, and a
    numeral with a minus sign or a parameter that is missing counts
    for 0. *)
Theorem waitSeconds_spec :
  (forall wait, 0 <= waitSeconds wait <= 55) /\
  (forall n : N, waitSeconds (pretty n) = Z.min (Z.of_N n) 55) /\
  (forall s, waitSeconds (String "-" s) = 0) /\
  waitSeconds "undefined" = 0.
Proof.
  split; [apply waitSeconds_bounds|]. split; [|split; [|reflexivity]].
  - intros n. unfold waitSeconds. rewrite parseInt_pretty_N. lia.
  - intros s. unfold waitSeconds. destruct (JsNum.parseInt (String "-" s)) as [n|] eqn:E;
      [apply parseInt_minus in E; lia|reflexivity].
Qed.
Section ApprovalCleanup.

Variable clock : nat -> Z.
Variable config : Config.
Variable settings : Settings.

(** The loop over the pending requests [l] that have all expired. *)
Lemma expire_all_spec now l : forall ap,
  GateInv ap ->
  (forall e, In e l -> pendingApprovalCleanupMs settings < now - createdAt e.2) ->
  let ap' := fold_left (expirePending settings now) l ap in
  GateInv ap' /\
  (approvalDecisions ap' = approvalDecisions ap /\
   approvalEnabled ap' = approvalEnabled ap /\ uuidCalls ap' = uuidCalls ap) /\
  pendingApprovals ap' =
    fold_left (fun p (e : string * ApprovalRecord) => StrMap.delete e.1 p) l
      (pendingApprovals ap) /\
  (forall k, In k (map fst l) ->
     waitersOf k ap' = [] /\
     forall w, In w (waitersOf k ap) ->
       Replied w (PollDecided "allow") ap' /\ ~ TimerPending w ap') /\
  (forall k, ~ In k (map fst l) -> waitersOf k ap' = waitersOf k ap) /\
  (forall c r, Replied c r ap' ->
     Replied c r ap \/
     (r = PollDecided "allow" /\ exists k, In k (map fst l) /\ In c (waitersOf k ap))) /\
  (forall c r, Replied c r ap -> Replied c r ap') /\
  (forall t, In t (waiterTimers ap') -> In t (waiterTimers ap)).
Proof.
  induction l as [|e l IH]; intros ap Hinv Hold; cbv zeta.
  - cbn [fold_left map]. split; [exact Hinv|]. split; [repeat split|]. split; [reflexivity|].
    split; [intros k []|]. split; [reflexivity|].
    split; [intros c r H; left; exact H|]. split; auto.
  - cbn [fold_left map].
    assert (He : (pendingApprovalCleanupMs settings <? now - createdAt e.2) = true).
    { apply Z.ltb_lt, Hold. left. reflexivity. }
    set (ap0 := resolveApprovalWaiters e.1 "allow" ap).
    set (ap1 := with_pendingApprovals (StrMap.delete e.1 (pendingApprovals ap0)) ap0).
    assert (Hstep : expirePending settings now ap e = ap1).
    { unfold expirePending. rewrite He. reflexivity. }
    rewrite Hstep.
    assert (H0 : GateInv ap0) by apply gate_resolve, Hinv.
    assert (H1 : GateInv ap1) by (apply (gate_frame ap0); try reflexivity; exact H0).
    destruct (resolve_spec e.1 "allow" ap) as (Hsame & Hwo & _).
    cbv zeta in Hsame, Hwo. fold ap0 in Hsame, Hwo.
    destruct Hsame as (Hp & Hd & Hen & Hu & _).
    assert (Hwo' : forall k, waitersOf k ap1 = if String.eqb k e.1 then [] else waitersOf k ap)
      by exact Hwo.
    destruct (IH ap1 H1 (fun e' H => Hold e' (or_intror H)))
      as (Hinv' & Hd' & Hp' & Hin' & Hout' & Hnew' & Hkeep' & Htm').
    cbv zeta in Hinv', Hd', Hp', Hin', Hout', Hnew', Hkeep', Htm'.
    set (ap' := fold_left (expirePending settings now) l ap1) in *.
    split; [exact Hinv'|].
    split; [destruct Hd' as (Hd' & Hen' & Hu'); rewrite Hd', Hen', Hu'; auto|].
    split; [rewrite Hp'; cbn [ap1 pendingApprovals with_pendingApprovals]; rewrite Hp;
            reflexivity|].
    assert (Hfirst : forall w, In w (waitersOf e.1 ap) ->
              Replied w (PollDecided "allow") ap' /\ ~ TimerPending w ap').
    { intros w Hw. destruct (resolve_answers e.1 "allow" ap w Hinv Hw) as [Hr Hnt].
      fold ap0 in Hr, Hnt. split; [apply Hkeep', Hr|].
      intros (t & Hin & Hres). apply Hnt. exists t. split; [apply Htm', Hin|exact Hres]. }
    split; [|split; [|split; [|split]]].
    + intros k Hk. destruct (in_dec String.string_dec k (map fst l)) as [Hin|Hnin].
      * destruct (Hin' k Hin) as (Hw0 & Hans). split; [exact Hw0|]. intros w Hw.
        destruct (String.eqb k e.1) eqn:E.
        -- apply String.eqb_eq in E. subst k. apply Hfirst, Hw.
        -- apply Hans. rewrite Hwo', E. exact Hw.
      * destruct Hk as [<-|Hk]; [|contradiction]. split; [|apply Hfirst].
        rewrite (Hout' e.1 Hnin), Hwo', String.eqb_refl. reflexivity.
    + intros k Hk. assert (Hne : k <> e.1) by (intros ->; apply Hk; left; reflexivity).
      assert (Hnin : ~ In k (map fst l)) by (intros H; apply Hk; right; exact H).
      apply String.eqb_neq in Hne as E. rewrite (Hout' k Hnin), Hwo', E. reflexivity.
    + intros c r Hr. destruct (Hnew' c r Hr) as [Hold0|(-> & k & Hk & Hw)].
      * destruct (resolve_replies e.1 "allow" ap c r Hold0) as [Hold1|[Hw ->]];
          [left; exact Hold1|right].
        split; [reflexivity|]. exists e.1. split; [left; reflexivity|exact Hw].
      * right. split; [reflexivity|]. exists k. split; [right; exact Hk|].
        rewrite Hwo' in Hw. destruct (String.eqb k e.1); [destruct Hw|exact Hw].
    + intros c r Hr. apply Hkeep', resolve_keeps_replies, Hr.
    + intros t Ht. apply (resolve_timers e.1 "allow" ap), Htm', Ht.
Qed.

(** Requests that have not expired are passed over. *)
Lemma expire_filter now l : forall ap,
  fold_left (expirePending settings now) l ap =
  fold_left (expirePending settings now)
    (filter (fun e : string * ApprovalRecord =>
               pendingApprovalCleanupMs settings <? now - createdAt e.2) l) ap.
Proof.
  induction l as [|e l IH]; intros ap; [reflexivity|].
  rewrite filter_cons_bool. cbn [fold_left].
  destruct (pendingApprovalCleanupMs settings <? now - createdAt e.2) eqn:E.
  - cbn [fold_left]. apply IH.
  - assert (Hstep : expirePending settings now ap e = ap).
    { unfold expirePending. rewrite E. reflexivity. }
    rewrite Hstep. apply IH.
Qed.

Lemma delete_all_In {V} (l : list (string * V)) : forall (p : StrMap.t V) e,
  In e (fold_left (fun p (e : string * V) => StrMap.delete e.1 p) l p) <->
  In e p /\ ~ In e.1 (map fst l).
Proof.
  induction l as [|x l IH]; intros p e; cbn [fold_left map In]; [tauto|].
  rewrite IH, smap_delete_In. split.
  - intros [[H1 H2] H3]. split; [exact H1|]. intros [H|H]; [congruence|auto].
  - intros [H1 H2]. split; [split; [exact H1|]|]; intros H; apply H2; auto.
Qed.

(** X25. The cleanup pass drops the decisions that are older than the
    decision limit and the pending requests that are older than the
    request limit. Every long poll that waits for a dropped request is
    told that the request was allowed, and loses its timeout, although no
    decision is recorded for it; the other waiters stay and nobody else
    is written to. *)
Theorem cleanup_expires_approvals ap st :
  GateInv ap -> NoDup (map fst (pendingApprovals ap)) ->
  let now := clock (ticks st) in
  let ap' := eval (runCleanup clock config settings ap) st in
  let old_decision (e : string * ApprovalDecision) :=
    approvalDecisionCleanupMs settings < now - decidedAt e.2 in
  let old_request (e : string * ApprovalRecord) :=
    pendingApprovalCleanupMs settings < now - createdAt e.2 in
  (forall e, In e (approvalDecisions ap') <-> In e (approvalDecisions ap) /\ ~ old_decision e) /\
  (forall e, In e (pendingApprovals ap') <-> In e (pendingApprovals ap) /\ ~ old_request e) /\
  (forall e, In e (pendingApprovals ap) -> old_request e ->
     waitersOf e.1 ap' = [] /\
     forall w, In w (waitersOf e.1 ap) ->
       Replied w (PollDecided "allow") ap' /\ ~ TimerPending w ap') /\
  (forall k, (forall e, In e (pendingApprovals ap) -> e.1 = k -> ~ old_request e) ->
     waitersOf k ap' = waitersOf k ap) /\
  (forall c r, Replied c r ap' <->
     Replied c r ap \/
     (r = PollDecided "allow" /\
      exists e, In e (pendingApprovals ap) /\ old_request e /\ In c (waitersOf e.1 ap))).
Proof.
  intros Hinv Hnd. cbv zeta. rewrite runCleanup_gate. unfold cleanupApprovals. cbv zeta.
  set (now := clock (ticks st)).
  set (ap0 := with_approvalDecisions _ ap).
  change (pendingApprovals ap0) with (pendingApprovals ap).
  rewrite expire_filter.
  match goal with |- context [fold_left _ ?l ap0] => set (old := l) end.
  assert (Hold : forall e, In e old <->
            In e (pendingApprovals ap) /\ pendingApprovalCleanupMs settings < now - createdAt e.2).
  { intros e. unfold old. rewrite <- !list_elem_of_In, list_elem_of_filter.
    rewrite Is_true_true, Z.ltb_lt. tauto. }
  assert (H0 : GateInv ap0) by (apply (gate_frame ap); try reflexivity; exact Hinv).
  destruct (expire_all_spec now old ap0 H0 (fun e H => proj2 (proj1 (Hold e) H)))
    as (_ & (Hd & _) & Hp & Hin & Hout & Hnew & Hkeep & _).
  cbv zeta in Hd, Hp, Hin, Hout, Hnew, Hkeep.
  set (ap' := fold_left (expirePending settings now) old ap0) in *.
  assert (Hkeys : forall k, In k (map fst old) <->
            exists e, In e (pendingApprovals ap) /\
                      pendingApprovalCleanupMs settings < now - createdAt e.2 /\ e.1 = k).
  { intros k. rewrite in_map_iff. split.
    - intros (e & Hk & He). apply Hold in He as [H1 H2]. eauto.
    - intros (e & H1 & H2 & Hk). exists e. split; [exact Hk|]. apply Hold. auto. }
  split; [|split; [|split; [|split]]].
  - intros e. rewrite Hd. cbn [ap0 approvalDecisions with_approvalDecisions].
    rewrite <- !list_elem_of_In, list_elem_of_filter.
    rewrite Is_true_true, negb_true_iff, Z.ltb_ge. split; intros [H1 H2]; split; auto; lia.
  - intros e. rewrite Hp. change (pendingApprovals ap0) with (pendingApprovals ap).
    rewrite delete_all_In, Hkeys. split; intros [H1 H2]; (split; [exact H1|]).
    + intros Ho. apply H2. exists e. auto.
    + intros (e' & Hin' & Ho & Hk). apply H2.
      assert (e = e'); [|subst e'; exact Ho].
      destruct e as [k v], e' as [k' v']. cbn [fst] in Hk. subst k'.
      pose proof (smap_In_get k v _ Hnd H1) as G1.
      pose proof (smap_In_get k v' _ Hnd Hin') as G2. congruence.
  - intros e He Ho. apply (Hin e.1). apply Hkeys. exists e. auto.
  - intros k Hk. apply Hout. intros H. apply Hkeys in H as (e & H1 & H2 & H3).
    exact (Hk e H1 H3 H2).
  - intros c r. split.
    + intros Hr. destruct (Hnew c r Hr) as [H|(-> & k & Hk & Hw)]; [left; exact H|right].
      split; [reflexivity|]. apply Hkeys in Hk as (e & H1 & H2 & <-). exists e. auto.
    + intros [H|(-> & e & H1 & H2 & Hw)]; [apply Hkeep, H|].
      apply (Hin e.1); [apply Hkeys; exists e; auto|exact Hw].
Qed.

End ApprovalCleanup.

(** X25, witness: the cleanup pass runs ten minutes after a long poll
    started to wait for the pending request. *)
Lemma cleanup_expires_approvals_witness :
  let ap := gate waiting_world in
  let ap' := eval (runCleanup clock_10min defaultConfig defaultSettings ap) (core waiting_world) in
  waitersOf "req-0" ap = [0%nat] /\
  waitersOf "req-0" ap' = [] /\ Replied 0 (PollDecided "allow") ap'.
Proof.
  cbv zeta. split; [vm_compute; reflexivity|].
  destruct (cleanup_expires_approvals clock_10min defaultConfig defaultSettings
              (gate waiting_world) (core waiting_world))
    as (_ & _ & Hold & _).
  - exact gate_waiting_world.
  - vm_compute. apply NoDup_singleton.
  - destruct (Hold (hd ("", mkApprovalRecord "" "" [] "" 0)
                      (pendingApprovals (gate waiting_world)))) as [Hnone Hw].
    + vm_compute. left. reflexivity.
    + vm_compute. reflexivity.
    + split; [exact Hnone|]. apply Hw. vm_compute. left. reflexivity.
Defined.

Section RoundTrip.

Variable clock : nat -> Z.
Variable randomUUID : nat -> string.

(** X21. A request that arrives while the gate is on is stored under a
    fresh id with the time of the call and the id is returned; a poll
    without a wait then says that it is pending, a decision for it is
    accepted, the next poll returns that decision, and a second decision
    for it is turned down and changes nothing. *)
Theorem approval_round_trip body toolName' toolInput' sessionId' rbody rbody' d d' wait ap st :
  approvalEnabled ap = true ->
  ApprovalRequestSchema body = Some (toolName', toolInput', sessionId') ->
  let id' := randomUUID (uuidCalls ap) in
  StrMap.get id' (approvalDecisions ap) = None ->
  waitSeconds wait = 0 ->
  ApprovalRespondSchema rbody = Some (id', d) ->
  ApprovalRespondSchema rbody' = Some (id', d') ->
  let asked := approvalRequest clock randomUUID body ap st in
  let polled := approvalResponse id' wait asked.1.2 in
  let answered := approvalRespond clock rbody polled asked.2 in
  let polled_again := approvalResponse id' wait answered.1.2 in
  let answered_again := approvalRespond clock rbody' polled_again answered.2 in
  asked.1.1 = RequestPending id' /\
  StrMap.get id' (pendingApprovals asked.1.2) =
    Some (mkApprovalRecord id' toolName' toolInput' sessionId' (clock (ticks st))) /\
  Replied (connections ap) PollPending polled /\
  answered.1.1 = RespondOk /\
  Replied (S (connections ap)) (PollDecided d) polled_again /\
  answered_again.1.1 = RespondNotFound /\ answered_again.1.2 = polled_again.
Proof.
  intros Hon Hbody id' Hfresh Hwait Hr Hr'. cbv zeta.
  assert (Hrun : forall b a s, approvalRespond clock b a s =
                   (eval (approvalRespond clock b a) s, exec (approvalRespond clock b a) s)).
  { intros b a s. unfold eval, exec. destruct (approvalRespond clock b a s). reflexivity. }
  assert (Hask : (approvalRequest clock randomUUID body ap st).1 =
                 eval (approvalRequest clock randomUUID body ap) st) by reflexivity.
  rewrite Hask, approvalRequest_run, Hon, Hbody. cbn [negb fst snd]. cbv zeta. fold id'.
  set (ap1 := with_pendingApprovals _ _).
  assert (Hp1 : StrMap.get id' (pendingApprovals ap1) =
                Some (mkApprovalRecord id' toolName' toolInput' sessionId' (clock (ticks st))))
    by apply smap_get_set_same.
  assert (Hpoll : approvalResponse id' wait ap1 =
                  sendReply (connections ap) PollPending (with_connections (S (connections ap)) ap1)).
  { unfold approvalResponse. cbv zeta.
    cbn [approvalDecisions pendingApprovals with_connections ap1 with_pendingApprovals
         with_uuidCalls connections].
    rewrite Hfresh. unfold StrMap.has. rewrite smap_get_set_same. cbn [negb].
    rewrite Hwait. reflexivity. }
  rewrite Hpoll. set (ap2 := sendReply _ _ _).
  set (st1 := (approvalRequest clock randomUUID body ap st).2).
  rewrite !Hrun. cbn [fst snd]. rewrite (approvalRespond_run clock rbody ap2 st1), Hr.
  change (pendingApprovals ap2) with (pendingApprovals ap1). rewrite Hp1. cbn [fst snd].
  set (ap3 := resolveApprovalWaiters id' d _).
  destruct (resolve_spec id' d
              (with_approvalDecisions
                 (StrMap.set id' (mkApprovalDecision d (clock (ticks st1))) (approvalDecisions ap2))
                 (with_pendingApprovals (StrMap.delete id' (pendingApprovals ap1)) ap2)))
    as (Hsame & _).
  cbv zeta in Hsame. fold ap3 in Hsame. destruct Hsame as (Hp3 & Hd3 & _ & _ & Hc3 & _).
  cbn [pendingApprovals approvalDecisions with_approvalDecisions with_pendingApprovals
       connections] in Hp3, Hd3, Hc3.
  assert (Hpoll2 : approvalResponse id' wait ap3 =
                   sendReply (S (connections ap)) (PollDecided d)
                     (with_connections (S (S (connections ap))) ap3)).
  { unfold approvalResponse. cbv zeta. cbn [approvalDecisions with_connections].
    rewrite Hd3, smap_get_set_same, Hc3. reflexivity. }
  rewrite Hpoll2. set (ap4 := sendReply _ _ _).
  set (st2 := exec (approvalRespond clock rbody ap2) st1).
  rewrite (approvalRespond_run clock rbody' ap4 st2), Hr'.
  change (pendingApprovals ap4) with (pendingApprovals ap3).
  rewrite Hp3, smap_get_delete_same. cbn [fst snd].
  split; [reflexivity|]. split; [reflexivity|]. split.
  { unfold Replied, ap2. cbn [sendReply pollReplies with_pollReplies].
    apply in_app_iff. right. left. reflexivity. }
  split; [reflexivity|]. split; [|split; reflexivity].
  unfold Replied, ap4. cbn [sendReply pollReplies with_pollReplies].
  apply in_app_iff. right. left. reflexivity.
Qed.

End RoundTrip.

(** X21, witness: the first request after the gate has been switched
    on. *)
Lemma approval_round_trip_witness :
  let ap := gate (sample_run (boot clock_5s empty_db) [ApprovalToggle]) in
  let st := core (sample_run (boot clock_5s empty_db) [ApprovalToggle]) in
  let asked := approvalRequest clock_5s sample_uuid approval_body ap st in
  let polled := approvalResponse "req-0" "0" asked.1.2 in
  let answered := approvalRespond clock_5s (respond_body "req-0" "deny") polled asked.2 in
  asked.1.1 = RequestPending "req-0" /\
  Replied 0 PollPending polled /\
  Replied 1 (PollDecided "deny") (approvalResponse "req-0" "0" answered.1.2).
Proof.
  cbv zeta.
  destruct (approval_round_trip clock_5s sample_uuid approval_body "Bash" [] ""
              (respond_body "req-0" "deny") (respond_body "req-0" "allow") "deny" "allow" "0"
              (gate (sample_run (boot clock_5s empty_db) [ApprovalToggle]))
              (core (sample_run (boot clock_5s empty_db) [ApprovalToggle])))
    as (H1 & _ & H2 & _ & H3 & _); try (vm_compute; reflexivity).
  split; [exact H1|]. split; [exact H2|exact H3].
Defined.
(** ** The requests of the approval gate *)

Lemma smap_set_In {V} k (v : V) m e : In e (StrMap.set k v m) -> e = (k, v) \/ In e m.
Proof.
  induction m as [|[k' v'] m IH]; cbn [StrMap.set In].
  - intros [<-|[]]. left. reflexivity.
  - destruct (String.eqb k k'); cbn [In].
    + intros [<-|H]; [left; reflexivity|right; right; exact H].
    + intros [H|H]; [right; left; exact H|]. destruct (IH H) as [H'|H'];
        [left; exact H'|right; right; exact H'].
Qed.

Lemma smap_has_In {V} k (m : StrMap.t V) : StrMap.has k m = true <-> exists v, In (k, v) m.
Proof.
  rewrite smap_has_true. split.
  - intros [v Hv]. exists v. apply smap_get_In, Hv.
  - intros [v Hv]. destruct (StrMap.get k m) as [v'|] eqn:E; [eauto|].
    apply smap_get_None in E. destruct E. apply in_map_iff. exists (k, v). auto.
Qed.

Lemma smap_has_set {V} k k' (v : V) m :
  StrMap.has k (StrMap.set k' v m) = true <-> k = k' \/ StrMap.has k m = true.
Proof.
  unfold StrMap.has. destruct (String.eqb k k') eqn:E.
  - apply String.eqb_eq in E. subst k'. rewrite smap_get_set_same. tauto.
  - apply String.eqb_neq in E. rewrite smap_get_set_other by exact E.
    split; [auto|]. intros [H|H]; [contradiction|exact H].
Qed.

Lemma smap_has_delete {V} k k' (m : StrMap.t V) :
  StrMap.has k (StrMap.delete k' m) = true <-> k <> k' /\ StrMap.has k m = true.
Proof.
  unfold StrMap.has. destruct (String.eqb k k') eqn:E.
  - apply String.eqb_eq in E. subst k'. rewrite smap_get_delete_same.
    split; [discriminate|]. intros [H _]. destruct H. reflexivity.
  - apply String.eqb_neq in E. rewrite smap_get_delete_other by exact E. tauto.
Qed.

Lemma delete_all_NoDup {V} (l : list (string * V)) : forall p : StrMap.t V,
  NoDup (map fst p) ->
  NoDup (map fst (fold_left (fun p (e : string * V) => StrMap.delete e.1 p) l p)).
Proof.
  induction l as [|x l IH]; intros p Hnd; [exact Hnd|].
  cbn [fold_left]. apply IH, smap_delete_NoDup, Hnd.
Qed.

Lemma removeWaiter_requests id' w ap :
  SameRequests ap (removeWaiter id' w ap).
Proof.
  unfold removeWaiter. destruct (StrMap.get id' (approvalWaiters ap)); [|repeat split].
  cbv zeta. destruct (_ =? _)%nat; repeat split.
Qed.

Section Ledger.

Variable clock : nat -> Z.
Variable config : Config.
Variable settings : Settings.
Variable randomUUID : nat -> string.

(** The requests stay and no waiter is added. *)
Lemma ledger_frame ap ap' :
  pendingApprovals ap' = pendingApprovals ap ->
  approvalDecisions ap' = approvalDecisions ap ->
  approvalEnabled ap' = approvalEnabled ap ->
  uuidCalls ap' = uuidCalls ap ->
  (forall k w, In w (waitersOf k ap') ->
     In w (waitersOf k ap) \/ StrMap.has k (pendingApprovals ap) = true) ->
  LedgerInv randomUUID ap -> LedgerInv randomUUID ap'.
Proof.
  intros Hp Hd He Hu Hw [L1 L2 L3 L4 L5 L6].
  constructor; rewrite ?Hp, ?Hd, ?He, ?Hu; try assumption.
  intros k w Hin. destruct (Hw k w Hin) as [H|H]; [exact (L6 k w H)|exact H].
Qed.

Lemma ledger_request body ap st :
  LedgerInv randomUUID ap ->
  LedgerInv randomUUID (eval (approvalRequest clock randomUUID body ap) st).2.
Proof.
  intros Hinv. rewrite approvalRequest_run.
  destruct (approvalEnabled ap) eqn:Hon; cbn [negb]; [|exact Hinv].
  destruct (ApprovalRequestSchema body) as [[[tn ti] sid]|]; [|exact Hinv].
  cbv zeta. cbn [snd]. destruct Hinv as [L1 L2 L3 L4 L5 L6].
  constructor; cbn [pendingApprovals approvalDecisions approvalEnabled uuidCalls
                    with_pendingApprovals with_uuidCalls].
  - apply smap_set_NoDup, L1.
  - intros k r Hin. apply smap_set_In in Hin as [[= -> ->]|Hin]; [reflexivity|].
    exact (L2 k r Hin).
  - intros k Hk. apply smap_has_set in Hk as [->|Hk].
    + exists (uuidCalls ap). split; [lia|reflexivity].
    + destruct (L3 k Hk) as (i & Hi & ->). exists i. split; [lia|reflexivity].
  - intros k Hk. destruct (L4 k Hk) as (i & Hi & ->). exists i. split; [lia|reflexivity].
  - rewrite Hon. discriminate.
  - intros k w Hin. apply smap_has_set. right. exact (L6 k w Hin).
Qed.

Lemma ledger_response id' wait ap :
  LedgerInv randomUUID ap -> LedgerInv randomUUID (approvalResponse id' wait ap).
Proof.
  intros Hinv.
  destruct (StrMap.get id' (approvalDecisions ap)) as [d|] eqn:Hd.
  { unfold approvalResponse. cbv zeta. cbn [approvalDecisions with_connections]. rewrite Hd.
    apply (ledger_frame ap); try reflexivity; [|exact Hinv]. intros k w H. left. exact H. }
  destruct (StrMap.has id' (pendingApprovals ap)) eqn:Hp.
  2:{ unfold approvalResponse. cbv zeta.
      cbn [approvalDecisions pendingApprovals with_connections]. rewrite Hd, Hp.
      apply (ledger_frame ap); try reflexivity; [|exact Hinv]. intros k w H. left. exact H. }
  destruct (Z.eq_dec (waitSeconds wait) 0) as [E|E].
  { unfold approvalResponse. cbv zeta.
    cbn [approvalDecisions pendingApprovals with_connections]. rewrite Hd, Hp, E.
    apply (ledger_frame ap); try reflexivity; [|exact Hinv]. intros k w H. left. exact H. }
  destruct (approvalResponse_wait id' wait ap Hd Hp E)
    as (_ & _ & _ & _ & Hw & _ & Hp' & Hd' & He' & Hu').
  apply (ledger_frame ap); try assumption.
  intros k w. rewrite Hw. destruct (String.eqb k id') eqn:Ek; [|auto].
  apply String.eqb_eq in Ek. subst k. auto.
Qed.

Lemma ledger_respond body ap st :
  LedgerInv randomUUID ap ->
  LedgerInv randomUUID (eval (approvalRespond clock body ap) st).2.
Proof.
  intros Hinv. rewrite approvalRespond_run.
  destruct (ApprovalRespondSchema body) as [[rid d]|]; [|exact Hinv].
  destruct (StrMap.get rid (pendingApprovals ap)) as [rec|] eqn:Hrec; [|exact Hinv].
  cbn [snd]. set (ap1 := with_approvalDecisions _ _).
  destruct (resolve_spec rid d ap1) as ((Hp & Hd & He & Hu & _) & Hw & _).
  cbv zeta in Hw. destruct Hinv as [L1 L2 L3 L4 L5 L6].
  constructor; rewrite ?Hp, ?Hd, ?He, ?Hu;
    cbn [ap1 pendingApprovals approvalDecisions approvalEnabled uuidCalls
         with_pendingApprovals with_approvalDecisions].
  - apply smap_delete_NoDup, L1.
  - intros k r Hin. apply smap_delete_In in Hin as [Hin _]. exact (L2 k r Hin).
  - intros k Hk. apply smap_has_delete in Hk as [_ Hk]. exact (L3 k Hk).
  - intros k Hk. apply smap_has_set in Hk as [->|Hk]; [|exact (L4 k Hk)].
    apply L3, smap_has_true. eauto.
  - intros Hoff. rewrite (L5 Hoff). reflexivity.
  - intros k w. rewrite Hw. destruct (String.eqb k rid) eqn:E; [intros []|].
    apply String.eqb_neq in E. intros Hin. apply smap_has_delete. split; [exact E|].
    exact (L6 k w Hin).
Qed.

Lemma ledger_toggle ap st :
  GateInv ap -> LedgerInv randomUUID ap ->
  LedgerInv randomUUID (eval (approvalToggle clock ap) st).2.
Proof.
  intros Hgate Hinv. rewrite approvalToggle_run. destruct (approvalEnabled ap) eqn:Hon; cbn [snd].
  - set (ap0 := with_approvalEnabled false ap).
    assert (H0 : GateInv ap0) by (apply (gate_frame ap); try reflexivity; exact Hgate).
    destruct (approveAll_spec clock (map fst (pendingApprovals ap)) ap0 st H0)
      as (_ & _ & (_ & Hu) & Hin & Hout & _).
    cbv zeta in Hu, Hin, Hout.
    set (ap' := eval (approveAll clock (map fst (pendingApprovals ap)) ap0) st) in *.
    destruct Hinv as [L1 L2 L3 L4 L5 L6].
    constructor; cbn [pendingApprovals approvalDecisions approvalEnabled uuidCalls
                      with_pendingApprovals map].
    + constructor.
    + intros k r [].
    + intros k Hk. discriminate Hk.
    + intros k Hk. rewrite Hu. change (uuidCalls ap0) with (uuidCalls ap).
      destruct (in_dec String.string_dec k (map fst (pendingApprovals ap))) as [Hi|Hi].
      * apply L3. apply in_map_iff in Hi as ([k' v] & Hk' & Hi). cbn [fst] in Hk'. subst k'.
        apply smap_has_In. eauto.
      * apply L4. unfold StrMap.has in *. destruct (Hout k Hi) as [Hd _].
        rewrite Hd in Hk. exact Hk.
    + reflexivity.
    + intros k w Hw. exfalso.
      change (waitersOf k (with_pendingApprovals [] ap')) with (waitersOf k ap') in Hw.
      destruct (in_dec String.string_dec k (map fst (pendingApprovals ap))) as [Hi|Hi].
      * destruct (Hin k Hi) as (_ & Hnone & _). rewrite Hnone in Hw. destruct Hw.
      * destruct (Hout k Hi) as [_ Hsame]. rewrite Hsame in Hw.
        change (waitersOf k ap0) with (waitersOf k ap) in Hw.
        apply L6, smap_has_In in Hw as [v Hv]. apply Hi, in_map_iff. exists (k, v). auto.
  - destruct Hinv as [L1 L2 L3 L4 L5 L6].
    constructor; cbn [pendingApprovals approvalDecisions approvalEnabled uuidCalls
                      with_approvalEnabled]; try assumption.
    discriminate.
Qed.

Lemma ledger_cleanup now ap :
  GateInv ap -> LedgerInv randomUUID ap ->
  LedgerInv randomUUID (cleanupApprovals settings now ap).
Proof.
  intros Hgate Hinv. unfold cleanupApprovals. cbv zeta.
  set (ap0 := with_approvalDecisions _ ap).
  change (pendingApprovals ap0) with (pendingApprovals ap).
  rewrite expire_filter.
  match goal with |- context [fold_left _ ?l ap0] => set (old := l) end.
  assert (Hold : forall e, In e old -> pendingApprovalCleanupMs settings < now - createdAt e.2).
  { intros e. unfold old. rewrite <- !list_elem_of_In, list_elem_of_filter.
    rewrite Is_true_true, Z.ltb_lt. tauto. }
  assert (H0 : GateInv ap0) by (apply (gate_frame ap); try reflexivity; exact Hgate).
  destruct (expire_all_spec settings now old ap0 H0 Hold)
    as (_ & (Hd & He & Hu) & Hp & Hin & Hout & _).
  cbv zeta in Hd, He, Hu, Hp, Hin, Hout.
  set (ap' := fold_left (expirePending settings now) old ap0) in *.
  change (pendingApprovals ap0) with (pendingApprovals ap) in Hp.
  destruct Hinv as [L1 L2 L3 L4 L5 L6].
  assert (Hsub : forall k, StrMap.has k (pendingApprovals ap') = true ->
                           StrMap.has k (pendingApprovals ap) = true).
  { intros k Hk. apply smap_has_In in Hk as [v Hv]. rewrite Hp in Hv.
    apply delete_all_In in Hv as [Hv _]. apply smap_has_In. eauto. }
  constructor; rewrite ?Hd, ?He, ?Hu;
    cbn [ap0 approvalDecisions approvalEnabled uuidCalls with_approvalDecisions].
  - rewrite Hp. apply delete_all_NoDup, L1.
  - intros k r Hi. rewrite Hp in Hi. apply delete_all_In in Hi as [Hi _]. exact (L2 k r Hi).
  - intros k Hk. exact (L3 k (Hsub k Hk)).
  - intros k Hk. apply L4. apply smap_has_In in Hk as [v Hv]. apply smap_has_In. exists v.
    apply list_elem_of_In, list_elem_of_filter in Hv as [_ Hv]. apply list_elem_of_In, Hv.
  - intros Hoff.
    assert (Hall : forall e, ~ In e (pendingApprovals ap')).
    { intros e Hi. rewrite Hp in Hi. apply delete_all_In in Hi as [Hi _].
      rewrite (L5 Hoff) in Hi. destruct Hi. }
    destruct (pendingApprovals ap') as [|e p]; [reflexivity|].
    destruct (Hall e). left. reflexivity.
  - intros k w Hw.
    destruct (in_dec String.string_dec k (map fst old)) as [Hi|Hi].
    + destruct (Hin k Hi) as (Hnone & _). rewrite Hnone in Hw. destruct Hw.
    + rewrite (Hout k Hi) in Hw. change (waitersOf k ap0) with (waitersOf k ap) in Hw.
      apply L6, smap_has_In in Hw as [v Hv]. apply smap_has_In. exists v.
      rewrite Hp. apply delete_all_In. split; [exact Hv|exact Hi].
Qed.

Lemma ledger_timeout id' res ap :
  LedgerInv randomUUID ap -> LedgerInv randomUUID (waiterTimeout id' res ap).
Proof.
  intros Hinv. unfold waiterTimeout. cbv zeta.
  destruct (removeWaiter_spec id' res (clearWaiterTimeout res ap)) as (Hw & _).
  destruct (removeWaiter_requests id' res (clearWaiterTimeout res ap))
    as (Hp & Hd & He & Hu & _).
  cbv zeta in Hw. set (ap2 := removeWaiter id' res (clearWaiterTimeout res ap)) in *.
  assert (H2 : LedgerInv randomUUID ap2).
  { apply (ledger_frame ap); try assumption. intros k w. rewrite Hw.
    change (waitersOf id' (clearWaiterTimeout res ap)) with (waitersOf id' ap).
    change (waitersOf k (clearWaiterTimeout res ap)) with (waitersOf k ap).
    destruct (String.eqb k id') eqn:E; [|auto]. apply String.eqb_eq in E. subst k.
    intros H. left. apply (remove_first_In res), H. }
  destruct (headersSent res ap2); [exact H2|].
  apply (ledger_frame ap2); try reflexivity; [|exact H2]. intros k w H. left. exact H.
Qed.

Lemma ledger_closed res ap :
  LedgerInv randomUUID ap -> LedgerInv randomUUID (connectionClosed res ap).
Proof.
  intros Hinv. unfold connectionClosed. destruct (_ && _); [|exact Hinv]. cbv zeta.
  set (ap1 := with_closedConnections (res :: closedConnections ap) ap).
  assert (H1 : LedgerInv randomUUID ap1).
  { apply (ledger_frame ap); try reflexivity; [|exact Hinv]. intros k w H. left. exact H. }
  destruct (find _ (closeHandlers ap1)) as [h|]; [|exact H1].
  unfold waiterClosed. cbv zeta.
  destruct (removeWaiter_spec h.2 res (clearWaiterTimeout res ap1)) as (Hw & _).
  destruct (removeWaiter_requests h.2 res (clearWaiterTimeout res ap1))
    as (Hp & Hd & He & Hu & _).
  cbv zeta in Hw. apply (ledger_frame ap1); try assumption. intros k w. rewrite Hw.
  change (waitersOf h.2 (clearWaiterTimeout res ap1)) with (waitersOf h.2 ap1).
  change (waitersOf k (clearWaiterTimeout res ap1)) with (waitersOf k ap1).
  destruct (String.eqb k h.2) eqn:E; [|auto]. apply String.eqb_eq in E. subst k.
  intros H. left. apply (remove_first_In res), H.
Qed.


Lemma ledger_initial : LedgerInv randomUUID initialApprovals.
Proof.
  constructor; cbn [initialApprovals pendingApprovals approvalDecisions map].
  - constructor.
  - intros k r [].
  - intros k Hk. discriminate Hk.
  - intros k Hk. discriminate Hk.
  - reflexivity.
  - intros k w [].
Qed.

Lemma ledger_step sha1_hex w req :
  GateInv (gate w) -> LedgerInv randomUUID (gate w) ->
  LedgerInv randomUUID (gate (step sha1_hex clock config settings randomUUID w req)).
Proof.
  intros Hgate Hinv. destruct req; cbn [step gate]; try exact Hinv.
  - destruct (autoResetTimer (core w)); exact Hinv.
  - rewrite runCleanup_gate. apply ledger_cleanup; assumption.
  - apply ledger_request, Hinv.
  - apply ledger_response, Hinv.
  - apply ledger_respond, Hinv.
  - apply ledger_toggle; assumption.
  - destruct (pendingTimer res (gate w)) as [t|]; [|exact Hinv].
    cbn [gate]. apply ledger_timeout, Hinv.
  - apply ledger_closed, Hinv.
Qed.

(** X27. Whatever the server has served since it started: no request is
    pending twice, a pending request is stored under its own id, the ids
    of the pending requests and of the decisions are ids that the gate
    issued, nothing is pending while the gate is off, and long polls wait
    for pending requests only. *)
Theorem ledger_invariant sha1_hex db reqs :
  LedgerInv randomUUID
    (gate (run sha1_hex clock config settings randomUUID (boot clock db) reqs)).
Proof.
  enough (H : GateInv (gate (run sha1_hex clock config settings randomUUID
                               (boot clock db) reqs)) /\
              LedgerInv randomUUID
                (gate (run sha1_hex clock config settings randomUUID (boot clock db) reqs)))
    by apply H.
  unfold run. induction reqs as [|req reqs [IHg IHl]] using rev_ind.
  - split; [exact gate_initial|exact ledger_initial].
  - rewrite fold_left_app. cbn [fold_left]. split.
    + apply gate_step, IHg.
    + apply ledger_step; assumption.
Qed.

(** *** Requests and decisions *)

Lemma undecided_frame ap ap' :
  pendingApprovals ap' = pendingApprovals ap ->
  approvalDecisions ap' = approvalDecisions ap ->
  Undecided ap -> Undecided ap'.
Proof. intros Hp Hd H k. rewrite Hp, Hd. apply H. Qed.

Lemma approvalResponse_requests id' wait ap :
  pendingApprovals (approvalResponse id' wait ap) = pendingApprovals ap /\
  approvalDecisions (approvalResponse id' wait ap) = approvalDecisions ap.
Proof.
  destruct (StrMap.get id' (approvalDecisions ap)) as [d|] eqn:Hd.
  { unfold approvalResponse. cbv zeta. cbn [approvalDecisions with_connections]. rewrite Hd.
    split; reflexivity. }
  destruct (StrMap.has id' (pendingApprovals ap)) eqn:Hp.
  2:{ unfold approvalResponse. cbv zeta.
      cbn [approvalDecisions pendingApprovals with_connections]. rewrite Hd, Hp.
      split; reflexivity. }
  destruct (Z.eq_dec (waitSeconds wait) 0) as [E|E].
  { unfold approvalResponse. cbv zeta.
    cbn [approvalDecisions pendingApprovals with_connections]. rewrite Hd, Hp, E.
    split; reflexivity. }
  destruct (approvalResponse_wait id' wait ap Hd Hp E)
    as (_ & _ & _ & _ & _ & _ & Hp' & Hd' & _).
  split; assumption.
Qed.

Lemma waiterTimeout_requests id' res ap :
  pendingApprovals (waiterTimeout id' res ap) = pendingApprovals ap /\
  approvalDecisions (waiterTimeout id' res ap) = approvalDecisions ap.
Proof.
  unfold waiterTimeout. cbv zeta.
  destruct (removeWaiter_requests id' res (clearWaiterTimeout res ap)) as (Hp & Hd & _).
  destruct (headersSent res _); split; assumption.
Qed.

Lemma connectionClosed_requests res ap :
  pendingApprovals (connectionClosed res ap) = pendingApprovals ap /\
  approvalDecisions (connectionClosed res ap) = approvalDecisions ap.
Proof.
  unfold connectionClosed. destruct (_ && _); [|split; reflexivity]. cbv zeta.
  destruct (find _ _) as [h|]; [|split; reflexivity].
  unfold waiterClosed. cbv zeta.
  match goal with |- context [removeWaiter ?i ?r ?a] =>
    destruct (removeWaiter_requests i r a) as (Hp & Hd & _) end.
  split; assumption.
Qed.

Hypothesis uuid_unique : forall i j, randomUUID i = randomUUID j -> i = j.

Lemma undecided_step sha1_hex w req :
  GateInv (gate w) -> LedgerInv randomUUID (gate w) -> Undecided (gate w) ->
  Undecided (gate (step sha1_hex clock config settings randomUUID w req)).
Proof.
  intros Hgate Hinv Hun. destruct req; cbn [step gate]; try exact Hun.
  - destruct (autoResetTimer (core w)); exact Hun.
  - rewrite runCleanup_gate. unfold cleanupApprovals. cbv zeta.
    set (ap0 := with_approvalDecisions _ (gate w)).
    change (pendingApprovals ap0) with (pendingApprovals (gate w)).
    rewrite expire_filter.
    match goal with |- context [fold_left _ ?l ap0] => set (old := l) end.
    assert (Hold : forall e, In e old ->
              pendingApprovalCleanupMs settings < clock (ticks (core w)) - createdAt e.2).
    { intros e. unfold old. rewrite <- !list_elem_of_In, list_elem_of_filter.
      rewrite Is_true_true, Z.ltb_lt. tauto. }
    assert (H0 : GateInv ap0) by (apply (gate_frame (gate w)); try reflexivity; exact Hgate).
    destruct (expire_all_spec settings _ old ap0 H0 Hold) as (_ & (Hd & _) & Hp & _).
    cbv zeta in Hd, Hp. intros k Hk. rewrite Hd.
    apply smap_has_In in Hk as [v Hv]. rewrite Hp in Hv. apply delete_all_In in Hv as [Hv _].
    assert (Hk : StrMap.has k (pendingApprovals (gate w)) = true)
      by (apply smap_has_In; eauto).
    apply Hun in Hk. apply smap_get_None in Hk. apply smap_get_None. intros Hi. apply Hk.
    apply in_map_iff in Hi as (e & He & Hi). apply in_map_iff. exists e. split; [exact He|].
    cbn [ap0 approvalDecisions with_approvalDecisions] in Hi.
    apply list_elem_of_In, list_elem_of_filter in Hi as [_ Hi]. apply list_elem_of_In, Hi.
  - rewrite approvalRequest_run. destruct (negb (approvalEnabled (gate w))); [exact Hun|].
    destruct (ApprovalRequestSchema body) as [[[tn ti] sid]|]; [|exact Hun].
    cbv zeta. cbn [snd]. intros k Hk.
    cbn [pendingApprovals approvalDecisions with_pendingApprovals with_uuidCalls] in *.
    apply smap_has_set in Hk as [->|Hk]; [|exact (Hun k Hk)].
    destruct (StrMap.get _ (approvalDecisions (gate w))) as [d|] eqn:Hd; [|reflexivity].
    exfalso. destruct (decided_issued _ _ Hinv (randomUUID (uuidCalls (gate w))))
      as (i & Hi & Heq); [apply smap_has_true; eauto|].
    apply uuid_unique in Heq. lia.
  - destruct (approvalResponse_requests id' wait (gate w)) as [Hp Hd].
    exact (undecided_frame _ _ Hp Hd Hun).
  - rewrite approvalRespond_run.
    destruct (ApprovalRespondSchema body) as [[rid d]|]; [|exact Hun].
    destruct (StrMap.get rid (pendingApprovals (gate w))); [|exact Hun].
    cbn [snd]. set (ap1 := with_approvalDecisions _ _).
    destruct (resolve_spec rid d ap1) as ((Hp & Hd & _) & _).
    intros k. rewrite Hp, Hd.
    cbn [ap1 pendingApprovals approvalDecisions with_pendingApprovals with_approvalDecisions].
    intros Hk. apply smap_has_delete in Hk as [Hne Hk].
    rewrite smap_get_set_other by exact Hne. exact (Hun k Hk).
  - rewrite approvalToggle_run. destruct (approvalEnabled (gate w)); cbn [snd].
    + intros k Hk. discriminate Hk.
    + exact Hun.
  - destruct (pendingTimer res (gate w)) as [t|]; [|exact Hun]. cbn [gate].
    destruct (waiterTimeout_requests (wt_id t) res (gate w)) as [Hp Hd].
    exact (undecided_frame _ _ Hp Hd Hun).
  - destruct (connectionClosed_requests res (gate w)) as [Hp Hd].
    exact (undecided_frame _ _ Hp Hd Hun).
Qed.

(** X29. When the source of the request ids never repeats an id, no
    request is pending and decided at the same time, whatever the server
    has served since it started. *)
Theorem pending_never_decided sha1_hex db reqs k :
  let ap := gate (run sha1_hex clock config settings randomUUID (boot clock db) reqs) in
  StrMap.has k (pendingApprovals ap) = true -> StrMap.get k (approvalDecisions ap) = None.
Proof.
  cbv zeta.
  enough (H : GateInv (gate (run sha1_hex clock config settings randomUUID
                               (boot clock db) reqs)) /\
              LedgerInv randomUUID
                (gate (run sha1_hex clock config settings randomUUID (boot clock db) reqs)) /\
              Undecided
                (gate (run sha1_hex clock config settings randomUUID (boot clock db) reqs)))
    by apply H.
  clear k. unfold run. induction reqs as [|req reqs (IHg & IHl & IHu)] using rev_ind.
  - split; [exact gate_initial|]. split; [exact ledger_initial|]. intros k Hk. discriminate Hk.
  - rewrite fold_left_app. cbn [fold_left]. split; [|split].
    + apply gate_step, IHg.
    + apply ledger_step; assumption.
    + apply undecided_step; assumption.
Qed.

End Ledger.

Lemma sample_uuid_unique i j : sample_uuid i = sample_uuid j -> i = j.
Proof.
  unfold sample_uuid. intros H. cbn in H. injection H as H. apply (inj pretty), H.
Qed.

(** X29, witness: the ids of the sample runs, with a request pending. *)
Lemma pending_never_decided_witness :
  StrMap.has "req-0" (pendingApprovals (gate waiting_world)) = true /\
  StrMap.get "req-0" (approvalDecisions (gate waiting_world)) = None.
Proof.
  split; [vm_compute; reflexivity|].
  apply (pending_never_decided clock_5s defaultConfig defaultSettings sample_uuid
           sample_uuid_unique toy_digest empty_db
           [ApprovalToggle; ApprovalRequest approval_body; ApprovalResponse "req-0" "30"]
           "req-0").
  vm_compute. reflexivity.
Defined.
